(* ===== verification/_CoqProject ===== *)
-Q . S2P
Prelude.v
PyFloat.v
PyValue.v
Timing.v
PyText.v
Esi.v
Json.v
Sha256.v
Provenance.v
Metadata.v
Codec.v
ObjectDictionary.v
Profile.v
Bridge.v
StateMachine.v
Servo.v
ServoProps.v
ServoMotion.v
ServoHoming.v
ServoTarget.v
Fault.v
Adapter.v
Axis.v
AxisProps.v
Contract.v
Fmi.v
Copley.v
Store.v
StoreProps.v
Config.v
ConfigProps.v
Migrate.v
Server.v
Wire.v
TimingLog.v
Fleet.v
TimedServer.v
Catalog.v
CatalogProps.v
Description.v
Fixture.v
FixtureProps.v
FixtureAxis.v
Service.v
ServiceProps.v
ServiceTiming.v
WireProps.v
Process.v
Supervisor.v
SupervisorProps.v
