(* ===== verification/Prelude.v ===== *)
(** * A verification development for the EtherCAT device simulator

    The program simulates CiA 402 drives on an EtherCAT bus.  Its Python part
    computes: a model process holds one drive per axis of a configuration
    and answers requests over a socket; a C++ process owns the network
    interface, exchanges the process data of the bus with the model process,
    one request per cycle, and passes SDO accesses on; a supervisor starts
    and stops the two in a container.  This library models the Python part.

    ** The parts and their files

    Paths are relative to src/src/functional_model unless they start with
    src/.  A file <X>Props.v holds the theorems about the definitions of
    <X>.v; where there is none, <X>.v holds both.

    The language.  Prelude.v: record update, the error type [exn] and
    [outcome], the state and error monad [M S A], [try_except], dictionaries in
    insertion order, the classes [Preserves], [Reader], [Moves] that follow a
    property through a program.  PyFloat.v: Python's float as binary64, with
    round-half-even.  PyValue.v: the operators on dynamic values.  PyText.v:
    [str], [repr] and hexadecimal.  Json.v: the JSON values, [loads] and
    [dumps], with the two hooks of configuration.py.  Sha256.v: the digest of
    [hashlib], and with it Provenance.v (runtime/provenance.py).

    The object dictionary.  Metadata.v (profile/metadata.py, pdo.py), Codec.v
    (codec.py), ObjectDictionary.v (object_dictionary.py and
    behaviour_model/f_kr_cmmt/od_role_index.py), Profile.v (profile.py,
    configured_od.py), Bridge.v (bridge.py): typed objects under an index and
    a subindex, roles that name them, the PDO layouts, and the access by SDO
    and by PDO payload.

    The drive.  StateMachine.v (state_machine.py) and Servo.v
    (servo_model.py); ServoProps.v, ServoMotion.v, ServoHoming.v and
    ServoTarget.v hold the theorems by subject.

    The axis.  Adapter.v (adapter/contract.py, f_kr_cmmt.py, registry.py): the
    class [DriveAdapter] is the protocol between an axis and a drive, with its
    laws [DriveAdapterLaws]; the built-in drive is an instance, and so is
    the adapter of an FMU, Copley.v (copley.py) on the runner of Fmi.v
    (runtime/fmi/runner.py), which knows the FMU through the class [Fmu].
    Fault.v (diagnostics/fault.py) is the guard of an axis; Axis.v
    (runtime/axis.py and the save command of
    src/device_descriptions/cmmt_as/description.py) dispatches the requests
    through the guard, for every adapter; Contract.v is about what it
    describes.

    The process.  Server.v (ipc/server.py) reads requests and writes answers,
    and Wire.v gives both their JSON; Fleet.v (runtime/fleet.py) owns the axes
    and their storage; Store.v (storage/parameter_store.py) and Migrate.v
    (storage/migrate.py) keep the parameters in files; Config.v
    (configuration.py) says which axes there are; Timing.v
    (diagnostics/python_timing.py) sums up time samples, which the branches of
    TimedServer.v take; Service.v (runtime/service.py) puts them together, and
    ServiceTiming.v compares the process with and without timing and Process.v
    follows it to its client.  TimingLog.v
    (src/scripts/linux/summarize-python-timing.py) reads the printed reports.

    The device files.  Esi.v: element trees; Catalog.v and Fixture.v
    (src/device_descriptions/cmmt_as/catalog.py and fixture.py) read and write
    ESI files; Description.v (the constructor of description.py beside them)
    makes the profile of a device from its ESI file.  FixtureAxis.v generates
    the file of a constructed axis.

    The container.  Supervisor.v (src/docker/service.py).

    ** How code becomes definitions

    A method that changes an object is a program in [M S A] on the record of
    its attributes: it returns a value or raises, and what was assigned
    before an exception stays assigned.  A function without state answers in
    [outcome].  A component that holds another one runs its programs through
    a lens ([zoom], [on_od], [on_adapter], [on_axis]).  Integers are unbounded
    as in Python, and cut to their width where the code packs them.  What
    the operating system answers is an argument that is a function of a
    number the state counts: clocks, system calls that may fail, processes
    that may exit.  A theorem for all such functions is one for every run.

    ** What the theorems show

    The drive: it is enabled only through the sequence of the standard, and its
    control word refines the state machine of CiA 402 but for the deviations
    that the theorem names ([process_refines_standard]); it stands still unless
    it is enabled, moves stay on their side of the target, the ramp between
    its ends, a jog at a software limit gets no faster outward, homing takes
    the number of cycles it computes, and the status word tells the
    attributes bit by bit.

    The dictionary: the index by role answers as the scan; payloads and values
    round trip; a device reset restores the values of the constructor.

    The axis: every cycle follows the recovery table of Fault.v ([admits],
    [completed], [failed]); a faulted axis gets no motion command, a latched one
    is frozen, and recovery takes its five steps in order; cycles, gaps and
    errors have the answers they should have; the contract it describes is typed and never
    changes.

    The storage: a crash logic over the journal of all directories that a
    crash can leave ([crash_triple]) shows that saving and the migration
    program never lose a snapshot; loading is all or nothing and restores what
    was saved when the values are finite and fit the fresh model.  A runner of
    an FMU that failed makes no further call on it but the one that frees it.

    The composition: an axis of a fleet behaves as it would alone on the requests
    that name it, as long as the others do not save; a client that writes its
    requests as lines of JSON reads one line for every reply, in order, and
    finds the reply in it ([process_conversation] of Process.v); no snapshot is written before
    all were read; a service that started leaves a storage from which the next
    start loads every axis, and it gives the storage back however it ends;
    timing changes nothing but the samples, and the summary of a log counts
    each of them once.

    The files: accepted configurations are sound, and the sound ones whose paths
    are resolved are accepted as they are; the
    catalog of every ESI file is consistent; every constructed axis has a
    generated file, and its catalog describes the contract.

    The container: the bus process starts behind all checks, outlives the
    model process, nothing is left behind, and a stop signal ends every run.

    ** Fuel

    [STEP_FUEL] of Copley.v, 64 turns: a step of 0.1 s is done within 53 of
    them, and more fuel changes nothing ([step_loop_terminates]).  [serve]: one
    turn more than the stream has bytes.  JSON: the reader has twice the length
    of the text, and Json.v shows that this is never too little.  The loops of
    the supervisor may run for ever; with a stop signal at the k-th
    observation k + 1 turns are enough ([stop_signal_ends_supervisor]).

    ** What is not modelled

    Texts that only tell a reader something: the detail texts and the random
    ids of diagnostics and the messages of aborts are arguments of Wire.v; the
    texts of exceptions and the events that are printed are left out.

    Other people's code: the XML parser and writer (the models work on element
    trees), the file names that [mkstemp] chooses, the resolution of symbolic
    links, the loading of an FMU and the FMU itself; these are arguments, and
    so is the digest where nothing but its being a function matters.  [argparse]
    gives the arguments of a program as a record.

    Details of Python: the recursion limit and the limit on the digits of
    integers; white space and digits beyond ASCII; NaN payloads; signals
    and interrupts other than the stop signal of the supervisor; [10.0 ** n]
    is taken as correctly rounded.

    Whole parts: roles.json, extensions.json, identity.json and pdo.json are
    read as the tables of Profile.v, Description.v and Metadata.v; the other
    scripts measure, build and check from outside; the C++ part is another
    language. *)

From stdpp Require Export base list strings gmap.
From Stdlib Require Export ZArith Lia.

Open Scope Z_scope.

(** ** Record update

    Python mutates attributes of one object; the models pass the object as a
    record and write [s <| field := v |>] for the assignment [s.field = v].
    A record supports the notation once it has an [Eta] instance, its own
    eta-expansion. *)

Class Eta (R : Type) := eta : R → R.

Class Field {R T : Type} (p : R → T) := upd : (T → T) → R → R.
Arguments upd {R T} p {_} f x : assert.

Ltac solve_field :=
  lazymatch goal with
  | |- @Field ?R ?T ?p =>
      let f := fresh "f" in
      let x := fresh "x" in
      intros f x;
      let inst := constr:(ltac:(typeclasses eauto) : Eta R) in
      let inst := eval hnf in inst in
      let body := eval cbv beta in (inst x) in
      let body := eval pattern (p x) in body in
      lazymatch body with
      | ?F (p x) => let t := eval cbv beta in (F (f (p x))) in exact t
      end
  end.

#[export] Hint Extern 1 (Field _) => solve_field : typeclass_instances.

Declare Scope sim_scope.
Delimit Scope sim_scope with sim.
Notation "x <| p := v |>" := (upd p (λ _, v) x)
  (at level 1, left associativity, format "x  <| p  :=  v |>") : sim_scope.
Open Scope sim_scope.

(** ** Exceptions

    The exception classes the program raises or catches, by class; the
    message text is not modelled.  [is_key_error] and [is_value_error] are
    the [isinstance] tests of the [except] clauses: a rejected device access
    is a [ValueError] and a missing object is a [KeyError]
    (src/functional_model/cia402_drive/adapter/errors.py). *)

Inductive exn :=
  | DeviceRejectedException
  | SdoObjectNotFoundException
  | KeyError
  | ValueError
  | TypeError
  | AttributeError
  | IndexError
  | OverflowError
  | ZeroDivisionError
  | StructError
  | RuntimeError
  | UnboundLocalError
  | OSError
  | TimeoutExpired.

#[export] Instance exn_eq_dec : EqDecision exn.
Proof. solve_decision. Defined.

Definition is_key_error (e : exn) : bool :=
  match e with KeyError | SdoObjectNotFoundException => true | _ => false end.

Definition is_value_error (e : exn) : bool :=
  match e with ValueError | DeviceRejectedException => true | _ => false end.

Inductive outcome (A : Type) :=
  | Ret (a : A)
  | Raise (e : exn).
Arguments Ret {A} a.
Arguments Raise {A} e.

Definition is_ret {A} (r : outcome A) : bool :=
  match r with Ret _ => true | Raise _ => false end.

#[export] Instance outcome_ret : MRet outcome := λ A a, Ret a.
#[export] Instance outcome_bind : MBind outcome := λ A B f r,
  match r with Ret a => f a | Raise e => Raise e end.

#[export] Instance outcome_fmap : FMap outcome := λ A B f r,
  match r with Ret a => Ret (f a) | Raise e => Raise e end.

(** ** The state and exception monad

    A statement of a Python method on an object of state [S].  The state
    survives an exception: what the method assigned before raising stays. *)

Definition M (S A : Type) : Type := S → outcome A * S.

#[export] Instance M_ret {S} : MRet (M S) := λ A a s, (Ret a, s).
#[export] Instance M_bind {S} : MBind (M S) := λ A B k m s,
  match m s with
  | (Ret a, s') => k a s'
  | (Raise e, s') => (Raise e, s')
  end.

Definition raise {S A} (e : exn) : M S A := λ s, (Raise e, s).
Definition gets {S A} (f : S → A) : M S A := λ s, (Ret (f s), s).
Definition modify {S} (f : S → S) : M S () := λ s, (Ret tt, f s).
Definition lift {S A} (r : outcome A) : M S A := λ s, (r, s).
Definition when {S} (b : bool) (m : M S ()) : M S () :=
  if b then m else mret tt.

(** The attribute assignment [self.p = v]. *)
Notation "p <~ v" := (modify (λ s, s <| p := v |>)) (at level 65, v at level 64) : sim_scope.

(** [try_except m h] is [try: m] followed by one handler per exception. *)
Definition try_except {S A} (m : M S A) (h : exn → M S A) : M S A := λ s,
  match m s with
  | (Ret a, s') => (Ret a, s')
  | (Raise e, s') => h e s'
  end.

(** Run a method of a component that is one attribute of the state. *)
Definition zoom {S T A} (get : S → T) (put : T → S → S) (m : M T A) : M S A :=
  λ s, let '(r, t) := m (get s) in (r, put t s).

Definition run_ok {S A} (m : M S A) (s : S) : Prop := is_ret (m s).1 = true.

Lemma ran_ok {S} (m : M S ()) s : (m s).1 = Ret tt → m s = (Ret tt, (m s).2).
Proof. intros <-. apply surjective_pairing. Qed.

Lemma ran_ret {S A} (m : M S A) s a : (m s).1 = Ret a → m s = (Ret a, (m s).2).
Proof. intros <-. apply surjective_pairing. Qed.

Lemma is_ret_eq {A} (r : outcome A) (d : A) :
  is_ret r = true → r = Ret match r with Ret a => a | Raise _ => d end.
Proof. by destruct r. Qed.

Fixpoint mapM_ {S A} (f : A → M S ()) (l : list A) : M S () :=
  match l with
  | [] => mret tt
  | x :: l => f x ;; mapM_ f l
  end.

Fixpoint traverse {A B} (f : A → outcome B) (l : list A) : outcome (list B) :=
  match l with
  | [] => mret []
  | x :: l => y ← f x; ys ← traverse f l; mret (y :: ys)
  end.

(** ** Reasoning about the monad *)

Section monad_laws.
Context {S A B : Type}.
Implicit Types (m : M S A) (k : A → M S B) (s : S).

Lemma bind_ret_l (a : A) k s : (mret a ≫= k) s = k a s.
Proof. reflexivity. Qed.

Lemma bind_gets (f : S → A) k s : (gets f ≫= k) s = k (f s) s.
Proof. reflexivity. Qed.

Lemma lift_bind (r : outcome A) k s :
  (lift r ≫= k) s = match r with Ret a => k a s | Raise e => (Raise e, s) end.
Proof. by destruct r. Qed.

Lemma bind_raise e k s : (raise e ≫= k) s = (Raise e, s).
Proof. reflexivity. Qed.

Lemma bind_eq_ret m k s a s1 : m s = (Ret a, s1) → (m ≫= k) s = k a s1.
Proof. intros H. unfold mbind, M_bind. by rewrite H. Qed.

Lemma bind_eq_raise m k s e s1 :
  m s = (Raise e, s1) → (m ≫= k) s = (Raise e, s1).
Proof. intros H. unfold mbind, M_bind. by rewrite H. Qed.

Lemma bind_Ret_inv m k s b s' :
  (m ≫= k) s = (Ret b, s') →
  ∃ a s1, m s = (Ret a, s1) ∧ k a s1 = (Ret b, s').
Proof.
  unfold mbind, M_bind. destruct (m s) as [[a|e] s1] eqn:E; naive_solver.
Qed.

Lemma bind_Raise_inv m k s e s' :
  (m ≫= k) s = (Raise e, s') →
  m s = (Raise e, s') ∨ ∃ a s1, m s = (Ret a, s1) ∧ k a s1 = (Raise e, s').
Proof.
  unfold mbind, M_bind. destruct (m s) as [[a|e'] s1] eqn:E; naive_solver.
Qed.

Lemma bind_assoc {C} m k (h : B → M S C) s :
  ((m ≫= k) ≫= h) s = (m ≫= (λ a, k a ≫= h)) s.
Proof. unfold mbind, M_bind. by destruct (m s) as [[a|e] s1]. Qed.

Lemma bind_ext m k k' s : (∀ a s, k a s = k' a s) → (m ≫= k) s = (m ≫= k') s.
Proof. intros E. unfold mbind, M_bind. destruct (m s) as [[a|e] s1]; [apply E|done]. Qed.
End monad_laws.

(** [Preserves f m]: whatever the outcome of [m], the observation [f] of the
    state is the same before and after.  The instances follow the structure
    of a method body, so a frame property of a long method is found by
    typeclass resolution. *)

Class Preserves {S A T : Type} (f : S → T) (m : M S A) : Prop :=
  preserves : ∀ s, f (m s).2 = f s.
#[export] Hint Mode Preserves ! ! ! ! ! : typeclass_instances.

Section preserves.
Context {S A B T : Type} (f : S → T).

#[export] Instance preserves_mret (a : A) : Preserves f (mret (M:=M S) a).
Proof. by intros s. Qed.

#[export] Instance preserves_raise e : Preserves f (raise (S:=S) (A:=A) e).
Proof. by intros s. Qed.

#[export] Instance preserves_gets (g : S → A) : Preserves f (gets g).
Proof. by intros s. Qed.

#[export] Instance preserves_lift (r : outcome A) : Preserves f (lift r).
Proof. by intros s. Qed.

#[export] Instance preserves_bind (m : M S A) (k : A → M S B) :
  Preserves f m → (∀ a, Preserves f (k a)) → Preserves f (m ≫= k).
Proof.
  intros Hm Hk s. unfold mbind, M_bind.
  specialize (Hm s). destruct (m s) as [[a|e] s1]; simpl in *; [|done].
  by rewrite Hk.
Qed.

#[export] Instance preserves_if (b : bool) (m1 m2 : M S A) :
  Preserves f m1 → Preserves f m2 → Preserves f (if b then m1 else m2).
Proof. by destruct b. Qed.

#[export] Instance preserves_when (b : bool) (m : M S ()) :
  Preserves f m → Preserves f (when b m).
Proof. intros Hm. by destruct b. Qed.

#[export] Instance preserves_try (m : M S A) (h : exn → M S A) :
  Preserves f m → (∀ e, Preserves f (h e)) → Preserves f (try_except m h).
Proof.
  intros Hm Hh s. unfold try_except.
  specialize (Hm s). destruct (m s) as [[a|e] s1]; simpl in *; [done|].
  by rewrite Hh.
Qed.

#[export] Instance preserves_mapM_ {C} (g : C → M S ()) (l : list C) :
  (∀ c, Preserves f (g c)) → Preserves f (mapM_ g l).
Proof.
  intros Hg. induction l as [|c l IH]; simpl; [by intros s|].
  intros s. unfold mbind, M_bind.
  specialize (Hg c s). destruct (g c s) as [[a|e] s1]; simpl in *; [|done].
  by rewrite IH.
Qed.

Lemma preserves_modify (g : S → S) :
  (∀ s, f (g s) = f s) → Preserves f (modify g).
Proof. done. Qed.

Lemma preserves_zoom {R} (get : S → R) (put : R → S → S) (m : M R A) :
  (∀ r s, f (put r s) = f s) → Preserves f (zoom get put m).
Proof.
  intros Hp s. unfold zoom. destruct (m (get s)) as [r t]. apply Hp.
Qed.

Lemma preserves_eq (m : M S A) `{!Preserves f m} s r s' :
  m s = (r, s') → f s' = f s.
Proof. intros E. generalize (preserves (f:=f) (m:=m) s). by rewrite E. Qed.
End preserves.

#[export] Hint Extern 1 (Preserves _ (modify _)) =>
  apply preserves_modify; intros; reflexivity : typeclass_instances.
#[export] Hint Extern 1 (Preserves _ (zoom _ _ _)) =>
  apply preserves_zoom; intros; reflexivity : typeclass_instances.

(** Follow the structure of a method body down to calls with an instance. *)
Ltac frame := repeat lazymatch goal with
  | |- Preserves _ (_ ≫= _) => apply preserves_bind; [|intros ?]
  | |- Preserves _ (try_except _ _) => apply preserves_try; [|intros ?]
  | |- Preserves _ (mapM_ _ _) => apply preserves_mapM_; intros ?
  | |- Preserves _ (let _ := _ in _) => cbv zeta
  | |- Preserves _ (if ?b then _ else _) => destruct b
  | |- Preserves _ (match ?b with _ => _ end) => destruct b
  | |- Preserves _ (when _ _) => apply preserves_when
  | |- Preserves _ _ => solve [apply _ | eauto]
  end.

(** [Reader m]: [m] does not change the state at all. *)
Class Reader {S A : Type} (m : M S A) : Prop := reader : ∀ s, (m s).2 = s.

Section readers.
Context {S A B : Type}.

#[export] Instance reader_mret (a : A) : Reader (mret (M:=M S) a).
Proof. by intros s. Qed.
#[export] Instance reader_raise e : Reader (raise (S:=S) (A:=A) e).
Proof. by intros s. Qed.
#[export] Instance reader_gets (g : S → A) : Reader (gets g).
Proof. by intros s. Qed.
#[export] Instance reader_lift (r : outcome A) : Reader (lift (S:=S) r).
Proof. by intros s. Qed.
#[export] Instance reader_bind (m : M S A) (k : A → M S B) :
  Reader m → (∀ a, Reader (k a)) → Reader (m ≫= k).
Proof.
  intros Hm Hk s. unfold mbind, M_bind.
  specialize (Hm s). destruct (m s) as [[a|e] s1]; simpl in *; subst; [apply Hk|done].
Qed.
#[export] Instance reader_if (b : bool) (m1 m2 : M S A) :
  Reader m1 → Reader m2 → Reader (if b then m1 else m2).
Proof. by destruct b. Qed.
#[export] Instance reader_try (m : M S A) (h : exn → M S A) :
  Reader m → (∀ e, Reader (h e)) → Reader (try_except m h).
Proof.
  intros Hm Hh s. unfold try_except.
  specialize (Hm s). destruct (m s) as [[a|e] s1]; simpl in *; subst; [done|apply Hh].
Qed.

Lemma reader_run (m : M S A) `{!Reader m} s : m s = ((m s).1, s).
Proof. rewrite <-(reader (m:=m) s) at 3. apply surjective_pairing. Qed.

(** Run a reader at the head of a body. *)
Lemma bind_eq_out (m : M S A) `{!Reader m} (k : A → M S B) s :
  (m ≫= k) s = match (m s).1 with Ret a => k a s | Raise e => (Raise e, s) end.
Proof. unfold mbind, M_bind. rewrite reader_run by done. by destruct (m s).1. Qed.

#[export] Instance reader_preserves {T} (f : S → T) (m : M S A) :
  Reader m → Preserves f m | 20.
Proof. intros Hm s. by rewrite Hm. Qed.
End readers.

(** [Inv P m]: [m] keeps the invariant [P], whatever its outcome. *)
Class Inv {S A : Type} (P : S → Prop) (m : M S A) : Prop :=
  inv_keeps : ∀ s, P s → P (m s).2.

Section invariants.
Context {S A B : Type} (P : S → Prop).

#[export] Instance inv_reader (m : M S A) : Reader m → Inv P m | 20.
Proof. intros Hm s. by rewrite Hm. Qed.

Lemma inv_preserves {T} (f : S → T) (Q : T → Prop) (m : M S A) :
  (∀ s, P s ↔ Q (f s)) → Preserves f m → Inv P m.
Proof. intros HPQ Hf s Hs. apply HPQ in Hs. apply HPQ. by rewrite (Hf s). Qed.

#[export] Instance inv_mret (a : A) : Inv P (mret (M:=M S) a).
Proof. by intros s. Qed.
#[export] Instance inv_raise e : Inv P (raise (S:=S) (A:=A) e).
Proof. by intros s. Qed.
#[export] Instance inv_gets (g : S → A) : Inv P (gets g).
Proof. by intros s. Qed.
#[export] Instance inv_lift (r : outcome A) : Inv P (lift r).
Proof. by intros s. Qed.

#[export] Instance inv_bind (m : M S A) (k : A → M S B) :
  Inv P m → (∀ a, Inv P (k a)) → Inv P (m ≫= k).
Proof.
  intros Hm Hk s Hs. unfold mbind, M_bind.
  specialize (Hm s Hs). destruct (m s) as [[a|e] s1]; simpl in *; [|done].
  by apply Hk.
Qed.

#[export] Instance inv_if (b : bool) (m1 m2 : M S A) :
  Inv P m1 → Inv P m2 → Inv P (if b then m1 else m2).
Proof. intros H1 H2. destruct b; assumption. Qed.

#[export] Instance inv_when (b : bool) (m : M S ()) :
  Inv P m → Inv P (when b m).
Proof. intros Hm. destruct b; [exact Hm|intros s Hs; exact Hs]. Qed.

#[export] Instance inv_try (m : M S A) (h : exn → M S A) :
  Inv P m → (∀ e, Inv P (h e)) → Inv P (try_except m h).
Proof.
  intros Hm Hh s Hs. unfold try_except.
  specialize (Hm s Hs). destruct (m s) as [[a|e] s1]; simpl in *; [done|].
  by apply Hh.
Qed.
End invariants.

#[export] Instance inv_mapM_ {S C} (P : S → Prop) (g : C → M S ()) (l : list C) :
  (∀ c, Inv P (g c)) → Inv P (mapM_ g l).
Proof.
  intros Hg. induction l as [|c l IH]; simpl; [by intros s|].
  apply inv_bind; [apply Hg|intros _; exact IH].
Qed.

(** [Moves R m]: whatever its outcome, [m] moves the state along the
    preorder [R]. *)
Class Moves {S A : Type} (R : S → S → Prop) (m : M S A) : Prop :=
  moves : ∀ s, R s (m s).2.

Section moves.
Context {S A B : Type} (R : S → S → Prop) `{!PreOrder R}.

#[export] Instance moves_reader (m : M S A) : Reader m → Moves R m | 20.
Proof. intros Hm s. by rewrite Hm. Qed.

Lemma moves_bind (m : M S A) (k : A → M S B) :
  Moves R m → (∀ a, Moves R (k a)) → Moves R (m ≫= k).
Proof.
  intros Hm Hk s. unfold mbind, M_bind. specialize (Hm s).
  destruct (m s) as [[a|e] s1]; [|exact Hm]. etrans; [exact Hm|apply Hk].
Qed.

Lemma moves_when (b : bool) (m : M S ()) : Moves R m → Moves R (when b m).
Proof. intros Hm. destruct b; [exact Hm|intros s; apply reflexivity]. Qed.

Lemma moves_try (m : M S A) (h : exn → M S A) :
  Moves R m → (∀ e, Moves R (h e)) → Moves R (try_except m h).
Proof.
  intros Hm Hh s. unfold try_except. specialize (Hm s).
  destruct (m s) as [[a|e] s1]; [exact Hm|]. etrans; [exact Hm|apply Hh].
Qed.

Lemma moves_modify (g : S → S) : (∀ s, R s (g s)) → Moves R (modify g).
Proof. done. Qed.

Lemma moves_mapM_ {C} (g : C → M S ()) (l : list C) :
  (∀ c, Moves R (g c)) → Moves R (mapM_ g l).
Proof.
  intros Hg. induction l as [|c l IH]; simpl; [intros s; apply reflexivity|].
  intros s. unfold mbind, M_bind. specialize (Hg c s). destruct (g c s) as [[a|e] s1]; [|exact Hg].
  etrans; [exact Hg|apply IH].
Qed.
End moves.

(** As [frame], for [Moves]. *)
Ltac walk := repeat lazymatch goal with
  | |- Moves _ (_ ≫= _) => apply moves_bind; [apply _| |intros ?]
  | |- Moves _ (try_except _ _) => apply moves_try; [apply _| |intros ?]
  | |- Moves _ (mapM_ _ _) => apply moves_mapM_; [apply _|intros ?]
  | |- Moves _ (let _ := _ in _) => cbv zeta
  | |- Moves _ (if ?b then _ else _) => destruct b
  | |- Moves _ (match ?b with _ => _ end) => destruct b
  | |- Moves _ (when _ _) => apply moves_when; [apply _|]
  | |- Moves _ (modify _) => apply moves_modify; intros ?
  | |- Moves _ _ => solve [apply _ | eauto]
  end.

(** Decompose a hypothesis that a method body returned. *)
Ltac minv H :=
  lazymatch type of H with
  | (_ ≫= _) _ = (Ret _, _) =>
      let a := fresh "a" in
      let s := fresh "s" in
      let H1 := fresh "H" in
      apply bind_Ret_inv in H as (a & s & H1 & H); minv H1; minv H
  | (mret _) _ = (Ret _, _) => unfold mret, M_ret in H; simplify_eq
  | (gets _) _ = (Ret _, _) => unfold gets in H; simplify_eq
  | (modify _) _ = (Ret _, _) => unfold modify in H; simplify_eq
  | (raise _) _ = (Ret _, _) => discriminate H
  | (lift _) _ = (Ret _, _) => unfold lift in H; simplify_eq
  | _ => idtac
  end.

(** ** Bit masks

    A mask below [2 ^ n] sees only the low [n] bits, so a claim about masked
    words is decided by enumerating the residues. *)

Lemma land_mod_pow2 a m n : 0 ≤ n → 0 ≤ m < 2 ^ n → Z.land a m = Z.land (a mod 2 ^ n) m.
Proof.
  intros Hn Hm. apply Z.bits_inj'. intros i Hi. rewrite !Z.land_spec.
  destruct (Z.lt_ge_cases i n) as [Hlt|Hge].
  - by rewrite Z.mod_pow2_bits_low.
  - rewrite <-(Z.mod_small m (2 ^ n)), (Z.mod_pow2_bits_high m) by lia.
    by rewrite !andb_false_r.
Qed.

Lemma testbit_mod_pow2 a i n : i < n → Z.testbit a i = Z.testbit (a mod 2 ^ n) i.
Proof. intros. by rewrite Z.mod_pow2_bits_low. Qed.

Lemma forall_residues (n : Z) (P : Z → bool) :
  forallb P (seqZ 0 n) = true → ∀ z, 0 ≤ z < n → P z = true.
Proof.
  intros H z Hz. rewrite forallb_forall in H. apply H.
  apply list_elem_of_In, elem_of_seqZ. lia.
Qed.

(** [a | (1 << i)] only sets bit [i]. *)
Lemma testbit_lor_pow2 a i j :
  0 ≤ i → 0 ≤ j → Z.testbit (Z.lor a (2 ^ i)) j = Z.testbit a j || (i =? j).
Proof. intros. rewrite Z.lor_spec, Z.pow2_bits_eqb by lia. done. Qed.

(** Packing disjoint bit fields is addition. *)
Lemma lor_shiftl_add a b n : 0 ≤ n → 0 ≤ b < 2 ^ n → Z.lor (Z.shiftl a n) b = a * 2 ^ n + b.
Proof.
  intros Hn Hb.
  assert (Z.land (Z.shiftl a n) b = 0) as H0.
  { apply Z.bits_inj'. intros i Hi. rewrite Z.land_spec, Z.bits_0.
    destruct (Z.lt_ge_cases i n).
    - by rewrite Z.shiftl_spec_low.
    - rewrite <-(Z.mod_small b (2 ^ n)), Z.mod_pow2_bits_high by lia. apply andb_false_r. }
  rewrite <-Z.lxor_lor, <-Z.add_nocarry_lxor by done. by rewrite Z.shiftl_mul_pow2.
Qed.

Lemma outcome_bind_inv {A B} (m : outcome A) (k : A → outcome B) b :
  (m ≫= k) = Ret b → ∃ a, m = Ret a ∧ k a = Ret b.
Proof. destruct m; simpl; [eauto|done]. Qed.

Lemma traverse_Forall2 {A B} (f : A → outcome B) l l' :
  Forall2 (λ a b, f a = Ret b) l l' → traverse f l = Ret l'.
Proof. induction 1 as [|a b l l' E _ IH]; [done|]. simpl. by rewrite E; simpl; rewrite IH. Qed.

Lemma traverse_inv {A B} (f : A → outcome B) l l' :
  traverse f l = Ret l' → Forall2 (λ a b, f a = Ret b) l l'.
Proof.
  revert l'. induction l as [|a l IH]; intros l' E; [injection E as <-; constructor|].
  cbn [traverse] in E. apply outcome_bind_inv in E as (b & Hb & E).
  apply outcome_bind_inv in E as (l1 & Hl & [= <-]). constructor; auto.
Qed.

(** A loop over elements that may raise. *)
Fixpoint fold_outcome {A B} (f : B → A → outcome B) (b : B) (l : list A) : outcome B :=
  match l with
  | [] => mret b
  | a :: l => b ← f b a; fold_outcome f b l
  end.

Lemma fold_outcome_inv {A B} (P : B → Prop) (f : B → A → outcome B) l b b' :
  (∀ b a b', P b → f b a = Ret b' → P b') → P b → fold_outcome f b l = Ret b' → P b'.
Proof.
  intros Hf. revert b. induction l as [|a l IH]; intros b Hb E; [by injection E as <-|].
  cbn [fold_outcome] in E. apply outcome_bind_inv in E as (b1 & H1 & E). eauto.
Qed.

Lemma fold_outcome_app {A B} (f : B → A → outcome B) b l l' :
  fold_outcome f b (l ++ l') = b ← fold_outcome f b l; fold_outcome f b l'.
Proof.
  revert b. induction l as [|a l IH]; intros b; [done|]. cbn [app fold_outcome].
  destruct (f b a); [apply IH|done].
Qed.

(** ** Insertion-ordered dicts

    A Python dict whose iteration order is observable: an assignment to a
    present key keeps its place, a new key goes to the end. *)

Section dict.
Context {K V : Type} `{EqDecision K}.
Implicit Types (d : list (K * V)) (k : K) (v : V).

Fixpoint dict_get k d : option V :=
  match d with
  | [] => None
  | (k', v) :: d => if decide (k = k') then Some v else dict_get k d
  end.

Fixpoint dict_set k v d : list (K * V) :=
  match d with
  | [] => [(k, v)]
  | (k', v') :: d => if decide (k = k') then (k', v) :: d else (k', v') :: dict_set k v d
  end.

Lemma dict_get_set k v d k' :
  dict_get k' (dict_set k v d) = if decide (k' = k) then Some v else dict_get k' d.
Proof.
  induction d as [|[k0 v0] d IH]; simpl; [done|].
  destruct (decide (k = k0)) as [->|Hne]; simpl.
  - by destruct (decide (k' = k0)).
  - rewrite IH. destruct (decide (k' = k0)) as [->|]; [|done].
    by rewrite decide_False by congruence.
Qed.

Lemma dict_set_keys k v d :
  NoDup d.*1 → NoDup (dict_set k v d).*1.
Proof.
  assert (∀ d x, x ∈ (dict_set k v d).*1 → x = k ∨ x ∈ d.*1) as Hin.
  { intros d0 x. induction d0 as [|[k0 v0] d0 IH]; simpl; [set_solver|].
    destruct (decide (k = k0)); set_solver. }
  induction d as [|[k0 v0] d IH]; simpl; intros Hd; [repeat constructor; set_solver|].
  apply NoDup_cons in Hd as [H1 H2].
  destruct (decide (k = k0)) as [->|Hne]; simpl; constructor; auto.
  intros Hx. apply Hin in Hx. set_solver.
Qed.

Lemma dict_get_none k d :
  k ∉ d.*1 → dict_get k d = None.
Proof.
  induction d as [|[k' v] d IH]; cbn; [done|]. intros Hk. apply not_elem_of_cons in Hk as [Hk Hd].
  rewrite decide_False by done. by apply IH.
Qed.

Lemma dict_set_new k v d :
  k ∉ d.*1 → dict_set k v d = d ++ [(k, v)].
Proof.
  induction d as [|[k' v'] d IH]; cbn; [done|]. intros Hk. apply not_elem_of_cons in Hk as [Hk Hd].
  rewrite decide_False by done. by rewrite IH.
Qed.

Lemma dict_get_in k v d :
  NoDup d.*1 → (k, v) ∈ d → dict_get k d = Some v.
Proof.
  induction d as [|[k' v'] d IH]; intros Hd Hin; [by apply not_elem_of_nil in Hin|].
  cbn in Hd |- *. apply NoDup_cons in Hd as [H1 H2]. apply elem_of_cons in Hin as [[= <- <-]|Hin].
  - by rewrite decide_True.
  - rewrite decide_False; [by apply IH|]. intros ->. apply H1.
    apply (list_elem_of_fmap_2 fst) in Hin. exact Hin.
Qed.

Lemma dict_get_elem k v d : dict_get k d = Some v → (k, v) ∈ d.
Proof.
  induction d as [|[k' v'] d IH]; cbn; [done|]. case_decide as E.
  - intros [= ->]. subst k'. by constructor.
  - intros Hv. constructor. by apply IH.
Qed.

Lemma dict_get_known k d : k ∈ d.*1 → is_Some (dict_get k d).
Proof.
  induction d as [|[k' v'] d IH]; cbn; [by intros ?%not_elem_of_nil|].
  case_decide; [by eexists|]. intros [?|?]%elem_of_cons; [done|by apply IH].
Qed.
End dict.

Lemma forallb_mp {A} (p : A → bool) (R Q : A → Prop) l :
  Forall (λ x, R x → Q x) l → forallb p l = true → (∀ x, p x = true → R x) → Forall Q l.
Proof.
  intros Hl Hp HR. induction Hl as [|x l Hx _ IH]; [done|].
  cbn in Hp. apply andb_true_iff in Hp as [? ?]. constructor; auto.
Qed.

(** A transitive relation between the states before and after each turn of a
    loop relates the states before and after the loop. *)
Lemma mapM_rel {S C} (R : S → S → Prop) `{!Reflexive R, !Transitive R} (f : C → M S ()) l s :
  (∀ c s, R s (f c s).2) → R s (mapM_ f l s).2.
Proof.
  intros Hf. revert s. induction l as [|c l IH]; intros s; simpl; [done|].
  unfold mbind, M_bind. specialize (Hf c s). destruct (f c s) as [[a|e] s1]; [|done].
  etrans; [exact Hf|]. apply IH.
Qed.

(** ** Subsequences

    [occurs_in Ps l]: elements that satisfy the predicates [Ps] occur in [l],
    in this order. *)

Inductive occurs_in {A} : list (A → Prop) → list A → Prop :=
  | occurs_in_nil l : occurs_in [] l
  | occurs_in_here P Ps x l : P x → occurs_in Ps l → occurs_in (P :: Ps) (x :: l)
  | occurs_in_later P Ps x l : occurs_in (P :: Ps) l → occurs_in (P :: Ps) (x :: l).

#[export] Hint Constructors occurs_in : core.

Lemma occurs_in_app {A} (Ps : list (A → Prop)) l l' : occurs_in Ps l → occurs_in Ps (l ++ l').
Proof. induction 1; simpl; auto. Qed.

Lemma occurs_in_snoc {A} (Ps : list (A → Prop)) P l x :
  occurs_in Ps l → P x → occurs_in (Ps ++ [P]) (l ++ [x]).
Proof.
  intros H Hx. induction H as [l| |]; simpl; auto.
  induction l; simpl; auto.
Qed.

Lemma occurs_in_sublist {A} (Ps : list (A → Prop)) l l' :
  sublist l l' → occurs_in Ps l → occurs_in Ps l'.
Proof.
  intros Hs. revert Ps. induction Hs as [|x l l' _ IH|x l l' _ IH]; intros Ps Ho; [done| |].
  - inversion Ho; subst; auto.
  - destruct Ps; auto.
Qed.
