(* ===== verification/PyFloat.v ===== *)
(** * Python's [float]: IEEE 754 binary64

    A Python [float] is a binary64 number with round-half-even arithmetic.
    The model is the standard library's executable specification
    [SpecFloat] at precision 53 and exponent bound 1024; it keeps no NaN
    payload.  [f_dec] reads a decimal literal of the source (correctly
    rounded), [f_trunc] is [int(x)], [f_round] is [round(x)] and
    [f_of_Z] is [float(n)].

    The lemmas show that the order is a total order on numbers and that
    addition and subtraction round monotonically: the rounded sum never
    passes a representable number the exact sum does not pass. *)

From Stdlib Require Export SpecFloat.
From S2P Require Import Prelude.

Abbreviation float := spec_float.

Definition prec : Z := 53.
Definition emax : Z := 1024.

Definition valid (x : float) : bool := valid_binary prec emax x.

Definition f_zero : float := S754_zero false.
Definition f_add (x y : float) : float := SFadd prec emax x y.
Definition f_sub (x y : float) : float := SFsub prec emax x y.
Definition f_mul (x y : float) : float := SFmul prec emax x y.
Definition f_div (x y : float) : float := SFdiv prec emax x y.
Definition f_opp (x : float) : float := SFopp x.
Definition f_abs (x : float) : float := SFabs x.

Definition f_cmp (x y : float) : option comparison := SFcompare x y.
Definition f_lt (x y : float) : bool := SFltb x y.
Definition f_le (x y : float) : bool := SFleb x y.
Definition f_eq (x y : float) : bool := SFeqb x y.

Definition f_is_finite (x : float) : bool :=
  match x with S754_zero _ | S754_finite _ _ _ => true | _ => false end.

(** Python's [min(a, b)] and [max(a, b)] on floats: the first argument
    unless the second is strictly smaller (larger). *)
Definition f_min (a b : float) : float := if f_lt b a then b else a.
Definition f_max (a b : float) : float := if f_lt a b then b else a.

(** [n / d] correctly rounded, for a positive denominator. *)
Definition f_ratio (n : Z) (d : positive) : float :=
  match n with
  | 0 => S754_zero false
  | Z.pos p =>
      let '(q, e, l) := SFdiv_core_binary prec emax (Z.pos p) 0 (Z.pos d) 0 in
      binary_round_aux prec emax false q e l
  | Z.neg p =>
      let '(q, e, l) := SFdiv_core_binary prec emax (Z.pos p) 0 (Z.pos d) 0 in
      binary_round_aux prec emax true q e l
  end.

(** The decimal literal [m * 10 ** e]. *)
Definition f_dec (m e : Z) : float :=
  if e <? 0 then f_ratio m (Z.to_pos (10 ^ (- e)))
  else f_ratio (m * 10 ^ e) 1.

(** [10.0 ** n] for an integer [n], correctly rounded. *)
Definition f_pow10 (n : Z) : float := f_dec 1 n.

(** [float(n)]; the caller raises [OverflowError] on an infinity. *)
Definition f_of_Z (n : Z) : float := binary_normalize prec emax n 0 false.

(** [int(x)]: truncation towards zero. *)
Definition f_trunc (x : float) : option Z :=
  match x with
  | S754_zero _ => Some 0
  | S754_finite s m e =>
      let a := if 0 <=? e then Z.pos m * 2 ^ e else Z.pos m / 2 ^ (- e) in
      Some (if s then - a else a)
  | _ => None
  end.

(** [round(x)]: to the nearest integer, halves to even. *)
Definition f_round (x : float) : option Z :=
  match x with
  | S754_zero _ => Some 0
  | S754_finite s m e =>
      let a :=
        if 0 <=? e then Z.pos m * 2 ^ e
        else
          let d := 2 ^ (- e) in
          let q := Z.pos m / d in
          match Z.compare (2 * (Z.pos m mod d)) d with
          | Lt => q
          | Gt => q + 1
          | Eq => if Z.even q then q else q + 1
          end in
      Some (if s then - a else a)
  | _ => None
  end.

(** The order between an integer and a float is exact in Python. *)
Definition f_cmp_Z (n : Z) (x : float) : option comparison :=
  match x with
  | S754_nan => None
  | S754_infinity s => Some (if s then Gt else Lt)
  | S754_zero _ => Some (Z.compare n 0)
  | S754_finite s m e =>
      let m := if s then Z.neg m else Z.pos m in
      Some (if 0 <=? e then Z.compare n (m * 2 ^ e)
            else Z.compare (n * 2 ^ (- e)) m)
  end.

Example dec_tenth : f_dec 1 (-1) = S754_finite false 7205759403792794 (-56).
Proof. vm_compute. reflexivity. Qed.

Example dec_sum : f_eq (f_add (f_dec 1 (-1)) (f_dec 2 (-1))) (f_dec 3 (-1)) = false.
Proof. vm_compute. reflexivity. Qed.

(** ** The exact value of a float

    [D k m e] is [m * 2 ^ e] in units of [2 ^ k]; the unit of [f_val] is the
    smallest positive binary64 number [2 ^ (-1074)], so that every finite
    float has an integer value. *)

Definition emin64 : Z := -1074.
Definition fexp64 (e : Z) : Z := fexp prec emax e.

Definition D (k m e : Z) : Z := m * 2 ^ (e - k).

Definition f_val (x : float) : Z :=
  match x with
  | S754_finite s m e => cond_Zopp s (D emin64 (Z.pos m) e)
  | _ => 0
  end.

Lemma fexp64_eq e : fexp64 e = Z.max (e - 53) emin64.
Proof. reflexivity. Qed.

Lemma digits2_log2 m : Z.pos (digits2_pos m) = Z.log2 (Z.pos m) + 1.
Proof.
  induction m as [m IH|m IH|]; simpl digits2_pos; [| |done].
  - change (Z.pos m~1) with (2 * Z.pos m + 1).
    rewrite Z.log2_succ_double, Pos2Z.inj_succ by lia. lia.
  - change (Z.pos m~0) with (2 * Z.pos m).
    rewrite Z.log2_double, Pos2Z.inj_succ by lia. lia.
Qed.

Lemma digits2_bounds m :
  2 ^ (Z.pos (digits2_pos m) - 1) ≤ Z.pos m < 2 ^ Z.pos (digits2_pos m).
Proof.
  rewrite digits2_log2. replace (Z.log2 (Z.pos m) + 1 - 1) with (Z.log2 (Z.pos m)) by lia.
  apply Z.log2_spec. lia.
Qed.

Lemma digits2_unique m d : 0 < d → 2 ^ (d - 1) ≤ Z.pos m < 2 ^ d → Z.pos (digits2_pos m) = d.
Proof.
  intros Hd H. rewrite digits2_log2.
  rewrite (Z.log2_unique (Z.pos m) (d - 1)); [lia|lia|].
  by replace (Z.succ (d - 1)) with d by lia.
Qed.

Lemma valid_finite_inv s m e :
  valid (S754_finite s m e) = true →
  fexp64 (Z.pos (digits2_pos m) + e) = e ∧ e ≤ 971.
Proof.
  unfold valid, valid_binary, bounded, canonical_mantissa.
  rewrite andb_true_iff. unfold fexp64. intros [H1 H2].
  split; [by apply Z.eqb_eq|]. apply Z.leb_le in H2. exact H2.
Qed.

Lemma pow2_pos k : 0 ≤ k → 0 < 2 ^ k.
Proof. intros. apply Z.pow_pos_nonneg; lia. Qed.

Lemma pow2_nonneg k : 0 ≤ 2 ^ k.
Proof. apply Z.pow_nonneg. lia. Qed.

Lemma pow2_add a b : 0 ≤ a → 0 ≤ b → 2 ^ (a + b) = 2 ^ a * 2 ^ b.
Proof. intros. by apply Z.pow_add_r. Qed.

(** Moving to a coarser exponent scales the mantissa. *)
Lemma D_shift k m e p :
  k ≤ e → 0 ≤ p → D k m (e + p) = D k (m * 2 ^ p) e.
Proof.
  intros Hk Hp. unfold D. replace (e + p - k) with (p + (e - k)) by lia.
  rewrite pow2_add by lia. ring.
Qed.

Lemma D_le k m1 m2 e : m1 ≤ m2 → D k m1 e ≤ D k m2 e.
Proof. intros. unfold D. pose proof (pow2_nonneg (e - k)). nia. Qed.

Lemma D_le_inv k m1 m2 e : k ≤ e → D k m1 e ≤ D k m2 e → m1 ≤ m2.
Proof. unfold D. intros Hk. pose proof (pow2_pos (e - k)). nia. Qed.

Lemma D_lt k m1 m2 e : k ≤ e → m1 < m2 → D k m1 e < D k m2 e.
Proof. intros. unfold D. pose proof (pow2_pos (e - k)). nia. Qed.

Lemma D_nonneg k m e : 0 ≤ m → 0 ≤ D k m e.
Proof. intros. unfold D. pose proof (pow2_nonneg (e - k)). nia. Qed.

Lemma D_pos_bounds k m e :
  k ≤ e →
  2 ^ (Z.pos (digits2_pos m) + e - 1 - k) ≤ D k (Z.pos m) e
  < 2 ^ (Z.pos (digits2_pos m) + e - k).
Proof.
  intros Hk. pose proof (digits2_bounds m) as [H1 H2].
  pose proof (pow2_pos (e - k)) as Hp. unfold D.
  replace (Z.pos (digits2_pos m) + e - 1 - k)
    with ((Z.pos (digits2_pos m) - 1) + (e - k)) by lia.
  replace (Z.pos (digits2_pos m) + e - k)
    with (Z.pos (digits2_pos m) + (e - k)) by lia.
  rewrite !pow2_add by lia. nia.
Qed.

(** A number of smaller exponent range is smaller. *)
Lemma D_mag_lt k m1 e1 m2 e2 :
  k ≤ e1 → k ≤ e2 →
  Z.pos (digits2_pos m1) + e1 < Z.pos (digits2_pos m2) + e2 →
  D k (Z.pos m1) e1 < D k (Z.pos m2) e2.
Proof.
  intros H1 H2 Hlt.
  pose proof (D_pos_bounds k m1 e1 H1) as [_ U1].
  pose proof (D_pos_bounds k m2 e2 H2) as [L2 _].
  eapply Z.lt_le_trans; [exact U1|]. etransitivity; [|exact L2].
  apply Z.pow_le_mono_r; lia.
Qed.

Lemma fexp64_lt_inv a b : fexp64 a < fexp64 b → a < b.
Proof. rewrite !fexp64_eq. lia. Qed.

Lemma valid_emin s m e : valid (S754_finite s m e) = true → emin64 ≤ e.
Proof.
  intros [H _]%valid_finite_inv. rewrite fexp64_eq in H. lia.
Qed.

Lemma D_canonical_lt k m1 e1 m2 e2 :
  k ≤ e1 → k ≤ e2 →
  fexp64 (Z.pos (digits2_pos m1) + e1) = e1 →
  fexp64 (Z.pos (digits2_pos m2) + e2) = e2 →
  e1 < e2 → D k (Z.pos m1) e1 < D k (Z.pos m2) e2.
Proof.
  intros ?? C1 C2 He. apply D_mag_lt; [done..|].
  apply fexp64_lt_inv. lia.
Qed.

Lemma pos_compare_cont_eq m1 m2 :
  Pos.compare_cont Eq m1 m2 = Z.compare (Z.pos m1) (Z.pos m2).
Proof. reflexivity. Qed.

Lemma D_compare k m1 e1 m2 e2 :
  k ≤ e1 → k ≤ e2 →
  fexp64 (Z.pos (digits2_pos m1) + e1) = e1 →
  fexp64 (Z.pos (digits2_pos m2) + e2) = e2 →
  Z.compare (D k (Z.pos m1) e1) (D k (Z.pos m2) e2)
  = match Z.compare e1 e2 with
    | Eq => Z.compare (Z.pos m1) (Z.pos m2) | c => c end.
Proof.
  intros K1 K2 C1 C2. destruct (Z.compare_spec e1 e2) as [->|He|He].
  - destruct (Z.compare_spec (Z.pos m1) (Z.pos m2)) as [->|H|H].
    + by rewrite Z.compare_refl.
    + apply Z.compare_lt_iff. by apply D_lt.
    + apply Z.compare_gt_iff. by apply D_lt.
  - apply Z.compare_lt_iff. by apply D_canonical_lt.
  - apply Z.compare_gt_iff. by apply D_canonical_lt.
Qed.

Lemma D_pos k m e : k ≤ e → 0 < D k (Z.pos m) e.
Proof. intros. unfold D. pose proof (pow2_pos (e - k)). nia. Qed.

(** On finite numbers the float order is the order of the exact values. *)
Lemma f_cmp_val x y :
  valid x = true → valid y = true →
  f_is_finite x = true → f_is_finite y = true →
  f_cmp x y = Some (Z.compare (f_val x) (f_val y)).
Proof.
  intros Vx Vy Fx Fy.
  destruct x as [sx|sx| |sx mx ex], y as [sy|sy| |sy my ey]; try done.
  - pose proof (valid_emin _ _ _ Vy) as Ey. pose proof (D_pos emin64 my ey Ey) as P.
    destruct sy; cbn [f_cmp SFcompare f_val cond_Zopp]; f_equal; symmetry.
    + apply Z.compare_gt_iff. lia.
    + apply Z.compare_lt_iff. lia.
  - pose proof (valid_emin _ _ _ Vx) as Ex. pose proof (D_pos emin64 mx ex Ex) as P.
    destruct sx; cbn [f_cmp SFcompare f_val cond_Zopp]; f_equal; symmetry.
    + apply Z.compare_lt_iff. lia.
    + apply Z.compare_gt_iff. lia.
  - pose proof (valid_emin _ _ _ Vx) as Ex. pose proof (valid_emin _ _ _ Vy) as Ey.
    apply valid_finite_inv in Vx as [Cx _]. apply valid_finite_inv in Vy as [Cy _].
    pose proof (D_pos emin64 mx ex Ex) as Px. pose proof (D_pos emin64 my ey Ey) as Py.
    pose proof (D_compare emin64 mx ex my ey Ex Ey Cx Cy) as HC.
    unfold f_cmp, SFcompare. rewrite pos_compare_cont_eq.
    destruct sx, sy; cbn [f_val cond_Zopp]; f_equal.
    + rewrite Z.compare_opp, (Z.compare_antisym (D emin64 (Z.pos mx) ex)), HC.
      by destruct (ex ?= ey).
    + symmetry. apply Z.compare_lt_iff. lia.
    + symmetry. apply Z.compare_gt_iff. lia.
    + rewrite HC. by destruct (ex ?= ey).
Qed.

(** ** Rounding *)

Definition inexact (r : shr_record) : bool := shr_r r || shr_s r.

Lemma iter_pos_nat {A} (f : A → A) p x :
  SpecFloat.iter_pos f p x = Nat.iter (Pos.to_nat p) f x.
Proof.
  revert x. induction p as [p IH|p IH|]; intros x; simpl SpecFloat.iter_pos; [| |done].
  - rewrite !IH, <-Nat.iter_add, Pos2Nat.inj_xI.
    replace (S (2 * Pos.to_nat p))%nat with (Pos.to_nat p + Pos.to_nat p + 1)%nat by lia.
    by rewrite (Nat.iter_add _ 1).
  - rewrite !IH, <-Nat.iter_add, Pos2Nat.inj_xO. f_equal. lia.
Qed.

Lemma shr_1_spec r :
  0 ≤ shr_m r →
  shr_m (shr_1 r) = shr_m r / 2
  ∧ inexact (shr_1 r) = Z.odd (shr_m r) || inexact r.
Proof.
  destruct r as [m b s]. unfold inexact. simpl. intros Hm.
  rewrite <-Z.div2_div.
  destruct m as [|[m|m|]|m]; simpl; try lia; split; try done;
    by destruct b, s.
Qed.

Lemma shr_iter_spec n r :
  0 ≤ shr_m r →
  shr_m (Nat.iter n shr_1 r) = shr_m r / 2 ^ Z.of_nat n
  ∧ inexact (Nat.iter n shr_1 r)
    = negb (shr_m r mod 2 ^ Z.of_nat n =? 0) || inexact r.
Proof.
  intros Hm. induction n as [|n [IH1 IH2]].
  { simpl. by rewrite Z.div_1_r, Z.mod_1_r. }
  change (Nat.iter (S n) shr_1 r) with (shr_1 (Nat.iter n shr_1 r)).
  pose proof (pow2_pos (Z.of_nat n) ltac:(lia)) as Hp.
  destruct (shr_1_spec (Nat.iter n shr_1 r)) as [-> ->].
  { rewrite IH1. apply Z.div_pos; lia. }
  rewrite IH1, IH2, Nat2Z.inj_succ, Z.pow_succ_r by lia.
  rewrite (Z.mul_comm 2), <-Z.div_div, Z.rem_mul_r by lia.
  split; [done|]. rewrite orb_assoc. f_equal.
  rewrite Zmod_odd.
  pose proof (Z.mod_pos_bound (shr_m r) (2 ^ Z.of_nat n) Hp) as Hb.
  destruct (Z.odd _); simpl.
  - symmetry. apply negb_true_iff, Z.eqb_neq. lia.
  - by rewrite Z.mul_0_r, Z.add_0_r.
Qed.

Lemma rne_spec q r :
  let q' := round_nearest_even q (loc_of_shr_record r) in
  q ≤ q' ≤ q + 1 ∧ (inexact r = false → q' = q).
Proof.
  destruct r as [m [|] [|]]; simpl; try (destruct (Z.even q)); split;
    try lia; done.
Qed.

(** A right shift by the distance to the canonical exponent. *)
Lemma shr_fexp_spec m e :
  0 ≤ m →
  ∃ r, shr_fexp prec emax m e loc_Exact
       = (r, e + Z.max 0 (fexp64 (Zdigits2 m + e) - e))
    ∧ shr_m r = m / 2 ^ Z.max 0 (fexp64 (Zdigits2 m + e) - e)
    ∧ inexact r = negb (m mod 2 ^ Z.max 0 (fexp64 (Zdigits2 m + e) - e) =? 0).
Proof.
  intros Hm. unfold shr_fexp, shr. fold (fexp64 (Zdigits2 m + e)).
  destruct (fexp64 (Zdigits2 m + e) - e) as [|p|p].
  - eexists. split; [by rewrite Z.max_id, Z.add_0_r|].
    simpl. by rewrite Z.div_1_r, Z.mod_1_r.
  - eexists. split; [reflexivity|]. rewrite iter_pos_nat.
    destruct (shr_iter_spec (Pos.to_nat p) (shr_record_of_loc m loc_Exact)) as [-> ->]; [done|].
    rewrite positive_nat_Z. unfold inexact. simpl.
    by rewrite orb_false_r.
  - eexists. split; [by rewrite Z.max_l, Z.add_0_r by lia|].
    simpl. by rewrite Z.div_1_r, Z.mod_1_r.
Qed.

(** The number a rounded mantissa stands for. *)
Definition mk_round (s : bool) (q e : Z) : float :=
  match q with
  | Z.pos m => if e <=? 971 then S754_finite s m e else S754_infinity s
  | _ => S754_zero s
  end.

Lemma Zdigits2_pos m : Zdigits2 (Z.pos m) = Z.pos (digits2_pos m).
Proof. reflexivity. Qed.

Definition canon (q e : Z) : Prop :=
  match q with
  | Z.pos m => fexp64 (Z.pos (digits2_pos m) + e) = e
  | _ => True
  end.

Lemma Zdigits2_bounds q : 0 < q → 0 < Zdigits2 q ∧ 2 ^ (Zdigits2 q - 1) ≤ q < 2 ^ Zdigits2 q.
Proof. destruct q as [|m|m]; try lia. intros _. split; [done|apply digits2_bounds]. Qed.

Lemma Zdigits2_unique q d : 0 < d → 2 ^ (d - 1) ≤ q < 2 ^ d → Zdigits2 q = d.
Proof.
  intros Hd H. pose proof (pow2_pos (d - 1) ltac:(lia)).
  destruct q as [|m|m]; try lia. by apply digits2_unique.
Qed.

Lemma Zdigits2_le q d : 0 ≤ q < 2 ^ d → 0 ≤ d → Zdigits2 q ≤ d.
Proof.
  intros H Hd. destruct (decide (q = 0)) as [->|]; [done|].
  destruct (Zdigits2_bounds q) as (? & Hl & _); [lia|].
  assert (Zdigits2 q - 1 < d); [|lia].
  apply (Z.pow_lt_mono_r_iff 2); lia.
Qed.

(** The carry case: a rounded mantissa is canonical at the exponent reached,
    or it is the power of two one exponent further. *)
Lemma carry_cases d e p q :
  0 ≤ p → 0 < d → e + p = fexp64 (d + e) →
  0 ≤ q → (d ≤ p → q ≤ 1) → (p < d → 2 ^ (d - p) ≤ 2 * q ∧ q ≤ 2 ^ (d - p)) →
  fexp64 (Zdigits2 q + (e + p)) = e + p
  ∨ (d - p = 53 ∧ q = 2 ^ 53 ∧ fexp64 (Zdigits2 q + (e + p)) = e + p + 1).
Proof.
  rewrite !fexp64_eq. unfold emin64. intros Hp Hd He Hq0 Hsmall Hbig.
  destruct (Z.le_gt_cases d p) as [Hdp|Hdp].
  { left. assert (Zdigits2 q ≤ 1) by (apply Zdigits2_le; simpl; lia). lia. }
  destruct Hbig as [Hl Hu]; [done|].
  destruct (Z.lt_ge_cases q (2 ^ (d - p))) as [Hq|Hq].
  - assert (Zdigits2 q ≤ d - p) by (apply Zdigits2_le; lia).
    left. destruct (Z.lt_ge_cases (-1074) (e + p)) as [He'|He']; [|lia].
    assert (d - p = 53) as Hdp53 by lia. rewrite Hdp53 in *.
    rewrite (Zdigits2_unique q 53); lia.
  - assert (q = 2 ^ (d - p)) as Hq' by lia.
    assert (Zdigits2 q = d - p + 1) as Hdig.
    { apply Zdigits2_unique; [lia|]. rewrite Hq'.
      replace (d - p + 1 - 1) with (d - p) by lia.
      rewrite (pow2_add (d - p) 1) by lia. pose proof (pow2_pos (d - p)). lia. }
    rewrite Hdig.
    destruct (Z.eq_dec (Z.max (d - p + 1 + (e + p) - 53) (-1074)) (e + p)) as [|Hne];
      [by left|]. right. assert (d - p = 53) as Hdp53 by lia.
    rewrite Hq', Hdp53. split; [done|]. split; [done|]. lia.
Qed.

Lemma round_floor_bounds m p q :
  0 ≤ p → let d := Z.pos (digits2_pos m) in
  Z.pos m / 2 ^ p ≤ q ≤ Z.pos m / 2 ^ p + 1 →
  0 ≤ q ∧ (d ≤ p → q ≤ 1) ∧ (p < d → 2 ^ (d - p) ≤ 2 * q ∧ q ≤ 2 ^ (d - p)).
Proof.
  intros Hp d Hq. pose proof (digits2_bounds m) as [Hl Hu]. fold d in Hl, Hu.
  pose proof (pow2_pos p Hp) as H2.
  assert (0 ≤ Z.pos m / 2 ^ p) by (apply Z.div_pos; lia).
  split; [lia|]. split.
  - intros Hdp. rewrite Z.div_small in Hq; [lia|]. split; [lia|].
    pose proof (Z.pow_le_mono_r 2 d p). lia.
  - intros Hpd. split.
    + assert (2 ^ (d - 1 - p) ≤ Z.pos m / 2 ^ p).
      { apply Z.div_le_lower_bound; [lia|]. rewrite <-pow2_add by lia.
        by replace (p + (d - 1 - p)) with (d - 1) by lia. }
      replace (d - p) with (1 + (d - 1 - p)) by lia. rewrite pow2_add by lia. lia.
    + assert (Z.pos m / 2 ^ p < 2 ^ (d - p)); [|lia].
      apply Z.div_lt_upper_bound; [lia|]. rewrite <-pow2_add by lia.
      by replace (p + (d - p)) with d by lia.
Qed.

(** [binary_round_aux] on an exact mantissa: the result stands for the floor
    or the ceiling of the mantissa at the canonical exponent. *)
Lemma round_aux_spec s m e :
  e ≤ fexp64 (Z.pos (digits2_pos m) + e) →
  ∃ p q q' k,
    0 ≤ p ∧ e + p = fexp64 (Z.pos (digits2_pos m) + e)
    ∧ Z.pos m / 2 ^ p ≤ q ≤ Z.pos m / 2 ^ p + 1
    ∧ (Z.pos m mod 2 ^ p = 0 → q = Z.pos m / 2 ^ p)
    ∧ 0 ≤ k ∧ q = q' * 2 ^ k ∧ 0 ≤ q' ∧ canon q' (e + p + k)
    ∧ binary_round_aux prec emax s (Z.pos m) e loc_Exact = mk_round s q' (e + p + k).
Proof.
  intros He. set (d := Z.pos (digits2_pos m)) in *.
  set (p := fexp64 (d + e) - e).
  destruct (shr_fexp_spec (Z.pos m) e) as (r & E & Hm & Hx); [lia|].
  rewrite Zdigits2_pos in *. fold d in E, Hm, Hx. fold p in E, Hm, Hx.
  rewrite (Z.max_r 0 p) in * by lia.
  destruct (rne_spec (shr_m r) r) as [Hq Hqx].
  set (q := round_nearest_even (shr_m r) (loc_of_shr_record r)) in *.
  rewrite Hm in Hq, Hqx. rewrite Hx in Hqx.
  assert (0 ≤ p) as Hp by lia.
  destruct (round_floor_bounds m p q Hp Hq) as (Hq0 & Hsmall & Hbig).
  fold d in Hsmall, Hbig.
  destruct (shr_fexp_spec q (e + p) Hq0) as (r' & E' & Hm' & _).
  unfold binary_round_aux. rewrite E. fold q. rewrite E', Hm'.
  destruct (carry_cases d e p q) as [Hc|(Hd53 & Hq53 & Hc)]; try done; [lia| |].
  - exists p, q, q, 0. rewrite Hc, !Z.add_0_r.
    rewrite Z.sub_diag, Z.max_id, Z.div_1_r, Z.mul_1_r, Z.add_0_r.
    split_and!; try done; try lia; clearbody q.
    + destruct q as [|q|q]; done.
    + destruct q as [|q|q]; try done; lia.
  - exists p, q, (2 ^ 52), 1. rewrite Hc.
    replace (e + p + 1 - (e + p)) with 1 by lia. rewrite (Z.max_r 0 1) by lia.
    rewrite Hq53. split_and!; try done; try lia.
    rewrite Hq53 in Hc. rewrite fexp64_eq in Hc. unfold emin64 in Hc.
    change (Zdigits2 (2 ^ 53)) with 54 in Hc.
    change (fexp64 (53 + (e + p + 1)) = e + p + 1).
    rewrite fexp64_eq. unfold emin64. lia.
Qed.

(** [faithful k m e q e'']: the canonical number [q * 2 ^ e''] does not pass
    any canonical number that [m * 2 ^ e] does not pass. *)
Definition faithful (k : Z) (m : positive) (e q e'' : Z) : Prop :=
  0 ≤ q ∧ canon q e'' ∧ emin64 ≤ e''
  ∧ (∀ my ey, canon (Z.pos my) ey → emin64 ≤ ey →
       D k (Z.pos m) e ≤ D k (Z.pos my) ey → D k q e'' ≤ D k (Z.pos my) ey)
  ∧ (∀ my ey, canon (Z.pos my) ey → emin64 ≤ ey →
       D k (Z.pos my) ey ≤ D k (Z.pos m) e → D k (Z.pos my) ey ≤ D k q e'').

Section faithful.
Variables (m : positive) (e k p q : Z).
Let d := Z.pos (digits2_pos m).
Hypothesis Hke : k ≤ e.
Hypothesis Hkmin : k ≤ emin64.
Hypothesis Hp : 0 ≤ p.
Hypothesis Hep : e + p = fexp64 (d + e).
Hypothesis Hq : Z.pos m / 2 ^ p ≤ q ≤ Z.pos m / 2 ^ p + 1.
Hypothesis Hqx : Z.pos m mod 2 ^ p = 0 → q = Z.pos m / 2 ^ p.

Lemma faithful_upper my ey :
  canon (Z.pos my) ey → emin64 ≤ ey →
  D k (Z.pos m) e ≤ D k (Z.pos my) ey → D k q (e + p) ≤ D k (Z.pos my) ey.
Proof.
  intros Hc Hy Hle. pose proof (pow2_pos p Hp) as H2.
  destruct (Z.lt_ge_cases ey (e + p)) as [Hlt|Hge].
  { exfalso. assert (D k (Z.pos my) ey < D k (Z.pos m) e); [|lia].
    apply D_mag_lt; [lia..|]. apply fexp64_lt_inv.
    unfold canon in Hc. fold d. lia. }
  replace ey with (e + p + (ey - (e + p))) in Hle |- * by lia.
  rewrite (D_shift k (Z.pos my) (e + p)) in Hle |- * by lia.
  set (Y := Z.pos my * 2 ^ (ey - (e + p))) in *.
  rewrite D_shift in Hle by lia. apply D_le_inv in Hle; [|lia].
  apply D_le. pose proof (Z.div_mod (Z.pos m) (2 ^ p)) as Hdm.
  pose proof (Z.mod_pos_bound (Z.pos m) (2 ^ p) H2) as Hmb.
  destruct (Z.eq_dec (Z.pos m mod 2 ^ p) 0) as [H0|Hn0]; [rewrite (Hqx H0)|]; nia.
Qed.

Lemma faithful_lower my ey :
  canon (Z.pos my) ey → emin64 ≤ ey →
  D k (Z.pos my) ey ≤ D k (Z.pos m) e → D k (Z.pos my) ey ≤ D k q (e + p).
Proof.
  intros Hc Hy Hle. pose proof (pow2_pos p Hp) as H2.
  destruct (Z.lt_ge_cases ey (e + p)) as [Hlt|Hge].
  - pose proof (D_pos_bounds k my ey ltac:(lia)) as [_ Hu].
    pose proof (digits2_bounds m) as [Hl _]. fold d in Hl.
    unfold canon in Hc. rewrite fexp64_eq in *. unfold emin64 in *.
    assert (Z.pos (digits2_pos my) + ey < d + e) as Hmag by lia.
    assert (p = d - 53) as Hp53 by lia.
    assert (2 ^ 52 ≤ Z.pos m / 2 ^ p) as Hfl.
    { apply Z.div_le_lower_bound; [lia|]. rewrite <-pow2_add by lia.
      by replace (p + 52) with (d - 1) by lia. }
    etransitivity; [apply Z.lt_le_incl, Hu|].
    transitivity (D k (2 ^ 52) (e + p)); [|apply D_le; lia].
    unfold D. rewrite <-pow2_add by lia. apply Z.pow_le_mono_r; lia.
  - replace ey with (e + p + (ey - (e + p))) in Hle |- * by lia.
    rewrite (D_shift k (Z.pos my) (e + p)) in Hle |- * by lia.
    set (Y := Z.pos my * 2 ^ (ey - (e + p))) in *.
    rewrite D_shift in Hle by lia. apply D_le_inv in Hle; [|lia].
    apply D_le. transitivity (Z.pos m / 2 ^ p); [|lia].
    apply Z.div_le_lower_bound; lia.
Qed.
End faithful.

Lemma round_aux_faithful s m e k :
  k ≤ e → k ≤ emin64 → e ≤ fexp64 (Z.pos (digits2_pos m) + e) →
  ∃ q e'', binary_round_aux prec emax s (Z.pos m) e loc_Exact = mk_round s q e''
    ∧ faithful k m e q e''.
Proof.
  intros Hke Hk He.
  destruct (round_aux_spec s m e He) as (p & q & q' & j & Hp & Hep & Hq & Hqx & Hj & Hqq & Hq' & Hc & E).
  exists q', (e + p + j). split; [done|].
  assert (emin64 ≤ e + p + j) by (rewrite Hep, fexp64_eq; lia).
  assert (D k q' (e + p + j) = D k q (e + p)) as HD.
  { rewrite D_shift by lia. by rewrite Hqq. }
  split_and!; try done; intros my ey; rewrite HD;
    [by apply faithful_upper|by apply faithful_lower].
Qed.

Lemma digits2_iter_xO m n :
  Z.pos (digits2_pos (Pos.iter xO m n)) = Z.pos (digits2_pos m) + Z.pos n.
Proof.
  induction n as [|n IH] using Pos.peano_ind.
  - simpl. lia.
  - rewrite Pos.iter_succ. simpl. lia.
Qed.

Lemma Zpos_iter_xO m n : Z.pos (Pos.iter xO m n) = Z.pos m * 2 ^ Z.pos n.
Proof.
  induction n as [|n IH] using Pos.peano_ind.
  - simpl. lia.
  - rewrite Pos.iter_succ, Pos2Z.inj_succ, Z.pow_succ_r by lia.
    change (Z.pos (Pos.iter xO m n)~0) with (2 * Z.pos (Pos.iter xO m n)). lia.
Qed.

Lemma shl_align_spec m e t :
  ∃ m' e', shl_align m e t = (m', e')
    ∧ Z.pos (digits2_pos m') + e' = Z.pos (digits2_pos m) + e
    ∧ e' = Z.min e t
    ∧ ∀ k, k ≤ e' → D k (Z.pos m') e' = D k (Z.pos m) e.
Proof.
  unfold shl_align. destruct (t - e) as [|n|n] eqn:E.
  - exists m, e. split_and!; [done..|lia|done].
  - exists m, e. split_and!; [done..|lia|done].
  - exists (Pos.iter xO m n), t.
    rewrite digits2_iter_xO, Zpos_iter_xO. split_and!; [done|lia|lia|].
    intros k Hk. replace e with (t + Z.pos n) by lia.
    by rewrite D_shift by lia.
Qed.

(** Rounding an exact number is faithful. *)
Lemma binary_round_faithful s m e k :
  k ≤ e → k ≤ emin64 →
  ∃ q e'', binary_round prec emax s m e = mk_round s q e'' ∧ faithful k m e q e''.
Proof.
  intros Hke Hk. unfold binary_round. fold (fexp64 (Z.pos (digits2_pos m) + e)).
  destruct (shl_align_spec m e (fexp64 (Z.pos (digits2_pos m) + e)))
    as (m' & e' & -> & Hd & He & HD).
  assert (emin64 ≤ fexp64 (Z.pos (digits2_pos m) + e)) by (rewrite fexp64_eq; lia).
  destruct (round_aux_faithful s m' e' k) as (q & e'' & Eq & Hf); [lia|lia|rewrite Hd; lia|].
  exists q, e''. split; [done|]. unfold faithful in *. by rewrite (HD k) in Hf by lia.
Qed.

(** ** The order on floats *)

Lemma f_cmp_opp x y : f_cmp (f_opp x) (f_opp y) = f_cmp y x.
Proof.
  destruct x as [sx|sx| |sx mx ex], y as [sy|sy| |sy my ey]; try done;
    try destruct sx; try destruct sy; try done.
  all: cbn [f_cmp f_opp SFopp SFcompare negb]; f_equal.
  all: rewrite (Z.compare_antisym ey ex), !pos_compare_cont_eq.
  all: rewrite (Z.compare_antisym (Z.pos my) (Z.pos mx)).
  all: destruct (ey ?= ex); simpl; rewrite ?CompOpp_involutive; done.
Qed.

Lemma f_le_opp x y : f_le (f_opp x) (f_opp y) = f_le y x.
Proof. unfold f_le, SFleb. change SFcompare with f_cmp. by rewrite f_cmp_opp. Qed.

Lemma f_le_cmp x y : f_le x y = true ↔ f_cmp x y = Some Lt ∨ f_cmp x y = Some Eq.
Proof.
  unfold f_le, SFleb. change SFcompare with f_cmp.
  destruct (f_cmp x y) as [[]|]; intuition congruence.
Qed.

Lemma f_lt_cmp x y : f_lt x y = true ↔ f_cmp x y = Some Lt.
Proof.
  unfold f_lt, SFltb. change SFcompare with f_cmp.
  destruct (f_cmp x y) as [[]|]; intuition congruence.
Qed.

(** A finite, valid float: a number the model computes with. *)
Record num (x : float) : Prop := Num {
  num_valid : valid x = true;
  num_finite : f_is_finite x = true;
}.

Lemma f_le_val x y : num x → num y → f_le x y = true ↔ f_val x ≤ f_val y.
Proof.
  intros [] []. rewrite f_le_cmp, f_cmp_val by done.
  destruct (Z.compare_spec (f_val x) (f_val y)); intuition (congruence || lia).
Qed.

Lemma f_lt_val x y : num x → num y → f_lt x y = true ↔ f_val x < f_val y.
Proof.
  intros [] []. rewrite f_lt_cmp, f_cmp_val by done.
  destruct (Z.compare_spec (f_val x) (f_val y)); intuition (congruence || lia).
Qed.

Lemma f_lt_false_val x y : num x → num y → f_lt x y = false ↔ f_val y ≤ f_val x.
Proof.
  intros Hx Hy. rewrite <-not_true_iff_false, f_lt_val by done. lia.
Qed.

Lemma f_le_false_val x y : num x → num y → f_le x y = false ↔ f_val y < f_val x.
Proof.
  intros Hx Hy. rewrite <-not_true_iff_false, f_le_val by done. lia.
Qed.

Lemma valid_opp x : valid (f_opp x) = valid x.
Proof. by destruct x. Qed.

Lemma num_opp x : num x → num (f_opp x).
Proof. intros [Hv Hf]. split; [by rewrite valid_opp|by destruct x]. Qed.

Lemma f_val_opp x : f_val (f_opp x) = - f_val x.
Proof. destruct x as [| | |[] m e]; cbn [f_val f_opp SFopp negb cond_Zopp]; lia. Qed.

Lemma num_abs x : num x → num (f_abs x).
Proof. intros [Hv Hf]. split; by destruct x. Qed.

Lemma f_val_abs x : f_val (f_abs x) = Z.abs (f_val x).
Proof.
  destruct x as [| | |[] m e]; try done; cbn [f_val f_abs SFabs cond_Zopp].
  - pose proof (D_nonneg emin64 (Z.pos m) e). lia.
  - pose proof (D_nonneg emin64 (Z.pos m) e). lia.
Qed.

Lemma mk_round_valid s q e :
  0 ≤ q → canon q e → valid (mk_round s q e) = true.
Proof.
  destruct q as [|q|q]; [done| |lia]. intros _ Hc. unfold mk_round.
  destruct (Z.leb_spec e 971) as [He|]; [|done].
  unfold valid, valid_binary, bounded, canonical_mantissa.
  apply andb_true_iff. split; [by apply Z.eqb_eq|by apply Z.leb_le].
Qed.

Lemma mk_round_opp s q e : mk_round (negb s) q e = f_opp (mk_round s q e).
Proof. destruct q as [|q|q]; try done. simpl. by destruct (e <=? 971). Qed.

Lemma mk_round_val q e :
  0 ≤ q → canon q e → emin64 ≤ e → e ≤ 971 →
  num (mk_round false q e) ∧ f_val (mk_round false q e) = D emin64 q e.
Proof.
  intros Hq Hc He He'. destruct q as [|q|q]; [| |lia].
  - split; [done|]. unfold D. by rewrite Z.mul_0_l.
  - unfold mk_round. rewrite (proj2 (Z.leb_le e 971)) by done.
    split; [|done]. split; [|done].
    pose proof (mk_round_valid false (Z.pos q) e ltac:(lia) Hc) as Hv.
    unfold mk_round in Hv. by rewrite (proj2 (Z.leb_le e 971)) in Hv.
Qed.

Lemma valid_canon s m e : valid (S754_finite s m e) = true → canon (Z.pos m) e.
Proof. by intros [? _]%valid_finite_inv. Qed.

(** A rounded positive number against a number [t]. *)
Lemma mk_round_order m e q e'' t :
  emin64 ≤ e → num t → faithful emin64 m e q e'' →
  (D emin64 (Z.pos m) e ≤ f_val t → f_le (mk_round false q e'') t = true)
  ∧ (f_val t ≤ D emin64 (Z.pos m) e → f_le t (mk_round false q e'') = true).
Proof.
  intros Hke Ht (Hq & Hc & He & Hup & Hlo).
  pose proof (D_pos emin64 m e Hke) as Hm.
  pose proof (D_nonneg emin64 q e'' Hq) as Hq'.
  assert (∀ st mt et, t = S754_finite st mt et → D emin64 (Z.pos m) e ≤ f_val t →
    st = false ∧ D emin64 q e'' ≤ f_val t ∧ canon (Z.pos mt) et ∧ emin64 ≤ et ≤ 971) as Hpos.
  { intros st mt et -> Hle. destruct Ht as [Hv _].
    pose proof (valid_emin _ _ _ Hv) as Hemin.
    pose proof (valid_canon _ _ _ Hv) as Hcan.
    pose proof (D_nonneg emin64 (Z.pos mt) et ltac:(lia)).
    apply valid_finite_inv in Hv as [_ Het].
    destruct st; cbn [f_val cond_Zopp] in *; [lia|].
    split_and!; try done. by apply Hup. }
  destruct (Z.le_gt_cases e'' 971) as [Hfin|Hinf].
  - destruct (mk_round_val q e'' Hq Hc He Hfin) as [Hn Hv].
    rewrite !f_le_val, Hv by done. split; intros Hle.
    + destruct t as [st|st| |st mt et]; try (by destruct Ht); [cbn in Hle; lia|].
      by destruct (Hpos st mt et eq_refl Hle) as (_ & ? & _).
    + destruct t as [st|st| |[] mt et]; try (by destruct Ht as [? Hf]; discriminate Hf);
        cbn [f_val cond_Zopp] in *.
      * done.
      * pose proof (D_nonneg emin64 (Z.pos mt) et ltac:(lia)). lia.
      * destruct Ht as [Hv' _].
        apply Hlo; [by apply valid_canon in Hv'|by apply valid_emin in Hv'|done].
  - destruct q as [|q|q]; [|
      |lia].
    + split; intros Hle.
      * destruct t as [st|st| |st mt et]; try (by destruct Ht).
        by destruct (Hpos st mt et eq_refl Hle) as (-> & _).
      * destruct t as [st|st| |[] mt et]; try (by destruct Ht). exfalso.
        destruct Ht as [Hv' _]. cbn [f_val cond_Zopp] in Hle.
        pose proof (Hlo mt et (valid_canon _ _ _ Hv') (valid_emin _ _ _ Hv') Hle) as H0.
        pose proof (D_pos emin64 mt et (valid_emin _ _ _ Hv')).
        change (D emin64 0 e'') with 0 in H0. lia.
    + unfold mk_round. rewrite (proj2 (Z.leb_gt e'' 971)) by lia.
      split; intros Hle; [|by destruct t as [st|[]| |[] mt et], Ht].
      exfalso. destruct t as [st|st| |st mt et]; try (by destruct Ht); [cbn in Hle; lia|].
      destruct (Hpos st mt et eq_refl Hle) as (-> & Hle' & Hct & Het).
      cbn [f_val cond_Zopp] in Hle'.
      pose proof (D_canonical_lt emin64 mt et q e'' ltac:(lia) He Hct Hc ltac:(lia)). lia.
Qed.

Lemma mk_round_false_not_neg q e : 0 ≤ q → f_le f_zero (mk_round false q e) = true.
Proof. destruct q as [|q|q]; try done; simpl; by destruct (e <=? 971). Qed.

(** Rounding an integer number of units [2 ^ emin64] is monotone with
    respect to every number of the format. *)
Lemma normalize_order z e s t :
  emin64 ≤ e → num t →
  (D emin64 z e ≤ f_val t → f_le (binary_normalize prec emax z e s) t = true)
  ∧ (f_val t ≤ D emin64 z e → f_le t (binary_normalize prec emax z e s) = true).
Proof.
  intros He Ht. destruct z as [|m|m]; unfold binary_normalize.
  - change (D emin64 0 e) with 0.
    assert (num (S754_zero s)) by done.
    rewrite !f_le_val by done. simpl. lia.
  - destruct (binary_round_faithful false m e emin64) as (q & e'' & -> & Hf); [done..|].
    by apply mk_round_order with (q := q).
  - destruct (binary_round_faithful true m e emin64) as (q & e'' & -> & Hf); [done..|].
    change true with (negb false). rewrite mk_round_opp.
    destruct (mk_round_order m e q e'' (f_opp t)) as [H1 H2]; [done|by apply num_opp|done|].
    rewrite f_val_opp in H1, H2.
    assert (D emin64 (Z.neg m) e = - D emin64 (Z.pos m) e) as -> by (unfold D; lia).
    rewrite <-(f_le_opp t), <-(f_le_opp _ t).
    replace (f_opp (f_opp (mk_round false q e''))) with (mk_round false q e'').
    + split; intros; [apply H2|apply H1]; lia.
    + by rewrite <-!mk_round_opp.
Qed.

Lemma normalize_valid z e s : emin64 ≤ e → valid (binary_normalize prec emax z e s) = true.
Proof.
  intros He. destruct z as [|m|m]; unfold binary_normalize; [done| |].
  - destruct (binary_round_faithful false m e emin64) as (q & e'' & -> & Hf); [done..|].
    by apply mk_round_valid; apply Hf.
  - destruct (binary_round_faithful true m e emin64) as (q & e'' & -> & Hf); [done..|].
    by apply mk_round_valid; apply Hf.
Qed.

(** ** Addition and subtraction *)

Lemma D_cond_Zopp k s m e : D k (cond_Zopp s m) e = cond_Zopp s (D k m e).
Proof. destruct s; unfold D; simpl; lia. Qed.

Lemma D_add k a b e : D k (a + b) e = D k a e + D k b e.
Proof. unfold D. ring. Qed.

(** The sum of two finite floats is the rounding of the exact sum. *)
Lemma f_add_finite sx mx ex sy my ey :
  num (S754_finite sx mx ex) → num (S754_finite sy my ey) →
  ∃ z e, f_add (S754_finite sx mx ex) (S754_finite sy my ey)
         = binary_normalize prec emax z e false
    ∧ emin64 ≤ e
    ∧ D emin64 z e = f_val (S754_finite sx mx ex) + f_val (S754_finite sy my ey).
Proof.
  intros [Hx%valid_emin _] [Hy%valid_emin _].
  unfold f_add, SFadd.
  destruct (shl_align_spec mx ex (Z.min ex ey)) as (m1 & e1 & -> & _ & He1 & HD1).
  destruct (shl_align_spec my ey (Z.min ex ey)) as (m2 & e2 & -> & _ & He2 & HD2).
  simpl fst. eexists _, _. split; [reflexivity|]. split; [lia|].
  rewrite D_add, !D_cond_Zopp. cbn [f_val].
  assert (e1 = Z.min ex ey) as -> by lia. assert (e2 = Z.min ex ey) as -> by lia.
  by rewrite HD1, HD2 by lia.
Qed.

Lemma f_add_order x y t :
  num x → num y → num t →
  (f_val x + f_val y ≤ f_val t → f_le (f_add x y) t = true)
  ∧ (f_val t ≤ f_val x + f_val y → f_le t (f_add x y) = true).
Proof.
  intros Hx Hy Ht.
  destruct x as [sx|sx| |sx mx ex]; try (by destruct Hx).
  - assert (f_add (S754_zero sx) y = y ∨ ∃ s s', y = S754_zero s ∧ f_add (S754_zero sx) y = S754_zero s')
      as [->|(s & s' & -> & ->)].
    { destruct y as [[]|sy| |sy my ey]; try (by destruct Hy); [right|right|by left];
        destruct sx; eauto. }
    + rewrite !f_le_val by done. change (f_val (S754_zero sx)) with 0. lia.
    + assert (num (S754_zero s')) by done. rewrite !f_le_val by done. simpl. lia.
  - destruct y as [sy|sy| |sy my ey]; try (by destruct Hy).
    + change (f_add (S754_finite sx mx ex) (S754_zero sy)) with (S754_finite sx mx ex).
      rewrite !f_le_val by done. change (f_val (S754_zero sy)) with 0. lia.
    + destruct (f_add_finite sx mx ex sy my ey) as (z & e & -> & He & <-); [done..|].
      by apply normalize_order.
Qed.

Lemma f_add_le x y t :
  num x → num y → num t → f_val x + f_val y ≤ f_val t → f_le (f_add x y) t = true.
Proof. intros. by apply f_add_order. Qed.

Lemma f_add_ge x y t :
  num x → num y → num t → f_val t ≤ f_val x + f_val y → f_le t (f_add x y) = true.
Proof. intros. by apply f_add_order. Qed.

Lemma f_sub_add x y : f_sub x y = f_add x (f_opp y).
Proof.
  destruct x as [[]|[]| |sx mx ex], y as [[]|[]| |sy my ey]; try done.
  unfold f_sub, f_add, f_opp, SFsub, SFadd, SFopp. f_equal.
  by destruct sy; simpl; lia.
Qed.

Lemma f_sub_order x y t :
  num x → num y → num t →
  (f_val x - f_val y ≤ f_val t → f_le (f_sub x y) t = true)
  ∧ (f_val t ≤ f_val x - f_val y → f_le t (f_sub x y) = true).
Proof.
  intros Hx Hy Ht. rewrite f_sub_add.
  destruct (f_add_order x (f_opp y) t) as [H1 H2]; [done|by apply num_opp|done|].
  rewrite f_val_opp in H1, H2. split; intros; [apply H1|apply H2]; lia.
Qed.

Lemma f_add_valid x y : valid x = true → valid y = true → valid (f_add x y) = true.
Proof.
  intros Hx Hy.
  destruct x as [[]|[]| |sx mx ex], y as [[]|[]| |sy my ey]; try done.
  destruct (f_add_finite sx mx ex sy my ey) as (z & e & -> & He & _); [done..|].
  by apply normalize_valid.
Qed.

Lemma f_sub_valid x y : valid x = true → valid y = true → valid (f_sub x y) = true.
Proof. intros. rewrite f_sub_add. apply f_add_valid; by rewrite ?valid_opp. Qed.

(** A float between two numbers is a number. *)
Lemma f_between_num a x b :
  num a → num b → valid x = true → f_le a x = true → f_le x b = true → num x.
Proof.
  intros [Va Fa] [Vb Fb] Vx H1 H2. split; [done|].
  destruct x as [|[]| |]; try done;
    destruct a as [|[]| |[]]; try done; by destruct b as [|[]| |[]].
Qed.

Definition f_max_float : float := S754_finite false (2 ^ 53 - 1) 971.

Lemma f_max_float_num : num f_max_float.
Proof. split; vm_compute; reflexivity. Qed.

(** ** Multiplication by one *)

Definition f_one : float := S754_finite false (2 ^ 52) (-52).

Lemma canon_unique k m1 e1 m2 e2 :
  k ≤ e1 → k ≤ e2 → canon (Z.pos m1) e1 → canon (Z.pos m2) e2 →
  D k (Z.pos m1) e1 = D k (Z.pos m2) e2 → m1 = m2 ∧ e1 = e2.
Proof.
  intros H1 H2 C1 C2 HD.
  pose proof (D_compare k m1 e1 m2 e2 H1 H2 C1 C2) as HC.
  rewrite HD, Z.compare_refl in HC.
  destruct (Z.compare_spec e1 e2) as [->| |]; try done.
  symmetry in HC. apply Z.compare_eq in HC. by simplify_eq.
Qed.

Lemma round_aux_exact s m e m' e' k :
  k ≤ e → k ≤ emin64 → e ≤ fexp64 (Z.pos (digits2_pos m) + e) →
  valid (S754_finite s m' e') = true → D k (Z.pos m) e = D k (Z.pos m') e' →
  binary_round_aux prec emax s (Z.pos m) e loc_Exact = S754_finite s m' e'.
Proof.
  intros Hke Hk He Hv HD.
  destruct (round_aux_faithful s m e k) as (q & e'' & -> & Hq & Hc & Hem & Hup & Hlo); [done..|].
  pose proof (valid_emin _ _ _ Hv) as He'. pose proof (valid_canon _ _ _ Hv) as Hc'.
  assert (D k q e'' = D k (Z.pos m') e') as HDq.
  { apply Z.le_antisymm; [apply Hup|apply Hlo]; try done; lia. }
  destruct q as [|q|q]; [|
    |lia].
  - pose proof (D_pos k m' e' ltac:(lia)). change (D k 0 e'') with 0 in HDq. lia.
  - apply canon_unique in HDq as [-> ->]; [|lia|lia|done|done].
    apply valid_finite_inv in Hv as [_ Hv].
    unfold mk_round. by rewrite (proj2 (Z.leb_le e' 971)).
Qed.

Lemma f_mul_one_sign s x :
  num x → f_mul x (S754_finite s (2 ^ 52) (-52)) = if s then f_opp x else x.
Proof.
  intros [Hv Hf]. destruct x as [sx|sx| |sx m e]; try done.
  - by destruct s, sx.
  - unfold f_mul, SFmul.
    assert (Z.pos (m * 2 ^ 52) = Z.pos m * 2 ^ 52) as Hm by done.
    assert (Z.pos (digits2_pos (m * 2 ^ 52)) = Z.pos (digits2_pos m) + 52) as Hd.
    { apply digits2_unique; [lia|]. rewrite Hm.
      pose proof (digits2_bounds m) as [Hl Hu].
      replace (Z.pos (digits2_pos m) + 52 - 1) with ((Z.pos (digits2_pos m) - 1) + 52) by lia.
      rewrite !pow2_add by lia. lia. }
    pose proof (valid_finite_inv _ _ _ Hv) as [Hc _].
    pose proof (valid_emin _ _ _ Hv) as He.
    rewrite round_aux_exact with (m' := m) (e' := e) (k := Z.min (e + -52) emin64);
      [|lia|lia| |exact Hv|].
    + by destruct s, sx.
    + rewrite Hd. replace (Z.pos (digits2_pos m) + 52 + (e + -52))
        with (Z.pos (digits2_pos m) + e) by lia. lia.
    + rewrite Hm, <-D_shift by lia. by replace (e + -52 + 52) with e by lia.
Qed.

(** ** Exact results, in any format

    A number that the format of precision [p] and bound [x] represents
    rounds to itself. *)

Lemma digits2_mul_pow2 m m' n :
  0 ≤ n → Z.pos m = Z.pos m' * 2 ^ n →
  Z.pos (digits2_pos m) = Z.pos (digits2_pos m') + n.
Proof.
  intros Hn Hm. apply digits2_unique; [lia|]. rewrite Hm.
  pose proof (digits2_bounds m') as [Hl Hu].
  replace (Z.pos (digits2_pos m') + n - 1) with ((Z.pos (digits2_pos m') - 1) + n) by lia.
  rewrite !pow2_add by lia. pose proof (pow2_pos n Hn). nia.
Qed.

Lemma shr_fexp_id p x m e :
  fexp p x (Zdigits2 m + e) = e →
  shr_fexp p x m e loc_Exact = (shr_record_of_loc m loc_Exact, e).
Proof. intros H. unfold shr_fexp. by rewrite H, Z.sub_diag. Qed.

Lemma binary_round_aux_exact p x s m e m' e' :
  fexp p x (Z.pos (digits2_pos m') + e') = e' → e' ≤ x - p →
  e ≤ e' → Z.pos m = Z.pos m' * 2 ^ (e' - e) →
  binary_round_aux p x s (Z.pos m) e loc_Exact = S754_finite s m' e'.
Proof.
  intros Hc Hx He Hm. unfold binary_round_aux.
  assert (fexp p x (Zdigits2 (Z.pos m) + e) = e') as Hf.
  { rewrite Zdigits2_pos, (digits2_mul_pow2 m m' (e' - e)) by (done || lia).
    by replace (Z.pos (digits2_pos m') + (e' - e) + e) with (Z.pos (digits2_pos m') + e') by lia. }
  assert (∃ r, shr_fexp p x (Z.pos m) e loc_Exact = (r, e')
    ∧ shr_m r = Z.pos m' ∧ inexact r = false) as (r & -> & Hr & Hx0).
  { unfold shr_fexp. rewrite Hf. unfold shr.
    destruct (e' - e) as [|n|n] eqn:En; [| |lia].
    - exists (shr_record_of_loc (Z.pos m) loc_Exact).
      rewrite Z.pow_0_r, Z.mul_1_r in Hm. rewrite Hm. split_and!; try done. f_equal. lia.
    - eexists. split; [f_equal; lia|]. rewrite iter_pos_nat.
      destruct (shr_iter_spec (Pos.to_nat n) (shr_record_of_loc (Z.pos m) loc_Exact))
        as [-> ->]; [done|].
      rewrite positive_nat_Z. simpl shr_m. rewrite Hm.
      pose proof (pow2_pos (Z.pos n) ltac:(lia)).
      by rewrite Z.div_mul, Z.mod_mul by lia. }
  rewrite Hr. destruct (rne_spec (Z.pos m') r) as [_ Hq]. rewrite (Hq Hx0).
  rewrite shr_fexp_id by (by rewrite Zdigits2_pos).
  simpl. by rewrite (proj2 (Z.leb_le _ _) Hx).
Qed.

Lemma binary_round_exact p x s m e m' e' :
  fexp p x (Z.pos (digits2_pos m') + e') = e' → e' ≤ x - p →
  (e ≤ e' ∧ Z.pos m = Z.pos m' * 2 ^ (e' - e))
  ∨ (e' < e ∧ Z.pos m' = Z.pos m * 2 ^ (e - e')) →
  binary_round p x s m e = S754_finite s m' e'.
Proof.
  intros Hc Hx [[He Hm]|[He Hm]]; unfold binary_round.
  - rewrite (digits2_mul_pow2 m m' (e' - e)) by (done || lia).
    replace (Z.pos (digits2_pos m') + (e' - e) + e) with (Z.pos (digits2_pos m') + e') by lia.
    rewrite Hc. unfold shl_align. destruct (e' - e) as [|n|n] eqn:En; try lia;
      (apply binary_round_aux_exact; [done..|by rewrite En]).
  - assert (Z.pos (digits2_pos m') = Z.pos (digits2_pos m) + (e - e')) as Hd
      by (apply digits2_mul_pow2; [lia|done]).
    replace (Z.pos (digits2_pos m) + e) with (Z.pos (digits2_pos m') + e') by lia.
    rewrite Hc. unfold shl_align. destruct (e' - e) as [|n|n] eqn:En; try lia.
    assert (Pos.iter xO m n = m') as ->.
    { apply Pos2Z.inj. rewrite Zpos_iter_xO, Hm. do 2 f_equal. lia. }
    apply binary_round_aux_exact; [done..|]. by rewrite Z.sub_diag, Z.mul_1_r.
Qed.

(** ** Integers and products *)

(** An integer of at most 53 bits is a float. *)
Lemma f_of_Z_exact z :
  Z.abs z < 2 ^ 53 → num (f_of_Z z) ∧ f_val (f_of_Z z) = D emin64 z 0.
Proof.
  assert (∀ s m, Z.pos m < 2 ^ 53 → ∃ m' e', binary_round prec emax s m 0 = S754_finite s m' e'
    ∧ num (S754_finite s m' e') ∧ D emin64 (Z.pos m') e' = D emin64 (Z.pos m) 0) as Hpos.
  { intros s m Hm. pose proof (digits2_bounds m) as [Hl Hu].
    set (d := Z.pos (digits2_pos m)) in *.
    assert (d - 1 < 53) by (apply (Z.pow_lt_mono_r_iff 2); lia).
    assert (0 < 2 ^ (53 - d)) by (apply pow2_pos; lia).
    set (m' := Z.to_pos (Z.pos m * 2 ^ (53 - d))).
    assert (Z.pos m' = Z.pos m * 2 ^ (53 - d)) as Hm' by (apply Z2Pos.id; nia).
    assert (Z.pos (digits2_pos m') = 53) as Hd'.
    { rewrite (digits2_mul_pow2 m' m (53 - d)) by (done || lia). unfold d. lia. }
    exists m', (d - 53). split_and!.
    - assert (1 ≤ d) by (unfold d; lia).
      apply (binary_round_exact prec emax s m 0 m' (d - 53)).
      + rewrite Hd'. unfold fexp, emin, prec, emax. lia.
      + unfold prec, emax. lia.
      + destruct (Z.eq_dec d 53) as [->|Hne]; [left|right].
        * split; [lia|]. rewrite Hm'. change (53 - 53) with 0. rewrite Z.sub_0_r, Z.pow_0_r. lia.
        * split; [lia|]. rewrite Hm'. f_equal. f_equal. lia.
    - split; [|done]. unfold valid, valid_binary, bounded, canonical_mantissa.
      apply andb_true_iff. rewrite Hd'. unfold fexp, emin, prec, emax. split; [|apply Z.leb_le; lia].
      apply Z.eqb_eq. assert (1 ≤ d) by (unfold d; lia). lia.
    - rewrite Hm', <-D_shift by (unfold d, emin64; lia). f_equal. lia. }
  intros Hz. unfold f_of_Z. destruct z as [|m|m]; simpl.
  - split; [done|]. unfold D. simpl. lia.
  - destruct (Hpos false m) as (m' & e' & -> & Hn & Hv); [lia|]. split; [done|exact Hv].
  - destruct (Hpos true m) as (m' & e' & -> & Hn & Hv); [lia|]. split; [done|].
    cbn [f_val cond_Zopp]. rewrite Hv. unfold D. lia.
Qed.

Lemma f_mul_finite sx mx ex sy my ey :
  valid (S754_finite sx mx ex) = true → valid (S754_finite sy my ey) = true →
  ∃ q e, f_mul (S754_finite sx mx ex) (S754_finite sy my ey) = mk_round (xorb sx sy) q e ∧ 0 ≤ q.
Proof.
  intros Hx Hy.
  pose proof (valid_emin _ _ _ Hx) as Ex. pose proof (valid_emin _ _ _ Hy) as Ey.
  apply valid_finite_inv in Hx as [Cx _]. apply valid_finite_inv in Hy as [Cy _].
  rewrite fexp64_eq in Cx, Cy.
  unfold f_mul, SFmul.
  destruct (round_aux_faithful (xorb sx sy) (mx * my) (ex + ey) (Z.min (ex + ey) emin64))
    as (q & e & -> & Hq & _); [lia|lia| |by exists q, e].
  pose proof (digits2_bounds mx) as [Lx _]. pose proof (digits2_bounds my) as [Ly _].
  pose proof (digits2_bounds (mx * my)) as [_ Um].
  set (dx := Z.pos (digits2_pos mx)) in *. set (dy := Z.pos (digits2_pos my)) in *.
  set (dm := Z.pos (digits2_pos (mx * my))) in *.
  assert (1 ≤ dx ∧ 1 ≤ dy) as [? ?] by (unfold dx, dy; lia).
  assert (2 ^ (dx - 1 + (dy - 1)) < 2 ^ dm).
  { rewrite pow2_add by lia. rewrite Pos2Z.inj_mul in Um.
    pose proof (pow2_pos (dx - 1) ltac:(lia)). pose proof (pow2_pos (dy - 1) ltac:(lia)).
    apply Z.le_lt_trans with (Z.pos mx * Z.pos my); [apply Z.mul_le_mono_nonneg; lia|lia]. }
  assert (dx - 1 + (dy - 1) < dm) by (apply (Z.pow_lt_mono_r_iff 2); [lia|unfold dm; lia|done]).
  rewrite fexp64_eq. unfold emin64 in *. lia.
Qed.

(** A product that is not at most zero has two factors of one sign. *)
Lemma f_mul_positive x y :
  num x → num y → f_le (f_mul x y) f_zero = false →
  (f_lt f_zero x = true ∧ f_lt f_zero y = true) ∨ (f_lt x f_zero = true ∧ f_lt y f_zero = true).
Proof.
  intros [Vx Fx] [Vy Fy].
  destruct x as [sx|sx| |sx mx ex]; try done; destruct y as [sy|sy| |sy my ey]; try done.
  destruct (f_mul_finite sx mx ex sy my ey Vx Vy) as (q & e & -> & Hq).
  destruct sx, sy; simpl; try (by left); try (by right);
    destruct q as [|q|q]; try done; simpl; by destruct (e <=? 971).
Qed.
