(* ===== verification/PyValue.v ===== *)
(** * Python values, as far as the object dictionary holds them

    A value of the object dictionary is an [int], [float], [bool], [str] or
    [bytes].  This file gives the operators the program applies to such
    values, with the exceptions Python raises: [int], [float], [abs],
    subtraction and addition of numbers (an [int] meeting a [float] is
    converted), exact mixed comparison, equality, truncation and rounding,
    and the [str]/[bytes] helpers ([strip], [lower], [upper], [in],
    hexadecimal text).  A [str] is its UTF-8 text. *)

From Stdlib Require Export Ascii Strings.Byte.
From S2P Require Export Prelude PyFloat.

Inductive pyval :=
  | PInt (z : Z)
  | PFloat (f : float)
  | PBool (b : bool)
  | PStr (s : string)
  | PBytes (bs : list byte).

#[export] Instance byte_eq_dec : EqDecision byte := Byte.byte_eq_dec.
#[export] Instance float_eq_dec : EqDecision float.
Proof. solve_decision. Defined.
#[export] Instance pyval_eq_dec : EqDecision pyval.
Proof. solve_decision. Defined.

(** ** Text helpers (ASCII) *)

Module Text.
Definition code (a : Ascii.ascii) : Z := Z.of_N (Ascii.N_of_ascii a).
Definition chr (z : Z) : Ascii.ascii := Ascii.ascii_of_N (Z.to_N z).

(** The characters [str.strip] removes, ASCII part. *)
Definition is_space (a : Ascii.ascii) : bool :=
  let c := code a in (c =? 32) || ((9 <=? c) && (c <=? 13)) || ((28 <=? c) && (c <=? 31)).

Definition is_digit (a : Ascii.ascii) : bool := (48 <=? code a) && (code a <=? 57).

Definition lower1 (a : Ascii.ascii) : Ascii.ascii :=
  if (65 <=? code a) && (code a <=? 90) then chr (code a + 32) else a.
Definition upper1 (a : Ascii.ascii) : Ascii.ascii :=
  if (97 <=? code a) && (code a <=? 122) then chr (code a - 32) else a.

Fixpoint map (f : Ascii.ascii → Ascii.ascii) (s : string) : string :=
  match s with
  | EmptyString => EmptyString
  | String.String a s => String.String (f a) (map f s)
  end.

Definition lower (s : string) : string := map lower1 s.
Definition upper (s : string) : string := map upper1 s.

Fixpoint lstrip (s : string) : string :=
  match s with
  | String.String a s' => if is_space a then lstrip s' else s
  | EmptyString => EmptyString
  end.

Fixpoint rstrip (s : string) : string :=
  match s with
  | String.String a s' =>
      match rstrip s' with
      | EmptyString => if is_space a then EmptyString else String.String a EmptyString
      | t => String.String a t
      end
  | EmptyString => EmptyString
  end.

Definition strip (s : string) : string := rstrip (lstrip s).

Fixpoint starts_with (p s : string) : bool :=
  match p, s with
  | EmptyString, _ => true
  | String.String a p, String.String b s => Ascii.eqb a b && starts_with p s
  | _, _ => false
  end.

(** [needle in s]. *)
Fixpoint contains (needle s : string) : bool :=
  starts_with needle s ||
  match s with
  | EmptyString => false
  | String.String _ s' => contains needle s'
  end.

Definition bytes_of (s : string) : list byte := String.list_byte_of_string s.
Definition of_bytes (bs : list byte) : string := String.string_of_list_byte bs.
End Text.

(** ** [int(x)] of a text: optional sign, digits with single underscores *)

Fixpoint digits_Z (acc : Z) (under : bool) (s : string) : option Z :=
  match s with
  | EmptyString => if under then None else Some acc
  | String.String a s =>
      if Text.is_digit a then digits_Z (10 * acc + (Text.code a - 48)) false s
      else if Ascii.eqb a "_"%char && negb under then digits_Z acc true s
      else None
  end.

Definition parse_int (s : string) : option Z :=
  match Text.strip s with
  | EmptyString => None
  | String.String a s' as t =>
      if Ascii.eqb a "-"%char then Z.opp <$> digits_Z 0 true s'
      else if Ascii.eqb a "+"%char then digits_Z 0 true s'
      else digits_Z 0 true t
  end.

(** ** Conversions *)

Definition of_option {A} (e : exn) (o : option A) : outcome A :=
  match o with Some a => Ret a | None => Raise e end.

(** [float(n)] raises [OverflowError] when the rounding is infinite. *)
Definition float_of_Z (n : Z) : outcome float :=
  match f_of_Z n with
  | S754_infinity _ => Raise OverflowError
  | f => Ret f
  end.

(** [int(f)] for a float: NaN is a [ValueError], an infinity an
    [OverflowError]. *)
Definition int_of_float (f : float) : outcome Z :=
  match f with
  | S754_nan => Raise ValueError
  | S754_infinity _ => Raise OverflowError
  | _ => of_option ValueError (f_trunc f)
  end.

(** [round(f)] for a float. *)
Definition round_float (f : float) : outcome Z :=
  match f with
  | S754_nan => Raise ValueError
  | S754_infinity _ => Raise OverflowError
  | _ => of_option ValueError (f_round f)
  end.

Definition Z_of_bool (b : bool) : Z := if b then 1 else 0.

Definition py_int (v : pyval) : outcome Z :=
  match v with
  | PInt z => Ret z
  | PBool b => Ret (Z_of_bool b)
  | PFloat f => int_of_float f
  | PStr s => of_option ValueError (parse_int s)
  | PBytes bs => of_option ValueError (parse_int (Text.of_bytes bs))
  end.

(** A number as Python's arithmetic sees it. *)
Inductive number :=
  | NInt (z : Z)
  | NFloat (f : float).

Definition py_number (v : pyval) : outcome number :=
  match v with
  | PInt z => Ret (NInt z)
  | PBool b => Ret (NInt (Z_of_bool b))
  | PFloat f => Ret (NFloat f)
  | PStr _ | PBytes _ => Raise TypeError
  end.

Definition number_val (n : number) : pyval :=
  match n with NInt z => PInt z | NFloat f => PFloat f end.

Definition number_float (n : number) : outcome float :=
  match n with NInt z => float_of_Z z | NFloat f => Ret f end.

(** ** [float(x)] of a text: a decimal literal, [inf] or [nan] *)

(** A run of digits: its value, its length and the rest of the text. *)
Fixpoint digit_run (acc n : Z) (s : string) : Z * Z * string :=
  match s with
  | String.String a s' =>
      if Text.is_digit a then digit_run (10 * acc + (Text.code a - 48)) (n + 1) s'
      else if Ascii.eqb a "_"%char && (0 <? n) then
        match s' with
        | String.String b s'' =>
            if Text.is_digit b
            then digit_run (10 * acc + (Text.code b - 48)) (n + 1) s''
            else (acc, n, s)
        | EmptyString => (acc, n, s)
        end
      else (acc, n, s)
  | EmptyString => (acc, n, s)
  end.

Definition parse_exponent (s : string) : option Z :=
  match s with
  | EmptyString => Some 0
  | String.String a s' =>
      if Ascii.eqb a "e"%char then
        let '(neg, t) :=
          match s' with
          | String.String b t =>
              if Ascii.eqb b "-"%char then (true, t)
              else if Ascii.eqb b "+"%char then (false, t) else (false, s')
          | EmptyString => (false, s')
          end in
        match digit_run 0 0 t with
        | (v, n, EmptyString) => if 0 <? n then Some (if neg : bool then - v else v) else None
        | _ => None
        end
      else None
  end.

Definition parse_ufloat (s : string) : option float :=
  if String.eqb s "inf" || String.eqb s "infinity" then Some (S754_infinity false)
  else if String.eqb s "nan" then Some S754_nan
  else
    let '(i, ni, t) := digit_run 0 0 s in
    let '(m, nf, t') :=
      match t with
      | String.String a u =>
          if Ascii.eqb a "."%char then
            let '(m, n, t') := digit_run i 0 u in (m, n, t')
          else (i, 0, t)
      | EmptyString => (i, 0, t)
      end in
    if ni + nf =? 0 then None
    else e ← parse_exponent t'; Some (f_dec m (e - nf)).

Definition parse_float (s : string) : option float :=
  let t := Text.lower (Text.strip s) in
  match t with
  | String.String a u =>
      if Ascii.eqb a "-"%char then f_opp <$> parse_ufloat u
      else if Ascii.eqb a "+"%char then parse_ufloat u
      else parse_ufloat t
  | EmptyString => None
  end.

Definition py_float (v : pyval) : outcome float :=
  match v with
  | PInt z => float_of_Z z
  | PBool b => float_of_Z (Z_of_bool b)
  | PFloat f => Ret f
  | PStr s => of_option ValueError (parse_float s)
  | PBytes bs => of_option ValueError (parse_float (Text.of_bytes bs))
  end.

(** ** Operators *)

(** [a op b] on two numbers: on integers if both are, else on floats. *)
Definition arith (fz : Z → Z → Z) (ff : float → float → float)
    (a b : pyval) : outcome pyval :=
  x ← py_number a; y ← py_number b;
  match x, y with
  | NInt m, NInt n => mret (PInt (fz m n))
  | _, _ => f ← number_float x; g ← number_float y; mret (PFloat (ff f g))
  end.

Definition py_add : pyval → pyval → outcome pyval := arith Z.add f_add.
Definition py_sub : pyval → pyval → outcome pyval := arith Z.sub f_sub.
Definition py_mul : pyval → pyval → outcome pyval := arith Z.mul f_mul.

Definition py_abs (a : pyval) : outcome pyval :=
  x ← py_number a;
  mret match x with NInt z => PInt (Z.abs z) | NFloat f => PFloat (f_abs f) end.

Definition number_cmp (x y : number) : option comparison :=
  match x, y with
  | NInt m, NInt n => Some (Z.compare m n)
  | NFloat f, NFloat g => f_cmp f g
  | NInt m, NFloat g => f_cmp_Z m g
  | NFloat f, NInt n => CompOpp <$> f_cmp_Z n f
  end.

(** The float operand of an arithmetic operator between a number and a float. *)
Definition py_operand (a : pyval) : outcome float := x ← py_number a; number_float x.

(** [a < b] and [a <= b] between numbers; a text meeting a number is a
    [TypeError]. *)
Definition py_cmp (a b : pyval) : outcome (option comparison) :=
  x ← py_number a; y ← py_number b; mret (number_cmp x y).

Definition py_lt (a b : pyval) : outcome bool :=
  c ← py_cmp a b; mret match c with Some Lt => true | _ => false end.
Definition py_le (a b : pyval) : outcome bool :=
  c ← py_cmp a b; mret match c with Some Lt | Some Eq => true | _ => false end.

(** [a == b] never raises: numbers by value, texts by content. *)
Definition py_eq (a b : pyval) : bool :=
  match a, b with
  | PStr s, PStr t => String.eqb s t
  | PBytes s, PBytes t => bool_decide (s = t)
  | _, _ =>
      match py_number a, py_number b with
      | Ret x, Ret y => match number_cmp x y with Some Eq => true | _ => false end
      | _, _ => false
      end
  end.

(** [a & mask] for an integer mask. *)
Definition py_and (a : pyval) (mask : Z) : outcome Z :=
  match a with
  | PInt z => Ret (Z.land z mask)
  | PBool b => Ret (Z.land (Z_of_bool b) mask)
  | _ => Raise TypeError
  end.

(** [x / y] on floats: a zero divisor raises. *)
Definition py_div (x y : float) : outcome float :=
  if f_eq y f_zero then Raise ZeroDivisionError else Ret (f_div x y).

(** [x ** 2] of a finite float raises [OverflowError] on overflow. *)
Definition py_square (x : float) : outcome float :=
  let r := f_mul x x in
  match x, r with
  | S754_finite _ _ _, S754_infinity _ => Raise OverflowError
  | _, _ => Ret r
  end.

Example parse_int_examples :
  (parse_int " -12_3 ", parse_int "1__2", parse_int "", parse_int "+7") =
  (Some (-123), None, None, Some 7).
Proof. vm_compute. reflexivity. Qed.

Example parse_float_examples :
  (parse_float " -1.5e1 ", parse_float ".", parse_float "1e", parse_float ".5") =
  (Some (f_dec (-15) 0), None, None, Some (f_dec 5 (-1))).
Proof. vm_compute. reflexivity. Qed.

Example mixed_compare :
  py_lt (PInt (2 ^ 53 + 1)) (PFloat (f_dec (2 ^ 53) 0)) = Ret false ∧
  py_lt (PFloat (f_dec (2 ^ 53) 0)) (PInt (2 ^ 53 + 1)) = Ret true.
Proof. split; vm_compute; reflexivity. Qed.
