(* ===== verification/Timing.v ===== *)
(** * The timing samples

    src/functional_model/diagnostics/python_timing.py ([PythonTiming]): samples
    of elapsed and of processor time are summed up by key, and a report of
    the sums is printed when at least a second has passed.

    The three clocks are arguments; every reading has a number, which the
    state counts.  [reports] is what was printed.  A bucket starts with the
    sums 0 as integers, but the first sample is added before anybody sees
    them, so they are floats.

    The theorem: the reports and the open metrics account for every sample
    once, in order. *)

From S2P Require Import Prelude PyFloat.
From S2P Require Export PyValue.

Open Scope string_scope.
Open Scope list_scope.
Open Scope Z_scope.

Record bucket := Bucket {
  count : Z; total_ms : float; cpu_total_ms : float;
  min_ms : float; max_ms : float; cpu_max_ms : float;
}.

(** A bucket with its averages in place of the sums. *)
Record average := Average {
  avg_count : Z; avg_min_ms : float; avg_max_ms : float; avg_cpu_max_ms : float;
  avg_ms : float; cpu_avg_ms : float;
}.

Record report := Report {
  rp_reason : string; rp_axes : Z; rp_unix_ms : float; rp_elapsed_s : float; rp_window_s : float;
  rp_metrics : list (string * average);
}.

Record timing := Timing {
  axes : Z;
  start : Z;
  last : Z;
  metrics : list (string * bucket);
  reads : nat;
  reports : list report;
}.

#[export] Instance timing_eta : Eta timing := λ t,
  Timing (axes t) (start t) (last t) (metrics t) (reads t) (reports t).

(** [n / d] for an integer and a float *)
Definition int_div (n : Z) (d : float) : outcome float := x ← float_of_Z n; mret (f_div x d).

(** The milliseconds between two stamps, elapsed and of the processor. *)
Definition sample_ms (b e : Z * Z) : outcome (float * float) :=
  w ← int_div (e.1 - b.1) (f_dec 1 6); c ← int_div (e.2 - b.2) (f_dec 1 6); mret (w, c).

Definition new_bucket (s : float * float) : bucket := Bucket 0 f_zero f_zero s.1 s.1 s.2.

Definition count_sample (s : float * float) (b : bucket) : bucket :=
  Bucket (count b + 1) (f_add (total_ms b) s.1) (f_add (cpu_total_ms b) s.2)
    (f_min (min_ms b) s.1) (f_max (max_ms b) s.1) (f_max (cpu_max_ms b) s.2).

(** [setdefault] and the update of the bucket *)
Definition put_sample (key : string) (s : float * float) (ms : list (string * bucket)) : list (string * bucket) :=
  dict_set key (count_sample s (default (new_bucket s) (dict_get key ms))) ms.

Definition average_of (kb : string * bucket) : outcome (string * average) :=
  let '(k, b) := kb in
  n ← float_of_Z (count b);
  mret (k, Average (count b) (min_ms b) (max_ms b) (cpu_max_ms b) (f_div (total_ms b) n) (f_div (cpu_total_ms b) n)).

Lemma float_of_Z_small z : Z.abs z ≤ 2 ^ 100 → ∃ f, float_of_Z z = Ret f.
Proof.
  intros Hz. set (top := S754_finite false (2 ^ 52) 48).
  assert (num top) as Ht by (split; vm_compute; reflexivity).
  assert (f_val top = 2 ^ 100 * 2 ^ 1074) as Hv by (vm_compute; reflexivity).
  assert (D emin64 z 0 = z * 2 ^ 1074) as Hd by done.
  assert (0 < 2 ^ 1074) as Hp by (apply pow2_pos; lia).
  destruct (normalize_order z 0 false top) as [H1 _]; [done|done|].
  destruct (normalize_order z 0 false (f_opp top)) as [_ H2]; [done|by apply num_opp|].
  rewrite f_val_opp, Hv, Hd in *.
  assert (num (f_of_Z z)) as [_ Hf].
  { apply (f_between_num (f_opp top) _ top); [by apply num_opp|done|by apply normalize_valid| |].
    - apply H2. nia.
    - apply H1. nia. }
  unfold float_of_Z. destruct (f_of_Z z); try done; by eexists.
Qed.

(** A positive count is a positive float. *)
Lemma float_of_Z_pos z : 0 < z ≤ 2 ^ 100 → ∃ f, float_of_Z z = Ret f ∧ f_eq f f_zero = false.
Proof.
  intros Hz. destruct (float_of_Z_small z) as [f Hf]; [lia|]. exists f. split; [done|].
  set (one := S754_finite false (2 ^ 52) (-52)).
  assert (num one) as H1 by (split; vm_compute; reflexivity).
  assert (f_val one = 2 ^ 1074) as Hv by (vm_compute; reflexivity).
  assert (0 < 2 ^ 1074) as Hp by (apply pow2_pos; lia).
  destruct (normalize_order z 0 false one) as [_ H2]; [done|done|].
  change (D emin64 z 0) with (z * 2 ^ 1074) in H2. rewrite Hv in H2. specialize (H2 ltac:(nia)).
  unfold float_of_Z, f_of_Z in Hf. destruct (binary_normalize prec emax z 0 false) as [[]|[]| |[] m e];
    (try done); injection Hf as <-; first [done|by vm_compute in H2].
Qed.

Section clocks.
Context (perf cpu unix : nat → Z).

Definition next_read : M timing nat := n ← gets reads; reads <~ S n ;; mret n.

(** [stamp()] *)
Definition stamp : M timing (Z * Z) := n ← next_read; m ← next_read; mret (perf n, cpu m).

(** [PythonTiming(axes)] at the first reading *)
Definition new_timing (axes : Z) : timing := Timing axes (perf 0) (perf 0) [] 1 [].

Definition add (key : string) (b e : Z * Z) : M timing () :=
  s ← lift (sample_ms b e); modify (λ t, t <| metrics := put_sample key s (metrics t) |>).

Definition flush (reason : string) : M timing () :=
  ms ← gets metrics;
  match ms with
  | [] => mret tt
  | _ =>
      b ← stamp;
      metrics <~ [] ;;
      avgs ← lift (traverse average_of ms);
      n ← next_read;
      u ← lift (int_div (unix n) (f_dec 1 6));
      t ← gets id;
      el ← lift (int_div (b.1 - start t) (f_dec 1 9));
      w ← lift (int_div (b.1 - last t) (f_dec 1 9));
      modify (λ t, t <| reports := reports t ++ [Report reason (axes t) u el w avgs] |>) ;;
      last <~ b.1 ;;
      e ← stamp;
      add "timing_log" b e
  end.

Definition due : M timing () :=
  n ← next_read; l ← gets last;
  when (1000000000 <=? perf n - l) (flush "interval").

(** ** Every sample is accounted for *)

Inductive call := Add (key : string) (b e : Z * Z) | Due | Flush (reason : string).

Definition make (c : call) : M timing () :=
  match c with Add key b e => add key b e | Due => due | Flush reason => flush reason end.

Abbreviation samples := (list (string * (float * float))).

(** The samples the calls hand in. *)
Definition given_by (c : call) : samples :=
  match c with
  | Add key b e => match sample_ms b e with Ret s => [(key, s)] | Raise _ => [] end
  | _ => []
  end.

Definition summary (l : samples) : list (string * bucket) :=
  foldl (λ ms '(k, s), put_sample k s ms) [] l.

(** The bucket of a sequence of samples. *)
Definition bucket_of (s : float * float) (l : list (float * float)) : bucket :=
  Bucket (Z.of_nat (length l) + 1) (foldl f_add (f_add f_zero s.1) l.*1) (foldl f_add (f_add f_zero s.2) l.*2)
    (foldl f_min (f_min s.1 s.1) l.*1) (foldl f_max (f_max s.1 s.1) l.*1) (foldl f_max (f_max s.2 s.2) l.*2).

Definition samples_of (key : string) (l : samples) : list (float * float) :=
  (filter (λ p, p.1 = key) l).*2.

Lemma summary_snoc l k s : summary (l ++ [(k, s)]) = put_sample k s (summary l).
Proof. unfold summary. by rewrite foldl_app. Qed.

Lemma samples_of_snoc key l k s :
  samples_of key (l ++ [(k, s)]) = samples_of key l ++ (if decide (k = key) then [s] else []).
Proof.
  unfold samples_of. rewrite filter_app, fmap_app, filter_cons, filter_nil.
  case_decide as H1; case_decide as H2; cbn in H1; try done; by destruct H2.
Qed.

Lemma bucket_of_snoc s l s' : bucket_of s (l ++ [s']) = count_sample s' (bucket_of s l).
Proof.
  unfold bucket_of, count_sample. cbn. rewrite !fmap_app, !foldl_app, length_app. cbn. f_equal. lia.
Qed.

Lemma summary_get key l :
  dict_get key (summary l) =
  match samples_of key l with [] => None | s :: ss => Some (bucket_of s ss) end.
Proof.
  induction l as [|[k s] l IH] using rev_ind; [done|].
  rewrite summary_snoc, samples_of_snoc. unfold put_sample. rewrite dict_get_set.
  destruct (decide (key = k)) as [<-|Hne].
  - rewrite decide_True by done. f_equal. rewrite IH. destruct (samples_of key l) as [|s0 ss]; [done|].
    cbn [app default]. by rewrite bucket_of_snoc.
  - rewrite decide_False by done. by rewrite IH, app_nil_r.
Qed.

(** The segments of the reports and the open one. *)
Record accounts (t : timing) (segs : list samples) (open : samples) : Prop := {
  ac_open : metrics t = summary open;
  ac_reports : Forall2 (λ r seg, traverse average_of (summary seg) = Ret (rp_metrics r) ∧ seg ≠ []
    ∧ rp_axes r = axes t) (reports t) segs;
}.

Definition foreign (p : string * (float * float)) : bool := negb (String.eqb p.1 "timing_log").

Lemma add_accounts key b e t t' segs open :
  accounts t segs open → add key b e t = (Ret tt, t') →
  ∃ s, sample_ms b e = Ret s ∧ axes t' = axes t ∧ accounts t' segs (open ++ [(key, s)]).
Proof.
  intros [Ho Hr] E. unfold add in E. rewrite lift_bind in E. destruct (sample_ms b e) as [s|]; [|done].
  injection E as <-. exists s. split_and!; [done|done|]. split; [|exact Hr]. cbn. by rewrite Ho, summary_snoc.
Qed.

Lemma accounts_frame t t' segs open :
  accounts t segs open → metrics t' = metrics t → reports t' = reports t → axes t' = axes t →
  accounts t' segs open.
Proof. intros [Ho Hr] Hm Hp Ha. split; [by rewrite Hm|by rewrite Hp, Ha]. Qed.

Lemma flush_accounts reason t t' segs open :
  accounts t segs open → flush reason t = (Ret tt, t') →
  ∃ segs' open', axes t' = axes t ∧ accounts t' segs' open'
    ∧ filter foreign (concat segs' ++ open') = filter foreign (concat segs ++ open).
Proof.
  intros Ha E. unfold flush in E. rewrite bind_gets in E. destruct (metrics t) as [|m ms] eqn:Hm.
  { injection E as <-. by exists segs, open. }
  rewrite <-Hm in E. destruct Ha as [Ho Hr].
  apply bind_Ret_inv in E as (b & t1 & H1 & E). injection H1 as Hb <-.
  apply bind_Ret_inv in E as (? & t2 & H2 & E). injection H2 as _ <-.
  rewrite lift_bind in E. destruct (traverse average_of (metrics t)) as [avgs|] eqn:Havg; [|done].
  apply bind_Ret_inv in E as (n & t3 & H3 & E). injection H3 as _ <-.
  rewrite lift_bind in E. destruct (int_div (unix n) _) as [u|]; [|done]. rewrite bind_gets, lift_bind in E.
  destruct (int_div _ _) as [el|]; [|done]. rewrite lift_bind in E. destruct (int_div _ _) as [w|]; [|done].
  apply bind_Ret_inv in E as (? & t4 & H4 & E). injection H4 as _ <-.
  apply bind_Ret_inv in E as (? & t5 & H5 & E). injection H5 as _ <-.
  apply bind_Ret_inv in E as (e & t6 & H6 & E). injection H6 as _ <-.
  apply (add_accounts _ _ _ _ _ (segs ++ [open]) []) in E as (s & _ & Hx & Ha).
  - exists (segs ++ [open]), [("timing_log", s)]. split_and!; [exact Hx|exact Ha|].
    rewrite concat_app, filter_app. cbn [concat]. rewrite app_nil_r. change (filter foreign [("timing_log", s)]) with (@nil (string * (float * float))). by rewrite app_nil_r.
  - split; [done|]. cbn. apply Forall2_app; [exact Hr|]. constructor; [|constructor]. cbn.
    split_and!; [by rewrite <-Ho| |done]. intros ->. by rewrite Ho in Hm.
Qed.

(** No sample is lost and none is counted twice.  After any sequence of calls
    that return, the samples handed in are cut into segments: one for each
    printed report, whose averages are those of the buckets of its segment,
    and an open one, whose buckets are the metrics; [summary_get] says what
    a bucket is.  The samples of the reports themselves, [timing_log], come
    on top. *)
Theorem samples_accounted n calls t :
  mapM_ make calls (new_timing n) = (Ret tt, t) →
  ∃ segs open, axes t = n ∧ accounts t segs open
    ∧ filter foreign (concat segs ++ open) = filter foreign (concat (map given_by calls)).
Proof.
  assert (∀ t0 segs open, accounts t0 segs open → mapM_ make calls t0 = (Ret tt, t) →
    ∃ segs' open', axes t = axes t0 ∧ accounts t segs' open'
      ∧ filter foreign (concat segs' ++ open')
        = filter foreign (concat segs ++ open) ++ filter foreign (concat (map given_by calls))) as H.
  { induction calls as [|c calls IH]; intros t0 segs open Ha E; cbn [mapM_] in E.
    { injection E as <-. exists segs, open. by rewrite app_nil_r. }
    apply bind_Ret_inv in E as ([] & t1 & Hc & E).
    assert (∃ segs' open', axes t1 = axes t0 ∧ accounts t1 segs' open'
      ∧ filter foreign (concat segs' ++ open') = filter foreign (concat segs ++ open) ++ filter foreign (given_by c))
      as (segs1 & open1 & Hx1 & Ha1 & E1).
    { destruct c as [key b e| |reason]; cbn [make given_by] in Hc |- *.
      - apply (add_accounts _ _ _ _ _ _ _ Ha) in Hc as (s & -> & Hx1 & Ha1). exists segs, (open ++ [(key, s)]).
        split_and!; [exact Hx1|exact Ha1|]. by rewrite app_assoc, filter_app.
      - unfold due in Hc. apply bind_Ret_inv in Hc as (k & t2 & H2 & Hc). injection H2 as _ <-.
        rewrite bind_gets in Hc. rewrite app_nil_r. destruct (_ <=? _); cbn [when] in Hc.
        + apply (flush_accounts _ _ _ segs open) in Hc; [done|]. by apply (accounts_frame t0).
        + injection Hc as <-. exists segs, open. split_and!; [done| |done]. by apply (accounts_frame t0).
      - rewrite app_nil_r. by apply (flush_accounts _ _ _ segs open) in Hc. }
    destruct (IH _ _ _ Ha1 E) as (segs2 & open2 & Hx2 & Ha2 & E2). exists segs2, open2. split_and!; [congruence|exact Ha2|].
    rewrite E2, E1, <-app_assoc. f_equal. cbn [map concat]. symmetry. apply filter_app. }
  intros E. destruct (H (new_timing n) [] []) as (segs & open & Hx & Ha & Heq); [by split; [|constructor]|done|].
  by exists segs, open.
Qed.
End clocks.
