(* ===== verification/PyText.v ===== *)
(** * Text forms of Python values: [str(x)], [repr(x)], hexadecimal

    [py_str] is [str(value)] on the values of the object dictionary; the
    [repr] of a float is the shortest decimal that reads back as the same
    float.  [hex] and [fromhex] are [bytes.hex] and [bytes.fromhex], the wire
    form of every payload; [fmt_hex] is the format [f'{n:04x}']. *)

From S2P Require Import Prelude PyFloat.
From S2P Require Export PyValue.

Open Scope string_scope.
Open Scope Z_scope.

Definition digit_char (n : Z) : Ascii.ascii :=
  if n <? 10 then Text.chr (48 + n) else Text.chr (87 + n).

(** Digits of a non-negative integer in a base, most significant first. *)
Fixpoint digits_base (base : Z) (fuel : nat) (n : Z) (acc : string) : string :=
  match fuel with
  | O => acc
  | S fuel =>
      let acc := String.String (digit_char (n mod base)) acc in
      if n / base =? 0 then acc else digits_base base fuel (n / base) acc
  end.

(** Enough fuel for every digit: one more than the binary length. *)
Definition to_base (base n : Z) : string :=
  digits_base base (S (Z.to_nat (Z.log2 n))) n "".

Definition str_Z (n : Z) : string :=
  if n <? 0 then "-" ++ to_base 10 (- n) else to_base 10 n.

Fixpoint replicate_char (a : Ascii.ascii) (n : nat) : string :=
  match n with O => "" | S n => String.String a (replicate_char a n) end.

Definition zeros (n : Z) : string := replicate_char "0" (Z.to_nat n).

Definition pad_left (width : Z) (s : string) : string :=
  zeros (width - Z.of_nat (String.length s)) ++ s.

(** [f'{n:0<width>x}'] *)
Definition fmt_hex (width n : Z) : string :=
  if n <? 0 then "-" ++ pad_left (width - 1) (to_base 16 (- n))
  else pad_left width (to_base 16 n).

Definition byte_Z (b : byte) : Z := Z.of_N (Byte.to_N b).

Definition hex_byte (b : byte) : string :=
  String.String (digit_char (byte_Z b / 16))
    (String.String (digit_char (byte_Z b mod 16)) EmptyString).

(** [bytes.hex()] *)
Fixpoint hex (bs : list byte) : string :=
  match bs with
  | [] => ""
  | b :: bs => hex_byte b ++ hex bs
  end.

Definition hex_digit (a : Ascii.ascii) : option Z :=
  let c := Text.code a in
  if (48 <=? c) && (c <=? 57) then Some (c - 48)
  else if (97 <=? c) && (c <=? 102) then Some (c - 87)
  else if (65 <=? c) && (c <=? 70) then Some (c - 55)
  else None.

(** [bytes.fromhex(s)]: pairs of digits, blanks between pairs skipped;
    anything else is a [ValueError]. *)
Fixpoint fromhex_aux (fuel : nat) (s : string) : option (list byte) :=
  match fuel with
  | O => None
  | S fuel =>
      match s with
      | EmptyString => Some []
      | String.String a s' =>
          if Text.is_space a && (Text.code a <? 28) || (Text.code a =? 32)
          then fromhex_aux fuel s'
          else
            match s' with
            | EmptyString => None
            | String.String b s'' =>
                h ← hex_digit a; l ← hex_digit b;
                c ← Byte.of_N (Z.to_N (16 * h + l));
                r ← fromhex_aux fuel s''; Some (c :: r)
            end
      end
  end.

Definition fromhex (s : string) : outcome (list byte) :=
  of_option ValueError (fromhex_aux (S (String.length s)) s).

(** ** [repr] of bytes and floats *)

Definition has_byte (c : Z) (bs : list byte) : bool :=
  existsb (λ b, byte_Z b =? c) bs.

Definition repr_byte (quote : Z) (b : byte) : string :=
  let c := byte_Z b in
  if c =? 9 then "\t" else if c =? 10 then "\n" else if c =? 13 then "\r"
  else if (c =? quote) || (c =? 92) then
    String.String (Text.chr 92) (String.String (Text.chr c) EmptyString)
  else if (32 <=? c) && (c <? 127) then String.String (Text.chr c) EmptyString
  else "\x" ++ hex_byte b.

Definition repr_bytes (bs : list byte) : string :=
  let quote := if has_byte 39 bs && negb (has_byte 34 bs) then 34 else 39 in
  let q := String.String (Text.chr quote) EmptyString in
  "b" ++ q ++ foldr (λ b s, repr_byte quote b ++ s) "" bs ++ q.

(** [n / d] to the nearest integer, halves to even. *)
Definition div_half_even (n d : Z) : Z :=
  match Z.compare (2 * (n mod d)) d with
  | Lt => n / d
  | Gt => n / d + 1
  | Eq => if Z.even (n / d) then n / d else n / d + 1
  end.

(** [n / d * 10 ** k] as a fraction. *)
Definition scale10 (n d k : Z) : Z * Z :=
  if k <? 0 then (n, d * 10 ^ (- k)) else (n * 10 ^ k, d).

(** The decimal point position [p]: [10 ** (p - 1) <= n / d < 10 ** p]. *)
Definition dec_point (n d : Z) : Z :=
  let p0 := (Z.log2 n - Z.log2 d) * 30103 / 100000 in
  match filter (λ p, let '(a, b) := scale10 n d (- p) in
                     (a < b) ∧ (b ≤ 10 * a)) [p0 - 1; p0; p0 + 1; p0 + 2] with
  | p :: _ => p
  | [] => p0
  end.

(** The shortest digit string (and its decimal point) that reads back as
    [x]; seventeen digits always do. *)
Fixpoint shortest (x : float) (n d : Z) (count : nat) (nd : Z) : Z * Z * Z :=
  let p := dec_point n d in
  let '(a, b) := scale10 n d (nd - p) in
  let q := div_half_even a b in
  let '(q, p) := if q =? 10 ^ nd then (10 ^ (nd - 1), p + 1) else (q, p) in
  match count with
  | O => (q, p, nd)
  | S count =>
      if bool_decide (f_dec q (p - nd) = x) then (q, p, nd)
      else shortest x n d count (nd + 1)
  end.

Definition format_repr (digits : string) (p : Z) : string :=
  let nd := Z.of_nat (String.length digits) in
  if (p <=? -4) || (16 <? p) then
    let e := p - 1 in
    let mant :=
      match digits with
      | String.String a EmptyString => digits
      | String.String a r => String.String a ("." ++ r)
      | EmptyString => digits
      end in
    mant ++ (if e <? 0 then "e-" else "e+") ++ pad_left 2 (to_base 10 (Z.abs e))
  else if p <=? 0 then "0." ++ zeros (- p) ++ digits
  else if nd <=? p then digits ++ zeros (p - nd) ++ ".0"
  else String.substring 0 (Z.to_nat p) digits ++ "."
       ++ String.substring (Z.to_nat p) (Z.to_nat (nd - p)) digits.

Definition repr_float (x : float) : string :=
  match x with
  | S754_nan => "nan"
  | S754_infinity s => if s then "-inf" else "inf"
  | S754_zero s => if s then "-0.0" else "0.0"
  | S754_finite s m e =>
      let '(n, d) := if 0 <=? e then (Z.pos m * 2 ^ e, 1) else (Z.pos m, 2 ^ (- e)) in
      let '(q, p, nd) := shortest (S754_finite false m e) n d 16 1 in
      (if s then "-" else "") ++ format_repr (to_base 10 q) p
  end.

Definition py_str (v : pyval) : string :=
  match v with
  | PInt z => str_Z z
  | PFloat f => repr_float f
  | PBool b => if b then "True" else "False"
  | PStr s => s
  | PBytes bs => repr_bytes bs
  end.

Example repr_float_examples :
  map repr_float [f_dec 1 (-1); f_dec 15 0; f_dec 1 16; f_dec 1 15; f_dec 1 (-4);
    f_dec 123 (-7); f_dec 2 (-1); f_add (f_dec 1 (-1)) (f_dec 2 (-1)); f_dec (-25) (-1)]
  = ["0.1"; "15.0"; "1e+16"; "1000000000000000.0"; "0.0001";
     "1.23e-05"; "0.2"; "0.30000000000000004"; "-2.5"].
Proof. vm_compute. reflexivity. Qed.

Example fmt_hex_examples : (fmt_hex 4 0x60ff, fmt_hex 2 1, fmt_hex 4 0x12345) =
  ("60ff", "01", "12345").
Proof. vm_compute. reflexivity. Qed.

(** A claim about all characters is decided by enumeration. *)
Lemma forall_ascii (P : Ascii.ascii → bool) :
  forallb P (map (λ n, Ascii.ascii_of_nat n) (seq 0 256)) = true → ∀ a, P a = true.
Proof.
  rewrite forallb_forall. intros H a. rewrite <-(Ascii.ascii_nat_embedding a).
  apply H, in_map, in_seq. pose proof (Ascii.nat_ascii_bounded a). lia.
Qed.

(** ** Hexadecimal text round trip *)

Lemma hex_byte_back b :
  ∃ a c, hex_byte b = String.String a (String.String c EmptyString)
    ∧ (Text.is_space a && (Text.code a <? 28) || (Text.code a =? 32)) = false
    ∧ (h ← hex_digit a; l ← hex_digit c; Byte.of_N (Z.to_N (16 * h + l))) = Some b.
Proof. eexists _, _. split; [reflexivity|]. destruct b; vm_compute; done. Qed.

Lemma length_hex bs : String.length (hex bs) = (2 * length bs)%nat.
Proof.
  induction bs as [|b bs IH]; [done|].
  change (String.length (hex (b :: bs))) with (S (S (String.length (hex bs)))).
  rewrite IH. simpl. lia.
Qed.

Lemma fromhex_aux_hex bs fuel :
  (length bs < fuel)%nat → fromhex_aux fuel (hex bs) = Some bs.
Proof.
  revert fuel. induction bs as [|b bs IH]; intros [|fuel] Hf; simpl in Hf; try lia; [done|].
  destruct (hex_byte_back b) as (a & c & E & Hs & Hb).
  cbn [hex]. rewrite E.
  change (String.String a (String.String c EmptyString) ++ hex bs)
    with (String.String a (String.String c (hex bs))).
  cbn [fromhex_aux]. rewrite Hs.
  destruct (hex_digit a) as [h|]; [|done]. destruct (hex_digit c) as [l|]; [|done].
  cbn [mbind option_bind] in Hb |- *. rewrite Hb, IH by lia. done.
Qed.

(** Decoding the hexadecimal text of a payload gives the payload back. *)
Lemma fromhex_hex bs : fromhex (hex bs) = Ret bs.
Proof.
  unfold fromhex. rewrite fromhex_aux_hex; [done|].
  rewrite length_hex. lia.
Qed.

(** ** Reading digits back *)

Lemma log2_fuel n : 0 ≤ n → n < 2 ^ Z.of_nat (S (Z.to_nat (Z.log2 n))).
Proof.
  intros Hn. rewrite Nat2Z.inj_succ, Z2Nat.id by apply Z.log2_nonneg.
  destruct (Z.eq_dec n 0) as [->|]; [done|]. apply Z.log2_spec. lia.
Qed.

(** A reader that takes one digit at a time reads the digits of a number as
    that number. *)
Lemma scan_digits_base {B} (base : Z) (scan : Z → string → B) :
  2 ≤ base →
  (∀ a d k, 0 ≤ d < base → scan a (String.String (digit_char d) k) = scan (base * a + d) k) →
  ∀ fuel n k, 0 ≤ n < 2 ^ Z.of_nat fuel →
  ∃ p, ∀ a, scan a (digits_base base fuel n k) = scan (a * base ^ p + n) k ∧ 0 ≤ p.
Proof.
  intros Hbase Hscan fuel. induction fuel as [|fuel IH]; intros n k Hn.
  { exists 0. intros a. simpl in *. split; [|lia]. f_equal. lia. }
  cbn [digits_base].
  assert (0 ≤ n mod base < base) as Hm by (apply Z.mod_pos_bound; lia).
  pose proof (Z.div_mod n base ltac:(lia)) as Hdm.
  destruct (Z.eqb_spec (n / base) 0) as [H0|H0].
  - exists 1. intros a. split; [|lia]. rewrite Hscan by done. f_equal.
    rewrite Z.pow_1_r. lia.
  - assert (0 ≤ n / base < 2 ^ Z.of_nat fuel) as Hb.
    { rewrite Nat2Z.inj_succ, Z.pow_succ_r in Hn by lia.
      split; [apply Z.div_pos; lia|]. apply Z.div_lt_upper_bound; nia. }
    destruct (IH (n / base) (String.String (digit_char (n mod base)) k) Hb) as [p Hp].
    exists (p + 1). intros a. destruct (Hp a) as [-> ?]. split; [|lia]. rewrite Hscan by done. f_equal.
    rewrite Z.pow_add_r, Z.pow_1_r by lia. nia.
Qed.

Lemma digits_base_app base fuel n k k' :
  (digits_base base fuel n k ++ k')%string = digits_base base fuel n (k ++ k')%string.
Proof.
  revert n k. induction fuel as [|fuel IH]; intros n k; [done|]. cbn [digits_base].
  destruct (n / base =? 0); [done|]. by rewrite IH.
Qed.

Lemma digit_char_code d :
  0 ≤ d < 10 → Text.is_digit (digit_char d) = true ∧ Text.code (digit_char d) = 48 + d.
Proof.
  intros Hd.
  assert (Text.is_digit (digit_char d) && (Text.code (digit_char d) =? 48 + d) = true) as H.
  { revert d Hd. apply (forall_residues 10). vm_compute. reflexivity. }
  apply andb_true_iff in H as [H1 H2]. split; [done|lia].
Qed.

Lemma digits_base_head fuel n k :
  0 < n < 2 ^ Z.of_nat fuel →
  ∃ d r, digits_base 10 fuel n k = String.String (digit_char d) r ∧ 0 < d < 10.
Proof.
  revert n k. induction fuel as [|fuel IH]; intros n k Hn; [simpl in Hn; lia|].
  cbn [digits_base].
  destruct (Z.eqb_spec (n / 10) 0) as [H0|H0].
  - eexists _, _. split; [reflexivity|]. Z.to_euclidean_division_equations. lia.
  - apply IH. rewrite Nat2Z.inj_succ, Z.pow_succ_r in Hn by lia.
    Z.to_euclidean_division_equations. lia.
Qed.

Lemma nonzero_digit d : 0 < d < 10 → Ascii.eqb (digit_char d) "0" = false.
Proof.
  intros Hd. assert (negb (Ascii.eqb (digit_char (1 + (d - 1))) "0") = true) as H.
  { assert (0 ≤ d - 1 < 9) as Hd' by lia. revert Hd'. generalize (d - 1).
    apply (forall_residues 9). vm_compute. reflexivity. }
  apply negb_true_iff in H. by replace (1 + (d - 1)) with d in H by lia.
Qed.
