(* ===== verification/Esi.v ===== *)
(** * Element trees and the integers of an ESI file

    The [xml.etree.ElementTree] trees that
    src/device_descriptions/cmmt_as/catalog.py reads and
    src/device_descriptions/cmmt_as/fixture.py builds: elements with a tag,
    attributes, a text, a tail and children; the searches [find], [findall]
    with the three paths in use; [itertext]; [indent].  Then [int(text, base)]
    of Python and the catalog's [xml_text] and [parse_int].

    A missing text or tail ([None]) is the empty text.  Writing a tree as XML
    and reading it back are not modelled.

    The lemmas: the integers the fixture writes are the ones [parse_int]
    reads. *)

From S2P Require Import Prelude.
From S2P Require Export PyText.

Open Scope string_scope.
Open Scope list_scope.
Open Scope Z_scope.

(** ** Elements *)

Inductive element := Element {
  tag : string;
  attrib : list (string * string);
  text : string;
  tail : string;
  children : list element;
}.

Section element_ind.
Context (P : element → Prop).
Context (Helement : ∀ t a x y cs, Forall P cs → P (Element t a x y cs)).

(** The induction principle with the hypothesis for every child. *)
Fixpoint element_nested_ind (e : element) : P e :=
  match e with
  | Element t a x y cs => Helement t a x y cs
      ((fix go cs : Forall P cs :=
          match cs with
          | [] => @List.Forall_nil _ P
          | c :: cs => @List.Forall_cons _ P c cs (element_nested_ind c) (go cs)
          end) cs)
  end.
End element_ind.

(** [''.join(element.itertext())] *)
Fixpoint itertext (e : element) : string :=
  match e with
  | Element _ _ x _ cs => (x ++ foldr (λ c s, itertext c ++ tail c ++ s) "" cs)%string
  end.

(** [element.iter()] without the element itself, in document order *)
Fixpoint descendants (e : element) : list element :=
  match e with Element _ _ _ _ cs => flat_map (λ c, c :: descendants c) cs end.

Definition has_tag (t : string) (e : element) : bool := String.eqb (tag e) t.

(** [element.findall(tag)], [element.find(tag)] *)
Definition findall (t : string) (e : element) : list element := filter (has_tag t) (children e).
Definition find (t : string) (e : element) : option element := head (findall t e).

(** [element.findall('a/b')] and its [find] *)
Definition findall2 (a b : string) (e : element) : list element :=
  flat_map (findall b) (findall a e).
Definition find2 (a b : string) (e : element) : option element := head (findall2 a b e).

(** [element.findall('.//tag')] *)
Definition findall_below (t : string) (e : element) : list element :=
  filter (has_tag t) (descendants e).

(** [element.get(key)]; what is missing is empty for [or] and the truth test *)
Definition get (key : string) (e : element) : string := default "" (dict_get key (attrib e)).

(** ** [ET.indent(tree)] *)

Definition blank (s : string) : bool := String.eqb (Text.strip s) "".

(** A newline and two blanks for every level. *)
Definition indentation (level : nat) : string :=
  String.String (Text.chr 10) (replicate_char " " (2 * level)).

Definition reindent (s : string) (level : nat) : string :=
  if blank s then indentation level else s.

Definition set_text (x : string) (e : element) : element :=
  match e with Element t a _ y cs => Element t a x y cs end.
Definition set_tail (y : string) (e : element) : element :=
  match e with Element t a x _ cs => Element t a x y cs end.

(** The tails of the children; the last one is dedented. *)
Fixpoint indent_tails (level : nat) (cs : list element) : list element :=
  match cs with
  | [] => []
  | [c] => [set_tail (reindent (tail c) level) c]
  | c :: cs => set_tail (reindent (tail c) (S level)) c :: indent_tails level cs
  end.

Fixpoint indent_children (level : nat) (e : element) : element :=
  match e with
  | Element t a x y [] => e
  | Element t a x y cs =>
      Element t a (reindent x (S level)) y (indent_tails level (map (indent_children (S level)) cs))
  end.

Definition indent (tree : element) : element := indent_children 0 tree.

(** ** [int(text, base)] *)

Definition base_digit (base : Z) (a : Ascii.ascii) : option Z :=
  d ← hex_digit a; if d <? base then Some d else None.

Fixpoint digits_in (base acc : Z) (under : bool) (s : string) : option Z :=
  match s with
  | EmptyString => if under then None else Some acc
  | String.String a s =>
      match base_digit base a with
      | Some d => digits_in base (base * acc + d) false s
      | None => if Ascii.eqb a "_" && negb under then digits_in base acc true s else None
      end
  end.

(** The prefixes [0x], [0o] and [0b]. *)
Definition radix_prefix (s : string) : option (Z * string) :=
  match s with
  | String.String "0" (String.String a s) =>
      let a := Text.lower1 a in
      if Ascii.eqb a "x" then Some (16, s)
      else if Ascii.eqb a "o" then Some (8, s)
      else if Ascii.eqb a "b" then Some (2, s)
      else None
  | _ => None
  end.

Definition skip_underscore (s : string) : string :=
  match s with
  | String.String "_" s => s
  | _ => s
  end.

Definition starts_zero (s : string) : bool := Text.starts_with "0" s.

(** The digits behind the sign.  Without a base the prefix decides, and a
    decimal number has no leading zero. *)
Definition int_magnitude (base : Z) (s : string) : option Z :=
  match radix_prefix s with
  | Some (b, s') =>
      if (base =? 0) || (base =? b) then digits_in b 0 true (skip_underscore s')
      else digits_in base 0 true s
  | None =>
      if base =? 0 then
        n ← digits_in 10 0 true s;
        if starts_zero s && negb (n =? 0) then None else Some n
      else digits_in base 0 true s
  end.

Definition int_text (base : Z) (s : string) : option Z :=
  match Text.strip s with
  | String.String "-" s => Z.opp <$> int_magnitude base s
  | String.String "+" s => int_magnitude base s
  | s => int_magnitude base s
  end.

(** ** The accessors of the catalog *)

(** [xml_text] *)
Definition xml_text (e : option element) : string :=
  match e with
  | None => ""
  | Some e => Text.strip (itertext e)
  end.

Fixpoint skip (n : nat) (s : string) : string :=
  match n, s with
  | S n, String.String _ s => skip n s
  | _, _ => s
  end.

(** [parse_int] *)
Definition parse_int (value : string) : outcome Z :=
  let value := Text.strip value in
  if String.eqb value "" then mret 0
  else if Text.starts_with "#x" (Text.lower value) then
    of_option ValueError (int_text 16 (skip 2 value))
  else of_option ValueError (int_text 0 value).

(** [access_text] *)
Definition access_text (e : element) : string :=
  Text.lower (Text.strip (xml_text (find2 "Flags" "Access" e))).

Example esi_int_examples :
  map parse_int [""; " #x1A00 "; "0x_10"; "12"; "00"; "-3"; "010"; "#x"; "1__0"; "#x0xff"]
  = [Ret 0; Ret 0x1A00; Ret 16; Ret 12; Ret 0; Ret (-3); Raise ValueError; Raise ValueError;
     Raise ValueError; Ret 255].
Proof. vm_compute. reflexivity. Qed.

(** ** Texts and integers read back *)

Definition unspaced (s : string) : bool :=
  forallb (λ a, negb (Text.is_space a)) (String.list_ascii_of_string s).

Lemma rstrip_unspaced s : unspaced s = true → Text.rstrip s = s.
Proof.
  induction s as [|a s IH]; [done|]. intros H. cbn in H. apply andb_true_iff in H as [Ha Hs].
  cbn [Text.rstrip]. rewrite (IH Hs). destruct s; [|done]. by apply negb_true_iff in Ha as ->.
Qed.

Lemma strip_unspaced s : unspaced s = true → Text.strip s = s.
Proof.
  intros H. unfold Text.strip. assert (Text.lstrip s = s) as ->; [|by apply rstrip_unspaced].
  destruct s as [|a s]; [done|]. cbn in H. apply andb_true_iff in H as [Ha _].
  cbn [Text.lstrip]. by apply negb_true_iff in Ha as ->.
Qed.

(** Texts of hexadecimal digits. *)
Definition is_hex (a : Ascii.ascii) : bool := match hex_digit a with Some _ => true | None => false end.
Definition all_hex (s : string) : bool := forallb is_hex (String.list_ascii_of_string s).

Lemma all_hex_cons a s : all_hex (String.String a s) = true ↔ is_hex a = true ∧ all_hex s = true.
Proof. apply andb_true_iff. Qed.

Lemma hex_unspaced s : all_hex s = true → unspaced s = true.
Proof.
  induction s as [|a s IH]; [done|]. intros [Ha Hs]%all_hex_cons.
  apply andb_true_iff. split; [|exact (IH Hs)].
  revert Ha. pose proof (forall_ascii (λ a, implb (is_hex a) (negb (Text.is_space a)))
    ltac:(vm_compute; reflexivity) a) as H. cbn beta in H. by destruct (is_hex a).
Qed.

Lemma digit_char_hex d : 0 ≤ d < 16 → is_hex (digit_char d) = true.
Proof. revert d. apply (forall_residues 16). vm_compute. reflexivity. Qed.

Lemma digits_base_hex base fuel n k :
  2 ≤ base ≤ 16 → all_hex k = true → all_hex (digits_base base fuel n k) = true.
Proof.
  intros Hb. revert n k. induction fuel as [|fuel IH]; intros n k Hk; [done|]. cbn [digits_base].
  assert (all_hex (String.String (digit_char (n mod base)) k) = true).
  { apply all_hex_cons. split; [|done]. apply digit_char_hex.
    pose proof (Z.mod_pos_bound n base). lia. }
  destruct (n / base =? 0); [done|]. by apply IH.
Qed.

Lemma fmt_hex_hex width n : 0 ≤ n → all_hex (fmt_hex width n) = true.
Proof.
  intros Hn. unfold fmt_hex. rewrite (proj2 (Z.ltb_ge n 0)) by done. unfold pad_left, zeros.
  generalize (Z.to_nat (width - Z.of_nat (String.length (to_base 16 n)))). intros m.
  induction m as [|m IH]; [by apply digits_base_hex|]. by apply all_hex_cons.
Qed.

(** Upper case changes no digit. *)
Lemma hex_digit_upper a : hex_digit (Text.upper1 a) = hex_digit a.
Proof.
  apply (bool_decide_eq_true_1 (hex_digit (Text.upper1 a) = hex_digit a)).
  revert a. apply forall_ascii. vm_compute. reflexivity.
Qed.

Lemma underscore_upper a : Ascii.eqb (Text.upper1 a) "_" = Ascii.eqb a "_".
Proof.
  apply (bool_decide_eq_true_1 (Ascii.eqb (Text.upper1 a) "_" = Ascii.eqb a "_")).
  revert a. apply forall_ascii. vm_compute. reflexivity.
Qed.

Lemma all_hex_upper s : all_hex (Text.upper s) = all_hex s.
Proof.
  induction s as [|a s IH]; [done|]. unfold all_hex, Text.upper in *. cbn. rewrite IH.
  unfold is_hex. by rewrite hex_digit_upper.
Qed.

Lemma digits_in_upper base acc u s : digits_in base acc u (Text.upper s) = digits_in base acc u s.
Proof.
  revert acc u. induction s as [|a s IH]; intros acc u; [done|].
  unfold Text.upper in *. cbn [Text.map digits_in]. unfold base_digit.
  rewrite hex_digit_upper, underscore_upper. destruct (hex_digit a) as [d|]; cbn.
  - destruct (d <? base); [apply IH|]. destruct (_ && _); [apply IH|done].
  - destruct (_ && _); [apply IH|done].
Qed.

Lemma digits_in_digit base acc u d k :
  2 ≤ base ≤ 16 → 0 ≤ d < base →
  digits_in base acc u (String.String (digit_char d) k) = digits_in base (base * acc + d) false k.
Proof.
  intros Hb Hd. assert (hex_digit (digit_char d) = Some d) as E.
  { apply (bool_decide_eq_true_1 (hex_digit (digit_char d) = Some d)).
    assert (0 ≤ d < 16) as H by lia. revert d Hd H. intros d _. revert d.
    apply (forall_residues 16). vm_compute. reflexivity. }
  cbn [digits_in]. unfold base_digit. rewrite E. cbn. by rewrite (proj2 (Z.ltb_lt d base)) by lia.
Qed.

(** The digits of a number are read as the number. *)
Lemma digits_in_to_base base u n :
  2 ≤ base ≤ 16 → 0 ≤ n → digits_in base 0 u (to_base base n) = Some n.
Proof.
  intros Hb Hn. unfold to_base.
  assert (digits_in base 0 u (digits_base base (S (Z.to_nat (Z.log2 n))) n "")
    = digits_in base 0 false (digits_base base (S (Z.to_nat (Z.log2 n))) n "")) as ->.
  { generalize (Z.to_nat (Z.log2 n)), "". revert n Hn.
    assert (∀ fuel n k, 0 ≤ n → digits_in base 0 u (digits_base base (S fuel) n k)
      = digits_in base 0 false (digits_base base (S fuel) n k)) as H; [|by intros; apply H].
    induction fuel as [|fuel IH]; intros n k Hn; cbn [digits_base];
      (destruct (n / base =? 0);
       [rewrite !digits_in_digit; [done|lia|apply Z.mod_pos_bound; lia|lia|apply Z.mod_pos_bound; lia]|]).
    - rewrite !digits_in_digit; [done|lia|apply Z.mod_pos_bound; lia|lia|apply Z.mod_pos_bound; lia].
    - apply IH. apply Z.div_pos; lia. }
  destruct (scan_digits_base base (λ a s, digits_in base a false s) ltac:(lia)
    (λ a d k Hd, digits_in_digit base a false d k Hb Hd) (S (Z.to_nat (Z.log2 n))) n "") as [p Hp].
  { split; [done|by apply log2_fuel]. }
  destruct (Hp 0) as [-> _]. done.
Qed.

Lemma fmt_hex_cons width n : 0 ≤ n → ∃ a s, fmt_hex width n = String.String a s.
Proof.
  intros Hn. unfold fmt_hex. rewrite (proj2 (Z.ltb_ge n 0)) by done. unfold pad_left, zeros.
  destruct (Z.to_nat (width - Z.of_nat (String.length (to_base 16 n)))) as [|m]; [|by eexists _, _].
  change (∃ a s, to_base 16 n = String.String a s). unfold to_base. cbn [digits_base].
  assert (∀ fuel n k, (∃ a s, k = String.String a s) → ∃ a s, digits_base 16 fuel n k = String.String a s) as H.
  { induction fuel as [|fuel IH]; intros m k Hk; [done|]. cbn [digits_base].
    destruct (m / 16 =? 0); [by eexists _, _|]. apply IH. by eexists _, _. }
  destruct (n / 16 =? 0); [by eexists _, _|]. apply H. by eexists _, _.
Qed.

Lemma digits_in_fmt_hex width n : 0 ≤ n → digits_in 16 0 true (fmt_hex width n) = Some n.
Proof.
  intros Hn. destruct (fmt_hex_cons width n Hn) as (a & s & E). revert E.
  unfold fmt_hex. rewrite (proj2 (Z.ltb_ge n 0)) by done. unfold pad_left, zeros.
  generalize (Z.to_nat (width - Z.of_nat (String.length (to_base 16 n)))). intros m _.
  assert (∀ u, digits_in 16 0 u (replicate_char "0" m ++ to_base 16 n)%string = Some n) as H; [|apply H].
  induction m as [|m IH]; intros u; [by apply digits_in_to_base|].
  change (replicate_char "0" (S m) ++ to_base 16 n)%string
    with (String.String (digit_char 0) (replicate_char "0" m ++ to_base 16 n)%string).
  rewrite digits_in_digit by lia. apply IH.
Qed.

Lemma int_magnitude_hex s : all_hex s = true → int_magnitude 16 s = digits_in 16 0 true s.
Proof.
  intros H. unfold int_magnitude.
  assert (match radix_prefix s with Some (b, _) => negb (b =? 16) | None => true end = true) as E.
  { destruct s as [|a [|b s]]; [done|by destruct a as [[] [] [] [] [] [] [] []]|].
    apply all_hex_cons in H as [_ [H _]%all_hex_cons].
    assert (implb (is_hex b) (negb (Ascii.eqb (Text.lower1 b) "x")) = true) as Hx.
    { revert b H. intros b _. revert b. apply forall_ascii. vm_compute. reflexivity. }
    rewrite H in Hx. cbn [implb] in Hx. apply negb_true_iff in Hx.
    destruct a as [[] [] [] [] [] [] [] []]; try done. cbn [radix_prefix]. rewrite Hx.
    destruct (Ascii.eqb _ "o"); [done|]. by destruct (Ascii.eqb _ "b"). }
  destruct (radix_prefix s) as [[b t]|]; [|done].
  apply negb_true_iff in E. change (16 =? 0) with false. by rewrite Z.eqb_sym, E.
Qed.

(** Signs are no digits. *)
Lemma int_text_hex base s : all_hex s = true → int_text base s = int_magnitude base s.
Proof.
  intros H. unfold int_text. rewrite strip_unspaced by by apply hex_unspaced.
  destruct s as [|a s]; [done|]. apply all_hex_cons in H as [Ha _].
  by destruct a as [[] [] [] [] [] [] [] []].
Qed.

Lemma parse_int_hex width n :
  0 ≤ n → parse_int ("#x" ++ Text.upper (fmt_hex width n)) = Ret n.
Proof.
  intros Hn. pose proof (fmt_hex_hex width n Hn) as Hh. rewrite <-all_hex_upper in Hh.
  unfold parse_int. rewrite strip_unspaced.
  2: { pose proof (hex_unspaced _ Hh) as Hu. exact Hu. }
  change (String.eqb ("#x" ++ Text.upper (fmt_hex width n)) "") with false. cbv iota.
  change (Text.starts_with "#x" (Text.lower ("#x" ++ Text.upper (fmt_hex width n)))) with true.
  cbv iota. change (skip 2 ("#x" ++ Text.upper (fmt_hex width n))) with (Text.upper (fmt_hex width n)).
  rewrite int_text_hex, int_magnitude_hex, digits_in_upper, digits_in_fmt_hex by done. done.
Qed.

Lemma parse_int_dec n : 0 ≤ n → parse_int (str_Z n) = Ret n.
Proof.
  intros Hn. unfold str_Z. rewrite (proj2 (Z.ltb_ge n 0)) by done.
  destruct (Z.eq_dec n 0) as [->|H0]; [vm_compute; reflexivity|].
  pose proof (digits_in_to_base 10 true n ltac:(lia) Hn) as Hd.
  assert (all_hex (to_base 10 n) = true) as Hh by by apply digits_base_hex.
  destruct (digits_base_head (S (Z.to_nat (Z.log2 n))) n "") as (d & r & E & Hdig).
  { split; [lia|by apply log2_fuel]. }
  fold (to_base 10 n) in E. unfold parse_int. rewrite strip_unspaced by by apply hex_unspaced.
  assert (starts_zero (to_base 10 n) = false) as Hz.
  { rewrite E. unfold starts_zero. cbn [Text.starts_with]. rewrite Ascii.eqb_sym, nonzero_digit by done. done. }
  assert (String.eqb (to_base 10 n) "" = false) as -> by (by rewrite E).
  assert (Text.starts_with "#x" (Text.lower (to_base 10 n)) = false) as ->.
  { rewrite E in Hh |- *. apply all_hex_cons in Hh as [Hh _].
    change (Ascii.eqb "#" (Text.lower1 (digit_char d)) && Text.starts_with "x" (Text.lower r) = false).
    assert (implb (is_hex (digit_char d)) (negb (Ascii.eqb "#" (Text.lower1 (digit_char d)))) = true) as Hx.
    { generalize (digit_char d). apply forall_ascii. vm_compute. reflexivity. }
    rewrite Hh in Hx. cbn [implb] in Hx. apply negb_true_iff in Hx. by rewrite Hx. }
  rewrite int_text_hex by done. unfold int_magnitude.
  assert (radix_prefix (to_base 10 n) = None) as ->.
  { unfold starts_zero in Hz. revert Hz. rewrite E.
    by destruct (digit_char d) as [[] [] [] [] [] [] [] []]. }
  cbn [Z.eqb]. rewrite Hd. cbn [mbind option_bind]. by rewrite Hz.
Qed.

(** ** Searches *)

Lemma find_children t e : find t e = List.find (has_tag t) (children e).
Proof.
  unfold find, findall. induction (children e) as [|c cs IH]; [done|].
  cbn. unfold filter, list_filter. cbn. case_decide as H.
  - apply Is_true_true in H. by rewrite H.
  - apply Is_true_false in H. rewrite H. exact IH.
Qed.

Lemma xml_text_leaf t a x y : xml_text (Some (Element t a x y [])) = Text.strip x.
Proof. unfold xml_text. cbn [itertext foldr]. f_equal.
  induction x as [|b x IH]; [done|]. exact (f_equal (String.String b) IH). Qed.

(** The element itself when it has the tag, and what is below it. *)
Definition below (t : string) (e : element) : list element :=
  (if has_tag t e then [e] else []) ++ findall_below t e.

Lemma findall_below_children t e : findall_below t e = flat_map (below t) (children e).
Proof.
  destruct e as [t' a x y cs]. unfold findall_below. cbn [descendants children].
  induction cs as [|c cs IH]; [done|]. cbn [flat_map]. rewrite filter_app, IH. f_equal.
  unfold below, findall_below. rewrite filter_cons. case_decide as H.
  - apply Is_true_true in H. by rewrite H.
  - apply Is_true_false in H. by rewrite H.
Qed.

(** ** Indentation changes no leaf and no structure *)

Inductive reindented : element → element → Prop :=
  | reindented_element t a x x' y y' cs cs' :
      (cs = [] → x = x') → Forall2 reindented cs cs' →
      reindented (Element t a x y cs) (Element t a x' y' cs').

Lemma reindented_tail y e e' : reindented e e' → reindented e (set_tail y e').
Proof. intros [????????]. by constructor. Qed.

Lemma reindented_tails level cs cs' :
  Forall2 reindented cs cs' → Forall2 reindented cs (indent_tails level cs').
Proof.
  induction 1 as [|c c' cs cs' Hc H IH]; [constructor|]. cbn [indent_tails].
  destruct cs' as [|d cs']; (constructor; [by apply reindented_tail|done]).
Qed.

Lemma indent_children_reindented e : ∀ level, reindented e (indent_children level e).
Proof.
  induction e as [t a x y cs IH] using element_nested_ind. intros level.
  destruct cs as [|c cs]; [by repeat constructor|].
  change (reindented (Element t a x y (c :: cs))
    (Element t a (reindent x (S level)) y
      (indent_tails level (map (indent_children (S level)) (c :: cs))))).
  constructor; [done|]. apply reindented_tails.
  revert IH. generalize (c :: cs). intros l. induction 1; constructor; auto.
Qed.

Lemma indent_reindented e : reindented e (indent e).
Proof. apply indent_children_reindented. Qed.

Lemma reindented_tag t e e' : reindented e e' → has_tag t e = has_tag t e'.
Proof. by intros []. Qed.

Lemma reindented_descendants e :
  ∀ e', reindented e e' → Forall2 reindented (descendants e) (descendants e').
Proof.
  induction e as [t a x y cs IH] using element_nested_ind. intros e' He.
  inversion He as [? ? ? x' ? y' ? cs' _ Hcs]; subst. cbn [descendants]. clear He.
  induction Hcs as [|c c' cs cs' Hc Hcs IH']; [constructor|].
  apply Forall_cons in IH as [Hd Hall]. cbn [flat_map]. apply Forall2_app; [|by apply IH'].
  constructor; [done|]. by apply Hd.
Qed.

Lemma reindented_filter t l l' :
  Forall2 reindented l l' → Forall2 reindented (filter (has_tag t) l) (filter (has_tag t) l').
Proof.
  induction 1 as [|c c' l l' Hc H IH]; [constructor|]. rewrite !filter_cons.
  rewrite (reindented_tag t _ _ Hc). case_decide; [by constructor|done].
Qed.

Lemma reindented_below t e e' :
  reindented e e' → Forall2 reindented (findall_below t e) (findall_below t e').
Proof. intros H. by apply reindented_filter, reindented_descendants. Qed.

(** An element of a known shape keeps it. *)
Lemma reindented_inv t a x y cs e' :
  reindented (Element t a x y cs) e' →
  ∃ x' y' cs', e' = Element t a x' y' cs' ∧ (cs = [] → x = x') ∧ Forall2 reindented cs cs'.
Proof. inversion 1; subst. eauto 10. Qed.

Lemma reindented_leaf t a x y e' :
  reindented (Element t a x y []) e' → ∃ y', e' = Element t a x y' [].
Proof. intros (x' & y' & cs' & -> & Hx & ->%Forall2_nil_inv_l)%reindented_inv. rewrite Hx; eauto. Qed.
