(* ===== verification/Json.v ===== *)
(** * JSON texts

    The JSON values of the program and Python's [json]: [loads] reads a text
    into a value, strictly as the configuration does or with the defaults the
    server uses; [write_json] writes one in the three layouts in use, with
    non-ASCII characters escaped, and [dumps] refuses infinite floats.
    [unique_object] and [fields] are those of
    src/functional_model/configuration.py, and [parse_json] is its [read_json]
    behind the reading of the file.

    Every fault of a text is a [ValueError], so the reader answers [None] for
    all of them.  A text is its UTF-8 bytes; a lone surrogate, which Python
    allows in a string, is encoded like any other code point.  Nesting deeper
    than Python's stack and integers of more than 4300 digits, which Python
    refuses, are outside the model.

    The theorems: reading back a written value gives the value, whatever
    the layout and the reader; the fuel of the reader is enough for every
    text. *)

From S2P Require Import Prelude PyFloat.
From S2P Require Export PyText.

Open Scope string_scope.
Open Scope list_scope.
Open Scope Z_scope.

(** A Python dict keeps the order of its keys. *)
Inductive json :=
  | JNull
  | JBool (b : bool)
  | JInt (z : Z)
  | JFloat (f : float)
  | JStr (s : string)
  | JArr (l : list json)
  | JObj (d : list (string * json)).

Section json_induction.
Context (P : json → Prop).
Context (Hnull : P JNull) (Hbool : ∀ b, P (JBool b)) (Hint : ∀ z, P (JInt z)).
Context (Hfloat : ∀ f, P (JFloat f)) (Hstr : ∀ s, P (JStr s)).
Context (Harr : ∀ l, Forall P l → P (JArr l)).
Context (Hobj : ∀ d, Forall (λ kv, P kv.2) d → P (JObj d)).

Fixpoint json_nested_ind (j : json) : P j :=
  match j with
  | JNull => Hnull
  | JBool b => Hbool b
  | JInt z => Hint z
  | JFloat f => Hfloat f
  | JStr s => Hstr s
  | JArr l =>
      Harr l ((fix go l : Forall P l :=
        match l with
        | [] => List.Forall_nil _
        | x :: l => List.Forall_cons _ _ _ (json_nested_ind x) (go l)
        end) l)
  | JObj d =>
      Hobj d ((fix go d : Forall (λ kv, P kv.2) d :=
        match d with
        | [] => List.Forall_nil _
        | (k, v) :: d => List.Forall_cons _ (k, v) _ (json_nested_ind v) (go d)
        end) d)
  end.
End json_induction.

(** [a == b]: numbers by value, dicts whatever the order of their keys. *)
Definition json_scalar (j : json) : option pyval :=
  match j with
  | JBool b => Some (PBool b)
  | JInt z => Some (PInt z)
  | JFloat f => Some (PFloat f)
  | JStr s => Some (PStr s)
  | _ => None
  end.

Fixpoint json_eqb (a b : json) : bool :=
  match a, b with
  | JNull, JNull => true
  | JArr l, JArr l' =>
      (fix go l l' := match l, l' with
        | [], [] => true
        | x :: l, y :: l' => json_eqb x y && go l l'
        | _, _ => false
        end) l l'
  | JObj d, JObj d' =>
      Nat.eqb (length d) (length d')
      && forallb (λ '(k, v), match dict_get k d' with
                             | Some w => json_eqb v w
                             | None => false
                             end) d
  | _, _ =>
      match json_scalar a, json_scalar b with
      | Some v, Some w => py_eq v w
      | _, _ => false
      end
  end.

(** ** Code points and UTF-8 *)

Definition byte_char (z : Z) : Ascii.ascii := Text.chr z.

(** The UTF-8 bytes of a code point in front of a text. *)
Definition utf8 (c : Z) (k : string) : string :=
  if c <? 128 then String.String (byte_char c) k
  else if c <? 2048 then
    String.String (byte_char (192 + c / 64)) (String.String (byte_char (128 + c mod 64)) k)
  else if c <? 65536 then
    String.String (byte_char (224 + c / 4096))
      (String.String (byte_char (128 + c / 64 mod 64)) (String.String (byte_char (128 + c mod 64)) k))
  else
    String.String (byte_char (240 + c / 262144))
      (String.String (byte_char (128 + c / 4096 mod 64))
        (String.String (byte_char (128 + c / 64 mod 64))
          (String.String (byte_char (128 + c mod 64)) k))).

(** The payload of a continuation byte. *)
Definition continuation (a : Ascii.ascii) : option Z :=
  let c := Text.code a in if (128 <=? c) && (c <? 192) then Some (c - 128) else None.

(** The code points of UTF-8 bytes; [None] for bytes that are not UTF-8.
    Overlong forms and numbers beyond the last code point are refused, and
    [surrogates] says whether surrogates are. *)
Fixpoint code_points (surrogates : bool) (s : string) : option (list Z) :=
  match s with
  | EmptyString => Some []
  | String.String a s =>
      let c := Text.code a in
      if c <? 128 then l ← code_points surrogates s; Some (c :: l)
      else
        match s with
        | EmptyString => None
        | String.String b s =>
            y ← continuation b;
            if (194 <=? c) && (c <? 224) then
              l ← code_points surrogates s; Some (64 * (c - 192) + y :: l)
            else
              match s with
              | EmptyString => None
              | String.String d s =>
                  z ← continuation d;
                  if (224 <=? c) && (c <? 240) then
                    let p := 4096 * (c - 224) + 64 * y + z in
                    if (p <? 2048) || (negb surrogates && (55296 <=? p) && (p <? 57344)) then None
                    else l ← code_points surrogates s; Some (p :: l)
                  else
                    match s with
                    | EmptyString => None
                    | String.String e s =>
                        w ← continuation e;
                        let p := 262144 * (c - 240) + 4096 * y + 64 * z + w in
                        if (240 <=? c) && (65536 <=? p) && (p <? 1114112) then
                          l ← code_points surrogates s; Some (p :: l)
                        else None
                    end
              end
        end
  end.

(** [len(s)] of a string *)
Definition str_len (s : string) : Z :=
  Z.of_nat (length (default [] (code_points true s))).

(** ** Writing *)

Definition quote_char : Ascii.ascii := Text.chr 34.
Definition backslash : Ascii.ascii := Text.chr 92.

(** [f'\\u{c:04x}'] *)
Definition u_escape (c : Z) (k : string) : string :=
  String.String backslash (String.String "u"
    (String.String (digit_char (c / 4096 mod 16)) (String.String (digit_char (c / 256 mod 16))
      (String.String (digit_char (c / 16 mod 16)) (String.String (digit_char (c mod 16)) k))))).

Definition escape (c : Z) (k : string) : string :=
  let short a := String.String backslash (String.String a k) in
  if c =? 34 then short quote_char
  else if c =? 92 then short backslash
  else if c =? 10 then short "n"%char
  else if c =? 13 then short "r"%char
  else if c =? 9 then short "t"%char
  else if c =? 12 then short "f"%char
  else if c =? 8 then short "b"%char
  else if (32 <=? c) && (c <? 127) then String.String (Text.chr c) k
  else if c <? 65536 then u_escape c k
  else
    u_escape (55296 + (c - 65536) / 1024)
      (u_escape (56320 + (c - 65536) mod 1024) k).

Definition write_string (s : string) (k : string) : string :=
  String.String quote_char
    (foldr escape (String.String quote_char k) (default [] (code_points true s))).

Definition write_nat (n : Z) (k : string) : string :=
  digits_base 10 (S (Z.to_nat (Z.log2 n))) n k.

Definition write_int (z : Z) (k : string) : string :=
  if z <? 0 then String.String "-" (write_nat (- z) k) else write_nat z k.

(** The layouts in use: one line, one line with [separators=(',', ':')], and
    [indent=n]. *)
Inductive layout := Spaced | Compact | Indented (n : nat).

Definition newline (indent : layout) (level : nat) (k : string) : string :=
  match indent with
  | Indented n => String.String (Text.chr 10) (replicate_char " " (n * level) ++ k)%string
  | _ => k
  end.

Definition item_sep (indent : layout) (level : nat) (k : string) : string :=
  match indent with
  | Spaced => String.String "," (String.String " " k)
  | Compact => String.String "," k
  | Indented _ => String.String "," (newline indent level k)
  end.

Definition key_sep (indent : layout) (k : string) : string :=
  match indent with
  | Compact => String.String ":" k
  | _ => String.String ":" (String.String " " k)
  end.

(** Items after the first one. *)
Definition write_rest {A} (item : A → string → string) (sep : string → string) :=
  fix go (l : list A) (k : string) : string :=
    match l with
    | [] => k
    | x :: l => sep (item x (go l k))
    end.

Definition write_items {A} (item : A → string → string) (op cl : Ascii.ascii)
    (indent : layout) (level : nat) (l : list A) (k : string) : string :=
  match l with
  | [] => String.String op (String.String cl k)
  | x :: l =>
      String.String op (newline indent (S level)
        (item x (write_rest item (item_sep indent (S level)) l
          (newline indent level (String.String cl k)))))
  end.

Definition write_member {A} (item : A → string → string) (indent : layout) (kv : string * A)
    (k : string) : string :=
  let '(key, v) := kv in
  write_string key (key_sep indent (item v k)).

(** [float.__repr__], with the constants of [allow_nan] *)
Definition float_text (f : float) : string :=
  match f with
  | S754_nan => "NaN"
  | S754_infinity s => if s then "-Infinity" else "Infinity"
  | _ => repr_float f
  end.

(** [json.dumps(j)] in a layout, in front of a text: the text of a value. *)
Fixpoint write_json (indent : layout) (level : nat) (j : json) (k : string) : string :=
  match j with
  | JNull => ("null" ++ k)%string
  | JBool b => ((if b then "true" else "false") ++ k)%string
  | JInt z => write_int z k
  | JFloat f => (float_text f ++ k)%string
  | JStr s => write_string s k
  | JArr l => write_items (write_json indent (S level)) "[" "]" indent level l k
  | JObj d =>
      write_items (write_member (write_json indent (S level)) indent) "{" "}" indent level d k
  end.

Fixpoint finite_json (j : json) : bool :=
  match j with
  | JFloat f => f_is_finite f
  | JArr l => forallb finite_json l
  | JObj d => forallb (λ '(_, v), finite_json v) d
  | _ => true
  end.

(** [json.dumps(j, allow_nan=False)] in a layout *)
Definition dumps (indent : layout) (j : json) : outcome string :=
  if finite_json j then Ret (write_json indent 0 j "") else Raise ValueError.

(** [sort_keys=True]: the members of every object in the order of their keys. *)
Fixpoint insert_member {A} (kv : string * A) (d : list (string * A)) : list (string * A) :=
  match d with
  | [] => [kv]
  | kv' :: d' => if String.leb kv.1 kv'.1 then kv :: d else kv' :: insert_member kv d'
  end.

Fixpoint sort_json (j : json) : json :=
  match j with
  | JArr l => JArr (map sort_json l)
  | JObj d => JObj (foldr insert_member [] (map (λ '(k, v), (k, sort_json v)) d))
  | _ => j
  end.

(** ** Reading *)

Definition is_ws (a : Ascii.ascii) : bool :=
  let c := Text.code a in (c =? 32) || (c =? 9) || (c =? 10) || (c =? 13).

Fixpoint skip_ws (s : string) : string :=
  match s with
  | String.String a s' => if is_ws a then skip_ws s' else s
  | EmptyString => s
  end.

(** The text behind [p]. *)
Fixpoint after_prefix (p s : string) : option string :=
  match p, s with
  | EmptyString, _ => Some s
  | String.String a p, String.String b s => if Ascii.eqb a b then after_prefix p s else None
  | _, _ => None
  end.

Definition hex4 (a b c d : Ascii.ascii) : option Z :=
  w ← hex_digit a; x ← hex_digit b; y ← hex_digit c; z ← hex_digit d;
  Some (4096 * w + 256 * x + 16 * y + z).

(** The character a one-letter escape stands for. *)
Definition short_escape (a : Ascii.ascii) : option Ascii.ascii :=
  if Ascii.eqb a quote_char then Some quote_char
  else if Ascii.eqb a backslash then Some backslash
  else if Ascii.eqb a "/" then Some "/"%char
  else if Ascii.eqb a "b" then Some (Text.chr 8)
  else if Ascii.eqb a "f" then Some (Text.chr 12)
  else if Ascii.eqb a "n" then Some (Text.chr 10)
  else if Ascii.eqb a "r" then Some (Text.chr 13)
  else if Ascii.eqb a "t" then Some (Text.chr 9)
  else None.

Definition high_surrogate (c : Z) : bool := (55296 <=? c) && (c <? 56320).
Definition low_surrogate (c : Z) : bool := (56320 <=? c) && (c <? 57344).

(** The rest of a string behind its opening quote: the string and what
    follows it. *)
Fixpoint scan_string (s : string) : option (string * string) :=
  match s with
  | EmptyString => None
  | String.String a s =>
      if Ascii.eqb a quote_char then Some (EmptyString, s)
      else if Ascii.eqb a backslash then
        match s with
        | EmptyString => None
        | String.String e s =>
            if Ascii.eqb e "u" then
              match s with
              | String.String h1 (String.String h2 (String.String h3 (String.String h4 s))) =>
                  c ← hex4 h1 h2 h3 h4;
                  let plain := '(t, r) ← scan_string s; Some (utf8 c t, r) in
                  match s with
                  | String.String b (String.String u
                      (String.String l1 (String.String l2 (String.String l3 (String.String l4 s'))))) =>
                      if high_surrogate c && Ascii.eqb b backslash && Ascii.eqb u "u" then
                        match hex4 l1 l2 l3 l4 with
                        | Some c2 =>
                            if low_surrogate c2 then
                              '(t, r) ← scan_string s';
                              Some (utf8 (65536 + 1024 * (c - 55296) + (c2 - 56320)) t, r)
                            else plain
                        | None => plain
                        end
                      else plain
                  | _ => plain
                  end
              | _ => None
              end
            else
              x ← short_escape e;
              '(t, r) ← scan_string s; Some (String.String x t, r)
        end
      else if Text.code a <? 32 then None
      else '(t, r) ← scan_string s; Some (String.String a t, r)
  end.

(** The digits at the head of a text, behind the number read so far. *)
Fixpoint scan_digits (acc : Z) (s : string) : Z * string :=
  match s with
  | String.String a s' =>
      if Text.is_digit a then scan_digits (10 * acc + (Text.code a - 48)) s' else (acc, s)
  | EmptyString => (acc, s)
  end.

Definition starts_digit (s : string) : bool :=
  match s with String.String a _ => Text.is_digit a | EmptyString => false end.

(** [0|[1-9][0-9]*] *)
Definition scan_nat (s : string) : option (Z * string) :=
  match s with
  | String.String a s' =>
      if Ascii.eqb a "0" then Some (0, s')
      else if Text.is_digit a then Some (scan_digits 0 s) else None
  | EmptyString => None
  end.

(** The text behind [(\.[0-9]+)?] *)
Definition scan_fraction (s : string) : string :=
  match after_prefix "." s with
  | Some r => if starts_digit r then (scan_digits 0 r).2 else s
  | None => s
  end.

(** The text behind [([eE][-+]?[0-9]+)?] *)
Definition scan_exponent (s : string) : string :=
  match s with
  | String.String e r =>
      if Ascii.eqb e "e" || Ascii.eqb e "E" then
        let r' := match r with
                  | String.String a r' => if Ascii.eqb a "+" || Ascii.eqb a "-" then r' else r
                  | EmptyString => r
                  end in
        if starts_digit r' then (scan_digits 0 r').2 else s
      else s
  | EmptyString => s
  end.

(** A number: an [int], or a [float] when a fraction or an exponent
    follows. *)
Definition scan_number (s : string) : option (json * string) :=
  let '(neg, u) := match after_prefix "-" s with Some u => (true, u) | None => (false, s) end in
  '(z, r) ← scan_nat u;
  let r' := scan_exponent (scan_fraction r) in
  if Nat.eqb (String.length r') (String.length r) then
    Some (JInt (if neg : bool then - z else z), r)
  else
    f ← parse_float (String.substring 0 (String.length s - String.length r') s);
    Some (JFloat f, r').

(** How [json.loads] is called: with hooks that refuse doubled keys and the
    constants [NaN] and [Infinity], or with its defaults, where the last member
    of a key counts and the constants are numbers. *)
Inductive reader := Strict | Lenient.

(** The constants, behind [parse_constant]. *)
Definition scan_constant (rd : reader) (s : string) : option (json * string) :=
  match rd, after_prefix "NaN" s, after_prefix "Infinity" s, after_prefix "-Infinity" s with
  | Strict, _, _, _ => None
  | _, Some r, _, _ => Some (JFloat S754_nan, r)
  | _, _, Some r, _ => Some (JFloat (S754_infinity false), r)
  | _, _, _, Some r => Some (JFloat (S754_infinity true), r)
  | _, _, _, _ => None
  end.

(** A literal name, a number or a constant. *)
Definition scan_atom (rd : reader) (s : string) : option (json * string) :=
  match after_prefix "null" s, after_prefix "true" s, after_prefix "false" s with
  | Some r, _, _ => Some (JNull, r)
  | _, Some r, _ => Some (JBool true, r)
  | _, _, Some r => Some (JBool false, r)
  | _, _, _ =>
      match scan_number s with
      | Some found => Some found
      | None => scan_constant rd s
      end
  end.

(** src/functional_model/configuration.py, [unique_object]: the dict of the
    members of an object; a key that occurs twice is a [ValueError]. *)
Fixpoint unique_loop (pairs : list (string * json)) (d : list (string * json))
    : outcome (list (string * json)) :=
  match pairs with
  | [] => mret d
  | (k, v) :: pairs =>
      match dict_get k d with
      | Some _ => Raise ValueError
      | None => unique_loop pairs (dict_set k v d)
      end
  end.

Definition unique_object (pairs : list (string * json)) : outcome (list (string * json)) :=
  unique_loop pairs [].

(** [dict(pairs)] *)
Definition last_object (pairs : list (string * json)) : list (string * json) :=
  foldl (λ d kv, dict_set kv.1 kv.2 d) [] pairs.

Section reading.
Context (rd : reader).

Definition make_object (pairs : list (string * json)) : option json :=
  match rd, unique_object pairs with
  | Lenient, _ => Some (JObj (last_object pairs))
  | _, Ret d => Some (JObj d)
  | _, Raise _ => None
  end.

(** One value at the head of a text, the elements of an array behind its
    bracket and the members of an object behind its brace. *)
Fixpoint scan_value (fuel : nat) (s : string) : option (json * string) :=
  match fuel, s with
  | S fuel, String.String a r =>
      if Ascii.eqb a quote_char then '(t, r) ← scan_string r; Some (JStr t, r)
      else if Ascii.eqb a "{" then
        match after_prefix "}" (skip_ws r) with
        | Some r => Some (JObj [], r)
        | None => '(l, r) ← scan_members fuel (skip_ws r); j ← make_object l; Some (j, r)
        end
      else if Ascii.eqb a "[" then
        match after_prefix "]" (skip_ws r) with
        | Some r => Some (JArr [], r)
        | None => '(l, r) ← scan_elements fuel (skip_ws r); Some (JArr l, r)
        end
      else scan_atom rd s
  | _, _ => None
  end
with scan_elements (fuel : nat) (s : string) : option (list json * string) :=
  match fuel with
  | S fuel =>
      '(x, r) ← scan_value fuel s;
      match skip_ws r with
      | String.String b r =>
          if Ascii.eqb b "]" then Some ([x], r)
          else if Ascii.eqb b "," then
            '(l, r) ← scan_elements fuel (skip_ws r); Some (x :: l, r)
          else None
      | EmptyString => None
      end
  | O => None
  end
with scan_members (fuel : nat) (s : string) : option (list (string * json) * string) :=
  match fuel, s with
  | S fuel, String.String a r =>
      if Ascii.eqb a quote_char then
        '(k, r) ← scan_string r;
        r ← after_prefix ":" (skip_ws r);
        '(v, r) ← scan_value fuel (skip_ws r);
        match skip_ws r with
        | String.String b r =>
            if Ascii.eqb b "}" then Some ([(k, v)], r)
            else if Ascii.eqb b "," then
              '(l, r) ← scan_members fuel (skip_ws r); Some ((k, v) :: l, r)
            else None
        | EmptyString => None
        end
      else None
  | _, _ => None
  end.

(** Two calls for every character: enough for every text ([scan_fuel]). *)
Definition scan_steps (s : string) : nat := 2 + 2 * String.length s.

(** [json.loads(s)] *)
Definition loads (s : string) : outcome json :=
  let t := skip_ws s in
  match scan_value (scan_steps t) t with
  | Some (j, r) => match skip_ws r with EmptyString => Ret j | _ => Raise ValueError end
  | None => Raise ValueError
  end.
End reading.

(** [read_json] on the bytes of the file: they must be UTF-8. *)
Definition parse_json (content : string) : outcome json :=
  match code_points false content with
  | Some _ => loads Strict content
  | None => Raise ValueError
  end.

(** [fields(value, keys, location)] *)
Definition same_keys (d : list (string * json)) (keys : list string) : bool :=
  bool_decide (d.*1 ⊆ keys) && bool_decide (keys ⊆ d.*1).

Definition fields (value : json) (keys : list string) : outcome (list (string * json)) :=
  match value with
  | JObj d => if same_keys d keys then Ret d else Raise ValueError
  | _ => Raise ValueError
  end.

(** ** Lemmas *)

Section reading_lemmas.
Context (rd : reader).

(** *** Numbers *)

Lemma scan_digit a d k :
  0 ≤ d < 10 → scan_digits a (String.String (digit_char d) k) = scan_digits (10 * a + d) k.
Proof.
  intros Hd. destruct (digit_char_code d Hd) as [H1 H2].
  cbn [scan_digits]. rewrite H1, H2. f_equal. lia.
Qed.

(** What may follow an integer without becoming a part of it. *)
Definition ends_number (k : string) : bool :=
  match k with
  | String.String a _ =>
      negb (Text.is_digit a || Ascii.eqb a "." || Ascii.eqb a "e" || Ascii.eqb a "E")
  | EmptyString => true
  end.

Lemma ends_number_spec k :
  ends_number k = true →
  (∀ z, scan_digits z k = (z, k)) ∧ scan_fraction k = k ∧ scan_exponent k = k.
Proof.
  destruct k as [|a k]; [done|]. cbn [ends_number]. intros H.
  apply negb_true_iff in H. do 3 (apply orb_false_iff in H as [H ?]).
  split_and!.
  - intros z. cbn [scan_digits]. by rewrite H.
  - unfold scan_fraction. cbn [after_prefix]. rewrite Ascii.eqb_sym. by rewrite H2.
  - cbn [scan_exponent]. by rewrite H0, H1.
Qed.


Definition is_ascii (s : string) : bool := forallb (λ a, Text.code a <? 128) (String.list_ascii_of_string s).

Lemma scan_write_nat n k : 0 ≤ n → ends_number k = true → scan_nat (write_nat n k) = Some (n, k).
Proof.
  intros Hn Hk. unfold write_nat. pose proof (log2_fuel n Hn) as Hf.
  destruct (Z.eq_dec n 0) as [->|H0]; [done|]. revert Hf. generalize (S (Z.to_nat (Z.log2 n))).
  intros fuel Hf. destruct (digits_base_head fuel n k) as (d & r & E & Hd); [lia|].
  destruct (scan_digits_base 10 _ ltac:(lia) scan_digit fuel n k) as [p Hp]; [lia|]. destruct (Hp 0) as [Hs _].
  rewrite (proj1 (ends_number_spec k Hk)) in Hs. rewrite E in Hs |- *. unfold scan_nat.
  rewrite nonzero_digit by done. rewrite (proj1 (digit_char_code d ltac:(lia))), Hs. done.
Qed.

Lemma write_nat_head n k :
  0 ≤ n → ∃ d r, write_nat n k = String.String (digit_char d) r ∧ 0 ≤ d < 10.
Proof.
  intros Hn. unfold write_nat. destruct (Z.eq_dec n 0) as [->|].
  { by exists 0, k. }
  destruct (digits_base_head (S (Z.to_nat (Z.log2 n))) n k) as (d & r & E & Hd).
  { split; [lia|by apply log2_fuel]. }
  exists d, r. split; [done|lia].
Qed.

(** The characters a number starts with. *)
Definition number_head (a : Ascii.ascii) : bool := Ascii.eqb a "-" || Text.is_digit a.

Lemma number_head_spec a :
  number_head a = true →
  Ascii.eqb a quote_char = false ∧ Ascii.eqb a "{" = false ∧ Ascii.eqb a "[" = false
  ∧ Ascii.eqb "n" a = false ∧ Ascii.eqb "t" a = false ∧ Ascii.eqb "f" a = false
  ∧ Ascii.eqb "]" a = false ∧ is_ws a = false.
Proof.
  intros H.
  assert (implb (number_head a) (negb (Ascii.eqb a quote_char || Ascii.eqb a "{" || Ascii.eqb a "["
    || Ascii.eqb "n" a || Ascii.eqb "t" a || Ascii.eqb "f" a || Ascii.eqb "]" a || is_ws a)) = true) as E.
  { clear H. revert a. refine (forall_ascii _ _). vm_compute. reflexivity. }
  rewrite H in E. cbn [implb] in E. apply negb_true_iff in E.
  repeat (apply orb_false_iff in E as [E ?]). done.
Qed.

Lemma write_int_head z k :
  ∃ a r, write_int z k = String.String a r ∧ number_head a = true.
Proof.
  unfold write_int. destruct (Z.ltb_spec z 0); [by eexists _, _|].
  destruct (write_nat_head z k) as (d & r & -> & Hd); [lia|].
  exists (digit_char d), r. split; [done|]. unfold number_head.
  rewrite (proj1 (digit_char_code d Hd)). apply orb_true_r.
Qed.

Lemma scan_write_int z k : ends_number k = true → scan_number (write_int z k) = Some (JInt z, k).
Proof.
  intros Hk. destruct (ends_number_spec k Hk) as (_ & Hf & He).
  assert (∀ neg n s, 0 ≤ n → ('(z, r) ← scan_nat (write_nat n k);
    let r' := scan_exponent (scan_fraction r) in
    if Nat.eqb (String.length r') (String.length r) then
      Some (JInt (if neg : bool then - z else z), r)
    else
      f ← parse_float (String.substring 0 (String.length s - String.length r') s);
      Some (JFloat f, r')) = Some (JInt (if neg then - n else n), k)) as H.
  { intros neg n s Hn. rewrite scan_write_nat by done. cbn [mbind option_bind]. cbv zeta.
    by rewrite Hf, He, Nat.eqb_refl. }
  unfold write_int. destruct (Z.ltb_spec z 0) as [Hz|Hz].
  - etrans; [apply (H true (- z)); lia|]. do 3 f_equal. lia.
  - destruct (write_nat_head z k Hz) as (d & r & E & Hd).
 unfold scan_number.
    assert (after_prefix "-" (write_nat z k) = None) as ->; [|by apply (H false)].
    rewrite E. cbn [after_prefix].
    assert (Ascii.eqb "-" (digit_char d) = false) as ->.
    { apply negb_true_iff. revert d Hd E.
      intros d Hd _. revert d Hd. apply (forall_residues 10). vm_compute. reflexivity. }
    done.
Qed.

(** A number is read as such, whatever the reader. *)
Lemma scan_value_of_number fuel s j k :
  scan_number s = Some (j, k) → (∃ a r, s = String.String a r ∧ number_head a = true) →
  scan_value rd (S fuel) s = Some (j, k).
Proof.
  intros Hs (a & r & E & Ha). destruct (number_head_spec a Ha) as (H1 & H2 & H3 & H4 & H5 & H6 & _).
  rewrite E in Hs |- *. cbn [scan_value]. rewrite H1, H2, H3. unfold scan_atom. cbn [after_prefix].
  rewrite H4, H5, H6, Hs. reflexivity.
Qed.

Lemma scan_value_number fuel z k :
  ends_number k = true → scan_value rd (S fuel) (write_int z k) = Some (JInt z, k).
Proof. intros Hk. apply scan_value_of_number; [by apply scan_write_int|apply write_int_head]. Qed.

(** A number that ends its text ends before everything that cannot continue
    it. *)
Lemma append_cons a s k : (String.String a s ++ k)%string = String.String a (s ++ k)%string.
Proof. reflexivity. Qed.

Lemma append_nil k : ("" ++ k)%string = k.
Proof. reflexivity. Qed.

Lemma starts_digit_app s k : ends_number k = true → starts_digit (s ++ k)%string = starts_digit s.
Proof.
  intros Hk. destruct s as [|a s]; [|done]. destruct k as [|a k]; [done|].
  rewrite append_nil. cbn [ends_number starts_digit] in Hk |- *. by destruct (Text.is_digit a).
Qed.

Lemma scan_digits_app z s k :
  ends_number k = true → scan_digits z (s ++ k)%string = ((scan_digits z s).1, (scan_digits z s).2 ++ k)%string.
Proof.
  intros Hk. revert z. induction s as [|a s IH]; intros z; [apply (ends_number_spec k Hk)|].
  rewrite append_cons. cbn [scan_digits]. by destruct (Text.is_digit a).
Qed.

Lemma scan_nat_app s z r k :
  ends_number k = true → scan_nat s = Some (z, r) → scan_nat (s ++ k)%string = Some (z, r ++ k)%string.
Proof.
  intros Hk. destruct s as [|a s]; [done|]. rewrite append_cons. cbn [scan_nat].
  destruct (Ascii.eqb a "0"); [by intros [= -> ->]|]. destruct (Text.is_digit a); [|done].
  rewrite <-append_cons, scan_digits_app by done.
  destruct (scan_digits 0 (String.String a s)) as [z' r']. by intros [= -> ->].
Qed.

Lemma scan_fraction_app s k :
  ends_number k = true → scan_fraction (s ++ k)%string = (scan_fraction s ++ k)%string.
Proof.
  intros Hk. destruct s as [|a s]; [apply (ends_number_spec k Hk)|].
  unfold scan_fraction. rewrite append_cons. cbn [after_prefix]. destruct (Ascii.eqb "." a); [|done].
  rewrite starts_digit_app, scan_digits_app by done. by destruct (starts_digit s).
Qed.

Lemma scan_exponent_app s k :
  ends_number k = true → scan_exponent s = EmptyString → scan_exponent (s ++ k)%string = k.
Proof.
  intros Hk. destruct s as [|a s]; [intros _; apply (ends_number_spec k Hk)|].
  rewrite append_cons. cbn [scan_exponent]. destruct (_ || _); [|done].
  destruct s as [|b s]; [done|]. rewrite append_cons. destruct (Ascii.eqb b "+" || Ascii.eqb b "-").
  - rewrite starts_digit_app, scan_digits_app by done. destruct (starts_digit s); [|done].
    by intros ->.
  - rewrite <-append_cons.
    rewrite starts_digit_app, scan_digits_app by done. destruct (starts_digit _); [|done]. by intros ->.
Qed.

Lemma substring_prefix s k : String.substring 0 (String.length s) (s ++ k) = s.
Proof. induction s as [|a s IH]; [by destruct k|]. exact (f_equal (String.String a) IH). Qed.

Lemma append_empty (s : string) : (s ++ "")%string = s.
Proof. induction s as [|a s IH]; [done|]. exact (f_equal (String.String a) IH). Qed.

Lemma length_append s k : String.length (s ++ k) = (String.length s + String.length k)%nat.
Proof. induction s as [|a s IH]; [done|]. exact (f_equal S IH). Qed.

Lemma scan_number_app s f k :
  ends_number k = true → scan_number s = Some (JFloat f, EmptyString) →
  scan_number (s ++ k)%string = Some (JFloat f, k).
Proof.
  intros Hk. unfold scan_number.
  assert (∃ neg u, match after_prefix "-" s with Some u => (true, u) | None => (false, s) end = (neg, u)
    ∧ (scan_nat u ≠ None → match after_prefix "-" (s ++ k)%string with Some u => (true, u) | None => (false, (s ++ k)%string) end
       = (neg, u ++ k)%string)) as (neg & u & -> & Hu).
  { destruct s as [|a s]; [by exists false, EmptyString|]. rewrite append_cons. cbn [after_prefix].
    destruct (Ascii.eqb "-" a); eexists _, _; split; reflexivity || done. }
  destruct (scan_nat u) as [[z r]|] eqn:En; [|done]. rewrite Hu by done.
  rewrite (scan_nat_app u z r k Hk En). cbn [mbind option_bind]. cbv zeta.
  rewrite scan_fraction_app by done.
  destruct (Nat.eqb_spec (String.length (scan_exponent (scan_fraction r))) (String.length r)) as [|Hne]; [done|].
  destruct (parse_float _) as [g|] eqn:Ep; cbn [mbind option_bind]; [|done]. intros [= -> He].
  rewrite (scan_exponent_app _ k Hk He). rewrite He in Hne, Ep. cbn [String.length] in Hne, Ep.
  rewrite Nat.sub_0_r in Ep. rewrite !length_append.
  rewrite (proj2 (Nat.eqb_neq _ _)) by lia.
  rewrite Nat.add_sub, substring_prefix.
  pose proof (substring_prefix s EmptyString) as E. rewrite append_empty in E. rewrite E in Ep.
  by rewrite Ep.
Qed.

Lemma scan_number_head s j k :
  scan_number s = Some (j, k) → ∃ a r, s = String.String a r ∧ number_head a = true.
Proof.
  destruct s as [|a s]; [done|]. intros H. exists a, s. split; [done|]. revert H.
  unfold scan_number, number_head. cbn [after_prefix]. rewrite (Ascii.eqb_sym a).
  destruct (Ascii.eqb_spec "-" a) as [|Hne]; [done|]. cbn [orb scan_nat].
  destruct (Ascii.eqb_spec a "0") as [->|]; [done|]. by destruct (Text.is_digit a).
Qed.

(** *** Strings *)

Lemma code_points_ascii b s :
  is_ascii s = true → code_points b s = Some (map Text.code (String.list_ascii_of_string s)).
Proof.
  induction s as [|a s IH]; [done|]. cbn. intros H. apply andb_true_iff in H as [H1 H2].
  rewrite H1, IH by done. done.
Qed.

Lemma scan_u_escape h1 h2 h3 h4 c k :
  hex4 h1 h2 h3 h4 = Some c → high_surrogate c = false →
  scan_string (String.String backslash (String.String "u" (String.String h1 (String.String h2
    (String.String h3 (String.String h4 k))))))
  = '(t, r) ← scan_string k; Some (utf8 c t, r).
Proof.
  intros Hh Hc. cbn [scan_string]. change (Ascii.eqb backslash quote_char) with false.
  change (Ascii.eqb backslash backslash) with true. change (Ascii.eqb "u" "u") with true.
  cbv iota. rewrite Hh. cbn [mbind option_bind]. cbv zeta.
  destruct k as [|? [|? [|? [|? [|? [|? k]]]]]]; [reflexivity..|].
  by rewrite Hc.
Qed.

Lemma scan_escape a k :
  Text.code a <? 128 = true →
  scan_string (escape (Text.code a) k) = '(t, r) ← scan_string k; Some (String.String a t, r).
Proof. destruct a as [[] [] [] [] [] [] [] []]; vm_compute Text.code; intros [=];
  try reflexivity; match goal with |- scan_string (escape ?c _) = _ =>
      refine (scan_u_escape _ _ _ _ c k _ _); reflexivity end. Qed.

Lemma scan_write_string s k :
  is_ascii s = true →
  ∃ r, write_string s k = String.String quote_char r ∧ scan_string r = Some (s, k).
Proof.
  intros Hs. unfold write_string. eexists. split; [reflexivity|].
  rewrite code_points_ascii by done. cbn [default]. revert Hs.
  induction s as [|a s IH]; [done|]. cbn. intros H. apply andb_true_iff in H as [H1 H2].
  rewrite scan_escape by done. cbn in IH. by rewrite IH.
Qed.


(** The text of a float reads back as the float, as Python promises of every
    finite float. *)
Definition float_reads (f : float) : bool :=
  f_is_finite f && is_ascii (repr_float f)
  && match scan_number (repr_float f) with
     | Some (JFloat g, EmptyString) => bool_decide (g = f)
     | _ => false
     end.

Lemma float_reads_spec f :
  float_reads f = true →
  float_text f = repr_float f ∧ f_is_finite f = true ∧ is_ascii (repr_float f) = true
  ∧ scan_number (repr_float f) = Some (JFloat f, EmptyString).
Proof.
  unfold float_reads. intros [[Hf Ha]%andb_true_iff Hs]%andb_true_iff. split_and!; [|done..|].
  - by destruct f.
  - destruct (scan_number _) as [[[| | |g| | |] [|]]|]; try done.
    apply bool_decide_eq_true_1 in Hs. by rewrite Hs.
Qed.

Lemma write_float_head f k :
  float_reads f = true → ∃ a r, (float_text f ++ k)%string = String.String a r ∧ number_head a = true.
Proof.
  intros (-> & _ & _ & Hs)%float_reads_spec.
  destruct (scan_number_head _ _ _ Hs) as (a & r & -> & Ha). by exists a, (r ++ k)%string.
Qed.

Lemma scan_value_float fuel f k :
  float_reads f = true → ends_number k = true →
  scan_value rd (S fuel) (float_text f ++ k)%string = Some (JFloat f, k).
Proof.
  intros Hf Hk. apply scan_value_of_number; [|by apply write_float_head].
  destruct (float_reads_spec f Hf) as (-> & _ & _ & Hs). by apply scan_number_app.
Qed.

(** A value whose floats read back, with ASCII texts and distinct keys. *)
Fixpoint plain_json (j : json) : bool :=
  match j with
  | JFloat f => float_reads f
  | JStr s => is_ascii s
  | JArr l => forallb plain_json l
  | JObj d => bool_decide (NoDup d.*1) && forallb (λ '(k, v), is_ascii k && plain_json v) d
  | _ => true
  end.

(** *** Layout *)

Lemma skip_ws_newline indent level k : skip_ws (newline indent level k) = skip_ws k.
Proof.
  destruct indent as [| |n]; [done..|]. cbn. generalize (n * level)%nat. intros m.
  by induction m.
Qed.

Lemma strip_colon indent t :
  ∃ r, after_prefix ":" (skip_ws (key_sep indent t)) = Some r ∧ skip_ws r = skip_ws t.
Proof. destruct indent; by eexists. Qed.

(** The text of a value starts with its first character. *)
Definition starts_value (s : string) : Prop :=
  ∃ a r, s = String.String a r ∧ is_ws a = false ∧ Ascii.eqb "]" a = false.

Lemma write_json_head indent level j k :
  plain_json j = true → starts_value (write_json indent level j k).
Proof.
  assert (∀ t, (∃ a r, t = String.String a r ∧ number_head a = true) → starts_value t) as Hn.
  { intros t (a & r & E & Ha). exists a, r. split; [exact E|].
    by destruct (number_head_spec a Ha) as (_ & _ & _ & _ & _ & _ & ? & ?). }
  destruct j as [|[]|z|f|s|l|d]; intros Hp.
  - by eexists _, _.
  - by eexists _, _.
  - by eexists _, _.
  - apply Hn, write_int_head.
  - by apply Hn, write_float_head.
  - by eexists _, _.
  - destruct l; by eexists _, _.
  - destruct d; by eexists _, _.
Qed.

Lemma skip_ws_value s : starts_value s → skip_ws s = s.
Proof. intros (a & r & -> & H & _). cbn [skip_ws]. by rewrite H. Qed.

Lemma strip_bracket s : starts_value s → after_prefix "]" s = None.
Proof. intros (a & r & -> & _ & H). cbn [after_prefix]. by rewrite H. Qed.

(** The calls it takes to read a value. *)
Definition items_size {A} (size : A → nat) : list A → nat :=
  fix go l := match l with [] => O | x :: l => S (size x + go l) end.

Fixpoint json_size (j : json) : nat :=
  match j with
  | JArr l => S (items_size json_size l)
  | JObj d => S (items_size (λ '(_, v), json_size v) d)
  | _ => 1%nat
  end.

Lemma ends_newline indent level a k :
  ends_number (String.String a EmptyString) = true →
  ends_number (newline indent level (String.String a k)) = true.
Proof.
  intros Ha. destruct indent; [exact Ha..|reflexivity].
Qed.

Lemma ends_item_sep indent level k : ends_number (item_sep indent level k) = true.
Proof. by destruct indent. Qed.

Section scan_written.
Context (indent : layout).

(** What is to be shown of each value inside. *)
Definition scans (j : json) : Prop := ∀ level fuel k,
  (json_size j ≤ fuel)%nat → ends_number k = true →
  scan_value rd fuel (write_json indent level j k) = Some (j, k).

Lemma ends_rest {A} (item : A → string → string) level l k a :
  ends_number (String.String a EmptyString) = true →
  ends_number (write_rest item (item_sep indent (S level)) l (newline indent level (String.String a k)))
  = true.
Proof. intros Ha. destruct l; [by apply ends_newline|apply ends_item_sep]. Qed.

Lemma skip_item_sep level t :
  skip_ws t = t →
  skip_ws (item_sep indent level t) = item_sep indent level t
  ∧ ∃ r, item_sep indent level t = String.String "," r ∧ skip_ws r = t.
Proof.
  intros Ht. destruct indent as [| |n]; cbn [item_sep]; (split; [done|]);
    eexists; (split; [reflexivity|]); [exact Ht..|by rewrite (skip_ws_newline (Indented n))].
Qed.

Lemma scan_written_elements l x level fuel k :
  Forall scans (x :: l) → forallb plain_json (x :: l) = true →
  (items_size json_size (x :: l) ≤ fuel)%nat →
  scan_elements rd fuel (write_json indent (S level) x
    (write_rest (write_json indent (S level)) (item_sep indent (S level)) l
      (newline indent level (String.String "]" k)))) = Some (x :: l, k).
Proof.
  revert x fuel. induction l as [|y l IH]; intros x fuel Hs Hp Hf;
    apply Forall_cons in Hs as [Hx Hs]; cbn [forallb] in Hp; apply andb_true_iff in Hp as [Hpx Hp];
    cbn [items_size] in Hf; (destruct fuel as [|fuel]; [lia|]); cbn [scan_elements];
    rewrite Hx by (lia || by apply ends_rest); cbn [mbind option_bind].
  - cbn [write_rest]. rewrite skip_ws_newline. reflexivity.
  - cbn [write_rest].
    match goal with |- context [item_sep indent (S level) ?t] =>
      destruct (skip_item_sep (S level) t) as (-> & r & -> & Hr)
    end.
    { apply skip_ws_value, write_json_head. by apply andb_true_iff in Hp as [? _]. }
    change (Ascii.eqb "," "]") with false. change (Ascii.eqb "," ",") with true. cbv iota.
    rewrite Hr, IH; [done|done|done|]. cbn [items_size]. lia.
Qed.

Lemma scan_written_members d key v level fuel k :
  Forall (λ kv, scans kv.2) ((key, v) :: d) →
  forallb (λ '(k, v), is_ascii k && plain_json v) ((key, v) :: d) = true →
  (items_size (λ '(_, v), json_size v) ((key, v) :: d) ≤ fuel)%nat →
  scan_members rd fuel (write_member (write_json indent (S level)) indent (key, v)
    (write_rest (write_member (write_json indent (S level)) indent) (item_sep indent (S level)) d
      (newline indent level (String.String "}" k)))) = Some ((key, v) :: d, k).
Proof.
  revert key v fuel. induction d as [|[key' v'] d IH]; intros key v fuel Hs Hp Hf;
    apply Forall_cons in Hs as [Hx Hs]; cbn [forallb] in Hp;
    apply andb_true_iff in Hp as [[Hk Hv]%andb_true_iff Hp];
    cbn [items_size] in Hf; (destruct fuel as [|fuel]; [lia|]); cbn [scan_members];
    unfold write_member at 1;
    match goal with |- context [write_string key ?t] =>
      destruct (scan_write_string key t Hk) as (r & -> & Hr) end;
    change (Ascii.eqb quote_char quote_char) with true; cbv iota;
    rewrite Hr; cbn [mbind option_bind];
    match goal with |- context [key_sep indent ?t] =>
      destruct (strip_colon indent t) as (rc & -> & Hrc) end;
    cbn [mbind option_bind]; rewrite Hrc; rewrite skip_ws_value by (by apply write_json_head);
    cbn [snd] in Hx; rewrite Hx by (lia || by apply ends_rest); cbn [mbind option_bind write_rest].
  - rewrite skip_ws_newline. reflexivity.
  - match goal with |- context [item_sep indent (S level) ?t] =>
      destruct (skip_item_sep (S level) t) as (-> & r' & -> & Hr')
    end.
    { reflexivity. }
    change (Ascii.eqb "," "}") with false. change (Ascii.eqb "," ",") with true. cbv iota.
    rewrite Hr', IH; [done|done|done|]. cbn [items_size]. lia.
Qed.
End scan_written.

Lemma unique_loop_spec pairs d :
  NoDup (d ++ pairs).*1 → unique_loop pairs d = Ret (d ++ pairs).
Proof.
  revert d. induction pairs as [|[k v] pairs IH]; intros d Hd; cbn [unique_loop].
  { by rewrite app_nil_r. }
  rewrite fmap_app in Hd. cbn in Hd. apply NoDup_app in Hd as (H1 & H2 & H3).
  assert (k ∉ d.*1) as Hk by (intros Hk; apply (H2 k Hk); set_solver).
  rewrite dict_get_none, dict_set_new by done. rewrite IH; rewrite <-app_assoc; [done|].
  rewrite fmap_app. cbn. by apply NoDup_app.
Qed.

Lemma last_object_spec (pairs d : list (string * json)) :
  NoDup (d ++ pairs).*1 → foldl (λ d kv, dict_set kv.1 kv.2 d) d pairs = d ++ pairs.
Proof.
  revert d. induction pairs as [|[k v] pairs IH]; intros d Hd; cbn [foldl].
  { by rewrite app_nil_r. }
  rewrite fmap_app in Hd. cbn in Hd. apply NoDup_app in Hd as (H1 & H2 & H3).
  assert (k ∉ d.*1) as Hk by (intros Hk; apply (H2 k Hk); set_solver). cbn [fst snd].
  rewrite dict_set_new by done. rewrite IH; rewrite <-app_assoc; [done|].
  rewrite fmap_app. cbn. by apply NoDup_app.
Qed.

Lemma make_object_spec d : NoDup d.*1 → make_object rd d = Some (JObj d).
Proof.
  intros Hd. unfold make_object, unique_object, last_object.
  rewrite unique_loop_spec, last_object_spec by done. by destruct rd.
Qed.

(** Reading back the text of a value, whatever follows it. *)
Lemma scan_write_json indent j : plain_json j = true → scans indent j.
Proof.
  induction j as [|b|z|f|s|l IH|d IH] using json_nested_ind; intros Hp level fuel k Hf Hk;
    (destruct fuel as [|fuel]; [by inversion Hf|]).
  - reflexivity.
  - by destruct b.
  - by apply scan_value_number.
  - by apply scan_value_float.
  - cbn [write_json]. destruct (scan_write_string s k Hp) as (r & -> & Hr).
    cbn [scan_value]. change (Ascii.eqb quote_char quote_char) with true. cbv iota. by rewrite Hr.
  - destruct l as [|x l]; [reflexivity|]. cbn [write_json write_items scan_value].
    change (Ascii.eqb "[" quote_char) with false. change (Ascii.eqb "[" "{") with false.
    change (Ascii.eqb "[" "[") with true. cbv iota.
    assert (plain_json x = true) as Hx by (cbn in Hp; by apply andb_true_iff in Hp as [? _]).
    rewrite skip_ws_newline, skip_ws_value, strip_bracket by (by apply write_json_head).
    rewrite scan_written_elements; [done| |done|by cbn in Hf |- *; lia].
    exact (forallb_mp _ _ _ _ IH Hp (λ _ H, H)).
  - destruct d as [|[key v] d]; [reflexivity|]. cbn [write_json write_items scan_value].
    change (Ascii.eqb "{" quote_char) with false. change (Ascii.eqb "{" "{") with true. cbv iota.
    cbn [plain_json] in Hp. apply andb_true_iff in Hp as [Hd Hp].
    rewrite skip_ws_newline.
    assert (∀ t, skip_ws (write_member (write_json indent (S level)) indent (key, v) t)
      = write_member (write_json indent (S level)) indent (key, v) t
      ∧ after_prefix "}" (write_member (write_json indent (S level)) indent (key, v) t) = None) as Hm by done.
    rewrite (proj1 (Hm _)), (proj2 (Hm _)).
    rewrite scan_written_members; [cbn [mbind option_bind]| |done|by cbn in Hf |- *; lia].
    + rewrite make_object_spec; [done|]. by apply bool_decide_eq_true_1 in Hd.
    + refine (forallb_mp _ _ _ _ IH Hp _). intros [k' v'] H. by apply andb_true_iff in H as [_ ?].
Qed.

(** *** The length of a text *)

Lemma scan_string_length s t r : scan_string s = Some (t, r) → (String.length r < String.length s)%nat.
Proof.
  revert t r.
  assert (∀ n s t r, (String.length s ≤ n)%nat → scan_string s = Some (t, r) →
    (String.length r < String.length s)%nat) as H; [|by eauto].
  clear s. intros n. induction n as [|n IH]; intros s t r Hn; (destruct s as [|a s]; [done|]);
    cbn [String.length] in Hn |- *; [lia|].
  assert (∀ (f : string → string) s' t r, (String.length s' ≤ String.length s)%nat →
    ('(t, r) ← scan_string s'; Some (f t, r)) = Some (t, r) →
    (String.length r < S (String.length s))%nat) as Hrec.
  { intros f s' t' r' Hl. destruct (scan_string s') as [[t0 r0]|] eqn:E; [|done].
    intros [= _ <-]. apply IH in E; lia. }
  cbn [scan_string]. destruct (Ascii.eqb a quote_char); [intros [= _ <-]; lia|].
  destruct (Ascii.eqb a backslash).
  2: { destruct (Text.code a <? 32); [done|]. apply (Hrec (String.String a)). lia. }
  destruct s as [|e s]; [done|]. destruct (Ascii.eqb e "u").
  2: { destruct (short_escape e) as [x|]; [|done]. apply (Hrec (String.String x)). cbn. lia. }
  destruct s as [|h1 [|h2 [|h3 [|h4 s]]]]; try done.
  destruct (hex4 h1 h2 h3 h4) as [c|]; [|done]. cbn [mbind option_bind]. cbv zeta.
  assert (('(t, r) ← scan_string s; Some (utf8 c t, r)) = Some (t, r) →
    (String.length r < S (S (S (S (S (S (String.length s)))))))%nat) as Hplain
    by (apply (Hrec (utf8 c)); cbn; lia).
  destruct s as [|b [|u [|l1 [|l2 [|l3 [|l4 s']]]]]]; try exact Hplain.
  destruct (_ && _ && _); [|exact Hplain].
  destruct (hex4 l1 l2 l3 l4) as [c2|]; [|exact Hplain].
  destruct (low_surrogate c2); [|exact Hplain].
  apply (Hrec (utf8 _)). cbn. lia.
Qed.

Lemma skip_ws_length s : (String.length (skip_ws s) ≤ String.length s)%nat.
Proof. induction s as [|a s IH]; [done|]. cbn. destruct (is_ws a); cbn; lia. Qed.

Lemma after_prefix_length p s r :
  after_prefix p s = Some r → String.length s = (String.length p + String.length r)%nat.
Proof.
  revert s. induction p as [|a p IH]; intros s; cbn; [by intros [= ->]|].
  destruct s as [|b s]; [done|]. destruct (Ascii.eqb a b); [|done]. intros H. cbn. by rewrite (IH s H).
Qed.

Lemma scan_digits_length s z : (String.length (scan_digits z s).2 ≤ String.length s)%nat.
Proof.
  revert z. induction s as [|a s IH]; intros z; [done|]. cbn. destruct (Text.is_digit a); [|done].
  etrans; [apply IH|lia].
Qed.

Lemma scan_nat_length s z r : scan_nat s = Some (z, r) → (String.length r < String.length s)%nat.
Proof.
  destruct s as [|a s]; [done|]. cbn [scan_nat]. destruct (Ascii.eqb a "0").
  { intros [= _ <-]. cbn. lia. }
  cbn [scan_digits]. destruct (Text.is_digit a); [|done]. intros [= E].
  pose proof (scan_digits_length s (10 * 0 + (Text.code a - 48))) as H. rewrite E in H. cbn in *. lia.
Qed.

Lemma scan_fraction_length s : (String.length (scan_fraction s) ≤ String.length s)%nat.
Proof.
  unfold scan_fraction. destruct (after_prefix "." s) as [r|] eqn:E; [|done].
  apply after_prefix_length in E. destruct (starts_digit r); [|done].
  pose proof (scan_digits_length r 0). lia.
Qed.

Lemma scan_exponent_length s : (String.length (scan_exponent s) ≤ String.length s)%nat.
Proof.
  destruct s as [|e r]; [done|]. cbn [scan_exponent]. destruct (_ || _); [|done].
  assert (∀ r', (String.length r' ≤ String.length r)%nat →
    (String.length (if starts_digit r' then (scan_digits 0 r').2 else String.String e r)
     ≤ String.length (String.String e r))%nat) as H.
  { intros r' Hr. destruct (starts_digit r'); [|done]. pose proof (scan_digits_length r' 0). cbn. lia. }
  apply H. destruct r as [|a r]; [done|]. destruct (_ || _); cbn; lia.
Qed.

Lemma scan_number_length s j r : scan_number s = Some (j, r) → (String.length r < String.length s)%nat.
Proof.
  unfold scan_number.
  assert (∃ neg u, match after_prefix "-" s with Some u => (true, u) | None => (false, s) end = (neg, u)
    ∧ (String.length u ≤ String.length s)%nat) as (neg & u & -> & Hu).
  { destruct (after_prefix "-" s) as [u|] eqn:E; eexists _, _; (split; [reflexivity|]); [|done].
    apply after_prefix_length in E. lia. }
  destruct (scan_nat u) as [[z t]|] eqn:En; [|done]. apply scan_nat_length in En.
  cbn [mbind option_bind]. cbv zeta.
  pose proof (scan_fraction_length t). pose proof (scan_exponent_length (scan_fraction t)).
  destruct (Nat.eqb _ _); [intros [= _ <-]; lia|].
  destruct (parse_float _); [|done]. intros [= _ <-]. lia.
Qed.

Lemma scan_constant_length s j r : scan_constant rd s = Some (j, r) → (String.length r < String.length s)%nat.
Proof.
  unfold scan_constant. destruct rd; [done|].
  destruct (after_prefix "NaN" s) eqn:E1; [apply after_prefix_length in E1; intros [= _ <-]; cbn in E1; lia|].
  destruct (after_prefix "Infinity" s) eqn:E2; [apply after_prefix_length in E2; intros [= _ <-]; cbn in E2; lia|].
  destruct (after_prefix "-Infinity" s) eqn:E3; [apply after_prefix_length in E3; intros [= _ <-]; cbn in E3; lia|done].
Qed.

Lemma scan_atom_length s j r : scan_atom rd s = Some (j, r) → (String.length r < String.length s)%nat.
Proof.
  unfold scan_atom.
  destruct (after_prefix "null" s) eqn:E1; [apply after_prefix_length in E1; intros [= _ <-]; cbn in E1; lia|].
  destruct (after_prefix "true" s) eqn:E2; [apply after_prefix_length in E2; intros [= _ <-]; cbn in E2; lia|].
  destruct (after_prefix "false" s) eqn:E3; [apply after_prefix_length in E3; intros [= _ <-]; cbn in E3; lia|].
  destruct (scan_number s) as [[x t]|] eqn:E; [|apply scan_constant_length].
  intros [= _ <-]. by apply (scan_number_length s x t).
Qed.

Lemma scan_value_S fuel a r :
  scan_value rd (S fuel) (String.String a r) =
  if Ascii.eqb a quote_char then '(t, r) ← scan_string r; Some (JStr t, r)
  else if Ascii.eqb a "{" then
    match after_prefix "}" (skip_ws r) with
    | Some r => Some (JObj [], r)
    | None => '(l, r) ← scan_members rd fuel (skip_ws r); j ← make_object rd l; Some (j, r)
    end
  else if Ascii.eqb a "[" then
    match after_prefix "]" (skip_ws r) with
    | Some r => Some (JArr [], r)
    | None => '(l, r) ← scan_elements rd fuel (skip_ws r); Some (JArr l, r)
    end
  else scan_atom rd (String.String a r).
Proof. reflexivity. Qed.

Lemma scan_elements_S fuel s :
  scan_elements rd (S fuel) s =
  '(x, r) ← scan_value rd fuel s;
  match skip_ws r with
  | String.String b r =>
      if Ascii.eqb b "]" then Some ([x], r)
      else if Ascii.eqb b "," then
        '(l, r) ← scan_elements rd fuel (skip_ws r); Some (x :: l, r)
      else None
  | EmptyString => None
  end.
Proof. reflexivity. Qed.

Lemma scan_members_S fuel a r :
  scan_members rd (S fuel) (String.String a r) =
  if Ascii.eqb a quote_char then
    '(k, r) ← scan_string r;
    r ← after_prefix ":" (skip_ws r);
    '(v, r) ← scan_value rd fuel (skip_ws r);
    match skip_ws r with
    | String.String b r =>
        if Ascii.eqb b "}" then Some ([(k, v)], r)
        else if Ascii.eqb b "," then
          '(l, r) ← scan_members rd fuel (skip_ws r); Some ((k, v) :: l, r)
        else None
    | EmptyString => None
    end
  else None.
Proof. reflexivity. Qed.

(** Reading consumes at least one character. *)
Lemma scan_consumes fuel :
  (∀ s j r, scan_value rd fuel s = Some (j, r) → (String.length r < String.length s)%nat)
  ∧ (∀ s l r, scan_elements rd fuel s = Some (l, r) → (String.length r < String.length s)%nat)
  ∧ (∀ s d r, scan_members rd fuel s = Some (d, r) → (String.length r < String.length s)%nat).
Proof.
  induction fuel as [|fuel (IHv & IHe & IHm)]; [done|].
  split_and!; intros s j r; cbn [scan_value scan_elements scan_members].
  - destruct s as [|a s]; [done|]. pose proof (skip_ws_length s) as Hs. cbn [String.length].
    destruct (Ascii.eqb a quote_char).
    { destruct (scan_string s) as [[t u]|] eqn:E; [|done]. apply scan_string_length in E.
      intros [= _ <-]. lia. }
    destruct (Ascii.eqb a "{").
    { destruct (after_prefix "}" (skip_ws s)) eqn:E; [apply after_prefix_length in E; intros [= _ <-]; cbn in E; lia|].
      destruct (scan_members rd fuel (skip_ws s)) as [[d u]|] eqn:Em; [|done]. apply IHm in Em.
      cbn [mbind option_bind]. destruct (make_object rd d); [|done]. intros [= _ <-]. lia. }
    destruct (Ascii.eqb a "[").
    { destruct (after_prefix "]" (skip_ws s)) eqn:E; [apply after_prefix_length in E; intros [= _ <-]; cbn in E; lia|].
      destruct (scan_elements rd fuel (skip_ws s)) as [[d u]|] eqn:Em; [|done]. apply IHe in Em.
      intros [= _ <-]. lia. }
    apply scan_atom_length.
  - destruct (scan_value rd fuel s) as [[x t]|] eqn:Ev; [|done]. apply IHv in Ev. cbn [mbind option_bind].
    pose proof (skip_ws_length t) as Ht. destruct (skip_ws t) as [|b u]; [done|].
    pose proof (skip_ws_length u) as Hu. cbn [String.length] in Ht.
    destruct (Ascii.eqb b "]"); [intros [= _ <-]; lia|]. destruct (Ascii.eqb b ","); [|done].
    destruct (scan_elements rd fuel (skip_ws u)) as [[l v]|] eqn:Ee; [|done]. apply IHe in Ee.
    intros [= _ <-]. lia.
  - destruct s as [|a s]; [done|]. cbn [String.length]. destruct (Ascii.eqb a quote_char); [|done].
    destruct (scan_string s) as [[k t]|] eqn:E; [|done]. apply scan_string_length in E.
    cbn [mbind option_bind]. pose proof (skip_ws_length t) as Ht.
    destruct (after_prefix ":" (skip_ws t)) as [t'|] eqn:Ec; [|done]. apply after_prefix_length in Ec.
    cbn [mbind option_bind]. pose proof (skip_ws_length t') as Ht'.
    destruct (scan_value rd fuel (skip_ws t')) as [[x u]|] eqn:Ev; [|done]. apply IHv in Ev.
    cbn [mbind option_bind]. pose proof (skip_ws_length u) as Hu.
    destruct (skip_ws u) as [|b w]; [done|]. cbn [String.length] in Hu.
    pose proof (skip_ws_length w) as Hw.
    destruct (Ascii.eqb b "}"); [intros [= _ <-]; lia|]. destruct (Ascii.eqb b ","); [|done].
    destruct (scan_members rd fuel (skip_ws w)) as [[l v]|] eqn:Ee; [|done]. apply IHm in Ee.
    intros [= _ <-]. lia.
Qed.

(** More fuel than two calls for every character changes nothing. *)
Lemma scan_stable fuel :
  (∀ s, (2 + 2 * String.length s ≤ fuel)%nat → scan_value rd (S fuel) s = scan_value rd fuel s)
  ∧ (∀ s, (3 + 2 * String.length s ≤ fuel)%nat → scan_elements rd (S fuel) s = scan_elements rd fuel s)
  ∧ (∀ s, (2 + 2 * String.length s ≤ fuel)%nat → scan_members rd (S fuel) s = scan_members rd fuel s).
Proof.
  induction fuel as [|fuel (IHv & IHe & IHm)]; [split_and!; intros; lia|].
  split_and!; intros s Hf.
  - destruct s as [|a s]; [done|]. pose proof (skip_ws_length s) as Hs. cbn [String.length] in Hf.
    rewrite (scan_value_S (S fuel)), (scan_value_S fuel).
    rewrite IHm, IHe by lia. reflexivity.
  - rewrite (scan_elements_S (S fuel) s), (scan_elements_S fuel s).
    rewrite IHv by lia.
    destruct (scan_value rd fuel s) as [[x t]|] eqn:Ev; [|done].
    apply (proj1 (scan_consumes fuel)) in Ev. cbn [mbind option_bind].
    pose proof (skip_ws_length t) as Ht. destruct (skip_ws t) as [|b u]; [done|].
    pose proof (skip_ws_length u) as Hu. cbn [String.length] in Ht. by rewrite IHe by lia.
  - destruct s as [|a s]; [done|]. cbn [String.length] in Hf.
    rewrite (scan_members_S (S fuel)), (scan_members_S fuel).
    destruct (Ascii.eqb a quote_char); [|done].
    destruct (scan_string s) as [[k t]|] eqn:E; [|done]. apply scan_string_length in E.
    cbn [mbind option_bind]. pose proof (skip_ws_length t) as Ht.
    destruct (after_prefix ":" (skip_ws t)) as [t'|] eqn:Ec; [|done]. apply after_prefix_length in Ec.
    cbn [mbind option_bind]. pose proof (skip_ws_length t') as Ht'. rewrite IHv by lia.
    destruct (scan_value rd fuel (skip_ws t')) as [[x u]|] eqn:Ev; [|done].
    apply (proj1 (scan_consumes fuel)) in Ev. cbn [mbind option_bind].
    pose proof (skip_ws_length u) as Hu. destruct (skip_ws u) as [|b w]; [done|].
    cbn [String.length] in Hu. pose proof (skip_ws_length w) as Hw. by rewrite IHm by lia.
Qed.

(** The fuel of [loads] is enough. *)
Lemma scan_fuel fuel s :
  (scan_steps s ≤ fuel)%nat → scan_value rd fuel s = scan_value rd (scan_steps s) s.
Proof.
  intros Hf. replace fuel with (fuel - scan_steps s + scan_steps s)%nat by lia.
  induction (fuel - scan_steps s)%nat as [|n IH]; [done|].
  rewrite <-IH. apply scan_stable. unfold scan_steps. lia.
Qed.

Lemma finite_plain j : plain_json j = true → finite_json j = true.
Proof.
  induction j as [|b|z|f|s|l IH|d IH] using json_nested_ind; intros Hp; try done; cbn in Hp |- *.
  - by apply float_reads_spec in Hp as (_ & ? & _).
  - apply Is_true_true_1, forallb_True.
    eapply Forall_impl; [exact (forallb_mp _ _ _ _ IH Hp (λ _ H, H))|]. intros x. apply Is_true_true_2.
  - apply andb_true_iff in Hp as [_ Hp]. apply Is_true_true_1, forallb_True.
    assert (Forall (λ kv, finite_json kv.2 = true) d) as Hd.
    { refine (forallb_mp _ _ _ _ IH Hp _). intros [k v] H. by apply andb_true_iff in H as [_ ?]. }
    eapply Forall_impl; [exact Hd|]. intros [k v] H. by apply Is_true_true_2.
Qed.

(** *** A written text is ASCII *)

Lemma is_ascii_cons a s : Text.code a <? 128 = true → is_ascii s = true → is_ascii (String.String a s) = true.
Proof. intros Ha Hs. cbn. by rewrite Ha. Qed.

Lemma ascii_app s t : is_ascii s = true → is_ascii t = true → is_ascii (s ++ t)%string = true.
Proof.
  intros Hs Ht. induction s as [|a s IH]; [done|]. cbn in Hs. apply andb_true_iff in Hs as [H1 H2].
  apply (is_ascii_cons a (s ++ t)%string); auto.
Qed.

Lemma hex_ascii bs : is_ascii (hex bs) = true.
Proof.
  induction bs as [|b bs IH]; [done|]. apply ascii_app; [|exact IH]. by destruct b.
Qed.

Lemma digits_ascii base fuel n k :
  0 < base ≤ 16 → is_ascii k = true → is_ascii (digits_base base fuel n k) = true.
Proof.
  intros Hbase. revert n k. induction fuel as [|fuel IH]; intros n k Hk; [done|]. cbn [digits_base].
  assert (is_ascii (String.String (digit_char (n mod base)) k) = true).
  { apply is_ascii_cons; [|done]. pose proof (Z.mod_pos_bound n base ltac:(lia)) as Hm.
    assert (0 ≤ n mod base < 16) as Hm' by lia. revert Hm'. generalize (n mod base).
    apply (forall_residues 16). vm_compute. reflexivity. }
  destruct (n / base =? 0); auto.
Qed.

Lemma write_string_ascii s k : is_ascii s = true → is_ascii k = true → is_ascii (write_string s k) = true.
Proof.
  intros Hs Hk. unfold write_string. apply is_ascii_cons; [done|].
  rewrite code_points_ascii by done. cbn [default]. revert Hs.
  induction s as [|a s IH]; [by intros _; apply is_ascii_cons|].
  intros H. cbn in H. apply andb_true_iff in H as [H1 H2]. specialize (IH H2). cbn [String.list_ascii_of_string map foldr].
  assert (∀ t, is_ascii t = true → is_ascii (escape (Text.code a) t) = true) as He.
  { intros t Ht. clear -H1 Ht. destruct a as [[] [] [] [] [] [] [] []]; vm_compute Text.code in *;
      try discriminate H1; repeat (refine (is_ascii_cons _ _ _ _); [reflexivity|]); exact Ht. }
  by apply He.
Qed.

Lemma newline_ascii indent level k : is_ascii k = true → is_ascii (newline indent level k) = true.
Proof.
  intros Hk. destruct indent as [| |n]; [done..|]. cbn. generalize (n * level)%nat. intros m.
  by induction m.
Qed.

Lemma item_sep_ascii indent level k : is_ascii k = true → is_ascii (item_sep indent level k) = true.
Proof. intros Hk. destruct indent as [| |n]; [done..|]. exact (newline_ascii (Indented n) level k Hk). Qed.

Lemma write_items_ascii {A} (item : A → string → string) op cl indent level l k :
  Forall (λ x, ∀ k, is_ascii k = true → is_ascii (item x k) = true) l →
  Text.code op <? 128 = true → Text.code cl <? 128 = true → is_ascii k = true →
  is_ascii (write_items item op cl indent level l k) = true.
Proof.
  intros Hl Hop Hcl Hk. destruct Hl as [|x l Hx Hl]; [by do 2 (apply is_ascii_cons; [done|])|].
  cbn [write_items]. apply is_ascii_cons; [done|]. apply newline_ascii, Hx.
  induction Hl as [|y l Hy _ IH]; cbn [write_rest].
  - by apply newline_ascii, is_ascii_cons.
  - by apply item_sep_ascii, Hy.
Qed.

Lemma write_json_ascii indent j :
  plain_json j = true → ∀ level k, is_ascii k = true → is_ascii (write_json indent level j k) = true.
Proof.
  induction j as [|b|z|f|s|l IH|d IH] using json_nested_ind; intros Hp level k Hk.
  - exact Hk.
  - by destruct b.
  - cbn [write_json]. unfold write_int, write_nat.
    destruct (z <? 0); [apply is_ascii_cons; [done|]|]; (apply digits_ascii; [lia|done]).
  - cbn [write_json]. destruct (float_reads_spec f Hp) as (-> & _ & Ha & _). by apply ascii_app.
  - by apply write_string_ascii.
  - apply write_items_ascii; try done. pose proof (forallb_mp _ _ _ _ IH Hp (λ _ H, H)) as Hl.
    eapply Forall_impl; [exact Hl|]. auto.
  - cbn [plain_json] in Hp. apply andb_true_iff in Hp as [_ Hp].
    apply write_items_ascii; try done.
    assert (Forall (λ kv, is_ascii kv.1 = true ∧ ∀ level k, is_ascii k = true →
      is_ascii (write_json indent level kv.2 k) = true) d) as Hd.
    { refine (forallb_mp _ (λ kv, is_ascii kv.1 = true ∧ plain_json kv.2 = true) _ _ _ Hp _).
      - eapply Forall_impl; [exact IH|]. cbn. naive_solver.
      - intros [k' v'] H. by apply andb_true_iff in H. }
    eapply Forall_impl; [exact Hd|]. intros [k' v'] [H1 H2] t Ht. cbn in H1, H2 |- *.
    apply write_string_ascii; [done|].
    destruct indent; (repeat (apply is_ascii_cons; [done|])); by apply H2.
Qed.

(** The written text reads back, with white space behind it. *)
Lemma loads_written indent j k :
  plain_json j = true → skip_ws k = EmptyString → ends_number k = true →
  loads rd (write_json indent 0 j k) = Ret j.
Proof.
  intros Hp Hk He. unfold loads. set (t := write_json indent 0 j k).
  rewrite (skip_ws_value t) by (by apply write_json_head).
  rewrite <-(scan_fuel (scan_steps t `max` json_size j)) by lia.
  unfold t. rewrite (scan_write_json indent j Hp) by (done || lia). by rewrite Hk.
Qed.

Lemma loads_dumps indent j :
  plain_json j = true →
  dumps indent j = Ret (write_json indent 0 j "") ∧ loads rd (write_json indent 0 j "") = Ret j.
Proof.
  intros Hp. unfold dumps. rewrite finite_plain by done. split; [done|]. by apply loads_written.
Qed.
End reading_lemmas.

(** *** What is written in one line *)

(** A text can be written in front of any other. *)
Lemma append_assoc (s t k : string) : ((s ++ t) ++ k = s ++ (t ++ k))%string.
Proof. induction s as [|a s IH]; [done|]. exact (f_equal (String.String a) IH). Qed.

Lemma escape_app c k k' : (escape c k ++ k')%string = escape c (k ++ k')%string.
Proof. unfold escape. repeat (destruct (_ : bool); [reflexivity|]). reflexivity. Qed.

Lemma write_string_app s k k' : (write_string s k ++ k')%string = write_string s (k ++ k')%string.
Proof.
  unfold write_string. rewrite append_cons. f_equal. induction (default [] (code_points true s)) as [|c l IH]; [done|].
  cbn [foldr]. by rewrite escape_app, IH.
Qed.

Lemma newline_app indent level k k' : (newline indent level k ++ k')%string = newline indent level (k ++ k')%string.
Proof. destruct indent; [done..|]. cbn [newline]. by rewrite append_cons, append_assoc. Qed.

Lemma item_sep_app indent level k k' : (item_sep indent level k ++ k')%string = item_sep indent level (k ++ k')%string.
Proof. destruct indent; [done..|]. cbn [item_sep]. by rewrite append_cons, newline_app. Qed.

Lemma write_items_app {A} (item : A → string → string) op cl indent level l k k' :
  Forall (λ x, ∀ k k', (item x k ++ k')%string = item x (k ++ k')%string) l →
  (write_items item op cl indent level l k ++ k')%string = write_items item op cl indent level l (k ++ k')%string.
Proof.
  intros Hl. destruct Hl as [|x l Hx Hl]; [done|]. cbn [write_items].
  rewrite append_cons, newline_app, Hx. do 3 f_equal.
  induction Hl as [|y l Hy _ IH]; cbn [write_rest]; [by rewrite newline_app|]. by rewrite item_sep_app, Hy, IH.
Qed.

Lemma write_json_app indent j : ∀ level k k',
  (write_json indent level j k ++ k')%string = write_json indent level j (k ++ k')%string.
Proof.
  induction j as [|b|z|f|s|l IH|d IH] using json_nested_ind; intros level k k'; cbn [write_json].
  - by rewrite append_assoc.
  - by rewrite append_assoc.
  - unfold write_int, write_nat. destruct (z <? 0); [rewrite append_cons; f_equal|]; by rewrite digits_base_app.
  - by rewrite append_assoc.
  - apply write_string_app.
  - apply write_items_app. eapply Forall_impl; [exact IH|]. auto.
  - apply write_items_app. eapply Forall_impl; [exact IH|]. intros [key v] H u u'. cbn in H |- *.
    rewrite write_string_app. f_equal. destruct indent; cbn [key_sep]; by rewrite !append_cons, H.
Qed.

(** For the clients: the written text reads back. *)
Lemma parse_dumps indent j :
  plain_json j = true →
  dumps indent j = Ret (write_json indent 0 j "") ∧ parse_json (write_json indent 0 j "") = Ret j.
Proof.
  intros Hp. destruct (loads_dumps Strict indent j Hp) as [H1 H2]. split; [done|].
  unfold parse_json. by rewrite code_points_ascii by (by apply write_json_ascii).
Qed.

(** ** Properties *)

(** Reading back a written value gives the value: in every layout, every value
    whose floats read back, whose texts are ASCII and whose objects have
    distinct keys is written to some text, and [read_json] on that text answers
    the value. *)
Theorem json_roundtrip indent j :
  plain_json j = true → ∃ t, dumps indent j = Ret t ∧ parse_json t = Ret j.
Proof. intros Hp. destruct (parse_dumps indent j Hp). by eexists. Qed.

Definition json_example : json :=
  JObj [("schema_version", JInt 2); ("flags", JArr [JBool true; JNull; JArr []]);
        ("values", JObj [("6081:00", JStr "e8030000"); ("a\b", JInt (-120)); ("s", JFloat (f_dec 125 (-3)))])].

Lemma json_roundtrip_witness :
  plain_json json_example = true
  ∧ ∃ t, dumps (Indented 2) json_example = Ret t ∧ parse_json t = Ret json_example.
Proof.
  assert (plain_json json_example = true) as Hp by (vm_compute; reflexivity).
  split; [exact Hp|exact (json_roundtrip (Indented 2) json_example Hp)].
Defined.
