(* ===== verification/Sha256.v ===== *)
(** * SHA-256

    The digest of Python's [hashlib], as the program uses it for the checksum
    of a snapshot (src/functional_model/storage/parameter_store.py), for the
    hash of a contract (src/functional_model/runtime/axis.py) and for the hash
    of the sources (src/functional_model/runtime/provenance.py): the function of
    FIPS 180-4 on 32-bit words, executable.

    The development takes a digest as an argument where nothing but its being a
    function matters; [hexdigest] is the one of the program.  The examples are
    the test vectors of the standard. *)

From S2P Require Import Prelude PyFloat.
From S2P Require Export Json.

Open Scope string_scope.
Open Scope list_scope.
Open Scope Z_scope.

(** ** Words *)

Definition w32 (z : Z) : Z := Z.land z 0xffffffff.

Definition rotr (n x : Z) : Z := Z.lor (Z.shiftr x n) (w32 (Z.shiftl x (32 - n))).

(** [~x] on a word *)
Definition not32 (x : Z) : Z := Z.lxor x 0xffffffff.

Definition ch (x y z : Z) : Z := Z.lxor (Z.land x y) (Z.land (not32 x) z).
Definition maj (x y z : Z) : Z := Z.lxor (Z.lxor (Z.land x y) (Z.land x z)) (Z.land y z).

Definition big_sigma0 (x : Z) : Z := Z.lxor (Z.lxor (rotr 2 x) (rotr 13 x)) (rotr 22 x).
Definition big_sigma1 (x : Z) : Z := Z.lxor (Z.lxor (rotr 6 x) (rotr 11 x)) (rotr 25 x).
Definition sigma0 (x : Z) : Z := Z.lxor (Z.lxor (rotr 7 x) (rotr 18 x)) (Z.shiftr x 3).
Definition sigma1 (x : Z) : Z := Z.lxor (Z.lxor (rotr 17 x) (rotr 19 x)) (Z.shiftr x 10).

(** The largest [r] with [r ^ 3 <= n] below [2 ^ bits], bit by bit. *)
Fixpoint cube_root (bits : nat) (n r : Z) : Z :=
  match bits with
  | O => r
  | S k =>
      let candidate := r + 2 ^ Z.of_nat k in
      cube_root k n (if candidate ^ 3 <=? n then candidate else r)
  end.

Definition is_prime (n : nat) : bool := forallb (λ d, negb (Nat.eqb (Nat.modulo n d) 0)) (seq 2 (n - 2)).

Definition primes : list Z := Z.of_nat <$> filter is_prime (seq 2 310).

(** The first 32 bits of the fractional parts of the cube roots of the first
    64 primes, and of the square roots of the first 8. *)
Definition round_constants : list Z :=
  Eval vm_compute in map (λ p, w32 (cube_root 35 (p * 2 ^ 96) 0)) primes.

Definition initial_hash : list Z :=
  Eval vm_compute in map (λ p, w32 (Z.sqrt (p * 2 ^ 64))) (take 8 primes).

(** ** Padding *)

(** The [n] bytes of an integer, most significant first. *)
Fixpoint big_endian (n : nat) (z : Z) : list Z :=
  match n with
  | O => []
  | S n => big_endian n (z / 256) ++ [z mod 256]
  end.

(** A bit 1, zeros up to 8 bytes before the end of a block of 64, and the
    length in bits. *)
Definition padding (len : Z) : list Z :=
  128 :: replicate (Z.to_nat ((55 - len) mod 64)) 0 ++ big_endian 8 (8 * len).

(** The words of a sequence of bytes, and the blocks of a sequence of words. *)
Fixpoint words (bs : list Z) : list Z :=
  match bs with
  | a :: b :: c :: d :: bs => (0x1000000 * a + 0x10000 * b + 0x100 * c + d) :: words bs
  | _ => []
  end.

Fixpoint blocks (n : nat) (ws : list Z) : list (list Z) :=
  match n with
  | O => []
  | S n => take 16 ws :: blocks n (drop 16 ws)
  end.

(** ** The compression *)

(** The schedule of a block, with the newest word in front. *)
Fixpoint expand (n : nat) (ws : list Z) : list Z :=
  match n with
  | O => ws
  | S n =>
      let at' i := default 0 (ws !! i) in
      expand n (w32 (sigma1 (at' 1%nat) + at' 6%nat + sigma0 (at' 14%nat) + at' 15%nat) :: ws)
  end.

Definition schedule (block : list Z) : list Z := reverse (expand 48 (reverse block)).

Record hash_state := HashState { ha : Z; hb : Z; hc : Z; hd : Z; he : Z; hf : Z; hg : Z; hh : Z }.

Definition round (s : hash_state) (kw : Z * Z) : hash_state :=
  let '(k, w) := kw in
  let t1 := hh s + big_sigma1 (he s) + ch (he s) (hf s) (hg s) + k + w in
  let t2 := big_sigma0 (ha s) + maj (ha s) (hb s) (hc s) in
  HashState (w32 (t1 + t2)) (ha s) (hb s) (hc s) (w32 (hd s + t1)) (he s) (hf s) (hg s).

Definition state_words (s : hash_state) : list Z :=
  [ha s; hb s; hc s; hd s; he s; hf s; hg s; hh s].

Definition words_state (l : list Z) : hash_state :=
  let at' i := default 0 (l !! i) in
  HashState (at' 0%nat) (at' 1%nat) (at' 2%nat) (at' 3%nat) (at' 4%nat) (at' 5%nat) (at' 6%nat) (at' 7%nat).

Definition compress (h : list Z) (block : list Z) : list Z :=
  let s := foldl round (words_state h) (zip round_constants (schedule block)) in
  zip_with (λ x y, w32 (x + y)) h (state_words s).

(** ** The digest *)

Definition text_bytes (s : string) : list Z := map Text.code (String.list_ascii_of_string s).

(** The words of [hashlib.sha256(s).digest()] *)
Definition sha256_words (s : string) : list Z :=
  let bs := text_bytes s in
  let padded := bs ++ padding (Z.of_nat (length bs)) in
  foldl compress initial_hash (blocks (length padded / 64) (words padded)).

(** [hexdigest()]: eight digits a word *)
Definition hexdigest (s : string) : string :=
  foldr (λ w t, (pad_left 8 (to_base 16 w) ++ t)%string) "" (sha256_words s).

Example sha256_vectors :
  (hexdigest "", hexdigest "abc", hexdigest "abcdbcdecdefdefgefghfghighijhijkijkljklmklmnlmnomnopnopq")
  = ("e3b0c44298fc1c149afbf4c8996fb92427ae41e4649b934ca495991b7852b855",
     "ba7816bf8f01cfea414140de5dae2223b00361a396177a9cb410ff61f20015ad",
     "248d6a61d20638b8e5c026930c3e6039a33ce45964ff2167f6ecedd419db06c1").
Proof. vm_compute. reflexivity. Qed.

(** ** Lemmas *)

Definition word32 (z : Z) : Prop := 0 ≤ z < 2 ^ 32.

Lemma w32_word z : word32 (w32 z).
Proof.
  unfold word32, w32. change 0xffffffff with (Z.ones 32). rewrite Z.land_ones by lia.
  apply Z.mod_pos_bound. lia.
Qed.

Lemma compress_words h block : length h = 8%nat → Forall word32 (compress h block) ∧ length (compress h block) = 8%nat.
Proof.
  intros Hl. unfold compress. set (s := foldl _ _ _). split.
  - apply Forall_forall. intros z (x & y & -> & _)%elem_of_zip_with. apply w32_word.
  - rewrite length_zip_with, Hl. done.
Qed.

(** The digest has eight words. *)
Lemma sha256_words_word s : Forall word32 (sha256_words s) ∧ length (sha256_words s) = 8%nat.
Proof.
  unfold sha256_words. cbv zeta.
  assert (∀ bl h, Forall word32 h ∧ length h = 8%nat →
    Forall word32 (foldl compress h bl) ∧ length (foldl compress h bl) = 8%nat) as H.
  { induction bl as [|b bl IH]; intros h [Hw Hl]; [done|]. by apply IH, compress_words. }
  apply H. split; [|done]. repeat constructor; by vm_compute.
Qed.

Lemma digits_base_short fuel n m k :
  0 ≤ n < 16 ^ Z.of_nat (S m) →
  (String.length (digits_base 16 fuel n k) ≤ S m + String.length k)%nat.
Proof.
  revert n m k. induction fuel as [|fuel IH]; intros n m k Hn; cbn [digits_base]; [lia|].
  destruct (Z.eqb_spec (n / 16) 0) as [|Hne]; [cbn; lia|].
  destruct m as [|m].
  { destruct Hne. apply Z.div_small. by rewrite Z.pow_1_r in Hn. }
  rewrite Nat2Z.inj_succ, Z.pow_succ_r in Hn by lia.
  pose proof (Z.div_pos n 16 ltac:(lia) ltac:(lia)). pose proof (Z.div_lt_upper_bound n 16 _ ltac:(lia) (proj2 Hn)).
  specialize (IH (n / 16) m (String.String (digit_char (n mod 16)) k) ltac:(lia)). cbn in IH |- *. lia.
Qed.

Lemma pad_left_length w : word32 w → String.length (pad_left 8 (to_base 16 w)) = 8%nat.
Proof.
  intros Hw. unfold pad_left, zeros, to_base.
  pose proof (digits_base_short (S (Z.to_nat (Z.log2 w))) w 7 "" Hw) as Hl.
  set (t := digits_base _ _ _ _) in *. cbn [String.length] in Hl. rewrite length_append.
  assert (∀ n, String.length (replicate_char "0" n) = n) as -> by (induction n; cbn; congruence). lia.
Qed.

Lemma zeros_ascii n : is_ascii (zeros n) = true.
Proof. unfold zeros. by induction (Z.to_nat n). Qed.

(** A digest is a text of 64 ASCII characters. *)
Lemma hexdigest_ascii s : is_ascii (hexdigest s) = true.
Proof.
  unfold hexdigest. induction (sha256_words s) as [|w l IH]; [done|]. cbn [foldr].
  apply ascii_app, IH. apply ascii_app; [apply zeros_ascii|by apply digits_ascii].
Qed.

Lemma hexdigest_length s : String.length (hexdigest s) = 64%nat.
Proof.
  destruct (sha256_words_word s) as [Hw Hl]. unfold hexdigest.
  assert (∀ l, Forall word32 l → String.length (foldr (λ w t, (pad_left 8 (to_base 16 w) ++ t)%string) "" l)
    = (8 * length l)%nat) as H.
  { intros l Hf. induction Hf as [|w l H1 _ IH]; [done|]. cbn [foldr length].
    rewrite length_append, pad_left_length, IH by done. lia. }
  by rewrite H, Hl.
Qed.
