(* ===== verification/Provenance.v ===== *)
(** * The hash of the sources

    src/functional_model/runtime/provenance.py ([source_hash]): one digest over
    the names and the contents of the sources and data files of both packages,
    in the order of their paths.

    What [rglob] finds under the root of a package is a list of entries in an
    arbitrary order, each with the parts of its path below the root.  Paths
    compare by their parts, as on Linux.  [lru_cache] keeps the first answer, so
    a process has one.

    The theorem: the digest depends on the hashed files only, and not on the
    order in which the file system lists them. *)

From stdpp Require Import sorting.
From S2P Require Import Prelude PyFloat.
From S2P Require Export Sha256.

Open Scope string_scope.
Open Scope list_scope.
Open Scope Z_scope.

(** What [rglob] yields; the content of an entry that is not a file is empty. *)
Record found := Found {
  fd_parts : list string;
  fd_is_file : bool;
  fd_content : string;
}.

(** ** Names *)

(** The text from the last dot on, with what is in front of it. *)
Fixpoint last_dot (s : string) : option (string * string) :=
  match s with
  | EmptyString => None
  | String.String a s' =>
      match last_dot s' with
      | Some (stem, suffix) => Some (String.String a stem, suffix)
      | None => if Ascii.eqb a "." then Some (EmptyString, s) else None
      end
  end.

(** [path.suffix]: a dot at an end of the name starts none. *)
Definition suffix (parts : list string) : string :=
  match last_dot (default "" (last parts)) with
  | Some (String.String _ _, String.String a (String.String b r)) => String.String a (String.String b r)
  | _ => ""
  end.

(** [as_posix()] *)
Fixpoint as_posix (parts : list string) : string :=
  match parts with
  | [] => ""
  | [p] => p
  | p :: parts => (p ++ String.String "/" (as_posix parts))%string
  end.

Definition hashed (f : found) : bool :=
  fd_is_file f && bool_decide (suffix (fd_parts f) ∈ [".py"; ".json"; ".xml"]).

(** ** Sorting *)

(** [a <= b] of two lists of texts *)
Fixpoint parts_le (a b : list string) : bool :=
  match a, b with
  | [], _ => true
  | _ :: _, [] => false
  | x :: a, y :: b => match String.compare x y with Lt => true | Eq => parts_le a b | Gt => false end
  end.

Definition found_le (f g : found) : Prop := parts_le (fd_parts f) (fd_parts g) = true.

#[export] Instance found_le_decision f g : Decision (found_le f g).
Proof. unfold found_le. apply _. Defined.

(** ** The digest *)

(** What one file adds to it. *)
Definition file_text (package : string) (f : found) : string :=
  (package ++ "/" ++ as_posix (fd_parts f) ++ String.String (Text.chr 0) (fd_content f))%string.

Definition package_text (package : string) (tree : list found) : string :=
  foldr (λ f t, (file_text package f ++ t)%string) ""
    (filter hashed (merge_sort found_le tree)).

Definition source_hash (files : string → list found) : string :=
  hexdigest (package_text "functional_model" (files "functional_model")
    ++ package_text "device_descriptions" (files "device_descriptions")).

Example source_hash_example :
  package_text "p" [Found ["b.py"] true "2"; Found ["a"; "x.py"] true "1"; Found ["a"] false "";
                    Found [".py"] true "no"; Found ["b.txt"] true "no"]
  = ("p/a/x.py" ++ String.String (Text.chr 0) ("1p/b.py" ++ String.String (Text.chr 0) "2"))%string.
Proof. vm_compute. reflexivity. Qed.

(** ** Lemmas *)

(** The order of texts is total. *)
Lemma string_compare_refl s : String.compare s s = Eq.
Proof. pose proof (String.compare_antisym s s) as H. by destruct (String.compare s s). Qed.

Lemma string_compare_trans s t u :
  String.compare s t = Lt → String.compare t u = Lt → String.compare s u = Lt.
Proof.
  revert t u. induction s as [|a s IH]; intros [|b t] [|c u]; try done. cbn. unfold Ascii.compare.
  destruct (N.compare_spec (Ascii.N_of_ascii a) (Ascii.N_of_ascii b)) as [E1|H1|H1]; [|intros _|done];
    (destruct (N.compare_spec (Ascii.N_of_ascii b) (Ascii.N_of_ascii c)) as [E2|H2|H2]; [|intros ?|try done]);
    intros; destruct (N.compare_spec (Ascii.N_of_ascii a) (Ascii.N_of_ascii c)) as [E3|H3|H3]; try lia; eauto.
Qed.

Lemma parts_le_total a b : parts_le a b = true ∨ parts_le b a = true.
Proof.
  revert b. induction a as [|x a IH]; intros [|y b]; cbn; auto.
  rewrite (String.compare_antisym y x). destruct (String.compare x y); cbn; auto.
Qed.

Lemma parts_le_antisym a b : parts_le a b = true → parts_le b a = true → a = b.
Proof.
  revert b. induction a as [|x a IH]; intros [|y b]; cbn; try done.
  rewrite (String.compare_antisym y x). destruct (String.compare x y) eqn:E; cbn; [|done..].
  apply String.compare_eq_iff in E as ->. intros. f_equal. by apply IH.
Qed.

Lemma parts_le_trans a b c : parts_le a b = true → parts_le b c = true → parts_le a c = true.
Proof.
  revert b c. induction a as [|x a IH]; intros [|y b] [|z c]; cbn; try done.
  destruct (String.compare x y) eqn:E1; [apply String.compare_eq_iff in E1 as ->| |done];
    (destruct (String.compare y z) eqn:E2; [apply String.compare_eq_iff in E2 as ->| |done]);
    rewrite ?E1, ?E2, ?string_compare_refl; eauto.
  by rewrite (string_compare_trans x y z).
Qed.

#[export] Instance found_le_total : Total found_le.
Proof. intros f g. apply parts_le_total. Qed.

#[export] Instance found_le_transitive : Transitive found_le.
Proof. intros f g h. apply parts_le_trans. Qed.

Lemma StronglySorted_filter {A} (R : relation A) (P : A → Prop) `{∀ x, Decision (P x)} l :
  StronglySorted R l → StronglySorted R (filter P l).
Proof.
  induction 1 as [|x l Hl IH Hx]; [constructor|]. rewrite filter_cons. case_decide; [|done].
  constructor; [done|]. apply Forall_forall. intros y [_ Hy]%list_elem_of_filter.
  by apply (proj1 (Forall_forall _ _) Hx).
Qed.

(** The files of a package, in the order in which they are hashed. *)
Lemma sorted_files_unique t1 t2 :
  NoDup (map fd_parts (filter hashed t1)) → filter hashed t1 ≡ₚ filter hashed t2 →
  filter hashed (merge_sort found_le t1) = filter hashed (merge_sort found_le t2).
Proof.
  intros Hnd Hp. apply (StronglySorted_unique_strong found_le).
  - intros f g Hf Hg H1 H2. rewrite merge_sort_Permutation in Hf, Hg. rewrite <-Hp in Hg.
    pose proof (parts_le_antisym _ _ H1 H2) as E.
    apply list_elem_of_lookup_1 in Hf as [i Hi]. apply list_elem_of_lookup_1 in Hg as [j Hj].
    assert (i = j) as ->; [|congruence].
    apply (NoDup_lookup (map fd_parts (filter hashed t1)) i j (fd_parts f)); [done|..];
      change (map fd_parts) with (fmap (M:=list) fd_parts); rewrite list_lookup_fmap, ?Hi, ?Hj; cbn; by rewrite ?E.
  - apply StronglySorted_filter, StronglySorted_merge_sort; apply _.
  - apply StronglySorted_filter, StronglySorted_merge_sort; apply _.
  - by rewrite !merge_sort_Permutation.
Qed.

(** ** Properties *)

(** The hash of the sources depends on the source and data files only: two
    installations with the same files of the three kinds, listed in any order
    and among any other entries, have the same hash. *)
Theorem source_hash_of_files files1 files2 :
  (∀ p, NoDup (map fd_parts (filter hashed (files1 p)))) →
  (∀ p, filter hashed (files1 p) ≡ₚ filter hashed (files2 p)) →
  source_hash files1 = source_hash files2.
Proof.
  intros Hnd Hp. unfold source_hash, package_text.
  by rewrite !(sorted_files_unique _ _ (Hnd _) (Hp _)).
Qed.

Definition demo_files (p : string) : list found :=
  [Found ["b.py"] true "2"; Found ["a"; "x.py"] true "1"; Found ["notes.txt"] true "no"].

Lemma source_hash_of_files_witness :
  source_hash demo_files = source_hash (λ p, [Found ["a"] false ""; Found ["a"; "x.py"] true "1"; Found ["b.py"] true "2"]).
Proof.
  apply source_hash_of_files.
  - intros p. apply (bool_decide_unpack (NoDup _)). vm_compute. exact I.
  - intros p. change (filter hashed (demo_files p)) with [Found ["b.py"] true "2"; Found ["a"; "x.py"] true "1"].
    apply perm_swap.
Defined.
