(* ===== verification/Metadata.v ===== *)
(** * Object and PDO metadata

    src/functional_model/cia402_drive/profile/metadata.py and pdo.py: the
    data type tables, [ObjectDictionaryEntry] with its bit and byte lengths,
    the PDO mapping word, and the fixed PDO layout of pdo.json.  A Python
    dict of objects is a [gmap] keyed by [od_key]; the lookup by field, the
    only place that walks the values, takes them as a list. *)

From S2P Require Import Prelude PyFloat.
From S2P Require Export PyText.

(** The [struct] formats of DATA_TYPE_FORMATS, little-endian. *)
Inductive struct_format :=
  | FmtBool
  | FmtInt (signed : bool) (size : nat)
  | FmtFloat32.

#[export] Instance struct_format_eq_dec : EqDecision struct_format.
Proof. solve_decision. Defined.

(** [struct.calcsize] *)
Definition calcsize (f : struct_format) : nat :=
  match f with FmtBool => 1 | FmtInt _ n => n | FmtFloat32 => 4 end.

Fixpoint assoc {A} (key : string) (l : list (string * A)) : option A :=
  match l with
  | [] => None
  | (k, v) :: l => if String.eqb key k then Some v else assoc key l
  end.

Definition DATA_TYPE_FORMATS : list (string * struct_format) := [
  ("bool", FmtBool);
  ("uint8", FmtInt false 1);
  ("int8", FmtInt true 1);
  ("uint16", FmtInt false 2);
  ("int16", FmtInt true 2);
  ("uint32", FmtInt false 4);
  ("int32", FmtInt true 4);
  ("uint64", FmtInt false 8);
  ("int64", FmtInt true 8);
  ("float32", FmtFloat32)].

Definition DATA_TYPE_BITS : list (string * Z) :=
  map (λ '(t, f), (t, Z.of_nat (calcsize f) * 8)) DATA_TYPE_FORMATS
  ++ [("visible_string", 0); ("octet_string", 0);
      ("unicode_string", 0); ("byte_array", 0)].

Module Entry.
Record t := Make {
  index : Z;
  subindex : Z;
  name : string;
  data_type : string;
  field : option string;
  default : pyval;
}.

#[export] Instance eq_dec : EqDecision t.
Proof. solve_decision. Defined.
End Entry.

Abbreviation ObjectDictionaryEntry := Entry.t.

(** [removeprefix] of the first [n] characters. *)
Definition drop_chars (n : nat) (s : string) : string :=
  String.substring n (String.length s - n) s.

Definition bit_length (o : ObjectDictionaryEntry) : outcome Z :=
  if Text.starts_with "padding" (Entry.data_type o)
  then of_option ValueError (parse_int (drop_chars 7 (Entry.data_type o)))
  else of_option KeyError (assoc (Entry.data_type o) DATA_TYPE_BITS).

Definition byte_length (o : ObjectDictionaryEntry) : outcome Z :=
  b ← bit_length o; mret (b / 8).

Definition mapping_entry (o : ObjectDictionaryEntry) : outcome Z :=
  b ← bit_length o;
  mret (Z.lor (Z.lor (Z.shiftl (Entry.index o) 16) (Z.shiftl (Entry.subindex o) 8)) b).

Definition od_key (index subindex : Z) : Z * Z := (index, subindex).

Definition padding_object (bits : Z) : ObjectDictionaryEntry := {|
  Entry.index := 0x0000; Entry.subindex := 0x00;
  Entry.name := "Padding " ++ str_Z bits;
  Entry.data_type := "padding" ++ str_Z bits;
  Entry.field := None; Entry.default := PInt 0 |}.

Abbreviation objects_t := (gmap (Z * Z) ObjectDictionaryEntry).

Definition pdo_object_from_dictionary (objects : objects_t) (key : Z * Z)
    : outcome ObjectDictionaryEntry :=
  of_option KeyError (objects !! key).

Definition pdo_object_by_field (objects : objects_t) (f : string)
    : outcome ObjectDictionaryEntry :=
  match List.filter (λ o, bool_decide (Entry.field o = Some f)) (map_to_list objects).*2 with
  | [] => Raise KeyError
  | [o] => Ret o
  | _ => Raise KeyError
  end.

(** An item of a PDO list: padding, a field name, an address, a raw word. *)
Inductive pdo_item :=
  | PdoPadding (bits : Z)
  | PdoField (f : string)
  | PdoAddress (key : Z * Z)
  | PdoWord (w : Z).

Definition pdo_mapping_entry (objects : objects_t) (item : pdo_item) : outcome Z :=
  match item with
  | PdoPadding bits => Ret (Z.land bits 0xFF)
  | PdoField f => o ← pdo_object_by_field objects f; mapping_entry o
  | PdoAddress key => o ← pdo_object_from_dictionary objects key; mapping_entry o
  | PdoWord w => Ret w
  end.

Definition pdo_mapping_entries (objects : objects_t) (items : list pdo_item)
    : outcome (list Z) := traverse (pdo_mapping_entry objects) items.

(** One turn of the loop of [pdo_objects_from_mapping_entries]: nothing for
    the zero word, a padding object, or the mapped object with its length
    checked. *)
Definition object_from_mapping_entry (objects : objects_t) (w : Z)
    : outcome (option ObjectDictionaryEntry) :=
  let bits := Z.land w 0xFF in
  if w =? 0 then mret None
  else if Z.shiftr w 8 =? 0 then mret (Some (padding_object bits))
  else
    let index := Z.land (Z.shiftr w 16) 0xFFFF in
    let subindex := Z.land (Z.shiftr w 8) 0xFF in
    o ← pdo_object_from_dictionary objects (index, subindex);
    b ← bit_length o;
    if negb (b =? bits) then Raise ValueError else mret (Some o).

Definition pdo_objects_from_mapping_entries (objects : objects_t) (ws : list Z)
    : outcome (list ObjectDictionaryEntry) :=
  r ← traverse (object_from_mapping_entry objects) ws; Ret (omap (M:=list) id r).

(** ** The fixed layout of pdo.json *)

Definition entry (i s : Z) (n t f : string) (d : Z) : ObjectDictionaryEntry :=
  Entry.Make i s n t (Some f) (PInt d).

Definition pdo_padding8 : ObjectDictionaryEntry :=
  Entry.Make 0 0 "Padding 8" "padding8" None (PInt 0).

Record PdoConfiguration := PdoConf {
  rx : list ObjectDictionaryEntry;
  tx : list ObjectDictionaryEntry;
}.

Definition motion_server_default : PdoConfiguration := {|
  rx := [
    entry 0x6040 0 "Controlword" "uint16" "controlword" 0;
    entry 0x6060 0 "Modes of operation" "int8" "mode_of_operation" 8;
    entry 0x607A 0 "Target position" "int32" "target_position" 0;
    entry 0x6081 0 "Profile velocity" "uint32" "profile_velocity" 0;
    entry 0x60FF 0 "Target velocity" "int32" "target_velocity" 0;
    entry 0x6071 0 "Target torque" "int16" "target_torque" 0;
    entry 0x60B1 0 "Velocity offset" "int32" "velocity_offset" 0;
    entry 0x60B2 0 "Torque offset" "int16" "torque_offset" 0;
    pdo_padding8];
  tx := [
    entry 0x6041 0 "Statusword" "uint16" "statusword" 64;
    entry 0x6061 0 "Modes of operation display" "int8" "mode_of_operation_display" 8;
    entry 0x6064 0 "Position actual value" "int32" "actual_position" 0;
    entry 0x606C 0 "Velocity actual value" "int32" "actual_velocity" 0;
    entry 0x6077 0 "Torque actual value" "int16" "actual_torque" 0;
    pdo_padding8] |}.

(** [sum(x.byte_length for x in entries)] *)
Definition layout_size (l : list ObjectDictionaryEntry) : outcome Z :=
  bs ← traverse byte_length l; mret (foldr Z.add 0 bs).

Example layout_sizes :
  (layout_size (rx motion_server_default), layout_size (tx motion_server_default))
  = (Ret 24, Ret 14).
Proof. vm_compute. reflexivity. Qed.

(** ** Properties *)

(** [denotes objects item o]: the PDO item stands for the object [o]. *)
Inductive denotes (objects : objects_t) : pdo_item → ObjectDictionaryEntry → Prop :=
  | denotes_address o b :
      objects !! od_key (Entry.index o) (Entry.subindex o) = Some o → bit_length o = Ret b →
      0 < Entry.index o < 0x10000 → 0 ≤ Entry.subindex o < 0x100 → 0 ≤ b < 0x100 →
      denotes objects (PdoAddress (od_key (Entry.index o) (Entry.subindex o))) o
  | denotes_padding bits :
      0 < bits < 0x100 → denotes objects (PdoPadding bits) (padding_object bits).

Lemma mapping_word_parts i s b :
  0 < i < 0x10000 → 0 ≤ s < 0x100 → 0 ≤ b < 0x100 →
  let w := Z.lor (Z.lor (Z.shiftl i 16) (Z.shiftl s 8)) b in
  Z.land w 0xFF = b ∧ Z.land (Z.shiftr w 16) 0xFFFF = i
  ∧ Z.land (Z.shiftr w 8) 0xFF = s ∧ Z.shiftr w 8 ≠ 0 ∧ w ≠ 0.
Proof.
  intros Hi Hs Hb w.
  assert (w = (i * 256 + s) * 256 + b) as ->.
  { unfold w. change 16 with (8 + 8) at 1. rewrite <-Z.shiftl_shiftl, <-Z.shiftl_lor by lia.
    rewrite !lor_shiftl_add by (try lia; rewrite ?lor_shiftl_add; lia). done. }
  change 0xFF with (Z.ones 8). change 0xFFFF with (Z.ones 16).
  rewrite !Z.land_ones, !Z.shiftr_div_pow2 by lia.
  change (2 ^ 8) with 256. change (2 ^ 16) with 65536.
  split_and!; try lia; Z.to_euclidean_division_equations; lia.
Qed.

Lemma object_from_word objects item o :
  denotes objects item o →
  ∃ w, pdo_mapping_entry objects item = Ret w
    ∧ object_from_mapping_entry objects w = Ret (Some o).
Proof.
  destruct 1 as [o b Hl Hb Hi Hs Hb8|bits Hbits].
  - eexists. split.
    { unfold pdo_mapping_entry, pdo_object_from_dictionary. rewrite Hl. simpl.
      unfold mapping_entry. rewrite Hb. reflexivity. }
    destruct (mapping_word_parts (Entry.index o) (Entry.subindex o) b Hi Hs Hb8)
      as (E1 & E2 & E3 & N1 & N2).
    unfold object_from_mapping_entry. rewrite E1, E2, E3.
    apply Z.eqb_neq in N1, N2. rewrite N1, N2.
    unfold pdo_object_from_dictionary. unfold od_key in Hl. rewrite Hl. simpl.
    rewrite Hb. simpl. by rewrite Z.eqb_refl.
  - exists bits. change 0xFF with (Z.ones 8). simpl pdo_mapping_entry.
    change 255 with (Z.ones 8). rewrite Z.land_ones, Z.mod_small by lia. split; [done|].
    unfold object_from_mapping_entry. change 0xFF with (Z.ones 8).
    rewrite Z.land_ones, Z.mod_small by lia.
    rewrite (proj2 (Z.eqb_neq bits 0)) by lia.
    rewrite Z.shiftr_div_pow2, Z.div_small by lia. done.
Qed.

Lemma omap_id_Some {A} (l : list A) : omap (M:=list) id (Some <$> l) = l.
Proof. induction l as [|x l IH]; [done|]. simpl. f_equal. exact IH. Qed.

(** Round trip of the PDO mapping words: the words of a PDO layout decode to
    the objects of the layout, in order, paddings included. *)
Theorem pdo_mapping_roundtrip objects items os :
  Forall2 (denotes objects) items os →
  (ws ← pdo_mapping_entries objects items; pdo_objects_from_mapping_entries objects ws)
  = Ret os.
Proof.
  intros H.
  assert (∃ ws, Forall2 (λ i w, pdo_mapping_entry objects i = Ret w) items ws
    ∧ Forall2 (λ w o, object_from_mapping_entry objects w = Ret o) ws (Some <$> os))
    as (ws & H1 & H2).
  { induction H as [|i o items os Hio _ (ws & H1 & H2)]; [by exists []|].
    destruct (object_from_word _ _ _ Hio) as (w & Hw & Ho).
    exists (w :: ws). split; by constructor. }
  unfold pdo_mapping_entries, pdo_objects_from_mapping_entries.
  rewrite (traverse_Forall2 _ _ _ H1). simpl.
  rewrite (traverse_Forall2 _ _ _ H2). simpl. by rewrite omap_id_Some.
Qed.

Definition rx_objects : objects_t :=
  list_to_map (map (λ o, (od_key (Entry.index o) (Entry.subindex o), o)) (rx motion_server_default)).

Lemma pdo_mapping_roundtrip_witness :
  let cw := entry 0x6040 0 "Controlword" "uint16" "controlword" 0 in
  Forall2 (denotes rx_objects) [PdoAddress (0x6040, 0); PdoPadding 8] [cw; padding_object 8]
  ∧ (ws ← pdo_mapping_entries rx_objects [PdoAddress (0x6040, 0); PdoPadding 8];
     pdo_objects_from_mapping_entries rx_objects ws) = Ret [cw; padding_object 8].
Proof.
  intros cw.
  assert (Forall2 (denotes rx_objects) [PdoAddress (0x6040, 0); PdoPadding 8]
            [cw; padding_object 8]) as H.
  { constructor; [|constructor; [|constructor]].
    - apply (denotes_address rx_objects cw 16); try (vm_compute; reflexivity);
        unfold cw; simpl; lia.
    - apply denotes_padding. lia. }
  split; [exact H|exact (pdo_mapping_roundtrip _ _ _ H)].
Defined.
