(* ===== verification/Codec.v ===== *)
(** * Encoding of object values

    src/functional_model/cia402_drive/profile/codec.py: the type name
    normalisation, [encode_od_value] and [decode_od_value], over a model of
    [struct.pack] and [struct.unpack] for the little-endian formats of
    DATA_TYPE_FORMATS.  Bytes are [Init.Byte] bytes, packed with coqutil's
    little-endian lists.  [float32] rounds to binary32 and keeps no NaN
    payload. *)

From S2P Require Import Prelude PyFloat.
From S2P Require Export Metadata.
From coqutil Require Import Word.LittleEndianList.

Open Scope list_scope.
Open Scope Z_scope.

Definition _DATA_TYPE_ALIASES : list (string * string) := [
  ("BOOL", "bool"); ("USINT", "uint8"); ("BYTE", "uint8"); ("SINT", "int8");
  ("UINT", "uint16"); ("WORD", "uint16"); ("INT", "int16"); ("UDINT", "uint32");
  ("DWORD", "uint32"); ("DINT", "int32"); ("ULINT", "uint64"); ("LINT", "int64");
  ("REAL", "float32")].

Definition normalize_od_data_type (data_type : string) : string :=
  let name := Text.strip data_type in
  default (Text.lower name) (assoc (Text.upper name) _DATA_TYPE_ALIASES).

Definition is_byte_array_type (normalized : string) : bool :=
  String.eqb normalized "byte_array" || String.eqb normalized "octet_string"
  || (Text.contains "array" normalized && Text.contains "byte" normalized).

(** ** [struct] *)

Definition int_range (signed : bool) (size : nat) : Z * Z :=
  let w := 8 * Z.of_nat size in
  if signed then (- 2 ^ (w - 1), 2 ^ (w - 1) - 1) else (0, 2 ^ w - 1).

Definition in_range (signed : bool) (size : nat) (z : Z) : bool :=
  let '(lo, hi) := int_range signed size in (lo <=? z) && (z <=? hi).

Definition pack_int (signed : bool) (size : nat) (z : Z) : outcome (list byte) :=
  if in_range signed size z then Ret (le_split size z) else Raise StructError.

Definition unpack_int (signed : bool) (bs : list byte) : Z :=
  let w := 8 * Z.of_nat (length bs) in
  let u := le_combine bs in
  if signed && (2 ^ (w - 1) <=? u) then u - 2 ^ w else u.

(** binary32: the rounding of a float and its bit pattern. *)
Definition prec32 : Z := 24.
Definition emax32 : Z := 128.

Definition to_binary32 (x : float) : float :=
  match x with
  | S754_finite s m e => binary_round prec32 emax32 s m e
  | _ => x
  end.

Definition sign_bit32 (s : bool) : Z := if s then 2 ^ 31 else 0.

Definition bits_of_binary32 (x : float) : Z :=
  match x with
  | S754_zero s => sign_bit32 s
  | S754_infinity s => sign_bit32 s + 255 * 2 ^ 23
  | S754_nan => 255 * 2 ^ 23 + 2 ^ 22
  | S754_finite s m e =>
      let m := Z.pos m in
      sign_bit32 s + (if m <? 2 ^ 23 then m else (e + 150) * 2 ^ 23 + (m - 2 ^ 23))
  end.

(** The binary64 value of a binary32 pattern; the conversion is exact. *)
Definition float_of_bits32 (b : Z) : float :=
  let s := Z.testbit b 31 in
  let ex := (b / 2 ^ 23) mod 256 in
  let m := b mod 2 ^ 23 in
  let signed z := if s then - z else z in
  if ex =? 255 then (if m =? 0 then S754_infinity s else S754_nan)
  else if ex =? 0 then binary_normalize prec emax (signed m) (-149) s
  else binary_normalize prec emax (signed (m + 2 ^ 23)) (ex - 150) s.

(** [struct.pack('<f', value)] *)
Definition pack_float32 (value : pyval) : outcome (list byte) :=
  match py_number value ≫= number_float with
  | Raise _ => Raise StructError
  | Ret x =>
      match x, to_binary32 x with
      | S754_finite _ _ _, S754_infinity _ => Raise OverflowError
      | _, y => Ret (le_split 4 (bits_of_binary32 y))
      end
  end.

Definition struct_pack (f : struct_format) (value : pyval) : outcome (list byte) :=
  match f with
  | FmtFloat32 => pack_float32 value
  | FmtBool => z ← py_int value; mret (le_split 1 (if z =? 0 then 0 else 1))
  | FmtInt signed size => z ← py_int value; pack_int signed size z
  end.

Definition struct_unpack (f : struct_format) (bs : list byte) : outcome pyval :=
  if negb (Nat.eqb (length bs) (calcsize f)) then Raise StructError
  else
    Ret match f with
        | FmtFloat32 => PFloat (float_of_bits32 (le_combine bs))
        | FmtBool => PBool (negb (le_combine bs =? 0))
        | FmtInt signed _ => PInt (unpack_int signed bs)
        end.

(** [n.to_bytes(size, 'little', signed=n < 0)] *)
Definition to_bytes (z size : Z) : outcome (list byte) :=
  if size <? 0 then Raise ValueError
  else if (0 <=? z) && (z <? 2 ^ (8 * size)) || (z <? 0) && (- 2 ^ (8 * size - 1) <=? z)
  then Ret (le_split (Z.to_nat size) z)
  else Raise OverflowError.

(** ** Texts *)

(** [text.encode('ascii', errors='replace')] of a UTF-8 text. *)
Fixpoint ascii_encode (bs : list byte) : list byte :=
  match bs with
  | [] => []
  | b :: bs =>
      if byte_Z b <? 128 then b :: ascii_encode bs
      else if byte_Z b <? 192 then ascii_encode bs
      else x3f :: ascii_encode bs
  end.

(** [payload.decode('ascii', errors='replace')], as UTF-8. *)
Fixpoint ascii_decode (bs : list byte) : list byte :=
  match bs with
  | [] => []
  | b :: bs =>
      if byte_Z b <? 128 then b :: ascii_decode bs
      else [xef; xbf; xbd] ++ ascii_decode bs
  end.

(** [payload.split(b'\x00', 1)[0]] *)
Fixpoint before_zero (bs : list byte) : list byte :=
  match bs with
  | [] => []
  | b :: bs => if byte_Z b =? 0 then [] else b :: before_zero bs
  end.

(** [payload[:size]] *)
Definition slice_to {A} (size : Z) (l : list A) : list A :=
  if size <? 0 then take (Z.to_nat (Z.of_nat (length l) + size)) l
  else take (Z.to_nat size) l.

(** [bytes(value)] *)
Definition py_bytes (v : pyval) : outcome (list byte) :=
  match v with
  | PBytes bs => Ret bs
  | PInt z => if z <? 0 then Raise ValueError else Ret (replicate (Z.to_nat z) x00)
  | PBool b => Ret (replicate (Z.to_nat (Z_of_bool b)) x00)
  | PFloat _ | PStr _ => Raise TypeError
  end.

(** ** The codec *)

Definition encode_od_value (data_type : string) (value : pyval) (size : option Z)
    : outcome (list byte) :=
  let normalized := normalize_od_data_type data_type in
  if is_byte_array_type normalized then
    payload ← py_bytes value;
    match size with
    | None => mret payload
    | Some n =>
        mret (slice_to n payload
              ++ replicate (Z.to_nat (n - Z.of_nat (length payload))) x00)
    end
  else if Text.contains "string" normalized then
    let payload := ascii_encode (Text.bytes_of (py_str value)) in
    mret match size with None => payload | Some n => slice_to n payload end
  else
    match assoc normalized DATA_TYPE_FORMATS with
    | Some f => struct_pack f value
    | None =>
        match size with
        | None => Raise ValueError
        | Some n => z ← py_int value; to_bytes z n
        end
    end.

Definition decode_od_value (data_type : string) (payload : list byte) : outcome pyval :=
  let normalized := normalize_od_data_type data_type in
  if is_byte_array_type normalized then mret (PBytes payload)
  else if Text.contains "string" normalized then
    mret (PStr (Text.of_bytes (ascii_decode (before_zero payload))))
  else
    match assoc normalized DATA_TYPE_FORMATS with
    | Some f => struct_unpack f (take (calcsize f) payload)
    | None => mret (PInt (le_combine payload))
    end.

Example codec_examples :
  (encode_od_value " dint " (PInt (-2)) None,
   encode_od_value "REAL" (PFloat (f_dec 15 (-1))) None,
   decode_od_value "REAL" [x00; x00; xc0; x3f],
   encode_od_value "uint8" (PInt 256) None,
   encode_od_value "BIT2" (PInt 3) (Some 1))
  = (Ret [xfe; xff; xff; xff], Ret [x00; x00; xc0; x3f],
     Ret (PFloat (f_dec 15 (-1))), Raise StructError, Ret [x03]).
Proof. vm_compute. reflexivity. Qed.

(** ** Lemmas *)

(** The names with a [struct] format are not byte-array or string types. *)
Lemma format_is_plain normalized f :
  assoc normalized DATA_TYPE_FORMATS = Some f →
  is_byte_array_type normalized = false ∧ Text.contains "string" normalized = false
  ∧ (0 < calcsize f)%nat.
Proof.
  unfold DATA_TYPE_FORMATS, assoc.
  repeat (case_match; [by intros [= <-]; subst;
    match goal with H : String.eqb _ _ = true |- _ => apply String.eqb_eq in H as -> end;
    split_and!; [reflexivity..|simpl; lia]|]); done.
Qed.

Lemma half_pow2 w : 0 < w → 2 ^ w = 2 * 2 ^ (w - 1).
Proof. intros. rewrite <-Z.pow_succ_r by lia. f_equal. lia. Qed.

Lemma unpack_pack signed n z :
  (0 < n)%nat → in_range signed n z = true → unpack_int signed (le_split n z) = z.
Proof.
  intros Hn Hr. unfold unpack_int. rewrite length_le_split, le_combine_split.
  rewrite (Z.mul_comm (Z.of_nat n)). set (w := 8 * Z.of_nat n).
  unfold in_range, int_range in Hr. fold w in Hr.
  pose proof (half_pow2 w ltac:(lia)) as Hw.
  destruct signed; apply andb_true_iff in Hr as [H1%Z.leb_le H2%Z.leb_le]; simpl andb.
  - destruct (Z.lt_ge_cases z 0) as [Hz|Hz].
    + replace (z mod 2 ^ w) with (z + 2 ^ w)
        by (apply (Z.mod_unique_pos _ _ (-1)); lia).
      rewrite (proj2 (Z.leb_le _ _)) by lia. lia.
    + rewrite Z.mod_small by lia. by rewrite (proj2 (Z.leb_gt _ _)) by lia.
  - by rewrite Z.mod_small by lia.
Qed.

Lemma unpack_range signed bs :
  (0 < length bs)%nat → in_range signed (length bs) (unpack_int signed bs) = true.
Proof.
  intros Hn. unfold in_range, int_range, unpack_int.
  set (w := 8 * Z.of_nat (length bs)).
  pose proof (half_pow2 w ltac:(lia)) as Hw.
  pose proof (le_combine_bound bs) as Hb. fold w in Hb.
  destruct signed; simpl andb.
  - destruct (Z.leb_spec (2 ^ (w - 1)) (le_combine bs)); apply andb_true_iff;
      split; apply Z.leb_le; lia.
  - apply andb_true_iff. split; apply Z.leb_le; lia.
Qed.

Lemma le_split_unpack signed bs : le_split (length bs) (unpack_int signed bs) = bs.
Proof.
  rewrite <-(split_le_combine bs) at 3. unfold unpack_int.
  destruct (signed && _); [|done].
  rewrite le_split_mod, (le_split_mod (le_combine bs)). f_equal.
  rewrite (Z.mul_comm 8).
  replace (le_combine bs - 2 ^ (Z.of_nat (length bs) * 8))
    with (le_combine bs + (-1) * 2 ^ (Z.of_nat (length bs) * 8)) by lia.
  by rewrite Z_mod_plus_full.
Qed.

(** A binary32 number goes through binary64 unchanged. *)
Lemma binary32_via_binary64 s M e :
  fexp prec32 emax32 (Z.pos (digits2_pos M) + e) = e → e ≤ 104 →
  to_binary32 (binary_normalize prec emax (if s : bool then Z.neg M else Z.pos M) e s)
  = S754_finite s M e.
Proof.
  intros Hc He. assert (-149 ≤ e ∧ Z.pos (digits2_pos M) ≤ 24) as [He' HM].
  { unfold fexp, SpecFloat.emin, prec32, emax32 in Hc. lia. }
  set (k := 53 - Z.pos (digits2_pos M)).
  assert (∃ m', Z.pos m' = Z.pos M * 2 ^ k) as [m' Hm'].
  { exists (M * 2 ^ Z.to_pos k)%positive.
    rewrite Pos2Z.inj_mul, Pos2Z.inj_pow, Z2Pos.id by lia. done. }
  assert (binary_round prec emax s M e = S754_finite s m' (e - k)) as Hr.
  { assert (Z.pos (digits2_pos m') = 53) as Hd.
    { rewrite (digits2_mul_pow2 m' M k) by (done || lia). lia. }
    apply binary_round_exact.
    - rewrite Hd. fold (fexp64 (53 + (e - k))). rewrite fexp64_eq. unfold emin64. lia.
    - unfold prec, emax. lia.
    - right. split; [lia|]. rewrite Hm'. do 2 f_equal. lia. }
  assert (binary_normalize prec emax (if s then Z.neg M else Z.pos M) e s
          = binary_round prec emax s M e) as -> by (by destruct s).
  rewrite Hr. simpl. apply binary_round_exact; [done|unfold prec32, emax32; lia|].
  left. split; [lia|]. rewrite Hm'. do 2 f_equal. lia.
Qed.

Lemma normalize_signed s M : (if s : bool then - Z.pos M else Z.pos M) = if s then Z.neg M else Z.pos M.
Proof. by destruct s. Qed.

(** The fields of a 32-bit pattern. *)
Lemma bits32_fields b :
  0 ≤ b < 2 ^ 32 →
  b = sign_bit32 (Z.testbit b 31) + (b / 2 ^ 23) mod 256 * 2 ^ 23 + b mod 2 ^ 23.
Proof.
  intros Hb. unfold sign_bit32. pose proof (Z.testbit_spec' b 31 ltac:(lia)) as Hs.
  assert (b / 2 ^ 31 = Z.b2z (Z.testbit b 31)) as Hq.
  { rewrite Hs. symmetry. apply Z.mod_small.
    split; [apply Z.div_pos; lia|apply Z.div_lt_upper_bound; lia]. }
  destruct (Z.testbit b 31); simpl Z.b2z in Hq;
    Z.to_euclidean_division_equations; lia.
Qed.

Definition is_nan32 (b : Z) : bool :=
  ((b / 2 ^ 23) mod 256 =? 255) && negb (b mod 2 ^ 23 =? 0).

Lemma digits2_mantissa m d : 0 < d → 2 ^ (d - 1) ≤ Z.pos m < 2 ^ d → Z.pos (digits2_pos m) = d.
Proof. apply digits2_unique. Qed.

(** A pattern that is not a NaN is decoded to a float whose binary32 pattern
    it is. *)
Lemma bits32_roundtrip b :
  0 ≤ b < 2 ^ 32 → is_nan32 b = false →
  let y := to_binary32 (float_of_bits32 b) in
  bits_of_binary32 y = b
  ∧ (∀ s, y = S754_infinity s → float_of_bits32 b = S754_infinity s).
Proof.
  intros Hb Hn y. pose proof (bits32_fields b Hb) as Hfields.
  unfold is_nan32 in Hn. subst y. unfold float_of_bits32.
  set (s := Z.testbit b 31) in *. set (ex := (b / 2 ^ 23) mod 256) in *.
  set (m := b mod 2 ^ 23) in *.
  assert (0 ≤ ex < 256) as Hex by (apply Z.mod_pos_bound; lia).
  assert (0 ≤ m < 2 ^ 23) as Hm by (apply Z.mod_pos_bound; lia).
  clearbody s ex m. subst b. clear Hb.
  destruct (Z.eqb_spec ex 255) as [->|H255].
  { simpl in Hn. apply negb_false_iff, Z.eqb_eq in Hn as ->. simpl.
    split; [lia|]. by intros ? [= ->]. }
  destruct (Z.eqb_spec ex 0) as [->|H0].
  - destruct m as [|m|m]; [| |lia].
    + replace (if s then - 0 else 0) with 0 by (by destruct s). simpl. split; [lia|done].
    + rewrite normalize_signed, binary32_via_binary64.
      * simpl bits_of_binary32. rewrite (proj2 (Z.ltb_lt (Z.pos m) _)) by lia.
        split; [lia|done].
      * assert (Z.pos (digits2_pos m) ≤ 23) by (apply (Zdigits2_le (Z.pos m)); lia).
        unfold fexp, SpecFloat.emin, prec32, emax32. lia.
      * lia.
  - assert (∃ M, m + 2 ^ 23 = Z.pos M) as [M HM] by (exists (Z.to_pos (m + 2 ^ 23)); lia).
    rewrite HM, normalize_signed, binary32_via_binary64.
    + simpl bits_of_binary32. rewrite (proj2 (Z.ltb_ge (Z.pos M) _)) by lia.
      split; [lia|done].
    + rewrite (digits2_unique M 24) by (simpl; lia).
      unfold fexp, SpecFloat.emin, prec32, emax32. lia.
    + lia.
Qed.

Lemma pack_float32_float x :
  (∀ s, to_binary32 x = S754_infinity s → x = S754_infinity s) →
  pack_float32 (PFloat x) = Ret (le_split 4 (bits_of_binary32 (to_binary32 x))).
Proof.
  intros Hinf. destruct x as [s|s| |s m e]; [reflexivity..|].
  change (pack_float32 (PFloat (S754_finite s m e)))
    with (match to_binary32 (S754_finite s m e) with
          | S754_infinity _ => Raise OverflowError
          | y => Ret (le_split 4 (bits_of_binary32 y)) end).
  destruct (to_binary32 (S754_finite s m e)) as [t|t| |t m' e'] eqn:E;
    [reflexivity| |reflexivity..].
  by discriminate (Hinf t eq_refl).
Qed.

(** ** Properties *)

Section plain_types.
Context (data_type : string) (f : struct_format).
Context (Hf : assoc (normalize_od_data_type data_type) DATA_TYPE_FORMATS = Some f).

Lemma encode_plain value size : encode_od_value data_type value size = struct_pack f value.
Proof.
  unfold encode_od_value. destruct (format_is_plain _ _ Hf) as (-> & -> & _).
  by rewrite Hf.
Qed.

Lemma decode_plain bs :
  decode_od_value data_type bs = struct_unpack f (take (calcsize f) bs).
Proof.
  unfold decode_od_value. destruct (format_is_plain _ _ Hf) as (-> & -> & _).
  by rewrite Hf.
Qed.

Lemma decode_plain_exact bs : length bs = calcsize f →
  decode_od_value data_type bs = struct_unpack f bs.
Proof. intros Hl. by rewrite decode_plain, take_ge by lia. Qed.
End plain_types.

(** A payload of the width of an integer type survives decoding. *)
Lemma int_payload data_type signed n bs :
  assoc (normalize_od_data_type data_type) DATA_TYPE_FORMATS = Some (FmtInt signed n) →
  length bs = n →
  ∃ z, decode_od_value data_type bs = Ret (PInt z) ∧ in_range signed n z = true
       ∧ ∀ size, encode_od_value data_type (PInt z) size = Ret bs.
Proof.
  intros Hf <-. exists (unpack_int signed bs). split_and!.
  - rewrite (decode_plain_exact _ _ Hf) by done.
    unfold struct_unpack. simpl. by rewrite Nat.eqb_refl.
  - apply unpack_range. by destruct (format_is_plain _ _ Hf) as (_ & _ & ?).
  - intros size. rewrite (encode_plain _ _ Hf). simpl. unfold pack_int.
    rewrite unpack_range, le_split_unpack; [done|..];
      by destruct (format_is_plain _ _ Hf) as (_ & _ & ?).
Qed.

(** Integer types: an in-range value encodes to exactly the width of the
    type and decodes back; an out-of-range value raises [struct.error];
    every payload of the width decodes to an in-range value that encodes to
    the payload; a shorter payload raises. *)
Theorem int_codec data_type signed n :
  assoc (normalize_od_data_type data_type) DATA_TYPE_FORMATS = Some (FmtInt signed n) →
  (∀ z size, in_range signed n z = true →
     ∃ bs, encode_od_value data_type (PInt z) size = Ret bs ∧ length bs = n
           ∧ decode_od_value data_type bs = Ret (PInt z))
  ∧ (∀ z size, in_range signed n z = false →
       encode_od_value data_type (PInt z) size = Raise StructError)
  ∧ (∀ bs, length bs = n →
       ∃ z, decode_od_value data_type bs = Ret (PInt z) ∧ in_range signed n z = true
            ∧ ∀ size, encode_od_value data_type (PInt z) size = Ret bs)
  ∧ (∀ bs, (length bs < n)%nat → decode_od_value data_type bs = Raise StructError).
Proof.
  intros Hf. destruct (format_is_plain _ _ Hf) as (_ & _ & Hn). simpl in Hn.
  split_and!.
  - intros z size Hz. exists (le_split n z).
    rewrite (encode_plain _ _ Hf). simpl. unfold pack_int. rewrite Hz.
    split_and!; [done|apply length_le_split|].
    rewrite (decode_plain_exact _ _ Hf) by apply length_le_split.
    unfold struct_unpack. rewrite length_le_split. simpl. rewrite Nat.eqb_refl. simpl.
    by rewrite unpack_pack.
  - intros z size Hz. rewrite (encode_plain _ _ Hf). simpl. unfold pack_int. by rewrite Hz.
  - intros bs Hl. by apply int_payload.
  - intros bs Hl. rewrite (decode_plain _ _ Hf).
    unfold struct_unpack. rewrite length_take. simpl.
    by rewrite (proj2 (Nat.eqb_neq _ _)) by lia.
Qed.

Lemma int_codec_witness :
  assoc (normalize_od_data_type "DINT") DATA_TYPE_FORMATS = Some (FmtInt true 4)
  ∧ ∃ bs, encode_od_value "DINT" (PInt (-70000)) None = Ret bs ∧ length bs = 4%nat
          ∧ decode_od_value "DINT" bs = Ret (PInt (-70000)).
Proof.
  split; [reflexivity|].
  refine (proj1 (int_codec "DINT" true 4 _) (-70000) None _); reflexivity.
Defined.

(** A four-byte payload that is not a NaN pattern survives decoding. *)
Lemma float32_payload data_type bs :
  assoc (normalize_od_data_type data_type) DATA_TYPE_FORMATS = Some FmtFloat32 →
  length bs = 4%nat → is_nan32 (le_combine bs) = false →
  decode_od_value data_type bs = Ret (PFloat (float_of_bits32 (le_combine bs)))
  ∧ ∀ size, encode_od_value data_type (PFloat (float_of_bits32 (le_combine bs))) size = Ret bs.
Proof.
  intros Hf Hl Hn. split.
  { rewrite (decode_plain_exact _ _ Hf) by done. unfold struct_unpack. by rewrite Hl. }
  intros size. rewrite (encode_plain _ _ Hf).
  pose proof (le_combine_bound bs) as Hb. rewrite Hl in Hb.
  destruct (bits32_roundtrip (le_combine bs)) as [Hr Hinf]; [simpl in *; lia|done|].
  change (struct_pack FmtFloat32) with pack_float32.
  rewrite pack_float32_float, Hr, <-Hl by exact Hinf. by rewrite split_le_combine.
Qed.

(** [float32]: every four-byte payload that is not a NaN pattern decodes to a
    float that encodes to the same payload, bit for bit, signed zeros,
    subnormals and infinities included. *)
Theorem float32_codec data_type bs :
  assoc (normalize_od_data_type data_type) DATA_TYPE_FORMATS = Some FmtFloat32 →
  length bs = 4%nat → is_nan32 (le_combine bs) = false →
  ∃ x, decode_od_value data_type bs = Ret (PFloat x)
       ∧ ∀ size, encode_od_value data_type (PFloat x) size = Ret bs.
Proof.
  intros Hf Hl Hn. exists (float_of_bits32 (le_combine bs)). by apply float32_payload.
Qed.

Lemma float32_codec_witness :
  ∃ x, decode_od_value "REAL" [x01; x00; x80; xbf] = Ret (PFloat x)
       ∧ ∀ size, encode_od_value "REAL" (PFloat x) size = Ret [x01; x00; x80; xbf].
Proof. apply (float32_codec "REAL"); vm_compute; reflexivity. Defined.
