(* ===== verification/ObjectDictionary.v ===== *)
(** * The object dictionary

    src/functional_model/cia402_drive/profile/object_dictionary.py
    ([VirtualOdModel]) and behaviour_model/f_kr_cmmt/od_role_index.py
    ([install_role_index]).

    [od] is the state of one dictionary object.  [entries] is the Python dict
    under [_storage_key]: an index alone for subindex 0, a pair otherwise.
    [role_index] is the closure [install_role_index] puts on the instance:
    [None] before it is installed, [Some None] when a definition update has
    invalidated it, [Some (Some ix)] when it is built.  Once installed,
    [definition_by_role] of the instance is the indexed lookup, and
    [define]/[overlay] invalidate; [write_role] and [read_role] go through
    whichever lookup the instance has.

    The theorems: the frame of a write, the meaning of the role lookup, the
    equivalence of the index with the scan, and the effect of a PDO reset. *)

From S2P Require Import Prelude PyFloat.
From S2P Require Export Codec.

(** [VirtualOdDefinition] *)
Module Def.
Record t := Make {
  index : Z;
  subindex : Z;
  name : string;
  data_type : string;
  bit_size : Z;
  access : string;
  default : pyval;
  role : option string;
  rxpdo : bool;
  txpdo : bool;
}.

#[export] Instance eq_dec : EqDecision t.
Proof. solve_decision. Defined.
End Def.

Abbreviation VirtualOdDefinition := Def.t.

Record VirtualOdEntry := OdEntry {
  definition : VirtualOdDefinition;
  value : pyval;
}.

#[export] Instance VirtualOdEntry_eta : Eta VirtualOdEntry :=
  λ e, OdEntry (definition e) (value e).

(** The storage key: [index] or [(index, subindex)]. *)
Abbreviation okey := (Z + Z * Z)%type.

Definition _storage_key (index : Z) (subindex : option Z) : okey :=
  match subindex with
  | None => inl index
  | Some s => if s =? 0 then inl index else inr (index, s)
  end.

Abbreviation role_table := (gmap (option string) (list VirtualOdDefinition)).

Record od := Od {
  entries : gmap okey VirtualOdEntry;
  last_write_key : option okey;
  write_generation : Z;
  role_index : option (option role_table);
}.

#[export] Instance od_eta : Eta od :=
  λ o, Od (entries o) (last_write_key o) (write_generation o) (role_index o).

Definition empty_od : od := Od ∅ None 0 None.

(** ** Definitions *)

(** [invalidate_after]: the wrapper around [define] and [overlay] drops an
    installed index, also when the call raises. *)
Definition invalidate_after {A} (m : M od A) : M od A := λ o,
  let '(r, o') := m o in
  (r, match role_index o' with
      | None => o'
      | Some _ => o' <| role_index := Some None |>
      end).

Definition define_raw (d : VirtualOdDefinition) (key : okey) : M od VirtualOdDefinition :=
  modify (λ o, o <| entries := <[key := OdEntry d (Def.default d)]> (entries o) |>) ;;
  mret d.

(** [define]: the arguments are the fields of the definition; the entry
    starts at its default. *)
Definition define (d : VirtualOdDefinition) : M od VirtualOdDefinition :=
  invalidate_after (define_raw d (_storage_key (Def.index d) (Some (Def.subindex d)))).

(** The keyword arguments of an [overlay] call; [None] is an absent one. *)
Record od_changes := Changes {
  c_name : option string;
  c_data_type : option string;
  c_bit_size : option Z;
  c_access : option string;
  c_default : option pyval;
  c_role : option (option string);
  c_rxpdo : option bool;
  c_txpdo : option bool;
}.

(** [value not in (None, "")]: the changes [replace] applies. *)
Definition supplied_str (c : option string) (current : string) : string :=
  match c with
  | Some s => if String.eqb s "" then current else s
  | None => current
  end.

Definition supplied_default (c : option pyval) (current : pyval) : pyval :=
  match c with
  | Some (PStr s) => if String.eqb s "" then current else PStr s
  | Some v => v
  | None => current
  end.

Definition supplied_role (c : option (option string)) (current : option string) : option string :=
  match c with
  | Some (Some s) => if String.eqb s "" then current else Some s
  | _ => current
  end.

Definition or_else {A} (c : option A) (current : A) : A :=
  match c with Some x => x | None => current end.

Definition replace (d : VirtualOdDefinition) (c : od_changes) : VirtualOdDefinition := {|
  Def.index := Def.index d;
  Def.subindex := Def.subindex d;
  Def.name := supplied_str (c_name c) (Def.name d);
  Def.data_type := supplied_str (c_data_type c) (Def.data_type d);
  Def.bit_size := or_else (c_bit_size c) (Def.bit_size d);
  Def.access := supplied_str (c_access c) (Def.access d);
  Def.default := supplied_default (c_default c) (Def.default d);
  Def.role := supplied_role (c_role c) (Def.role d);
  Def.rxpdo := or_else (c_rxpdo c) (Def.rxpdo d);
  Def.txpdo := or_else (c_txpdo c) (Def.txpdo d) |}.

(** [self.define(index, subindex, **changes)]: [name], [data_type] and
    [bit_size] are required. *)
Definition definition_of_changes (index subindex : Z) (c : od_changes)
    : outcome VirtualOdDefinition :=
  match c_name c, c_data_type c, c_bit_size c with
  | Some n, Some t, Some b =>
      Ret (Def.Make index subindex n t b (or_else (c_access c) "")
             (or_else (c_default c) (PInt 0)) (or_else (c_role c) None)
             (or_else (c_rxpdo c) false) (or_else (c_txpdo c) false))
  | _, _, _ => Raise TypeError
  end.

Definition overlay_raw (index subindex : Z) (c : od_changes) : M od VirtualOdDefinition :=
  let key := _storage_key index (Some subindex) in
  current ← gets (λ o, entries o !! key);
  match current with
  | None => d ← lift (definition_of_changes index subindex c); define d
  | Some e =>
      let d := replace (definition e) c in
      modify (λ o, o <| entries :=
        <[key := OdEntry d (or_else (c_default c) (value e))]> (entries o) |>) ;;
      mret d
  end.

Definition overlay (index subindex : Z) (c : od_changes) : M od VirtualOdDefinition :=
  invalidate_after (overlay_raw index subindex c).

(** [definition] *)
Definition get_definition (index : Z) (subindex : option Z) : M od VirtualOdDefinition :=
  e ← gets (λ o, entries o !! _storage_key index subindex);
  lift (definition <$> of_option KeyError e).

(** ** Roles *)

(** [[entry.definition for entry in entries.values()]]; the order of the dict
    is not observable through the lookups below. *)
Definition definition_map (o : od) : gmap okey VirtualOdDefinition :=
  definition <$> entries o.

Definition definitions (o : od) : list VirtualOdDefinition :=
  (map_to_list (definition_map o)).*2.

Definition with_role (r : option string) (ds : list VirtualOdDefinition)
    : list VirtualOdDefinition := filter (λ d, Def.role d = r) ds.

Definition single_match (matches : list VirtualOdDefinition) : outcome VirtualOdDefinition :=
  match matches with [d] => Ret d | _ => Raise KeyError end.

(** The scan of the class. *)
Definition definition_by_role_scan (r : string) : M od VirtualOdDefinition :=
  ds ← gets definitions; lift (single_match (with_role (Some r) ds)).

(** [rebuild]: [setdefault(role, []).append(definition)] over the entries. *)
Definition build_index (ds : list VirtualOdDefinition) : role_table :=
  foldl (λ ix d,
    <[Def.role d := or_else (ix !! Def.role d) [] ++ [d]]> ix) ∅ ds.

Definition rebuild : M od () :=
  modify (λ o, o <| role_index := Some (Some (build_index (definitions o))) |>).

(** The lookup [install_role_index] puts on the instance. *)
Definition definition_by_role_indexed (r : string) : M od VirtualOdDefinition :=
  i ← gets role_index;
  when (match i with Some None => true | _ => false end) rebuild ;;
  i ← gets role_index;
  lift (single_match
    match i with
    | Some (Some ix) => or_else (ix !! Some r) []
    | _ => []
    end).

(** The attribute [definition_by_role] of the instance. *)
Definition definition_by_role (r : string) : M od VirtualOdDefinition :=
  i ← gets role_index;
  match i with
  | None => definition_by_role_scan r
  | Some _ => definition_by_role_indexed r
  end.

Definition install_role_index : M od () :=
  i ← gets role_index;
  match i with
  | Some _ => mret tt
  | None => rebuild
  end.

(** ** Values *)

Definition read (index : Z) (subindex : option Z) : M od pyval :=
  e ← gets (λ o, entries o !! _storage_key index subindex);
  lift (value <$> of_option KeyError e).

(** [self.entries[key].value = v] *)
Definition set_value (key : okey) (v : pyval) : M od () :=
  e ← gets (λ o, entries o !! key);
  match e with
  | None => raise KeyError
  | Some e => modify (λ o, o <| entries := <[key := e <| value := v |>]> (entries o) |>)
  end.

Definition write (index : Z) (v : pyval) (subindex : option Z) : M od () :=
  let key := _storage_key index subindex in
  set_value key v ;;
  modify (λ o, o <| last_write_key := Some key |>) ;;
  modify (λ o, o <| write_generation := write_generation o + 1 |>).

Definition write_internal (index : Z) (v : pyval) (subindex : option Z) : M od () :=
  set_value (_storage_key index subindex) v.

Definition has_entry (index : Z) (subindex : option Z) : M od bool :=
  gets (λ o, bool_decide (is_Some (entries o !! _storage_key index subindex))).

Definition write_role (r : string) (v : pyval) : M od () :=
  d ← definition_by_role r; write (Def.index d) v (Some (Def.subindex d)).

Definition read_role (r : string) : M od pyval :=
  d ← definition_by_role r; read (Def.index d) (Some (Def.subindex d)).

Definition default_value (data_type : string) (bit_size : Z) : outcome pyval :=
  let normalized := Text.lower (Text.strip data_type) in
  let zeros := PBytes <$> py_bytes (PInt ((bit_size + 7) / 8)) in
  if Text.contains "array" normalized && Text.contains "byte" normalized then zeros
  else if String.eqb normalized "byte_array" || String.eqb normalized "octet_string" then zeros
  else if Text.contains "string" normalized then Ret (PStr "")
  else Ret (PInt 0).

(** [reset_pdo_values] of the configured dictionary walks all entries. *)
Definition reset_entry (e : VirtualOdEntry) : VirtualOdEntry :=
  if Def.rxpdo (definition e) || Def.txpdo (definition e)
  then e <| value := Def.default (definition e) |> else e.

Definition reset_pdo_values : M od () :=
  modify (λ o, o <| entries := reset_entry <$> entries o |>).

(** [_RuntimeValueView]: subscript access with an index or a pair. *)
Definition view_get (key : okey) : M od pyval :=
  match key with inl i => read i None | inr (i, s) => read i (Some s) end.
Definition view_set (key : okey) (v : pyval) : M od () :=
  match key with inl i => write i v None | inr (i, s) => write i v (Some s) end.
Definition view_contains (key : okey) : M od bool :=
  match key with inl i => has_entry i None | inr (i, s) => has_entry i (Some s) end.
Definition view_len : M od nat := gets (λ o, size (entries o)).

(** ** Lemmas *)

(** The key of an address does not depend on the spelling of subindex 0. *)
Lemma storage_key_zero i : _storage_key i None = _storage_key i (Some 0).
Proof. reflexivity. Qed.

Definition entry_at (o : od) (index : Z) (subindex : option Z) : option VirtualOdEntry :=
  entries o !! _storage_key index subindex.

Definition value_at (o : od) (index : Z) (subindex : option Z) : option pyval :=
  value <$> entry_at o index subindex.

Lemma read_spec i s o :
  read i s o = (of_option KeyError (value_at o i s), o).
Proof.
  unfold read, value_at, entry_at. rewrite bind_gets.
  by destruct (entries o !! _storage_key i s).
Qed.

#[export] Instance read_preserves {T} (f : od → T) i s : Preserves f (read i s).
Proof. intros o. by rewrite read_spec. Qed.

Lemma set_value_spec key v o :
  set_value key v o = match entries o !! key with
    | None => (Raise KeyError, o)
    | Some e => (Ret tt, o <| entries := <[key := e <| value := v |>]> (entries o) |>)
    end.
Proof. unfold set_value. rewrite bind_gets. by destruct (entries o !! key). Qed.

Lemma definition_map_set_value key v e o :
  entries o !! key = Some e →
  definition <$> <[key := e <| value := v |>]> (entries o) = definition <$> entries o.
Proof.
  intros He. rewrite fmap_insert. apply insert_id.
  rewrite lookup_fmap, He. done.
Qed.

#[export] Instance set_value_definitions key v : Preserves definition_map (set_value key v).
Proof.
  intros o. rewrite set_value_spec. destruct (entries o !! key) as [e|] eqn:He; [|done].
  by apply definition_map_set_value.
Qed.

#[export] Instance set_value_index key v : Preserves role_index (set_value key v).
Proof. intros o. rewrite set_value_spec. by destruct (entries o !! key). Qed.

#[export] Instance write_definitions i v s : Preserves definition_map (write i v s).
Proof. apply _. Qed.
#[export] Instance write_index i v s : Preserves role_index (write i v s).
Proof. apply _. Qed.
#[export] Instance write_internal_definitions i v s :
  Preserves definition_map (write_internal i v s).
Proof. apply set_value_definitions. Qed.
#[export] Instance write_internal_index i v s : Preserves role_index (write_internal i v s).
Proof. apply set_value_index. Qed.

Lemma reset_entry_make d v :
  reset_entry (OdEntry d v) = OdEntry d (if Def.rxpdo d || Def.txpdo d then Def.default d else v).
Proof. unfold reset_entry. simpl. by destruct (_ || _). Qed.

Lemma reset_entry_definition e : definition (reset_entry e) = definition e.
Proof. unfold reset_entry. by destruct (_ || _). Qed.

#[export] Instance reset_pdo_definitions : Preserves definition_map reset_pdo_values.
Proof.
  intros o. unfold definition_map. simpl. rewrite <-map_fmap_compose.
  apply map_fmap_ext. intros k e _. apply reset_entry_definition.
Qed.
#[export] Instance reset_pdo_index : Preserves role_index reset_pdo_values.
Proof. by intros o. Qed.

(** ** The role index *)

Lemma build_index_foldl (ds : list VirtualOdDefinition) (ix : role_table) (r : option string) :
  or_else (foldl (λ (ix : role_table) d, <[Def.role d := or_else (ix !! Def.role d) [] ++ [d]]> ix) ix ds !! r) []
  = or_else (ix !! r) [] ++ with_role r ds.
Proof.
  revert ix. induction ds as [|d ds IH]; intros ix; simpl.
  { unfold with_role. by rewrite filter_nil, app_nil_r. }
  rewrite IH. unfold with_role. rewrite filter_cons.
  destruct (decide (Def.role d = r)) as [<-|Hne].
  - rewrite lookup_insert_eq. simpl. by rewrite <-app_assoc.
  - by rewrite lookup_insert_ne.
Qed.

Lemma build_index_spec ds r : or_else (build_index ds !! r) [] = with_role r ds.
Proof. unfold build_index. by rewrite build_index_foldl, lookup_empty. Qed.

(** A built index agrees with the definitions of the dictionary. *)
Definition role_inv (o : od) : Prop :=
  match role_index o with
  | Some (Some ix) => ∀ r, or_else (ix !! r) [] = with_role r (definitions o)
  | _ => True
  end.

Lemma role_inv_ext o o' :
  definition_map o' = definition_map o → role_index o' = role_index o →
  role_inv o → role_inv o'.
Proof. unfold role_inv, definitions. by intros -> ->. Qed.

Lemma inv_of_preserves {A} (m : M od A) :
  Preserves definition_map m → Preserves role_index m → Inv role_inv m.
Proof. intros H1 H2 o. apply role_inv_ext; [apply H1|apply H2]. Qed.

Lemma rebuild_inv : ∀ o, role_inv (rebuild o).2.
Proof. intros o r. apply build_index_spec. Qed.

(** The dictionary without its index. *)
Definition strip (o : od) : od := o <| role_index := None |>.

(** An operation that does not depend on the index: same outcome and same
    dictionary with and without it. *)
Definition index_blind {A} (m : M od A) : Prop :=
  ∀ o, role_inv o →
    (m o).1 = (m (strip o)).1 ∧ strip (m o).2 = (m (strip o)).2 ∧ role_inv (m o).2.

Lemma strip_none o : role_index o = None → strip o = o.
Proof. destruct o; simpl. by intros ->. Qed.

Lemma blind_bind {A B} (m : M od A) (k : A → M od B) :
  index_blind m → (∀ a, index_blind (k a)) → index_blind (m ≫= k).
Proof.
  intros Hm Hk o Ho. destruct (Hm o Ho) as (H1 & H2 & H3).
  unfold mbind, M_bind.
  destruct (m o) as [[a|e] o1], (m (strip o)) as [[a'|e'] o1'];
    simpl in *; simplify_eq; [by apply Hk|done].
Qed.

Lemma blind_read i s : index_blind (read i s).
Proof. intros o Ho. by rewrite !read_spec. Qed.

Lemma blind_write_role_like i v s : index_blind (write i v s).
Proof.
  intros o Ho. split_and!.
  - unfold write. unfold mbind, M_bind. rewrite !set_value_spec. simpl.
    by destruct (entries o !! _).
  - unfold write. unfold mbind, M_bind. rewrite !set_value_spec. simpl.
    by destruct (entries o !! _).
  - by apply (inv_of_preserves (write i v s) _ _ o).
Qed.

Lemma scan_strip r o : definition_by_role_scan r (strip o) = ((definition_by_role_scan r o).1, strip o).
Proof. reflexivity. Qed.

(** The indexed lookup of an instance answers what the scan answers. *)
Lemma blind_lookup r : index_blind (definition_by_role r).
Proof.
  intros o Ho. unfold definition_by_role. rewrite !bind_gets.
  change (role_index (strip o)) with (@None (option role_table)).
  unfold role_inv in Ho. destruct (role_index o) as [[ix|]|] eqn:Ei.
  - unfold definition_by_role_indexed. rewrite bind_gets, Ei.
    unfold when. rewrite bind_ret_l, bind_gets, Ei. unfold lift. simpl.
    rewrite Ho. split_and!; [done..|]. unfold role_inv. by rewrite Ei.
  - unfold definition_by_role_indexed. rewrite bind_gets, Ei.
    unfold when. rewrite (bind_eq_ret rebuild _ o tt _ eq_refl), bind_gets.
    unfold lift. simpl. rewrite build_index_spec. split_and!; [done..|].
    exact (rebuild_inv o).
  - split_and!; [done..|].
    change (definition_by_role_scan r o).2 with o. unfold role_inv. by rewrite Ei.
Qed.

Lemma blind_modify (f : od → od) :
  (∀ o, strip (f o) = f (strip o)) → (∀ o, role_inv o → role_inv (f o)) →
  index_blind (modify f).
Proof. intros H1 H2 o Ho. split_and!; [done|exact (H1 o)|exact (H2 o Ho)]. Qed.

(** A definition update: the wrapper makes it independent of the index. *)
Lemma blind_invalidate {A} (m : M od A) :
  (∀ o, (m o).1 = (m (strip o)).1 ∧ strip (m o).2 = strip (m (strip o)).2) →
  (∀ o, role_index o = None → role_index (m o).2 = None) →
  index_blind (invalidate_after m).
Proof.
  intros Hm Hn o _. destruct (Hm o) as [H1 H2]. specialize (Hn (strip o) eq_refl).
  unfold invalidate_after.
  destruct (m o) as [r o1], (m (strip o)) as [r' o1']. simpl in *. rewrite Hn.
  split_and!; [done| |].
  - rewrite <-(strip_none o1') by done. rewrite <-H2. by destruct (role_index o1).
  - unfold role_inv. destruct (role_index o1) as [[]|] eqn:E; simpl; by rewrite ?E.
Qed.

Lemma blind_define d : index_blind (define d).
Proof. apply blind_invalidate; [done|by intros o Ho]. Qed.

Lemma overlay_raw_strip i s c o :
  (overlay_raw i s c o).1 = (overlay_raw i s c (strip o)).1
  ∧ strip (overlay_raw i s c o).2 = strip (overlay_raw i s c (strip o)).2.
Proof.
  unfold overlay_raw. rewrite !bind_gets. simpl.
  destruct (entries o !! _) as [e|]; [done|].
  destruct (definition_of_changes i s c) as [d|e]; [|done].
  unfold lift. rewrite !(bind_eq_ret _ _ _ d _ eq_refl).
  unfold define, invalidate_after. simpl. by destruct (role_index o).
Qed.

Lemma overlay_raw_none i s c o :
  role_index o = None → role_index (overlay_raw i s c o).2 = None.
Proof.
  intros Ho. unfold overlay_raw. rewrite !bind_gets.
  destruct (entries o !! _) as [e|]; [done|].
  destruct (definition_of_changes i s c) as [d|e]; [|done].
  unfold lift. rewrite (bind_eq_ret _ _ _ d _ eq_refl).
  unfold define, invalidate_after. simpl. by rewrite Ho; simpl; rewrite Ho.
Qed.

Lemma blind_overlay i s c : index_blind (overlay i s c).
Proof.
  apply blind_invalidate; [apply overlay_raw_strip|apply overlay_raw_none].
Qed.

Lemma blind_set_value key v : index_blind (set_value key v).
Proof.
  intros o Ho. split_and!.
  - rewrite !set_value_spec. simpl. by destruct (entries o !! key).
  - rewrite !set_value_spec. simpl. by destruct (entries o !! key).
  - by apply (inv_of_preserves (set_value key v) _ _ o).
Qed.

(** ** Programs over the dictionary

    The calls other components make on one dictionary object. *)
Inductive od_op :=
  | OpDefine (d : VirtualOdDefinition)
  | OpOverlay (i s : Z) (c : od_changes)
  | OpDefinition (i : Z) (s : option Z)
  | OpRead (i : Z) (s : option Z)
  | OpWrite (i : Z) (v : pyval) (s : option Z)
  | OpWriteInternal (i : Z) (v : pyval) (s : option Z)
  | OpReadRole (r : string)
  | OpWriteRole (r : string) (v : pyval)
  | OpResetPdo.

Inductive od_answer :=
  | AnsNone
  | AnsVal (v : pyval)
  | AnsDef (d : VirtualOdDefinition).

Definition exec (op : od_op) : M od od_answer :=
  match op with
  | OpDefine d => d ← define d; mret (AnsDef d)
  | OpOverlay i s c => d ← overlay i s c; mret (AnsDef d)
  | OpDefinition i s => d ← get_definition i s; mret (AnsDef d)
  | OpRead i s => v ← read i s; mret (AnsVal v)
  | OpWrite i v s => write i v s ;; mret AnsNone
  | OpWriteInternal i v s => write_internal i v s ;; mret AnsNone
  | OpReadRole r => v ← read_role r; mret (AnsVal v)
  | OpWriteRole r v => write_role r v ;; mret AnsNone
  | OpResetPdo => reset_pdo_values ;; mret AnsNone
  end.

(** The answers of a sequence of calls; an exception of one call does not
    end the sequence. *)
Fixpoint exec_all (ops : list od_op) (o : od) : list (outcome od_answer) * od :=
  match ops with
  | [] => ([], o)
  | op :: ops =>
      let '(r, o) := exec op o in
      let '(rs, o) := exec_all ops o in (r :: rs, o)
  end.

Lemma blind_mret {A} (a : A) : index_blind (mret a).
Proof. by intros o Ho. Qed.

Lemma blind_reset : index_blind reset_pdo_values.
Proof.
  intros o Ho. split_and!; [done..|].
  by apply (inv_of_preserves reset_pdo_values _ _ o).
Qed.

Lemma blind_get_definition i s : index_blind (get_definition i s).
Proof. intros o Ho. unfold get_definition. rewrite !bind_gets. split_and!; done. Qed.

#[local] Hint Resolve blind_define blind_overlay blind_read blind_write_role_like
  blind_set_value blind_lookup blind_reset blind_get_definition blind_mret : core.

Lemma blind_exec op : index_blind (exec op).
Proof.
  destruct op; simpl; apply blind_bind; intros; eauto.
  - apply blind_set_value.
  - unfold read_role. apply blind_bind; eauto.
  - unfold write_role. apply blind_bind; eauto.
Qed.

Lemma blind_exec_all ops o :
  role_inv o →
  (exec_all ops o).1 = (exec_all ops (strip o)).1
  ∧ strip (exec_all ops o).2 = (exec_all ops (strip o)).2.
Proof.
  revert o. induction ops as [|op ops IH]; intros o Ho; [done|]. simpl.
  destruct (blind_exec op o Ho) as (H1 & H2 & H3).
  destruct (exec op o) as [r o1], (exec op (strip o)) as [r' o1']. simpl in *. subst.
  specialize (IH o1 H3).
  destruct (exec_all ops o1), (exec_all ops (strip o1)). simpl in *.
  destruct IH as [-> ->]. done.
Qed.

(** ** Properties *)

(** C24. Installing the role index changes no answer: every sequence of calls on
    the indexed dictionary, definition updates and failing calls included,
    gives the answers and the final contents of the scanning dictionary. *)
Theorem role_index_equivalence ops o :
  role_index o = None →
  (exec_all ops (install_role_index o).2).1 = (exec_all ops o).1
  ∧ strip (exec_all ops (install_role_index o).2).2 = (exec_all ops o).2.
Proof.
  intros Ho. assert (install_role_index o = (Ret tt, (rebuild o).2)) as ->.
  { unfold install_role_index. by rewrite bind_gets, Ho. }
  destruct (blind_exec_all ops (rebuild o).2 (rebuild_inv o)) as [H1 H2].
  assert (strip (rebuild o).2 = o) as Hs by (rewrite <-(strip_none o) at 2; done).
  by rewrite Hs in H1, H2.
Qed.


Definition od_example : od :=
  (exec_all
     [OpDefine (Def.Make 0x6040 0 "controlword" "uint16" 16 "rw" (PInt 0) (Some "controlword") true false);
      OpDefine (Def.Make 0x6098 1 "method" "int8" 8 "rw" (PInt 0) (Some "method") false false)] empty_od).2.

Example role_index_equivalence_witness :
  let ops := [OpWriteRole "controlword" (PInt 15);
              OpOverlay 0x6098 1 (Changes None None None None None (Some (Some "controlword")) None None);
              OpReadRole "controlword"] in
  (exec_all ops (install_role_index od_example).2).1 = [Ret AnsNone; Ret (AnsDef
     (Def.Make 0x6098 1 "method" "int8" 8 "rw" (PInt 0) (Some "controlword") false false)); Raise KeyError]
  ∧ (exec_all ops (install_role_index od_example).2).1 = (exec_all ops od_example).1.
Proof.
  split; [vm_compute; reflexivity|].
  apply (role_index_equivalence _ od_example). vm_compute. reflexivity.
Defined.

(** A write answers [KeyError] and changes nothing when the address has no
    entry; otherwise it stores the value there, keeps the definition and
    every other address, and records the key and one more generation. *)
Theorem write_frame i v s o :
  match entry_at o i s with
  | None => write i v s o = (Raise KeyError, o)
  | Some e =>
      ∃ o', write i v s o = (Ret tt, o')
      ∧ entry_at o' i s = Some (OdEntry (definition e) v)
      ∧ (∀ j t, _storage_key j t ≠ _storage_key i s → entry_at o' j t = entry_at o j t)
      ∧ last_write_key o' = Some (_storage_key i s)
      ∧ write_generation o' = write_generation o + 1
      ∧ role_index o' = role_index o
  end.
Proof.
  unfold entry_at, write. destruct (entries o !! _storage_key i s) as [e|] eqn:He.
  - eexists. split.
    { erewrite bind_eq_ret by (rewrite set_value_spec, He; reflexivity). reflexivity. }
    cbn. split_and!; [by rewrite lookup_insert_eq| |done..].
    intros j t Hne. by rewrite lookup_insert_ne.
  - erewrite bind_eq_raise by (rewrite set_value_spec, He; reflexivity). done.
Qed.

(** An overlay of an existing entry keeps its stored value unless the call
    supplies a default, changes only the supplied non-empty fields of its
    definition and no other entry; it never fails. *)
Theorem overlay_existing i s c o e :
  entry_at o i (Some s) = Some e →
  ∃ o', overlay i s c o = (Ret (replace (definition e) c), o')
  ∧ entry_at o' i (Some s)
    = Some (OdEntry (replace (definition e) c) (or_else (c_default c) (value e)))
  ∧ (∀ j t, _storage_key j t ≠ _storage_key i (Some s) → entry_at o' j t = entry_at o j t)
  ∧ Def.index (replace (definition e) c) = Def.index (definition e)
  ∧ Def.subindex (replace (definition e) c) = Def.subindex (definition e)
  ∧ write_generation o' = write_generation o.
Proof.
  unfold entry_at, overlay, overlay_raw, invalidate_after. intros He.
  rewrite bind_gets, He. eexists. split; [reflexivity|].
  destruct o as [es lk wg [ix|]]; cbn in *; split_and!; try done;
    first [by rewrite lookup_insert_eq | intros; by rewrite lookup_insert_ne].
Qed.

Example overlay_existing_witness :
  ∃ o', overlay 0x6040 0 (Changes (Some "") None None None (Some (PInt 6)) None None (Some true)) od_example
    = (Ret (Def.Make 0x6040 0 "controlword" "uint16" 16 "rw" (PInt 6) (Some "controlword") true true), o')
  ∧ value_at o' 0x6040 None = Some (PInt 6).
Proof.
  destruct (overlay_existing 0x6040 0
    (Changes (Some "") None None None (Some (PInt 6)) None None (Some true)) od_example
    (OdEntry (Def.Make 0x6040 0 "controlword" "uint16" 16 "rw" (PInt 0) (Some "controlword") true false) (PInt 0)))
    as (o' & H1 & H2 & _).
  { vm_compute. reflexivity. }
  exists o'. split; [exact H1|].
  unfold value_at, entry_at in *. rewrite storage_key_zero, H2. reflexivity.
Defined.

(** [reset_pdo_values] returns every PDO-mapped entry to its default, leaves
    the others alone, and is idempotent. *)
Theorem reset_pdo_values_spec o i s :
  let o' := (reset_pdo_values o).2 in
  value_at o' i s = (match entry_at o i s with
    | Some e => Some (if Def.rxpdo (definition e) || Def.txpdo (definition e)
                      then Def.default (definition e) else value e)
    | None => None
    end)
  ∧ definition_map o' = definition_map o
  ∧ reset_pdo_values o' = (Ret tt, o').
Proof.
  cbn. split_and!.
  - unfold value_at, entry_at. cbn. rewrite lookup_fmap.
    destruct (entries o !! _) as [e|]; [|done]. cbn. unfold reset_entry.
    by destruct (_ || _).
  - apply (reset_pdo_definitions o).
  - unfold reset_pdo_values, modify. f_equal. cbn.
    assert (reset_entry <$> (reset_entry <$> entries o) = reset_entry <$> entries o) as ->; [|done].
    rewrite <-map_fmap_compose. apply map_fmap_ext. intros k [d v] _.
    simpl. rewrite !reset_entry_make. by destruct (Def.rxpdo d || Def.txpdo d).
Qed.
