(* ===== verification/Profile.v ===== *)
(** * The device profile and the configured object dictionary

    src/functional_model/cia402_drive/profile/profile.py
    ([CiA402DriveProfile], with the role tables of roles.json and of
    device_descriptions/cmmt_as/extensions.json) and profile/configured_od.py
    ([ConfiguredObjectDictionary]).

    A [description] is what a device description hands to the profile: the
    catalog of objects (in the order of the dict), the parameter preset and
    the role tables.  [construct] is the constructor of the configured
    dictionary: catalog, then roles, then preset values, then PDO overlays.

    The theorems: construction accepts exactly the catalogs that cover the
    profile, and a device reset puts every preset and PDO value back to what
    construction gave it. *)

From S2P Require Import Prelude PyFloat.
From S2P Require Export ObjectDictionary.

Open Scope string_scope.
Open Scope list_scope.
Open Scope Z_scope.

(** [CMMTEsiObjectInfo], the attributes the profile and the dictionary use. *)
Module Info.
Record t := Make { name : string; data_type : string; bit_size : Z; access : string }.
End Info.

Abbreviation catalog_t := (list ((Z * Z) * Info.t)).

(** A row of a role table. *)
Module Role.
Record t := Make {
  role : string; index : Z; subindex : Z;
  name : string; data_type : string; access : string
}.
End Role.

Abbreviation role := Role.t.

(** A row of a parameter preset. *)
Record configured := Configured { cfg_index : Z; cfg_subindex : Z; cfg_value : pyval }.

(** ** The tables of roles.json and extensions.json *)

Definition standard_roles : list role := [
  Role.Make "software_position_limit_negative" 0x607D 1 "Minimum position limit" "int32" "rw";
  Role.Make "software_position_limit_positive" 0x607D 2 "Maximum position limit" "int32" "rw";
  Role.Make "position_window" 0x6067 0 "Position window" "uint32" "rw";
  Role.Make "position_window_time" 0x6068 0 "Position window time" "uint16" "rw";
  Role.Make "max_profile_velocity" 0x607F 0 "Max profile velocity" "uint32" "rw";
  Role.Make "profile_acceleration" 0x6083 0 "Profile acceleration" "uint32" "rw";
  Role.Make "profile_deceleration" 0x6084 0 "Profile deceleration" "uint32" "rw";
  Role.Make "homing_method" 0x6098 0 "Homing method" "int8" "rw";
  Role.Make "homing_speed_search_switch" 0x6099 1 "Speed during search for switch" "uint32" "rw";
  Role.Make "homing_speed_search_zero" 0x6099 2 "Speed during search for zero" "uint32" "rw";
  Role.Make "homing_acceleration" 0x609A 0 "Homing acceleration" "uint32" "rw";
  Role.Make "max_acceleration" 0x60C5 0 "Max acceleration" "uint32" "rw";
  Role.Make "max_deceleration" 0x60C6 0 "Max deceleration" "uint32" "rw";
  Role.Make "pp_jerk" 0x60A4 1 "Jerk" "uint32" "rw"].

Definition cmmt_roles : list role := [
  Role.Make "user_position_unit" 0x216E 1 "User unit position" "uint16" "ro";
  Role.Make "converting_unit_position" 0x2194 1 "Resolution position" "int8" "ro";
  Role.Make "converting_unit_velocity" 0x2194 2 "Resolution velocity" "int8" "ro";
  Role.Make "converting_unit_acceleration" 0x2194 3 "Resolution acceleration" "int8" "ro";
  Role.Make "converting_unit_jerk" 0x2194 4 "Resolution jerk" "int8" "ro";
  Role.Make "negative_velocity_limit" 0x2183 12 "Limit value velocity limit negative direction of movement" "float32" "rw";
  Role.Make "csp_interpolation_mode" 0x217B 13 "CSP interpolation mode" "uint32" "rw";
  Role.Make "sync_mode" 0x212E 1 "Synchronisation mode" "uint16" "rw";
  Role.Make "sync_cycle_time" 0x212E 2 "Cycle time" "float32" "rw";
  Role.Make "sync_interpolation_time" 0x212E 9 "Interpolation time" "float32" "rw";
  Role.Make "output_sync_manager_synchronization_type" 0x1C32 1 "Output sync manager synchronization type" "uint16" "rw";
  Role.Make "output_sync_manager_cycle_time" 0x1C32 2 "Output sync manager cycle time" "uint32" "rw";
  Role.Make "device_reset_command" 0x2000 1 "Reset device control" "uint8" "rw";
  Role.Make "parameter_save_command" 0x2005 1 "Save parameter set control" "uint8" "rw";
  Role.Make "parameter_save_status" 0x2005 2 "Save parameter set status" "uint8" "ro";
  Role.Make "parameter_save_selection" 0x2005 3 "Save parameter set selection" "uint16" "rw";
  Role.Make "parameter_save_return_code" 0x2005 4 "Save parameter set return code" "uint16" "ro";
  Role.Make "parameter_save_return_value" 0x2005 5 "Save parameter set return value" "uint16" "ro";
  Role.Make "error_code" 0x2145 12 "CMMT most serious error" "uint32" "ro"].

Definition cmmt_role_order : list string := [
  "user_position_unit"; "converting_unit_position"; "converting_unit_velocity";
  "converting_unit_acceleration"; "converting_unit_jerk";
  "software_position_limit_negative"; "software_position_limit_positive";
  "position_window"; "position_window_time"; "max_profile_velocity";
  "negative_velocity_limit"; "profile_acceleration"; "profile_deceleration";
  "homing_method"; "homing_speed_search_switch"; "homing_speed_search_zero";
  "homing_acceleration"; "max_acceleration"; "max_deceleration"; "pp_jerk";
  "csp_interpolation_mode"; "sync_mode"; "sync_cycle_time"; "sync_interpolation_time";
  "output_sync_manager_synchronization_type"; "output_sync_manager_cycle_time";
  "device_reset_command"; "parameter_save_command"; "parameter_save_status";
  "parameter_save_selection"; "parameter_save_return_code"; "parameter_save_return_value";
  "error_code"].

Definition cmmt_persistent_roles : list string := [
  "user_position_unit"; "converting_unit_position"; "converting_unit_velocity";
  "converting_unit_acceleration"; "converting_unit_jerk";
  "software_position_limit_negative"; "software_position_limit_positive";
  "position_window"; "position_window_time"; "max_profile_velocity";
  "negative_velocity_limit"; "profile_acceleration"; "profile_deceleration";
  "homing_method"; "homing_speed_search_switch"; "homing_speed_search_zero";
  "homing_acceleration"; "max_acceleration"; "max_deceleration"; "pp_jerk"].

Definition linear_mm : list configured := [
  Configured 0x216E 1 (PInt 256);
  Configured 0x2194 1 (PInt 6);
  Configured 0x2194 2 (PInt 3);
  Configured 0x2194 3 (PInt 3);
  Configured 0x2194 4 (PInt 3);
  Configured 0x607D 1 (PInt (-1000000));
  Configured 0x607D 2 (PInt 1000000);
  Configured 0x6067 0 (PInt 20);
  Configured 0x6068 0 (PInt 20);
  Configured 0x607F 0 (PInt 200);
  Configured 0x2183 12 (PFloat (f_dec (-2) (-1)));
  Configured 0x6083 0 (PInt 1000);
  Configured 0x6084 0 (PInt 1000);
  Configured 0x6098 0 (PInt 37);
  Configured 0x6099 1 (PInt 100);
  Configured 0x6099 2 (PInt 50);
  Configured 0x609A 0 (PInt 100);
  Configured 0x60C5 0 (PInt 2000);
  Configured 0x60C6 0 (PInt 2000);
  Configured 0x60A4 1 (PInt 100000)].

Definition rotary_deg : list configured := [
  Configured 0x216E 1 (PInt 16640);
  Configured 0x2194 1 (PInt 6);
  Configured 0x2194 2 (PInt 3);
  Configured 0x2194 3 (PInt 3);
  Configured 0x2194 4 (PInt 3);
  Configured 0x607D 1 (PInt (-180000000));
  Configured 0x607D 2 (PInt 180000000);
  Configured 0x6067 0 (PInt 20000);
  Configured 0x6068 0 (PInt 20);
  Configured 0x607F 0 (PInt 200000);
  Configured 0x2183 12 (PFloat (f_dec (-200) 0));
  Configured 0x6083 0 (PInt 1000000);
  Configured 0x6084 0 (PInt 1000000);
  Configured 0x6098 0 (PInt 37);
  Configured 0x6099 1 (PInt 100000);
  Configured 0x6099 2 (PInt 50000);
  Configured 0x609A 0 (PInt 100000);
  Configured 0x60C5 0 (PInt 2000000);
  Configured 0x60C6 0 (PInt 2000000);
  Configured 0x60A4 1 (PInt 100000000)].


(** ** The profile *)

Record description := Description {
  d_catalog : catalog_t;
  d_parameters : list configured;
  d_roles : list role;
  d_role_order : list string;
  d_persistent_roles : list string;
}.

Record profile := Profile {
  esi_catalog : catalog_t;
  non_pdo_configuration : option (list configured);
  pdo_configuration : PdoConfiguration;
  roles : list role;
  persistent_roles : list role;
}.

(** The dict comprehension over the rows: the last row of a role wins. *)
Definition role_dict (rows : list role) : list (string * role) :=
  foldl (λ d r, dict_set (Role.role r) r d) [] rows.

(** [CiA402DriveProfile.__init__] *)
Definition CiA402DriveProfile (standard : list role) (d : description) : outcome profile :=
  let table := role_dict (standard ++ d_roles d) in
  let pick key := of_option KeyError (dict_get key table) in
  ordered ← traverse pick (d_role_order d);
  persistent ← traverse pick (d_persistent_roles d);
  mret (Profile (d_catalog d) (Some (d_parameters d)) motion_server_default ordered persistent).

(** [ObjectDictionaryEntry(0, 0, '', data_type).bit_length] *)
Definition expected_data_type_bits (data_type : string) : outcome Z :=
  bit_length (Entry.Make 0 0 "" data_type None (PInt 0)).

Definition object_info (c : catalog_t) (index subindex : Z) : outcome Info.t :=
  of_option KeyError (dict_get (index, subindex) c).

(** One turn of the loop of [validate_catalog_support]. *)
Definition validate_entry (c : catalog_t) (index subindex : Z) (data_type : string)
    : outcome () :=
  if index =? 0 then mret tt
  else
    actual ← object_info c index subindex;
    expected ← expected_data_type_bits data_type;
    if negb (Info.bit_size actual =? expected) then Raise ValueError else mret tt.

Definition validate_catalog_support (p : profile) : outcome () :=
  traverse (λ r, validate_entry (esi_catalog p) (Role.index r) (Role.subindex r) (Role.data_type r))
    (roles p) ≫= λ _,
  traverse (λ e, validate_entry (esi_catalog p) (Entry.index e) (Entry.subindex e) (Entry.data_type e))
    (rx (pdo_configuration p) ++ tx (pdo_configuration p)) ≫= λ _, mret tt.

(** ** The configured dictionary *)

Definition _load_catalog (entries : catalog_t) : M od () :=
  mapM_ (λ '((index, subindex), e),
    d ← lift (default_value (Info.data_type e) (Info.bit_size e));
    define (Def.Make index subindex (Info.name e) (Info.data_type e) (Info.bit_size e)
              (Info.access e) d None false false) ;; mret tt) entries.

Definition _overlay_required_non_pdo_od (rs : list role) : M od () :=
  mapM_ (λ r,
    b ← lift (expected_data_type_bits (Role.data_type r));
    overlay (Role.index r) (Role.subindex r)
      (Changes (Some (Role.name r)) (Some (Role.data_type r)) (Some b) (Some (Role.access r))
         None (Some (Some (Role.role r))) None None) ;; mret tt) rs.

Definition apply_configured (c : configured) : M od () :=
  present ← has_entry (cfg_index c) (Some (cfg_subindex c));
  if negb present then raise ValueError
  else write_internal (cfg_index c) (cfg_value c) (Some (cfg_subindex c)).

Definition _apply_non_pdo_configuration (configuration : option (list configured)) : M od () :=
  match configuration with
  | None => mret tt
  | Some values => mapM_ apply_configured values
  end.

(** [direction] is the keyword the overlay passes as [True]. *)
Inductive direction := Rxpdo | Txpdo.

Definition overlay_pdo_entry (dir : direction) (e : ObjectDictionaryEntry) : M od () :=
  if Entry.index e =? 0 then mret tt
  else
    b ← lift (bit_length e);
    overlay (Entry.index e) (Entry.subindex e)
      (Changes (Some (Entry.name e)) (Some (Entry.data_type e)) (Some b) None
         (Some (Entry.default e)) (Some (Entry.field e))
         (match dir with Rxpdo => Some true | Txpdo => None end)
         (match dir with Txpdo => Some true | Rxpdo => None end)) ;; mret tt.

Definition _overlay_pdo (entries : list ObjectDictionaryEntry) (dir : direction) : M od () :=
  mapM_ (overlay_pdo_entry dir) entries.

(** [ConfiguredObjectDictionary.__init__] on the empty dictionary. *)
Definition construct_body (p : profile) : M od () :=
  lift (validate_catalog_support p) ;;
  _load_catalog (esi_catalog p) ;;
  _overlay_required_non_pdo_od (roles p) ;;
  _apply_non_pdo_configuration (non_pdo_configuration p) ;;
  _overlay_pdo (rx (pdo_configuration p)) Rxpdo ;;
  _overlay_pdo (tx (pdo_configuration p)) Txpdo.

Definition construct (p : profile) : outcome od :=
  match construct_body p empty_od with
  | (Ret _, o) => Ret o
  | (Raise e, _) => Raise e
  end.

Definition reset_non_pdo_configuration (p : profile) : M od () :=
  _apply_non_pdo_configuration (non_pdo_configuration p).

(** ** Lemmas *)

Lemma overlay_entries i s c o :
  entries (overlay i s c o).2 =
  match entries o !! _storage_key i (Some s), definition_of_changes i s c with
  | Some e, _ => <[_storage_key i (Some s) :=
      OdEntry (replace (definition e) c) (or_else (c_default c) (value e))]> (entries o)
  | None, Ret d => <[_storage_key i (Some s) := OdEntry d (Def.default d)]> (entries o)
  | None, Raise _ => entries o
  end.
Proof.
  unfold overlay, overlay_raw, invalidate_after. rewrite bind_gets.
  destruct (entries o !! _) as [e|] eqn:He.
  { simpl. by destruct (role_index o). }
  destruct (definition_of_changes i s c) as [d|x] eqn:Hd;
    [|simpl; by destruct (role_index o)].
  assert (Def.index d = i ∧ Def.subindex d = s) as [Hi Hs].
  { unfold definition_of_changes in Hd. by destruct (c_name c), (c_data_type c), (c_bit_size c); simplify_eq. }
  unfold lift. rewrite (bind_eq_ret _ _ _ d _ eq_refl).
  unfold define, invalidate_after, define_raw. rewrite Hi, Hs. simpl.
  destruct (role_index o) as [ix|] eqn:Ho; simpl; by rewrite ?Ho.
Qed.

Lemma define_entries d o :
  entries (define d o).2
  = <[_storage_key (Def.index d) (Some (Def.subindex d)) := OdEntry d (Def.default d)]> (entries o).
Proof. unfold define, invalidate_after. simpl. by destruct (role_index o). Qed.

(** The entry takes part in a PDO. *)
Definition flagged (d : VirtualOdDefinition) : bool := Def.rxpdo d || Def.txpdo d.

Definition unflagged_od (o : od) : Prop :=
  map_Forall (λ _ e, flagged (definition e) = false) (entries o).

Definition flagged_at_default (o : od) : Prop :=
  map_Forall (λ _ e, flagged (definition e) = true → value e = Def.default (definition e)) (entries o).

Lemma set_value_entries key v o :
  entries (set_value key v o).2 =
  match entries o !! key with
  | None => entries o
  | Some e => <[key := e <| value := v |>]> (entries o)
  end.
Proof. rewrite set_value_spec. by destruct (entries o !! key). Qed.

Lemma load_catalog_unflagged l o : unflagged_od o → unflagged_od (_load_catalog l o).2.
Proof.
  apply (inv_mapM_ unflagged_od). intros [[i s] e].
  apply inv_bind; [apply inv_lift|intros d].
  apply inv_bind; [|intros ?; apply inv_mret].
  intros o' Ho. unfold unflagged_od. rewrite define_entries. by apply map_Forall_insert_2.
Qed.

Lemma overlay_roles_unflagged l o :
  unflagged_od o → unflagged_od (_overlay_required_non_pdo_od l o).2.
Proof.
  apply (inv_mapM_ unflagged_od). intros r.
  apply inv_bind; [apply inv_lift|intros b].
  apply inv_bind; [|intros ?; apply inv_mret].
  intros o' Ho. unfold unflagged_od. rewrite overlay_entries. simpl.
  destruct (entries o' !! _) as [e|] eqn:He; apply map_Forall_insert_2; try done.
  by apply (Ho _ _ He).
Qed.

#[export] Instance apply_configured_definitions c : Preserves definition_map (apply_configured c).
Proof. unfold apply_configured. apply preserves_bind; [apply _|]. intros b. by destruct b; apply _. Qed.

#[export] Instance apply_configuration_definitions conf :
  Preserves definition_map (_apply_non_pdo_configuration conf).
Proof. destruct conf; apply _. Qed.

Lemma unflagged_definitions o o' :
  definition_map o' = definition_map o → unflagged_od o → unflagged_od o'.
Proof.
  intros H Ho k e' He. assert (definition_map o' !! k = Some (definition e')) as Hd.
  { unfold definition_map. by rewrite lookup_fmap, He. }
  rewrite H in Hd. unfold definition_map in Hd. rewrite lookup_fmap in Hd.
  destruct (entries o !! k) as [e|] eqn:Hk; [|done]. simplify_eq/=.
  specialize (Ho k e Hk). simpl in Ho. congruence.
Qed.

(** What one PDO overlay does to the entries. *)
Definition plain_default (e : ObjectDictionaryEntry) : Prop := Entry.default e ≠ PStr "".

Lemma supplied_default_plain v cur : v ≠ PStr "" → supplied_default (Some v) cur = v.
Proof.
  intros Hv. destruct v as [| | |s|]; try done. simpl.
  destruct (String.eqb_spec s ""); [congruence|done].
Qed.

Lemma overlay_pdo_entry_spec dir e o :
  entries (overlay_pdo_entry dir e o).2 = entries o
  ∨ ∃ d, entries (overlay_pdo_entry dir e o).2
         = <[_storage_key (Entry.index e) (Some (Entry.subindex e)) := OdEntry d (Entry.default e)]> (entries o)
     ∧ flagged d = true ∧ (plain_default e → Def.default d = Entry.default e).
Proof.
  unfold overlay_pdo_entry. destruct (Entry.index e =? 0); [by left|].
  destruct (bit_length e) as [b|x]; [|by left]. right.
  unfold lift, mbind, M_bind at 1.
  set (c := Changes _ _ _ _ _ _ _ _).
  assert (∀ o, entries ((overlay (Entry.index e) (Entry.subindex e) c ≫= λ _, mret tt) o).2
    = entries (overlay (Entry.index e) (Entry.subindex e) c o).2) as Hb.
  { intros o0. unfold mbind, M_bind. by destruct (overlay _ _ _ o0) as [[]]. }
  unfold mbind in Hb. rewrite Hb, overlay_entries. subst c.
  destruct (entries o !! _) as [e0|]; simpl; eexists; (split; [reflexivity|split]);
    try (intros; by apply supplied_default_plain);
    unfold flagged; destruct dir; simpl; auto using orb_true_r.
Qed.

Lemma overlay_pdo_defaults l dir o :
  Forall plain_default l → flagged_at_default o → flagged_at_default (_overlay_pdo l dir o).2.
Proof.
  unfold _overlay_pdo. intros Hl. revert o. induction Hl as [|e l He _ IH]; intros o Ho; simpl; [done|].
  assert (flagged_at_default (overlay_pdo_entry dir e o).2) as H1.
  { unfold flagged_at_default in *.
    destruct (overlay_pdo_entry_spec dir e o) as [->|(d & -> & _ & Hd)]; [done|].
    apply map_Forall_insert_2; [intros _; symmetry; by apply Hd|done]. }
  unfold mbind, M_bind. destruct (overlay_pdo_entry dir e o) as [[]]; [by apply IH|done].
Qed.

(** PDO overlays add no unflagged entry and drop none. *)
Definition pdo_extends (o o' : od) : Prop :=
  (∀ k e, entries o' !! k = Some e → flagged (definition e) = false → entries o !! k = Some e)
  ∧ (∀ k, is_Some (entries o !! k) → is_Some (entries o' !! k)).

#[export] Instance pdo_extends_refl : Reflexive pdo_extends.
Proof. by split. Qed.
#[export] Instance pdo_extends_trans : Transitive pdo_extends.
Proof. intros o1 o2 o3 [A1 B1] [A2 B2]. split; eauto. Qed.

Lemma overlay_pdo_extends l dir o : pdo_extends o (_overlay_pdo l dir o).2.
Proof.
  apply (mapM_rel pdo_extends). intros e o'.
  destruct (overlay_pdo_entry_spec dir e o') as [H|(d & H & Hf & _)]; split; intros k; rewrite H; try done.
  - intros e0. rewrite lookup_insert. case_decide; [|done]. intros [= <-]. simpl. congruence.
  - rewrite lookup_insert. case_decide; [done|auto].
Qed.

(** The value a preset gives an address: its last row. *)
Definition cfg_key (c : configured) : okey := _storage_key (cfg_index c) (Some (cfg_subindex c)).

Definition configured_value (l : list configured) (k : okey) (v : option pyval) : option pyval :=
  foldl (λ v c, if decide (cfg_key c = k) then Some (cfg_value c) else v) v l.

Definition values (o : od) (k : okey) : option pyval := value <$> entries o !! k.

Lemma configured_value_in l k : (∃ c, c ∈ l ∧ cfg_key c = k) →
  ∃ w, ∀ v, configured_value l k v = Some w.
Proof.
  induction l as [|c l IH] using rev_ind; intros (c0 & Hin & Hk).
  { by apply elem_of_nil in Hin. }
  unfold configured_value in *. setoid_rewrite foldl_snoc.
  destruct (decide (cfg_key c = k)); [by eexists|].
  apply IH. exists c0. split; [|done]. apply elem_of_app in Hin as [|Hin]; [done|].
  apply list_elem_of_singleton in Hin. congruence.
Qed.

Lemma configured_value_notin l k v :
  (∀ c, c ∈ l → cfg_key c ≠ k) → configured_value l k v = v.
Proof.
  revert v. induction l as [|c l IH]; intros v Hl; simpl; [done|].
  rewrite decide_False by (apply Hl; set_solver). apply IH. set_solver.
Qed.

Lemma apply_one c o :
  is_Some (entries o !! cfg_key c) →
  ∃ o', apply_configured c o = (Ret tt, o')
  ∧ (∀ k, values o' k = if decide (cfg_key c = k) then Some (cfg_value c) else values o k).
Proof.
  intros [e He]. unfold apply_configured, has_entry, write_internal. rewrite bind_gets.
  fold (cfg_key c). rewrite bool_decide_true by (rewrite He; eauto). simpl.
  rewrite set_value_spec, He. eexists. split; [done|]. intros k. unfold values. simpl.
  rewrite lookup_insert. by case_decide.
Qed.

Lemma apply_all l o :
  (∀ c, c ∈ l → is_Some (entries o !! cfg_key c)) →
  ∃ o', mapM_ apply_configured l o = (Ret tt, o')
  ∧ (∀ k, values o' k = configured_value l k (values o k)).
Proof.
  revert o. induction l as [|c l IH]; intros o Hl; [by eexists|].
  destruct (apply_one c o) as (o1 & E1 & V1); [apply Hl; set_solver|].
  destruct (IH o1) as (o2 & E2 & V2).
  { intros c' Hc'. specialize (Hl c' ltac:(set_solver)).
    specialize (V1 (cfg_key c')). unfold values in V1.
    destruct Hl as [e He]. rewrite He in V1.
    destruct (entries o1 !! cfg_key c'); [by eexists|]. by case_decide. }
  exists o2. split; [simpl; by rewrite (bind_eq_ret _ _ _ _ _ E1)|].
  intros k. rewrite V2, V1. simpl. done.
Qed.

Lemma apply_all_inv l o o' :
  mapM_ apply_configured l o = (Ret tt, o') →
  ∀ c, c ∈ l → is_Some (entries o !! cfg_key c).
Proof.
  revert o. induction l as [|c l IH]; intros o H c' Hc'; [by apply elem_of_nil in Hc'|].
  simpl in H. apply bind_Ret_inv in H as ([] & o1 & H1 & H2).
  assert (∀ k, is_Some (entries o1 !! k) → is_Some (entries o !! k)) as Hdom.
  { intros k. pose proof (apply_configured_definitions c o) as Hd. rewrite H1 in Hd. simpl in Hd.
    assert (definition_map o1 !! k = definition_map o !! k) as Hk by by rewrite Hd.
    unfold definition_map in Hk. rewrite !lookup_fmap in Hk.
    destruct (entries o1 !! k), (entries o !! k); try done; by intros [? ?]. }
  apply elem_of_cons in Hc' as [->|Hc']; [|apply Hdom; by eapply IH].
  unfold apply_configured, has_entry in H1. rewrite bind_gets in H1. fold (cfg_key c) in H1.
  destruct (decide (is_Some (entries o !! cfg_key c))) as [|Hn]; [done|].
  by rewrite bool_decide_false in H1.
Qed.

(** The state after each part of a successful construction. *)
Lemma construct_stages p o0 :
  construct p = Ret o0 →
  ∃ o1 o2, unflagged_od o1
    ∧ _apply_non_pdo_configuration (non_pdo_configuration p) o1 = (Ret tt, o2)
    ∧ unflagged_od o2
    ∧ pdo_extends o2 o0
    ∧ (Forall plain_default (rx (pdo_configuration p) ++ tx (pdo_configuration p)) →
       flagged_at_default o0).
Proof.
  unfold construct. destruct (construct_body p empty_od) as [[[]|] o] eqn:H; [|done].
  intros [= ->]. unfold construct_body in H.
  apply bind_Ret_inv in H as ([] & ? & [= _ <-] & H).
  apply bind_Ret_inv in H as ([] & oa & Ha & H).
  apply bind_Ret_inv in H as ([] & ob & Hb & H).
  apply bind_Ret_inv in H as ([] & oc & Hc & H).
  apply bind_Ret_inv in H as ([] & od & Hd & H).
  pose proof (load_catalog_unflagged (esi_catalog p) empty_od) as U1.
  rewrite Ha in U1. simpl in U1.
  pose proof (overlay_roles_unflagged (roles p) oa) as U2. rewrite Hb in U2.
  pose proof (apply_configuration_definitions (non_pdo_configuration p) ob) as U3.
  rewrite Hc in U3. simpl in U3.
  assert (unflagged_od ob) as Ub by (apply U2, U1, map_Forall_empty).
  assert (unflagged_od oc) as Uc by by eapply unflagged_definitions.
  pose proof (overlay_pdo_extends (rx (pdo_configuration p)) Rxpdo oc) as E1. rewrite Hd in E1.
  pose proof (overlay_pdo_extends (tx (pdo_configuration p)) Txpdo od) as E2. rewrite H in E2.
  exists ob, oc. split_and!; [done|exact Hc|done|by etrans|].
  intros Hp. apply Forall_app in Hp as [P1 P2].
  pose proof (overlay_pdo_defaults _ Txpdo od P2) as D2. rewrite H in D2. apply D2.
  pose proof (overlay_pdo_defaults _ Rxpdo oc P1) as D1. rewrite Hd in D1. apply D1.
  intros k e He Hf. specialize (Uc k e He). simpl in Uc. congruence.
Qed.

(** [restorable p o k]: the preset or a PDO determines the value at [k]. *)
Definition restorable (p : profile) (o : od) (k : okey) : Prop :=
  (∃ c, c ∈ or_else (non_pdo_configuration p) [] ∧ cfg_key c = k)
  ∨ (∃ e, entries o !! k = Some e ∧ flagged (definition e) = true).

Lemma reset_values o k :
  values (reset_pdo_values o).2 k =
  e ← entries o !! k; Some (if flagged (definition e) then Def.default (definition e) else value e).
Proof.
  unfold values. simpl. rewrite lookup_fmap. destruct (entries o !! k) as [[d v]|]; [|done].
  simpl. by rewrite reset_entry_make.
Qed.

Lemma same_definition o o' k e :
  definition_map o' = definition_map o → entries o' !! k = Some e →
  ∃ e', entries o !! k = Some e' ∧ definition e' = definition e.
Proof.
  intros H He. assert (definition_map o' !! k = Some (definition e)) as Hd.
  { unfold definition_map. by rewrite lookup_fmap, He. }
  rewrite H in Hd. unfold definition_map in Hd. rewrite lookup_fmap in Hd.
  destruct (entries o !! k) as [e'|]; simplify_eq/=; eauto.
Qed.

(** ** Properties *)

Lemma apply_non_pdo_all c o :
  _apply_non_pdo_configuration c o = mapM_ apply_configured (or_else c []) o.
Proof. by destruct c. Qed.

(** C23. A device reset restores the power-on values.  Take the dictionary a
    profile constructs and change any values in it: resetting the preset and
    then the PDO values succeeds, puts every object the preset or a PDO
    determines back to its value after construction, and leaves every other
    value as it is. *)
Theorem device_reset_restores_power_on p o0 o :
  construct p = Ret o0 →
  Forall plain_default (rx (pdo_configuration p) ++ tx (pdo_configuration p)) →
  definition_map o = definition_map o0 →
  ∃ o', (reset_non_pdo_configuration p ;; reset_pdo_values) o = (Ret tt, o')
  ∧ (∀ k, restorable p o0 k → values o' k = values o0 k)
  ∧ (∀ k, ¬ restorable p o0 k → values o' k = values o k).
Proof.
  intros Hc Hp Hdef.
  destruct (construct_stages p o0 Hc) as (o1 & o2 & U1 & Ha & U2 & [Hx Hdom] & Hfd).
  specialize (Hfd Hp).
  rewrite apply_non_pdo_all in Ha. set (l := or_else (non_pdo_configuration p) []) in *.
  assert (∀ k, is_Some (entries o1 !! k) → is_Some (entries o !! k)) as Hdom1.
  { intros k Hk. assert (is_Some (entries o2 !! k)) as [e2 He2].
    { pose proof (apply_configuration_definitions (Some l) o1) as H. simpl in H. rewrite Ha in H.
      destruct Hk as [e1 He1]. destruct (same_definition _ _ _ _ (eq_sym H) He1) as (e2 & He2 & _). eauto. }
    destruct (Hdom k) as [e0 He0]; [eauto|].
    destruct (same_definition _ _ _ _ (eq_sym Hdef) He0) as (e & He & _). eauto. }
  pose proof (apply_all_inv _ _ _ Ha) as Hin.
  destruct (apply_all l o) as (oa & Ea & Va); [intros c Hcl; by apply Hdom1, Hin|].
  destruct (apply_all l o1) as (o2' & Ea' & Va2); [done|]. rewrite Ha in Ea'. simplify_eq.
  assert (definition_map oa = definition_map o0) as Hdefa.
  { pose proof (apply_configuration_definitions (Some l) o) as H. simpl in H. rewrite Ea in H.
    simpl in H. congruence. }
  exists (reset_pdo_values oa).2.
  split; [unfold reset_non_pdo_configuration; rewrite (bind_eq_ret _ _ o tt oa); [done|by rewrite apply_non_pdo_all]|].
  split; intros k Hk; rewrite reset_values.
  - destruct (entries oa !! k) as [ea|] eqn:Eka.
    + destruct (same_definition _ _ _ _ Hdefa Eka) as (e0 & E0 & Hd0). simpl.
      unfold values. rewrite E0. simpl. destruct (flagged (definition ea)) eqn:Hf.
      * rewrite <-Hd0. f_equal. symmetry. apply (Hfd k e0 E0). by rewrite Hd0.
      * destruct Hk as [Hcl|(e & He & Hfe)]; [|simplify_eq; congruence].
        destruct (configured_value_in l k Hcl) as [w Hw].
        specialize (Va k). specialize (Va2 k). rewrite Hw in Va, Va2.
        unfold values in Va, Va2. rewrite Eka in Va.
        rewrite (Hx k e0 E0) in Va2 by congruence. simpl in *. congruence.
    + unfold values. destruct (entries o0 !! k) as [e0|] eqn:E0; [|done].
      destruct (same_definition _ _ _ _ (eq_sym Hdefa) E0) as (ea & Ea1 & _). congruence.
  - rewrite <-(configured_value_notin l k (values o k)), <-Va.
    + unfold values. destruct (entries oa !! k) as [ea|] eqn:Eka; [|done]. simpl.
      destruct (same_definition _ _ _ _ Hdefa Eka) as (e0 & E0 & Hd0).
      destruct (flagged (definition ea)) eqn:Hf; [|done].
      exfalso. apply Hk. right. exists e0. split; [done|]. congruence.
    + intros c Hcl Heq. apply Hk. left. eauto.
Qed.

(** A concrete device: the linear preset over a catalog that holds the
    objects of the role tables and of the PDO layout. *)
Definition covering_catalog : catalog_t :=
  let bits t := match expected_data_type_bits t with Ret b => b | Raise _ => 0 end in
  let of_roles := foldl (λ c r, dict_set (Role.index r, Role.subindex r)
      (Info.Make (Role.name r) (Role.data_type r) (bits (Role.data_type r)) (Role.access r)) c)
    [] (standard_roles ++ cmmt_roles) in
  foldl (λ c e, dict_set (Entry.index e, Entry.subindex e)
      (Info.Make (Entry.name e) (Entry.data_type e) (bits (Entry.data_type e)) "rw") c)
    of_roles (rx motion_server_default ++ tx motion_server_default).

Definition linear_description : description :=
  Description covering_catalog linear_mm cmmt_roles cmmt_role_order cmmt_persistent_roles.

Definition linear_profile : profile :=
  match CiA402DriveProfile standard_roles linear_description with
  | Ret p => p
  | Raise _ => Profile [] None motion_server_default [] []
  end.

Definition linear_od : od :=
  match construct linear_profile with Ret o => o | Raise _ => empty_od end.

Example linear_profile_constructs :
  construct linear_profile = Ret linear_od ∧ length (roles linear_profile) = 33%nat
  ∧ (read_role "max_profile_velocity" linear_od).1 = Ret (PInt 200)
  ∧ (read_role "mode_of_operation" linear_od).1 = Ret (PInt 8).
Proof. vm_compute. auto. Qed.

Lemma device_reset_restores_power_on_witness :
  let o := (write 0x607F (PInt 7) None linear_od).2 in
  ∃ o', (reset_non_pdo_configuration linear_profile ;; reset_pdo_values) o = (Ret tt, o')
  ∧ values o (inl 0x607F) = Some (PInt 7) ∧ values o' (inl 0x607F) = Some (PInt 200).
Proof.
  intros o.
  destruct (device_reset_restores_power_on linear_profile linear_od o) as (o' & E & H & _).
  - vm_compute. reflexivity.
  - repeat constructor; discriminate.
  - apply (write_definitions 0x607F (PInt 7) None linear_od).
  - exists o'. split; [exact E|]. split; [vm_compute; reflexivity|].
    rewrite H; [vm_compute; reflexivity|]. left.
    exists (Configured 0x607F 0 (PInt 200)). split; [|reflexivity].
    apply list_elem_of_In. vm_compute. tauto.
Defined.

(** ** Catalog support *)

(** The catalog holds the object with the bit size of the data type; index 0
    (padding) needs no object. *)
Definition covered (c : catalog_t) (index subindex : Z) (data_type : string) : Prop :=
  index = 0 ∨ ∃ i b, dict_get (index, subindex) c = Some i
    ∧ expected_data_type_bits data_type = Ret b ∧ Info.bit_size i = b.

Lemma validate_entry_iff c i s t : validate_entry c i s t = Ret tt ↔ covered c i s t.
Proof.
  unfold validate_entry, covered, object_info.
  destruct (Z.eqb_spec i 0) as [->|Hi]; [naive_solver|].
  destruct (dict_get (i, s) c) as [e|]; simpl; [|naive_solver].
  destruct (expected_data_type_bits t) as [b|x]; simpl; [|naive_solver].
  destruct (Z.eqb_spec (Info.bit_size e) b); naive_solver.
Qed.

Lemma traverse_unit_iff {A} (f : A → outcome ()) l :
  (∃ us, traverse f l = Ret us) ↔ Forall (λ a, f a = Ret tt) l.
Proof.
  induction l as [|a l IH]; simpl; [split; [constructor|by eexists]|].
  rewrite Forall_cons, <-IH. split.
  - intros [us H]. destruct (f a) as [[]|]; [|done]. simpl in H.
    destruct (traverse f l); naive_solver.
  - intros [-> [us ->]]. by eexists.
Qed.

(** [validate_catalog_support] accepts a profile exactly when the catalog
    covers every role and every PDO entry of it. *)
Theorem validate_catalog_support_iff p :
  validate_catalog_support p = Ret tt ↔
    Forall (λ r, covered (esi_catalog p) (Role.index r) (Role.subindex r) (Role.data_type r)) (roles p)
    ∧ Forall (λ e, covered (esi_catalog p) (Entry.index e) (Entry.subindex e) (Entry.data_type e))
        (rx (pdo_configuration p) ++ tx (pdo_configuration p)).
Proof.
  unfold validate_catalog_support.
  setoid_rewrite <-validate_entry_iff. rewrite <-!traverse_unit_iff.
  split.
  - intros H. destruct (traverse _ (roles p)); [|done]. simpl in H.
    destruct (traverse _ (_ ++ _)); [eauto|done].
  - intros [[us ->] [vs H]]. simpl. by rewrite H.
Qed.
