(* ===== verification/Bridge.v ===== *)
(** * The SDO and PDO bridge

    src/functional_model/cia402_drive/profile/bridge.py ([VirtualOdBridge]):
    SDO access by address and the packing of the fixed PDO layouts.  The
    bridge keeps a reference to the dictionary and to the PDO configuration;
    its methods are programs over the dictionary that take the configuration
    as an argument.

    The theorems: an RxPDO payload written to the dictionary and packed again
    with the same layout is the payload with its padding cleared; a short
    payload is rejected; the SDO access rules. *)

From S2P Require Import Prelude PyFloat.
From S2P Require Export Profile.

Open Scope string_scope.
Open Scope list_scope.
Open Scope Z_scope.

(** [payload[lo:hi]] *)
Definition clamp (len i : Z) : Z := if i <? 0 then Z.max 0 (i + len) else Z.min i len.

Definition slice {A} (lo hi : Z) (l : list A) : list A :=
  let len := Z.of_nat (length l) in
  take (Z.to_nat (clamp len hi - clamp len lo)) (drop (Z.to_nat (clamp len lo)) l).

(** [_definition] *)
Definition _definition (index subindex : Z) : M od VirtualOdDefinition :=
  try_except (get_definition index (Some subindex))
    (λ e, if is_key_error e then raise SdoObjectNotFoundException else raise e).

Definition read_sdo (index subindex size : Z) : M od (list byte) :=
  d ← _definition index subindex;
  v ← read index (Some subindex);
  lift (encode_od_value (Def.data_type d) v (Some size)).

Definition write_sdo (index subindex : Z) (payload : list byte) : M od () :=
  d ← _definition index subindex;
  if String.eqb (Text.lower (Def.access d)) "ro" then raise DeviceRejectedException
  else
    v ← lift (decode_od_value (Def.data_type d) payload);
    write index v (Some subindex).

(** [obj.index == 0 or obj.field is None]: the bytes carry no object. *)
Definition unmapped (obj : ObjectDictionaryEntry) : bool :=
  (Entry.index obj =? 0) || match Entry.field obj with None => true | Some _ => false end.

(** The loop of [rxpdo_payload_to_od] from [offset] on. *)
Fixpoint rx_loop (objs : list ObjectDictionaryEntry) (payload : list byte) (offset : Z)
    : M od () :=
  match objs with
  | [] => mret tt
  | obj :: objs =>
      n ← lift (byte_length obj);
      let stop := offset + n in
      if Z.of_nat (length payload) <? stop then raise ValueError
      else
        let raw_value := slice offset stop payload in
        (if unmapped obj then mret tt
         else
           v ← lift (decode_od_value (Entry.data_type obj) raw_value);
           write (Entry.index obj) v (Some (Entry.subindex obj))) ;;
        rx_loop objs payload stop
  end.

Definition rxpdo_payload_to_od (conf : PdoConfiguration) (payload : list byte) : M od () :=
  rx_loop (rx conf) payload 0.

(** [b'\x00' * n] *)
Definition zeros (n : Z) : list byte := replicate (Z.to_nat n) x00.

Fixpoint tx_loop (objs : list ObjectDictionaryEntry) (payload : list byte) : M od (list byte) :=
  match objs with
  | [] => mret payload
  | obj :: objs =>
      if unmapped obj then
        n ← lift (byte_length obj);
        tx_loop objs (payload ++ zeros n)
      else
        v ← read (Entry.index obj) (Some (Entry.subindex obj));
        n ← lift (byte_length obj);
        bs ← lift (encode_od_value (Entry.data_type obj) v (Some n));
        tx_loop objs (payload ++ bs)
  end.

Definition od_to_txpdo_payload (conf : PdoConfiguration) : M od (list byte) :=
  tx_loop (tx conf) [].

(** ** Lemmas *)

Lemma slice_middle {A} (l1 l2 l3 : list A) :
  slice (Z.of_nat (length l1)) (Z.of_nat (length l1) + Z.of_nat (length l2)) (l1 ++ l2 ++ l3) = l2.
Proof.
  unfold slice, clamp. rewrite !length_app, !Nat2Z.inj_add.
  rewrite !(proj2 (Z.ltb_ge _ _)), !Z.min_l by lia.
  replace (Z.to_nat (Z.of_nat (length l1) + Z.of_nat (length l2) - Z.of_nat (length l1)))
    with (length l2) by lia.
  rewrite Nat2Z.id, drop_app_length. by rewrite take_app_length.
Qed.

Definition entry_key (obj : ObjectDictionaryEntry) : okey :=
  _storage_key (Entry.index obj) (Some (Entry.subindex obj)).

Lemma write_spec i v s o :
  write i v s o = match entries o !! _storage_key i s with
  | None => (Raise KeyError, o)
  | Some e => (Ret tt, o <| entries := <[_storage_key i s := e <| value := v |>]> (entries o) |>
        <| last_write_key := Some (_storage_key i s) |>
        <| write_generation := write_generation o + 1 |>)
  end.
Proof.
  unfold write, mbind, M_bind. rewrite set_value_spec. by destruct (entries o !! _).
Qed.

#[export] Instance tx_loop_preserves {T} (f : od → T) objs acc : Preserves f (tx_loop objs acc).
Proof.
  revert acc. induction objs as [|obj objs IH]; intros acc; simpl; [apply _|].
  destruct (unmapped obj); apply _.
Qed.

#[export] Instance rx_loop_definitions objs p off : Preserves definition_map (rx_loop objs p off).
Proof.
  revert off. induction objs as [|obj objs IH]; intros off; simpl; [apply _|].
  apply preserves_bind; [apply _|]. intros n. destruct (_ <? _); [apply _|].
  destruct (unmapped obj); apply _.
Qed.

(** [chunk_of obj bs]: [bs] has the width of the object on the wire, which is
    an integer type when the object is mapped. *)
Definition chunk_of (obj : ObjectDictionaryEntry) (bs : list byte) : Prop :=
  byte_length obj = Ret (Z.of_nat (length bs))
  ∧ (unmapped obj = false →
     ∃ signed, assoc (normalize_od_data_type (Entry.data_type obj)) DATA_TYPE_FORMATS
               = Some (FmtInt signed (length bs))).

Definition mapped_keys (objs : list ObjectDictionaryEntry) : list okey :=
  map entry_key (filter (λ obj, unmapped obj = false) objs).

(** The bytes of an object after a round trip. *)
Definition cleared (obj : ObjectDictionaryEntry) (bs : list byte) : list byte :=
  if unmapped obj then replicate (length bs) x00 else bs.

(** The dictionary holds, at the key of the object, the value of its bytes. *)
Definition holds (o : od) (obj : ObjectDictionaryEntry) (bs : list byte) : Prop :=
  unmapped obj = false →
  ∃ v, values o (entry_key obj) = Some v ∧ decode_od_value (Entry.data_type obj) bs = Ret v.

Lemma rx_loop_spec objs chunks pre post o :
  Forall2 chunk_of objs chunks →
  NoDup (mapped_keys objs) →
  (∀ k, k ∈ mapped_keys objs → is_Some (entries o !! k)) →
  ∃ o', rx_loop objs (pre ++ mjoin chunks ++ post) (Z.of_nat (length pre)) o = (Ret tt, o')
    ∧ (∀ k, k ∉ mapped_keys objs → entries o' !! k = entries o !! k)
    ∧ Forall2 (holds o') objs chunks.
Proof.
  intros Hc. revert pre o. unfold mapped_keys.
  induction Hc as [|obj bs objs chunks [Hn Hf] _ IH]; intros pre o Hnd Hdom.
  { exists o. by split_and!. }
  simpl rx_loop. rewrite lift_bind, Hn.
  rewrite (proj2 (Z.ltb_ge _ _)) by (change (mjoin (bs :: chunks)) with (bs ++ mjoin chunks); rewrite !length_app; lia).
  change (mjoin (bs :: chunks)) with (bs ++ mjoin chunks). rewrite <-app_assoc, slice_middle.
  replace (Z.of_nat (length pre) + Z.of_nat (length bs)) with (Z.of_nat (length (pre ++ bs)))
    by (rewrite length_app; lia).
  rewrite (app_assoc pre bs). rewrite filter_cons in Hnd, Hdom |- *.
  destruct (unmapped obj) eqn:Hu.
  - rewrite decide_False in Hnd, Hdom |- * by done. rewrite bind_ret_l.
    destruct (IH (pre ++ bs) o Hnd Hdom) as (o' & E & Hsame & Hh).
    exists o'. split_and!; [done|done|]. constructor; [|done]. intros H. congruence.
  - rewrite decide_True in Hnd, Hdom |- * by done. simpl in Hnd, Hdom.
    apply NoDup_cons in Hnd as [Hnotin Hnd].
    destruct (Hf eq_refl) as [signed Hfmt].
    destruct (int_payload _ _ _ bs Hfmt eq_refl) as (z & Hz & _ & _).
    destruct (Hdom (entry_key obj)) as [e He]; [set_solver|].
    unfold mbind at 1, M_bind at 1. rewrite lift_bind, Hz, write_spec.
    fold (entry_key obj). rewrite He.
    match goal with |- context [rx_loop objs _ _ ?s] => set (o1 := s) end.
    assert (Hdom1 : ∀ k, k ∈ map entry_key (filter (λ obj, unmapped obj = false) objs) →
        is_Some (entries o1 !! k)).
    { intros k Hk. simpl. rewrite lookup_insert. case_decide; [by eexists|].
      apply Hdom. set_solver. }
    destruct (IH (pre ++ bs) o1 Hnd Hdom1) as (o' & E & Hsame & Hh).
    exists o'. split_and!; [exact E| |].
    + intros k Hk. rewrite Hsame by set_solver. simpl. rewrite lookup_insert_ne; [done|]. set_solver.
    + constructor; [|done]. intros _. exists (PInt z). split; [|done].
      unfold values. rewrite Hsame by done. simpl. by rewrite lookup_insert_eq.
Qed.

Lemma tx_loop_spec objs chunks acc o :
  Forall2 chunk_of objs chunks → Forall2 (holds o) objs chunks →
  tx_loop objs acc o = (Ret (acc ++ mjoin (zip_with cleared objs chunks)), o).
Proof.
  intros Hc. revert acc.
  induction Hc as [|obj bs objs chunks [Hn Hf] _ IH]; intros acc Hh.
  { simpl. by rewrite app_nil_r. }
  apply Forall2_cons in Hh as [H1 Hh]. simpl tx_loop. simpl zip_with.
  assert (∀ x l, acc ++ mjoin (x :: l) = (acc ++ x) ++ mjoin l) as Hj
    by (intros; by rewrite <-app_assoc).
  rewrite Hj. unfold cleared at 1. destruct (unmapped obj) eqn:Hu.
  - rewrite lift_bind, Hn. unfold zeros. rewrite Nat2Z.id. by apply IH.
  - destruct (H1 Hu) as (v & Hv & Hd). destruct (Hf eq_refl) as [signed Hfmt].
    destruct (int_payload _ _ _ bs Hfmt eq_refl) as (z & Hz & _ & Henc).
    unfold mbind at 1, M_bind at 1. rewrite read_spec. unfold value_at, entry_at.
    fold (entry_key obj). unfold values in Hv. rewrite Hv. simpl of_option. cbn iota.
    rewrite Hz in Hd. simplify_eq. rewrite lift_bind, Hn, lift_bind, Henc. by apply IH.
Qed.

Lemma keys_present o ks :
  forallb (λ k, match entries o !! k with Some _ => true | None => false end) ks = true →
  ∀ k, k ∈ ks → is_Some (entries o !! k).
Proof.
  intros H k Hk. rewrite forallb_forall in H. specialize (H k).
  rewrite list_elem_of_In in Hk. specialize (H Hk). simpl in H.
  destruct (entries o !! k); [by eexists|done].
Qed.

(** ** Properties *)

(** C22. PDO round trip.  A payload of exactly the objects of the layout, written
    to the dictionary and packed again with the same layout, comes back with
    the bytes of its unmapped objects cleared; no address outside the layout
    changes, and no definition. *)
Theorem pdo_roundtrip conf objs chunks o :
  rx conf = objs → tx conf = objs →
  Forall2 chunk_of objs chunks → NoDup (mapped_keys objs) →
  (∀ k, k ∈ mapped_keys objs → is_Some (entries o !! k)) →
  ∃ o', rxpdo_payload_to_od conf (mjoin chunks) o = (Ret tt, o')
    ∧ od_to_txpdo_payload conf o' = (Ret (mjoin (zip_with cleared objs chunks)), o')
    ∧ (∀ k, k ∉ mapped_keys objs → entries o' !! k = entries o !! k)
    ∧ definition_map o' = definition_map o.
Proof.
  intros Hr Ht Hc Hnd Hdom.
  destruct (rx_loop_spec objs chunks [] [] o Hc Hnd Hdom) as (o' & E & Hsame & Hh).
  rewrite app_nil_r in E. simpl in E.
  exists o'. unfold rxpdo_payload_to_od, od_to_txpdo_payload. rewrite Hr, Ht.
  split_and!; [exact E|by rewrite (tx_loop_spec objs chunks [] o' Hc Hh)|done|].
  by eapply preserves_eq; [|exact E]; apply _.
Qed.

(** The RxPDO layout of the fixed configuration, cut into its objects. *)
Definition example_chunks : list (list byte) :=
  [[x0f; x00]; [x08]; [xd0; x8a; xff; xff]; [x64; x00; x00; x00]; [x00; x00; x00; x00];
   [x00; x00]; [x00; x00; x00; x00]; [x00; x00]; [xff]].

Lemma pdo_roundtrip_witness :
  let l := rx motion_server_default in
  Forall2 chunk_of l example_chunks ∧
  ∃ o', rxpdo_payload_to_od (PdoConf l l) (mjoin example_chunks) linear_od = (Ret tt, o')
    ∧ (od_to_txpdo_payload (PdoConf l l) o').1
      = Ret (take 23 (mjoin example_chunks) ++ [x00])
    ∧ values o' (inl 0x607A) = Some (PInt (-30000)).
Proof.
  intros l.
  assert (Forall2 chunk_of l example_chunks) as Hc.
  { repeat (constructor; [split; [vm_compute; reflexivity|
      first [discriminate | intros _; first [exists true; reflexivity | exists false; reflexivity]]]|]).
    constructor. }
  split; [exact Hc|].
  destruct (pdo_roundtrip (PdoConf l l) l example_chunks linear_od eq_refl eq_refl Hc)
    as (o' & E & T & _ & _).
  - apply (bool_decide_unpack (NoDup (mapped_keys l))). vm_compute. exact I.
  - apply keys_present. vm_compute. reflexivity.
  - exists o'. split; [exact E|]. rewrite T. split; [vm_compute; reflexivity|].
    replace o' with (rxpdo_payload_to_od (PdoConf l l) (mjoin example_chunks) linear_od).2
      by (by rewrite E).
    vm_compute. reflexivity.
Defined.

(** [wire obj n]: the object takes [n] bytes, of an integer type when it is
    mapped. *)
Definition wire (obj : ObjectDictionaryEntry) (n : nat) : Prop :=
  byte_length obj = Ret (Z.of_nat n)
  ∧ (unmapped obj = false →
     ∃ signed, assoc (normalize_od_data_type (Entry.data_type obj)) DATA_TYPE_FORMATS
               = Some (FmtInt signed n)).

Lemma length_slice {A} (l : list A) off n :
  0 ≤ off → off + Z.of_nat n ≤ Z.of_nat (length l) →
  length (slice off (off + Z.of_nat n) l) = n.
Proof.
  intros H0 H1. unfold slice, clamp. rewrite !(proj2 (Z.ltb_ge _ _)), !Z.min_l by lia.
  rewrite length_take, length_drop. lia.
Qed.

Lemma present_same o o' k :
  definition_map o' = definition_map o → is_Some (entries o !! k) → is_Some (entries o' !! k).
Proof.
  intros H [e He]. destruct (same_definition _ _ _ _ (eq_sym H) He) as (e' & ? & _). eauto.
Qed.

(** A payload shorter than the layout raises [ValueError]: the check precedes
    each object, so the shortage is found before anything is decoded from
    missing bytes, and no definition changes. *)
Theorem rxpdo_short_payload objs widths payload off o :
  Forall2 wire objs widths →
  (∀ k, k ∈ mapped_keys objs → is_Some (entries o !! k)) →
  0 ≤ off ≤ Z.of_nat (length payload) →
  Z.of_nat (length payload) < off + Z.of_nat (sum_list widths) →
  (rx_loop objs payload off o).1 = Raise ValueError.
Proof.
  intros Hw. revert off o. unfold mapped_keys.
  induction Hw as [|obj n objs ns [Hn Hf] _ IH]; intros off o Hdom H0 Hl; simpl in Hl; [lia|].
  simpl rx_loop. rewrite lift_bind, Hn.
  destruct (Z.ltb_spec (Z.of_nat (length payload)) (off + Z.of_nat n)); [done|].
  rewrite filter_cons in Hdom. destruct (unmapped obj) eqn:Hu.
  { rewrite decide_False in Hdom by done. rewrite bind_ret_l. apply IH; [done|lia..]. }
  rewrite decide_True in Hdom by done. simpl in Hdom.
  destruct (Hf eq_refl) as [signed Hfmt].
  destruct (int_payload _ _ _ (slice off (off + Z.of_nat n) payload) Hfmt) as (z & Hz & _ & _);
    [apply length_slice; lia|].
  destruct (Hdom (entry_key obj)) as [e He]; [set_solver|].
  unfold mbind at 1, M_bind at 1. rewrite lift_bind, Hz, write_spec.
  fold (entry_key obj). rewrite He. apply IH; [|lia..].
  intros k Hk. simpl. rewrite lookup_insert. case_decide; [by eexists|].
  apply Hdom. set_solver.
Qed.

Lemma rxpdo_short_payload_witness :
  (rxpdo_payload_to_od motion_server_default (replicate 23 x00) linear_od).1 = Raise ValueError.
Proof.
  apply (rxpdo_short_payload _ [2; 1; 4; 4; 4; 2; 4; 2; 1]%nat).
  - repeat (constructor; [split; [vm_compute; reflexivity|
      first [discriminate | intros _; first [exists true; reflexivity | exists false; reflexivity]]]|]).
    constructor.
  - apply keys_present. vm_compute. reflexivity.
  - simpl. lia.
  - simpl. lia.
Defined.

(** SDO access.  A missing object is reported as such, whatever the
    direction; a read-only object (in any letter case) rejects every write
    and stays as it is; reading encodes the stored value with the data type
    of the object; an accepted write stores the decoded value, and a payload
    that does not decode leaves the dictionary as it is. *)
Theorem sdo_access i s o :
  match entry_at o i (Some s) with
  | None =>
      (∀ n, read_sdo i s n o = (Raise SdoObjectNotFoundException, o))
      ∧ (∀ p, write_sdo i s p o = (Raise SdoObjectNotFoundException, o))
  | Some e =>
      (∀ n, read_sdo i s n o
            = (encode_od_value (Def.data_type (definition e)) (value e) (Some n), o))
      ∧ (∀ p, Text.lower (Def.access (definition e)) = "ro" →
              write_sdo i s p o = (Raise DeviceRejectedException, o))
      ∧ (∀ p, Text.lower (Def.access (definition e)) ≠ "ro" →
              match decode_od_value (Def.data_type (definition e)) p with
              | Raise x => write_sdo i s p o = (Raise x, o)
              | Ret v => (write_sdo i s p o).1 = Ret tt
                         ∧ value_at (write_sdo i s p o).2 i (Some s) = Some v
              end)
  end.
Proof.
  unfold entry_at. destruct (entries o !! _storage_key i (Some s)) as [e|] eqn:He.
  - assert (_definition i s o = (Ret (definition e), o)) as Hd.
    { unfold _definition, try_except, get_definition. rewrite bind_gets, He. done. }
    split_and!.
    + intros n. unfold read_sdo. rewrite (bind_eq_ret _ _ _ _ _ Hd).
      unfold mbind, M_bind. rewrite read_spec. unfold value_at, entry_at. by rewrite He.
    + intros p Hro. unfold write_sdo. rewrite (bind_eq_ret _ _ _ _ _ Hd). by rewrite Hro.
    + intros p Hro. unfold write_sdo. rewrite (bind_eq_ret _ _ _ _ _ Hd).
      destruct (String.eqb_spec (Text.lower (Def.access (definition e))) "ro"); [done|].
      rewrite lift_bind. destruct (decode_od_value _ p); [|done].
      rewrite write_spec, He. split; [done|]. unfold value_at, entry_at. simpl.
      by rewrite lookup_insert_eq.
  - assert (_definition i s o = (Raise SdoObjectNotFoundException, o)) as Hd.
    { unfold _definition, try_except, get_definition. rewrite bind_gets, He. done. }
    split; intros x; [unfold read_sdo|unfold write_sdo]; by rewrite (bind_eq_raise _ _ _ _ _ Hd).
Qed.
