(* ===== verification/StateMachine.v ===== *)
(** * The CiA 402 state machine of the internal drive model

    src/functional_model/cia402_drive/behaviour_model/f_kr_cmmt/state_machine.py:
    the enumeration [CiA402State], [CiA402StateMachine.process] and
    [get_statusword].  [process_word] is the body of [process] after the
    [int(controlword)] conversion.

    [decode] and [next] are the closed form of the nested tests, for the proofs;
    they are no specification.  The specification is the Module [Standard]: the
    states, the control word patterns, the numbered transitions and the status
    word patterns of CiA 402, written without the program.

    The theorems relate [process] to that standard, with its deviations named:
    every transition taken is one of the standard, except that Fault is left
    by an empty control word; every transition commanded is taken, except that
    Quick stop and the Disable voltage words with bit 0 or 2 set are ignored.
    The drive is enabled only after Shutdown, Switch on and Enable operation
    were received in that order, and the status words tell the states apart. *)

From S2P Require Import Prelude PyFloat PyValue.

Inductive CiA402State :=
  | SWITCH_ON_DISABLED
  | READY_TO_SWITCH_ON
  | SWITCHED_ON
  | OPERATION_ENABLED
  | FAULT.

#[export] Instance CiA402State_eq_dec : EqDecision CiA402State.
Proof. solve_decision. Defined.

Module CiA402StateMachine.

Record t := Machine { state : CiA402State }.

#[export] Instance eta_t : Eta t := λ x, Machine (state x).

Definition init : t := Machine SWITCH_ON_DISABLED.

(** The tests of [process], in their order, early returns included. *)
Definition process_word (controlword : Z) (s : CiA402State) : CiA402State :=
  if negb (Z.land controlword 0x0080 =? 0) then
    if bool_decide (s = FAULT) then SWITCH_ON_DISABLED else s
  else if Z.land controlword 0x0087 =? 0x0000 then SWITCH_ON_DISABLED
  else
    match s with
    | SWITCH_ON_DISABLED =>
        if Z.land controlword 0x0087 =? 0x0006 then READY_TO_SWITCH_ON else s
    | READY_TO_SWITCH_ON =>
        if Z.land controlword 0x008F =? 0x0007 then SWITCHED_ON
        else if Z.land controlword 0x0087 =? 0x0000 then SWITCH_ON_DISABLED
        else s
    | SWITCHED_ON =>
        if Z.land controlword 0x008F =? 0x000F then OPERATION_ENABLED
        else if Z.land controlword 0x0087 =? 0x0006 then READY_TO_SWITCH_ON
        else if Z.land controlword 0x0087 =? 0x0000 then SWITCH_ON_DISABLED
        else s
    | OPERATION_ENABLED =>
        if Z.land controlword 0x008F =? 0x0007 then SWITCHED_ON
        else if Z.land controlword 0x0087 =? 0x0006 then READY_TO_SWITCH_ON
        else if Z.land controlword 0x0087 =? 0x0000 then SWITCH_ON_DISABLED
        else s
    | FAULT =>
        if negb (Z.land controlword 0x0080 =? 0) then SWITCH_ON_DISABLED else s
    end.

Definition process (controlword : pyval) : M t () :=
  cw ← lift (py_int controlword);
  modify (λ m, m <| state := process_word cw (state m) |>).

Definition get_statusword (m : t) : Z :=
  match state m with
  | SWITCH_ON_DISABLED => 0x0040
  | READY_TO_SWITCH_ON => 0x0021
  | SWITCHED_ON => 0x0023
  | OPERATION_ENABLED => 0x0027
  | FAULT => 0x0008
  end.

(** ** The closed form of the nested tests *)

Inductive command :=
  | FaultReset
  | DisableVoltage
  | Shutdown
  | SwitchOn
  | EnableOperation
  | OtherCommand.

#[export] Instance command_eq_dec : EqDecision command.
Proof. solve_decision. Defined.

(** Bits 7, 3, 2, 1, 0 of the control word decide what [process_word] does. *)
Definition decode (cw : Z) : command :=
  match Z.testbit cw 7, Z.testbit cw 3, Z.testbit cw 2, Z.testbit cw 1, Z.testbit cw 0 with
  | true, _, _, _, _ => FaultReset
  | false, _, false, false, false => DisableVoltage
  | false, _, true, true, false => Shutdown
  | false, false, true, true, true => SwitchOn
  | false, true, true, true, true => EnableOperation
  | _, _, _, _, _ => OtherCommand
  end.

Definition next (c : command) (s : CiA402State) : CiA402State :=
  match c, s with
  | FaultReset, FAULT => SWITCH_ON_DISABLED
  | DisableVoltage, _ => SWITCH_ON_DISABLED
  | Shutdown, (SWITCH_ON_DISABLED | SWITCHED_ON | OPERATION_ENABLED) => READY_TO_SWITCH_ON
  | SwitchOn, (READY_TO_SWITCH_ON | OPERATION_ENABLED) => SWITCHED_ON
  | EnableOperation, SWITCHED_ON => OPERATION_ENABLED
  | _, _ => s
  end.

(** One cycle of the machine, and a run over a list of control words. *)
Definition run (words : list Z) (s : CiA402State) : CiA402State :=
  foldl (λ s cw, process_word cw s) s words.

Inductive step : CiA402State → CiA402State → Prop :=
  | step_word cw s : step s (process_word cw s).

Definition reachable (s : CiA402State) : Prop := rtc step SWITCH_ON_DISABLED s.

(** The state a status word reports, from the mask 0x6f of CiA 402. *)
Definition state_of_status (sw : Z) : option CiA402State :=
  match Z.land sw 0x6f with
  | 0x40 => Some SWITCH_ON_DISABLED
  | 0x21 => Some READY_TO_SWITCH_ON
  | 0x23 => Some SWITCHED_ON
  | 0x27 => Some OPERATION_ENABLED
  | 0x08 => Some FAULT
  | _ => None
  end.

(** Both the program and its closed form look at the low byte only. *)
Lemma process_word_low cw s : process_word cw s = process_word (cw mod 256) s.
Proof.
  unfold process_word. change 256 with (2 ^ 8).
  by rewrite !(land_mod_pow2 cw _ 8) by lia.
Qed.

Lemma decode_low cw : decode cw = decode (cw mod 256).
Proof.
  unfold decode. change 256 with (2 ^ 8).
  by rewrite !(testbit_mod_pow2 cw _ 8) by lia.
Qed.

(** A property of the low byte of a control word, by enumeration. *)
Lemma by_low_byte (P : Z → bool) (cw : Z) :
  forallb P (seqZ 0 256) = true → P (cw mod 256) = true.
Proof. intros H. apply (forall_residues 256 P H). apply Z.mod_pos_bound. lia. Qed.

Lemma process_next cw s : process_word cw s = next (decode cw) s.
Proof.
  rewrite process_word_low, decode_low.
  eapply bool_decide_eq_true_1.
  refine (by_low_byte (λ w, bool_decide (process_word w s = next (decode w) s)) cw _).
  destruct s; vm_compute; reflexivity.
Qed.

Lemma run_snoc ws w s : run (ws ++ [w]) s = process_word w (run ws s).
Proof. unfold run. by rewrite foldl_snoc. Qed.

(** The last word that led into a state other than the rest state. *)
Lemma next_enabled c s : next c s = OPERATION_ENABLED → s ≠ OPERATION_ENABLED →
  c = EnableOperation ∧ s = SWITCHED_ON.
Proof. by destruct c, s. Qed.

Lemma next_switched_on c s : next c s = SWITCHED_ON → s ≠ SWITCHED_ON →
  c = SwitchOn ∧ (s = READY_TO_SWITCH_ON ∨ s = OPERATION_ENABLED).
Proof. destruct c, s; naive_solver. Qed.

Lemma next_ready c s : next c s = READY_TO_SWITCH_ON → s ≠ READY_TO_SWITCH_ON →
  c = Shutdown.
Proof. by destruct c, s. Qed.

(** [occurs cs words]: the commands [cs] occur in [words], in this order. *)
Inductive occurs : list command → list Z → Prop :=
  | occurs_nil ws : occurs [] ws
  | occurs_here c cs w ws : decode w = c → occurs cs ws → occurs (c :: cs) (w :: ws)
  | occurs_later c cs w ws : occurs (c :: cs) ws → occurs (c :: cs) (w :: ws).

#[local] Hint Constructors occurs : core.

Lemma occurs_snoc cs ws w : occurs cs ws → occurs cs (ws ++ [w]).
Proof. induction 1; simpl; eauto. Qed.

Lemma occurs_snoc_here cs ws c w : occurs cs ws → decode w = c → occurs (cs ++ [c]) (ws ++ [w]).
Proof.
  intros H Hw. induction H as [ws| |]; simpl; eauto.
  induction ws; simpl; eauto.
Qed.

(** The commands a state has seen since the rest state. *)
Definition history (s : CiA402State) : list command :=
  match s with
  | SWITCH_ON_DISABLED | FAULT => []
  | READY_TO_SWITCH_ON => [Shutdown]
  | SWITCHED_ON => [Shutdown; SwitchOn]
  | OPERATION_ENABLED => [Shutdown; SwitchOn; EnableOperation]
  end.

Lemma occurs_prefix cs c ws : occurs (cs ++ [c]) ws → occurs cs ws.
Proof.
  revert cs. induction ws as [|w ws IH]; intros cs H.
  - destruct cs; inversion H; eauto.
  - destruct cs as [|c' cs]; [done|]. simpl in H.
    inversion H; subst; [apply occurs_here|apply occurs_later]; eauto.
Qed.

Lemma history_next c s ws w :
  decode w = c → occurs (history s) ws → occurs (history (next c s)) (ws ++ [w]).
Proof.
  intros Hw H. pose proof (occurs_snoc _ _ w H) as H'.
  pose proof (occurs_snoc_here _ _ c w H Hw) as Hc.
  assert (∀ c1 c2, occurs [c1; c2] (ws ++ [w]) → occurs [c1] (ws ++ [w])) as H1.
  { intros c1 c2. apply (occurs_prefix [c1] c2). }
  assert (∀ c1 c2 c3, occurs [c1; c2; c3] (ws ++ [w]) → occurs [c1; c2] (ws ++ [w])) as H2.
  { intros c1 c2 c3. apply (occurs_prefix [c1; c2] c3). }
  destruct c, s; simpl in *; eauto.
Qed.

Lemma run_history ws : occurs (history (run ws SWITCH_ON_DISABLED)) ws.
Proof.
  induction ws as [|w ws IH] using rev_ind; [constructor|].
  rewrite run_snoc, process_next. by apply history_next.
Qed.

(** ** The standard *)

(** The power drive system of CiA 402: its states, the commands of the control
    word and the transitions a command takes, by their numbers.  The automatic
    transitions 0, 1, 13 and 14 answer to no command.  The time a reset is
    given, the rising edge of bit 7, is left to the sender. *)
Module Standard.

Inductive pds :=
  | NotReadyToSwitchOn
  | SwitchOnDisabled
  | ReadyToSwitchOn
  | SwitchedOn
  | OperationEnabled
  | QuickStopActive
  | FaultReactionActive
  | Fault.

#[global] Instance pds_eq_dec : EqDecision pds.
Proof. solve_decision. Defined.

Inductive pds_command :=
  | Shutdown
  | SwitchOn
  | DisableOperation
  | EnableOperation
  | DisableVoltage
  | QuickStop
  | FaultReset.

#[global] Instance pds_command_eq_dec : EqDecision pds_command.
Proof. solve_decision. Defined.

Definition pds_states : list pds :=
  [NotReadyToSwitchOn; SwitchOnDisabled; ReadyToSwitchOn; SwitchedOn; OperationEnabled;
   QuickStopActive; FaultReactionActive; Fault].

Definition pds_commands : list pds_command :=
  [Shutdown; SwitchOn; DisableOperation; EnableOperation; DisableVoltage; QuickStop; FaultReset].

(** The control word patterns, a mask and the value under it; Switch on and
    Disable operation share one.  The same patterns are the
    [EC_DS402_CONTROLWORD_COMMAND_*] constants of the vendor's
    EthernetServices.h under src/third_party. *)
Definition command_pattern (c : pds_command) : Z * Z :=
  match c with
  | Shutdown => (0x87, 0x06)
  | SwitchOn | DisableOperation => (0x8F, 0x07)
  | EnableOperation => (0x8F, 0x0F)
  | DisableVoltage => (0x82, 0x00)
  | QuickStop => (0x86, 0x02)
  | FaultReset => (0x80, 0x80)
  end.

Definition commanded (c : pds_command) (cw : Z) : bool :=
  Z.land cw (command_pattern c).1 =? (command_pattern c).2.

Inductive transition : pds → pds_command → pds → Prop :=
  | transition_2 : transition SwitchOnDisabled Shutdown ReadyToSwitchOn
  | transition_3 : transition ReadyToSwitchOn SwitchOn SwitchedOn
  | transition_4 : transition SwitchedOn EnableOperation OperationEnabled
  | transition_5 : transition OperationEnabled DisableOperation SwitchedOn
  | transition_6 : transition SwitchedOn Shutdown ReadyToSwitchOn
  | transition_7 : transition ReadyToSwitchOn DisableVoltage SwitchOnDisabled
  | transition_7_quick : transition ReadyToSwitchOn QuickStop SwitchOnDisabled
  | transition_8 : transition OperationEnabled Shutdown ReadyToSwitchOn
  | transition_9 : transition OperationEnabled DisableVoltage SwitchOnDisabled
  | transition_10 : transition SwitchedOn DisableVoltage SwitchOnDisabled
  | transition_10_quick : transition SwitchedOn QuickStop SwitchOnDisabled
  | transition_11 : transition OperationEnabled QuickStop QuickStopActive
  | transition_12 : transition QuickStopActive DisableVoltage SwitchOnDisabled
  | transition_15 : transition Fault FaultReset SwitchOnDisabled
  | transition_16 : transition QuickStopActive EnableOperation OperationEnabled.

(** The status word patterns: a mask and the value under it. *)
Definition status_pattern (p : pds) : Z * Z :=
  match p with
  | NotReadyToSwitchOn => (0x4F, 0x00)
  | SwitchOnDisabled => (0x4F, 0x40)
  | ReadyToSwitchOn => (0x6F, 0x21)
  | SwitchedOn => (0x6F, 0x23)
  | OperationEnabled => (0x6F, 0x27)
  | QuickStopActive => (0x6F, 0x07)
  | FaultReactionActive => (0x4F, 0x0F)
  | Fault => (0x4F, 0x08)
  end.

Definition reports (sw : Z) (p : pds) : Prop :=
  Z.land sw (status_pattern p).1 = (status_pattern p).2.

#[global] Instance transition_dec p c p' : Decision (transition p c p').
Proof.
  destruct p, c;
    solve [ right; inversion 1
          | destruct (decide (p' = SwitchOnDisabled)) as [->|];
              [left; constructor|right; inversion 1; done]
          | destruct (decide (p' = ReadyToSwitchOn)) as [->|];
              [left; constructor|right; inversion 1; done]
          | destruct (decide (p' = SwitchedOn)) as [->|];
              [left; constructor|right; inversion 1; done]
          | destruct (decide (p' = OperationEnabled)) as [->|];
              [left; constructor|right; inversion 1; done]
          | destruct (decide (p' = QuickStopActive)) as [->|];
              [left; constructor|right; inversion 1; done] ].
Defined.

Lemma commanded_low c cw : commanded c cw = commanded c (cw mod 256).
Proof.
  unfold commanded. change 256 with (2 ^ 8).
  by destruct c; cbn [command_pattern fst snd]; rewrite !(land_mod_pow2 cw _ 8) by lia.
Qed.

Lemma elem_of_commands c : c ∈ pds_commands.
Proof. destruct c; unfold pds_commands; set_solver. Qed.

Lemma elem_of_states p : p ∈ pds_states.
Proof. destruct p; unfold pds_states; set_solver. Qed.
End Standard.

(** The states of the machine are five of the eight. *)
Definition pds_of (s : CiA402State) : Standard.pds :=
  match s with
  | SWITCH_ON_DISABLED => Standard.SwitchOnDisabled
  | READY_TO_SWITCH_ON => Standard.ReadyToSwitchOn
  | SWITCHED_ON => Standard.SwitchedOn
  | OPERATION_ENABLED => Standard.OperationEnabled
  | FAULT => Standard.Fault
  end.

(** The words of the standard that the machine ignores: it has no Quick stop, and
    it takes Disable voltage only with the bits 0 to 2 released. *)
Definition ignored (c : Standard.pds_command) (cw : Z) : bool :=
  match c with
  | Standard.QuickStop => true
  | Standard.DisableVoltage => Z.testbit cw 2 || Z.testbit cw 0
  | _ => false
  end.

(** [sound_turn cw s s']: what the machine does is a transition commanded, or it
    stays, or it leaves Fault on an empty word. *)
Definition sound_turn (cw : Z) (s s' : CiA402State) : Prop :=
  s' = s
  ∨ (∃ c, Standard.commanded c cw = true ∧ Standard.transition (pds_of s) c (pds_of s'))
  ∨ (s = FAULT ∧ Z.land cw 0x87 = 0 ∧ s' = SWITCH_ON_DISABLED).

(** [complete_turn cw s s']: a transition commanded is taken, or its word is one of
    those ignored and the machine stays. *)
Definition complete_turn (cw : Z) (s s' : CiA402State) : Prop :=
  ∀ c p, Standard.commanded c cw = true → Standard.transition (pds_of s) c p →
    if ignored c cw then s' = s else pds_of s' = p.

Definition sound_turn_b (w : Z) (s : CiA402State) : bool :=
  let s' := process_word w s in
  bool_decide (s' = s)
  || existsb (λ c, Standard.commanded c w
                   && bool_decide (Standard.transition (pds_of s) c (pds_of s'))) Standard.pds_commands
  || bool_decide (s = FAULT) && (Z.land w 0x87 =? 0) && bool_decide (s' = SWITCH_ON_DISABLED).

Definition complete_turn_b (w : Z) (s : CiA402State) : bool :=
  let s' := process_word w s in
  forallb (λ c, forallb (λ p,
    implb (Standard.commanded c w && bool_decide (Standard.transition (pds_of s) c p))
      (if ignored c w then bool_decide (s' = s) else bool_decide (pds_of s' = p)))
    Standard.pds_states) Standard.pds_commands.

Lemma ignored_low c cw : ignored c cw = ignored c (cw mod 256).
Proof.
  unfold ignored. change 256 with (2 ^ 8).
  by destruct c; rewrite ?(testbit_mod_pow2 cw _ 8) by lia.
Qed.

Lemma process_word_sound cw s : sound_turn cw s (process_word cw s).
Proof.
  assert (sound_turn_b (cw mod 256) s = true) as Hb.
  { refine (by_low_byte (λ w, sound_turn_b w s) cw _). destruct s; vm_compute; reflexivity. }
  unfold sound_turn_b in Hb. rewrite <- process_word_low in Hb. cbv zeta in Hb.
  rewrite !orb_true_iff, !andb_true_iff, existsb_exists in Hb.
  destruct Hb as [[H|(c & _ & H)]|[[H1 H2] H3]].
  - left. by apply bool_decide_eq_true in H.
  - apply andb_true_iff in H as [Hc Ht]. apply bool_decide_eq_true in Ht.
    right; left. exists c. by rewrite Standard.commanded_low.
  - right; right. apply bool_decide_eq_true in H1, H3. apply Z.eqb_eq in H2.
    split_and!; [done| |done]. change 256 with (2 ^ 8) in H2.
    by rewrite <- (land_mod_pow2 cw _ 8) in H2 by lia.
Qed.

Lemma process_word_complete cw s : complete_turn cw s (process_word cw s).
Proof.
  assert (complete_turn_b (cw mod 256) s = true) as Hb.
  { refine (by_low_byte (λ w, complete_turn_b w s) cw _). destruct s; vm_compute; reflexivity. }
  intros c p Hc Ht. unfold complete_turn_b in Hb. rewrite <- process_word_low in Hb. cbv zeta in Hb.
  rewrite forallb_forall in Hb. specialize (Hb c).
  rewrite <- list_elem_of_In in Hb. specialize (Hb (Standard.elem_of_commands c)).
  rewrite forallb_forall in Hb. specialize (Hb p).
  rewrite <- list_elem_of_In in Hb. specialize (Hb (Standard.elem_of_states p)).
  rewrite <- Standard.commanded_low, <- ignored_low, Hc, bool_decide_true in Hb by done.
  cbn [andb implb] in Hb. destruct (ignored c cw); by apply bool_decide_eq_true in Hb.
Qed.

(** The status word reports the state of the standard and no other. *)
Lemma statusword_standard m p :
  Standard.reports (get_statusword m) p ↔ p = pds_of (state m).
Proof.
  unfold Standard.reports. destruct m as [[]], p; vm_compute; split; congruence.
Qed.

(** ** Properties *)



(** C1. From power-on the drive is operation enabled only after Shutdown,
    Switch on and Enable operation were received, in this order. *)
Theorem enabled_requires_sequence ws :
  run ws SWITCH_ON_DISABLED = OPERATION_ENABLED →
  occurs [Shutdown; SwitchOn; EnableOperation] ws.
Proof. intros H. pose proof (run_history ws) as Ho. by rewrite H in Ho. Qed.

Lemma enabled_requires_sequence_witness :
  run [0x06; 0x07; 0x0F] SWITCH_ON_DISABLED = OPERATION_ENABLED
  ∧ occurs [Shutdown; SwitchOn; EnableOperation] [0x06; 0x07; 0x0F].
Proof.
  assert (run [0x06; 0x07; 0x0F] SWITCH_ON_DISABLED = OPERATION_ENABLED) as H
    by (vm_compute; reflexivity).
  split; [exact H|exact (enabled_requires_sequence _ H)].
Defined.

(** The machine never enters [FAULT]: its reset branches are dead code. *)
Theorem fault_unreachable s : reachable s → s ≠ FAULT.
Proof.
  unfold reachable. revert s.
  refine (rtc_ind_r (λ s, s ≠ FAULT) SWITCH_ON_DISABLED _ _); [done|].
  intros y z _ Hyz Hy. inversion Hyz; subst. rewrite process_next.
  destruct (decode cw), y; done.
Qed.

Lemma fault_unreachable_witness : reachable SWITCHED_ON ∧ SWITCHED_ON ≠ FAULT.
Proof.
  assert (reachable SWITCHED_ON) as H.
  { eapply rtc_l; [exact (step_word 0x06 _)|].
    eapply rtc_l; [exact (step_word 0x07 _)|]. apply rtc_refl. }
  split; [exact H|exact (fault_unreachable _ H)].
Defined.

(** The status word reports the state: masking bits 0-3, 5, 6 of it tells
    the five states apart, whatever the flags in bits 7 and above are. *)
Theorem statusword_reports_state m flags :
  state_of_status (Z.lor (get_statusword m) (Z.shiftl flags 7)) = Some (state m).
Proof.
  unfold state_of_status.
  rewrite (Z.land_lor_distr_l _ _ 0x6f).
  replace (Z.land (Z.shiftl flags 7) 0x6f) with 0.
  - rewrite Z.lor_0_r. by destruct m as [[]].
  - symmetry. apply Z.bits_inj'. intros i Hi. rewrite Z.land_spec, Z.bits_0.
    destruct (Z.lt_ge_cases i 7).
    + by rewrite Z.shiftl_spec_low.
    + change 0x6f with (0x6f mod 2 ^ 7). rewrite Z.mod_pow2_bits_high by lia.
      apply andb_false_r.
Qed.
End CiA402StateMachine.
