(* ===== verification/Servo.v ===== *)
(** * The drive behaviour model

    src/functional_model/cia402_drive/behaviour_model/f_kr_cmmt/servo_model.py
    ([VirtualCiA402Servo]), the whole class: command pick-up from the
    dictionary, the CiA 402 cycle and the modes of operation.

    [servo] is the object: its attributes, with the dictionary [od_] and the
    state machine [sm] as components.  A method is a program in [M servo];
    an attribute that the code assigns both integers and floats is a [pyval],
    one that only ever holds floats a [float].  An exception leaves the
    attributes assigned so far. *)

From S2P Require Import Prelude PyFloat.
From S2P Require Export Bridge StateMachine.

Open Scope string_scope.
Open Scope list_scope.
Open Scope Z_scope.

Record servo := Servo {
  cycle_time : float;
  device_profile : profile;
  od_ : od;
  sm : CiA402StateMachine.t;
  actual_position : pyval;
  actual_velocity : float;
  kp : float;
  target_reached : bool;
  window_counter : Z;
  previous_controlword : pyval;
  pp_active : bool;
  pp_target_position : pyval;
  pp_setpoint_ack : bool;
  halt_active : bool;
  homing_active : bool;
  homing_counter : Z;
  homing_referenced : bool;
  homing_error : bool;
  software_limit_warning : bool;
  position_target_rejected : bool;
  _last_mode_command : Z;
  _last_target_position_command : pyval;
  _last_device_reset_command : Z;
  _last_parameter_save_command : Z;
}.

#[export] Instance servo_eta : Eta servo := λ s,
  Servo (cycle_time s) (device_profile s) (od_ s) (sm s) (actual_position s)
    (actual_velocity s) (kp s) (target_reached s) (window_counter s)
    (previous_controlword s) (pp_active s) (pp_target_position s) (pp_setpoint_ack s)
    (halt_active s) (homing_active s) (homing_counter s) (homing_referenced s)
    (homing_error s) (software_limit_warning s) (position_target_rejected s)
    (_last_mode_command s) (_last_target_position_command s)
    (_last_device_reset_command s) (_last_parameter_save_command s).

(** ** Access to the components *)

(** A call on [self.od] and on [self.sm]. *)
Definition on_od {A} (m : M od A) : M servo A := zoom od_ (λ o s, s <| od_ := o |>) m.
Definition on_sm {A} (m : M CiA402StateMachine.t A) : M servo A :=
  zoom sm (λ x s, s <| sm := x |>) m.

Definition rd (i : Z) : M servo pyval := on_od (read i None).
Definition rd_sub (i s : Z) : M servo pyval := on_od (read i (Some s)).
Definition wr (i : Z) (v : pyval) : M servo () := on_od (write i v None).
Definition wr_sub (i : Z) (v : pyval) (s : Z) : M servo () := on_od (write i v (Some s)).

(** [int(self.od.read_role(role))] *)
Definition int_role (r : string) : M servo Z := v ← on_od (read_role r); lift (py_int v).

(** [float(self.od.read(i))] and [abs] of it *)
Definition float_rd (i : Z) : M servo float := v ← rd i; lift (py_float v).
Definition abs_rd (i : Z) : M servo float := x ← float_rd i; mret (f_abs x).

(** [bool(word & (1 << n))] *)
Definition bit (word : pyval) (n : Z) : M servo bool :=
  b ← lift (py_and word (Z.shiftl 1 n)); mret (negb (b =? 0)).

Definition operation_enabled : M servo bool :=
  gets (λ s, CiA402StateMachine.get_statusword (sm s) =? 0x0027).

(** Float literals of the code. *)
Definition f_1e_9 : float := f_dec 1 (-9).
Definition f_1e_12 : float := f_dec 1 (-12).
Definition f_1000 : float := f_of_Z 1000.
Definition f_minus_one : float := f_opp f_one.

(** ** Scaling *)

Definition _scale_from_exponent (exponent : pyval) : outcome float :=
  e ← py_int exponent;
  mret (if 0 <? e then f_pow10 (- e) else f_pow10 e).

Definition _unit_scale (subindex : Z) : M servo float :=
  try_except (e ← rd_sub 0x2194 subindex; lift (_scale_from_exponent e))
    (λ _, mret f_one).

Definition _position_scale : M servo float := u ← _unit_scale 0x01; mret (f_max u f_1e_12).
Definition _velocity_scale : M servo float := u ← _unit_scale 0x02; mret (f_max u f_1e_12).
Definition _acceleration_scale : M servo float := u ← _unit_scale 0x03; mret (f_max u f_1e_12).

Definition _velocity_to_position_rate (velocity : float) : M servo float :=
  v ← _velocity_scale; p ← _position_scale; lift (py_div (f_mul velocity v) p).

Definition _position_rate_to_velocity (position_rate : float) : M servo float :=
  p ← _position_scale; v ← _velocity_scale; lift (py_div (f_mul position_rate p) v).

Definition _acceleration_to_position_rate (acceleration : float) : M servo float :=
  a ← _acceleration_scale; p ← _position_scale; lift (py_div (f_mul acceleration a) p).

Definition _acceleration_to_velocity_delta (acceleration dt : float) : M servo float :=
  a ← _acceleration_scale; v ← _velocity_scale;
  q ← lift (py_div (f_mul acceleration a) v); mret (f_mul q dt).

(** ** Feedback, limits and predicates *)

Definition _write_actual_feedback : M servo () :=
  p ← gets actual_position; wr 0x6064 p ;;
  v ← gets actual_velocity; wr 0x606C (PFloat v).

(** [self.actual_position += rate(self.actual_velocity) * self.cycle_time] *)
Definition advance_position : M servo () :=
  v ← gets actual_velocity; dt ← gets cycle_time;
  r ← _velocity_to_position_rate v;
  p ← gets actual_position;
  p ← lift (py_add p (PFloat (f_mul r dt)));
  actual_position <~ p.

Definition _move_towards (current target max_delta : float) : float :=
  if f_le max_delta f_zero then current
  else
    let delta := f_sub target current in
    if f_le (f_abs delta) max_delta then target
    else f_add current (f_mul max_delta (if f_lt f_zero delta then f_one else f_minus_one)).

Definition _software_position_limits : M servo (float * float) :=
  n ← rd_sub 0x607D 1; n ← lift (py_float n);
  p ← rd_sub 0x607D 2; p ← lift (py_float p);
  mret (if f_lt p n then (p, n) else (n, p)).

Definition _position_target_is_within_software_limits (position : pyval) : M servo bool :=
  l ← _software_position_limits;
  x ← lift (py_float position);
  mret (f_le l.1 x && f_le x l.2).

Definition _actual_position_exceeds_software_limits : M servo bool :=
  l ← _software_position_limits;
  p ← gets actual_position;
  below ← lift (py_lt p (PFloat l.1));
  if below : bool then mret true else lift (py_lt (PFloat l.2) p).

Definition _software_limit_is_active : M servo bool :=
  w ← gets software_limit_warning;
  if w : bool then mret true else _actual_position_exceeds_software_limits.

Definition _is_moving (s : servo) : bool :=
  f_lt f_1e_9 (f_abs (actual_velocity s)) || pp_active s || homing_active s.

Definition _position_command_requires_reference : M servo bool :=
  m ← rd 0x6060; m ← lift (py_int m); mret ((m =? 1) || (m =? 8)).

Definition is_in_position : M servo bool :=
  target ← rd 0x607A; actual ← rd 0x6064; window ← rd 0x6067;
  d ← lift (py_sub target actual); d ← lift (py_abs d);
  lift (py_le d window).

(** [max(1, int(window_time_ms / (self.cycle_time * 1000)))] *)
Definition required_count (window_time_ms : pyval) (dt : float) : outcome Z :=
  w ← py_operand window_time_ms;
  q ← py_div w (f_mul dt f_1000);
  n ← int_of_float q;
  mret (Z.max 1 n).

Definition update_target_reached : M servo () :=
  inside ← is_in_position;
  (if inside : bool then modify (λ s, s <| window_counter := window_counter s + 1 |>)
   else window_counter <~ 0 ;; target_reached <~ false) ;;
  window_time_ms ← rd 0x6068;
  dt ← gets cycle_time;
  required ← lift (required_count window_time_ms dt);
  n ← gets window_counter;
  when (required <=? n) (target_reached <~ true).

Definition stop_at_current_position : M servo () :=
  actual_velocity <~ f_zero ;;
  pp_active <~ false ;;
  modify (λ s, s <| pp_target_position := actual_position s |>) ;;
  p ← gets actual_position; wr 0x607A p ;;
  modify (λ s, s <| _last_target_position_command := actual_position s |>) ;;
  p ← gets actual_position; wr 0x6064 p ;;
  v ← gets actual_velocity; wr 0x606C (PFloat v) ;;
  window_counter <~ 0 ;;
  target_reached <~ true.

Definition _decelerate_to_stop : M servo () :=
  decel ← abs_rd 0x6084;
  v ← gets actual_velocity; dt ← gets cycle_time;
  d ← _acceleration_to_velocity_delta decel dt;
  actual_velocity <~ _move_towards v f_zero d ;;
  advance_position.

(** ** Commands *)

Definition set_mode (mode : Z) (previous_mode : option Z) : M servo () :=
  current_mode ← match previous_mode with
    | None => v ← rd 0x6060; lift (py_int v)
    | Some m => mret m
    end;
  when (negb (mode =? current_mode))
    (stop_at_current_position ;;
     when (negb (mode =? 6)) (homing_active <~ false ;; homing_error <~ false)) ;;
  wr 0x6060 (PInt mode) ;;
  wr 0x6061 (PInt mode) ;;
  _last_mode_command <~ mode.

Definition set_target_position (position : pyval) (previous_target : option pyval)
    : M servo () :=
  requires ← _position_command_requires_reference;
  referenced ← gets homing_referenced;
  if requires && negb referenced then
    match previous_target with
    | Some t => wr 0x607A t ;; _last_target_position_command <~ t
    | None => mret tt
    end
  else
    within ← _position_target_is_within_software_limits position;
    if negb within then
      software_limit_warning <~ true ;;
      position_target_rejected <~ true ;;
      stop_at_current_position ;;
      target_reached <~ false
    else
      position_target_rejected <~ false ;;
      exceeds ← _actual_position_exceeds_software_limits;
      when (negb exceeds) (software_limit_warning <~ false) ;;
      current_target ← match previous_target with
        | None => rd 0x607A
        | Some t => mret t
        end;
      when (negb (py_eq position current_target))
        (target_reached <~ false ;; window_counter <~ 0) ;;
      wr 0x607A position ;;
      _last_target_position_command <~ position.

Definition _apply_device_reset_response : M servo () :=
  current_position ← on_od (read_role "actual_position");
  p ← gets device_profile;
  on_od (reset_non_pdo_configuration p) ;;
  on_od reset_pdo_values ;;
  on_od (write_role "target_position" current_position) ;;
  on_od (write_role "actual_position" current_position) ;;
  on_od (write_role "statusword" (PInt 0x0027)) ;;
  m ← on_od (read_role "mode_of_operation");
  on_od (write_role "mode_of_operation_display" m) ;;
  m ← int_role "mode_of_operation"; _last_mode_command <~ m ;;
  t ← on_od (read_role "target_position"); _last_target_position_command <~ t.

Definition _apply_od_commands : M servo () :=
  device_reset_command ← int_role "device_reset_command";
  last ← gets _last_device_reset_command;
  when (negb (device_reset_command =? last) && (device_reset_command =? 1))
    _apply_device_reset_response ;;
  _last_device_reset_command <~ device_reset_command ;;
  parameter_save_command ← int_role "parameter_save_command";
  last ← gets _last_parameter_save_command;
  when (negb (parameter_save_command =? last) && (parameter_save_command =? 1))
    (on_od (write_role "parameter_save_status" (PInt 0)) ;;
     on_od (write_role "parameter_save_return_code" (PInt 0)) ;;
     on_od (write_role "parameter_save_return_value" (PInt 1))) ;;
  _last_parameter_save_command <~ parameter_save_command ;;
  requested_mode ← int_role "mode_of_operation";
  requested_target ← on_od (read_role "target_position");
  last_mode ← gets _last_mode_command;
  when (negb (requested_mode =? last_mode)) (set_mode requested_mode (Some last_mode)) ;;
  last_target ← gets _last_target_position_command;
  when (negb (py_eq requested_target last_target))
    (set_target_position requested_target (Some last_target)).

(** ** Modes of operation *)

(** The rising edge of the start bit. *)
Definition homing_start : M servo () :=
  homing_active <~ true ;;
  dt ← gets cycle_time;
  q ← lift (py_div (f_dec 1 (-1)) dt);
  n ← lift (int_of_float q);
  homing_counter <~ Z.max 1 n ;;
  homing_referenced <~ false ;;
  homing_error <~ false ;;
  actual_velocity <~ f_zero ;;
  _write_actual_feedback ;;
  target_reached <~ false.

(** One cycle of an active run. *)
Definition homing_progress : M servo () :=
  modify (λ s, s <| homing_counter := homing_counter s - 1 |>) ;;
  n ← gets homing_counter;
  if 0 <? n then mret tt
  else
    actual_position <~ PFloat f_zero ;;
    actual_velocity <~ f_zero ;;
    p ← gets actual_position; wr 0x607A p ;;
    _write_actual_feedback ;;
    target_reached <~ true ;;
    homing_active <~ false ;;
    homing_referenced <~ true.

Definition process_homing : M servo () :=
  enabled ← operation_enabled;
  if negb enabled then mret tt
  else
    controlword ← rd 0x6040;
    now ← bit controlword 4;
    before ← (if now : bool then (w ← gets previous_controlword; bit w 4) else mret false);
    when (now && negb before) homing_start ;;
    active ← gets homing_active;
    if negb active then mret tt else homing_progress.

(** The velocity limit for a move towards [target]: the negative limit when
    the target lies below and it is set, the positive limit otherwise. *)
Definition profile_max_velocity (target : pyval) : M servo float :=
  profile_vel ← abs_rd 0x6081;
  positive_limit ← abs_rd 0x607F;
  n ← rd_sub 0x2183 0x0C; n ← lift (py_float n);
  let negative_limit := f_abs (f_mul n f_1000) in
  p ← gets actual_position;
  below ← lift (py_lt target p);
  let max_profile_vel :=
    if (below : bool) && f_lt f_zero negative_limit then negative_limit else positive_limit in
  mret (if f_lt f_zero max_profile_vel then f_min profile_vel max_profile_vel
        else profile_vel).

(** [max(v, 0.0) ** 2 / (2.0 * d) if d > 0.0 else 0.0] *)
Definition stopping_distance (toward decel_rate : float) : outcome float :=
  if f_lt f_zero decel_rate then
    s ← py_square (f_max toward f_zero);
    py_div s (f_mul (f_of_Z 2) decel_rate)
  else mret f_zero.

(** The end of [process_pp] for an active move to [target]. *)
Definition pp_advance (target : pyval) : M servo () :=
  v ← gets actual_velocity; dt ← gets cycle_time;
  rate ← _velocity_to_position_rate v;
  p ← gets actual_position;
  next_position ← lift (py_add p (PFloat (f_mul rate dt)));
  left ← lift (py_sub target p);
  arrived ←
    (if py_eq left (PFloat f_zero) then mret true
     else
       left_after ← lift (py_sub target next_position);
       product ← lift (py_mul left left_after);
       lift (py_le product (PFloat f_zero)));
  if arrived : bool then
    actual_position <~ target ;; actual_velocity <~ f_zero ;; pp_active <~ false
  else actual_position <~ next_position.

Definition pp_move : M servo () :=
  target ← gets pp_target_position;
  max_vel ← profile_max_velocity target;
  accel ← abs_rd 0x6083;
  decel ← abs_rd 0x6084;
  window ← abs_rd 0x6067;
  dt ← gets cycle_time;
  p ← gets actual_position;
  error ← lift (py_sub target p);
  distance ← lift (py_abs error);
  near ← lift (py_le distance (PFloat window));
  at_rest ←
    (if near : bool then
       v ← gets actual_velocity;
       d ← _acceleration_to_velocity_delta decel dt;
       mret (f_le (f_abs v) (f_max d f_1e_9))
     else mret false);
  if at_rest : bool then
    actual_position <~ target ;;
    actual_velocity <~ f_zero ;;
    pp_active <~ false ;;
    _write_actual_feedback ;;
    update_target_reached
  else
    ahead ← lift (py_le (PFloat f_zero) error);
    let direction := if ahead : bool then f_one else f_minus_one in
    v ← gets actual_velocity;
    let velocity_toward_target := f_mul v direction in
    rate ← _velocity_to_position_rate v;
    let position_velocity_toward_target := f_mul rate direction in
    decel_position_rate ← _acceleration_to_position_rate decel;
    stopping ← lift (stopping_distance position_velocity_toward_target decel_position_rate);
    brake ← (if f_lt velocity_toward_target f_zero then mret true
             else lift (py_le distance (PFloat stopping)));
    let '(desired_velocity, velocity_limit) :=
      if brake : bool then (f_zero, decel) else (f_mul direction max_vel, accel) in
    d ← _acceleration_to_velocity_delta velocity_limit dt;
    actual_velocity <~ _move_towards v desired_velocity d ;;
    pp_advance target ;;
    _write_actual_feedback ;;
    update_target_reached.

Definition process_pp : M servo () :=
  enabled ← operation_enabled;
  if negb enabled then mret tt
  else
    halt ← gets halt_active;
    if halt : bool then
      pp_active <~ false ;;
      pp_setpoint_ack <~ false ;;
      _decelerate_to_stop ;;
      _write_actual_feedback ;;
      modify (λ s, s <| target_reached := f_le (f_abs (actual_velocity s)) f_1e_9 |>)
    else
      referenced ← gets homing_referenced;
      if negb referenced then
        pp_active <~ false ;;
        pp_setpoint_ack <~ false ;;
        target_reached <~ false ;;
        _decelerate_to_stop ;;
        _write_actual_feedback
      else
        controlword ← rd 0x6040;
        now ← bit controlword 4;
        before ← (if now : bool then (w ← gets previous_controlword; bit w 4) else mret false);
        let new_setpoint := now && negb before in
        rejected ← gets position_target_rejected;
        if new_setpoint && rejected then
          pp_active <~ false ;;
          pp_setpoint_ack <~ false ;;
          _decelerate_to_stop ;;
          _write_actual_feedback
        else
          when new_setpoint
            (t ← rd 0x607A; pp_target_position <~ t ;;
             pp_active <~ true ;;
             target_reached <~ false ;;
             window_counter <~ 0) ;;
          ack ← bit controlword 4; pp_setpoint_ack <~ ack ;;
          active ← gets pp_active;
          if negb active then
            _decelerate_to_stop ;;
            _write_actual_feedback ;;
            update_target_reached
          else pp_move.

Definition process_pv : M servo () :=
  enabled ← operation_enabled;
  if negb enabled then mret tt
  else
    halt ← gets halt_active;
    target_velocity ← (if halt : bool then mret f_zero else float_rd 0x60FF);
    positive_limit ← abs_rd 0x607F;
    n ← rd_sub 0x2183 0x0C; n ← lift (py_float n);
    let negative_limit := f_abs (f_mul n f_1000) in
    let target_velocity :=
      if f_le f_zero target_velocity && f_lt f_zero positive_limit
      then f_min target_velocity positive_limit
      else if f_lt target_velocity f_zero && f_lt f_zero negative_limit
      then f_max target_velocity (f_opp negative_limit)
      else target_velocity in
    accel ← float_rd 0x6083;
    decel ← float_rd 0x6084;
    v ← gets actual_velocity;
    let limit := if f_lt (f_abs v) (f_abs target_velocity) then accel else decel in
    dt ← gets cycle_time;
    d ← _acceleration_to_velocity_delta limit dt;
    actual_velocity <~ _move_towards v target_velocity d ;;
    advance_position ;;
    _write_actual_feedback ;;
    d ← _acceleration_to_velocity_delta limit dt;
    modify (λ s, s <| target_reached :=
      f_le (f_abs (f_sub (actual_velocity s) target_velocity)) (f_max d f_1e_9) |>).

(** [min(configured_limits) if configured_limits else 0.0] *)
Definition min_of (xs : list float) : float :=
  match xs with
  | [] => f_zero
  | x :: xs => foldl f_min x xs
  end.

Definition _jog_velocity_limit (controlword : pyval) : M servo float :=
  profile_velocity ← abs_rd 0x6081;
  positive_limit ← abs_rd 0x607F;
  n ← rd_sub 0x2183 0x0C; n ← lift (py_float n);
  let negative_limit := f_abs (f_mul n f_1000) in
  let configured_limits :=
    List.filter (f_lt f_zero) [profile_velocity; positive_limit; negative_limit] in
  fast ← bit controlword 12;
  slow ← (if fast : bool then mret false else bit controlword 11);
  let speed_factor :=
    if fast : bool then f_one
    else if slow : bool then f_dec 25 (-2) else f_dec 5 (-1) in
  mret (f_mul (min_of configured_limits) speed_factor).

Definition _limit_jog_velocity_at_software_limit (target_velocity : float) : M servo float :=
  if f_le (f_abs target_velocity) f_1e_12 then mret f_zero
  else
    l ← _software_position_limits;
    p ← gets actual_position;
    high ← (if f_lt f_zero target_velocity then lift (py_le (PFloat l.2) p) else mret false);
    if high : bool then mret f_zero
    else
      low ← (if f_lt target_velocity f_zero then lift (py_le p (PFloat l.1)) else mret false);
      if low : bool then mret f_zero else mret target_velocity.

Definition process_jog : M servo () :=
  enabled ← operation_enabled;
  if negb enabled then mret tt
  else
    controlword ← rd 0x6040;
    positive ← bit controlword 4;
    negative ← bit controlword 5;
    halt ← gets halt_active;
    target_velocity ←
      (if Bool.eqb positive negative || halt then mret f_zero
       else
         m ← _jog_velocity_limit controlword;
         mret (f_mul (if positive : bool then f_one else f_minus_one) m));
    accel ← float_rd 0x6083;
    decel ← float_rd 0x6084;
    target_velocity ← _limit_jog_velocity_at_software_limit target_velocity;
    v ← gets actual_velocity;
    let limit := if f_lt (f_abs v) (f_abs target_velocity) then accel else decel in
    dt ← gets cycle_time;
    d ← _acceleration_to_velocity_delta limit dt;
    actual_velocity <~ _move_towards v target_velocity d ;;
    advance_position ;;
    _write_actual_feedback ;;
    modify (λ s, s <| target_reached := f_le (f_abs (actual_velocity s)) f_1e_9 |>).

Definition process_csp : M servo () :=
  enabled ← operation_enabled;
  if negb enabled then mret tt
  else
    halt ← gets halt_active;
    if halt : bool then
      _decelerate_to_stop ;;
      _write_actual_feedback ;;
      modify (λ s, s <| target_reached := f_le (f_abs (actual_velocity s)) f_1e_9 |>)
    else
      referenced ← gets homing_referenced;
      if negb referenced then
        target_reached <~ false ;;
        _decelerate_to_stop ;;
        _write_actual_feedback
      else
        target ← rd 0x607A;
        max_vel ← profile_max_velocity target;
        accel ← rd 0x6083;
        decel ← rd 0x6084;
        p ← gets actual_position;
        error ← lift (py_sub target p);
        k ← gets kp;
        e ← lift (py_mul (PFloat k) error);
        e ← lift (py_float e);
        desired ← _position_rate_to_velocity e;
        let desired_velocity := f_max (f_min desired max_vel) (f_opp max_vel) in
        v ← gets actual_velocity;
        let delta_v := f_sub desired_velocity v in
        limit ← lift (py_float (if f_lt (f_abs v) (f_abs desired_velocity) then accel else decel));
        dt ← gets cycle_time;
        max_delta_v ← _acceleration_to_velocity_delta limit dt;
        let delta_v := f_max (f_min delta_v max_delta_v) (f_opp max_delta_v) in
        actual_velocity <~ f_add v delta_v ;;
        advance_position ;;
        p ← gets actual_position; wr 0x6064 p ;;
        v ← gets actual_velocity; wr 0x606C (PFloat v) ;;
        update_target_reached.

(** ** The cycle *)

Definition process_mode (mode : pyval) : M servo () :=
  if py_eq mode (PInt 1) then process_pp
  else if py_eq mode (PInt 3) then process_pv
  else if py_eq mode (PInt 8) then process_csp
  else if py_eq mode (PInt 6) then process_homing
  else if py_eq mode (PInt (-3)) then process_jog
  else mret tt.

Definition set_bit (b : bool) (n word : Z) : Z :=
  if b then Z.lor word (Z.shiftl 1 n) else word.

(** The status word of the attributes; [limit] is [_software_limit_is_active]. *)
Definition statusword_of (mode : pyval) (limit : bool) (s : servo) : Z :=
  set_bit (py_eq mode (PInt 6) && homing_error s) 3
  (set_bit (homing_referenced s) 15
  (set_bit limit 11 (set_bit limit 7
  (set_bit (_is_moving s) 8
  (set_bit (pp_setpoint_ack s) 12
  (set_bit (target_reached s) 10 (CiA402StateMachine.get_statusword (sm s)))))))).

Definition process_cycle : M servo () :=
  controlword ← rd 0x6040;
  halt ← bit controlword 8;
  halt_active <~ halt ;;
  was_operation_enabled ← operation_enabled;
  on_sm (CiA402StateMachine.process controlword) ;;
  is_operation_enabled ← operation_enabled;
  when (was_operation_enabled && negb is_operation_enabled) stop_at_current_position ;;
  mode ← rd 0x6060;
  process_mode mode ;;
  limit ← _software_limit_is_active;
  statusword ← gets (statusword_of mode limit);
  wr 0x6041 (PInt statusword) ;;
  previous_controlword <~ controlword.

Definition model_update : M servo () := _apply_od_commands ;; process_cycle.

(** ** Construction and accessors *)

(** [VirtualCiA402Servo.__init__] *)
Definition VirtualCiA402Servo (dt : float) (p : profile) : outcome servo :=
  o ← construct p;
  let role r := (read_role r o).1 in
  mode ← role "mode_of_operation"; mode ← py_int mode;
  target ← role "target_position";
  reset ← role "device_reset_command"; reset ← py_int reset;
  save ← role "parameter_save_command"; save ← py_int save;
  mret {|
    cycle_time := dt; device_profile := p; od_ := o; sm := CiA402StateMachine.init;
    actual_position := PFloat f_zero; actual_velocity := f_zero; kp := f_of_Z 5;
    target_reached := false; window_counter := 0; previous_controlword := PInt 0;
    pp_active := false; pp_target_position := PFloat f_zero; pp_setpoint_ack := false;
    halt_active := false; homing_active := false; homing_counter := 0;
    homing_referenced := false; homing_error := false; software_limit_warning := false;
    position_target_rejected := false; _last_mode_command := mode;
    _last_target_position_command := target; _last_device_reset_command := reset;
    _last_parameter_save_command := save |}.

Definition get_statusword : M servo pyval := rd 0x6041.
Definition get_position : M servo pyval := rd 0x6064.
Definition get_target_position : M servo pyval := rd 0x607A.
Definition get_velocity : M servo pyval := rd 0x606C.
Definition is_target_reached : M servo bool := gets target_reached.
Definition set_position_loop_gain (k : pyval) : M servo () := x ← lift (py_float k); kp <~ x.
Definition get_position_loop_gain : M servo float := gets kp.
Definition set_software_position_limits (negative_limit positive_limit : pyval) : M servo () :=
  wr_sub 0x607D negative_limit 1 ;; wr_sub 0x607D positive_limit 2.
Definition get_software_position_limits : M servo (pyval * pyval) :=
  n ← rd_sub 0x607D 1; p ← rd_sub 0x607D 2; mret (n, p).

(** ** Frame facts *)

Lemma on_od_reader_spec {A} (m : M od A) : Reader m → Reader (on_od m).
Proof.
  intros Hm s. unfold on_od, zoom. specialize (Hm (od_ s)).
  destruct (m (od_ s)) as [r o]. simpl in *. subst. by destruct s.
Qed.

#[export] Instance read_reader i s : Reader (read i s).
Proof. intros o. by rewrite read_spec. Qed.
#[export] Instance rd_reader i : Reader (rd i).
Proof. apply on_od_reader_spec, _. Qed.
#[export] Instance rd_sub_reader i s : Reader (rd_sub i s).
Proof. apply on_od_reader_spec, _. Qed.
#[export] Instance float_rd_reader i : Reader (float_rd i).
Proof. unfold float_rd. apply _. Qed.
#[export] Instance abs_rd_reader i : Reader (abs_rd i).
Proof. unfold abs_rd. apply _. Qed.
#[export] Instance bit_reader w n : Reader (bit w n).
Proof. unfold bit. apply _. Qed.
#[export] Instance operation_enabled_reader : Reader operation_enabled.
Proof. unfold operation_enabled. apply _. Qed.
#[export] Instance unit_scale_reader i : Reader (_unit_scale i).
Proof. unfold _unit_scale. apply _. Qed.
#[export] Instance v2p_reader v : Reader (_velocity_to_position_rate v).
Proof. unfold _velocity_to_position_rate, _velocity_scale, _position_scale. apply _. Qed.
#[export] Instance p2v_reader v : Reader (_position_rate_to_velocity v).
Proof. unfold _position_rate_to_velocity, _velocity_scale, _position_scale. apply _. Qed.
#[export] Instance a2p_reader v : Reader (_acceleration_to_position_rate v).
Proof. unfold _acceleration_to_position_rate, _acceleration_scale, _position_scale. apply _. Qed.
#[export] Instance a2v_reader v dt : Reader (_acceleration_to_velocity_delta v dt).
Proof. unfold _acceleration_to_velocity_delta, _acceleration_scale, _velocity_scale. apply _. Qed.
#[export] Instance limits_reader : Reader _software_position_limits.
Proof. unfold _software_position_limits. apply _. Qed.
#[export] Instance within_reader p : Reader (_position_target_is_within_software_limits p).
Proof. unfold _position_target_is_within_software_limits. apply _. Qed.
#[export] Instance exceeds_reader : Reader _actual_position_exceeds_software_limits.
Proof. unfold _actual_position_exceeds_software_limits. apply _. Qed.
#[export] Instance limit_active_reader : Reader _software_limit_is_active.
Proof. unfold _software_limit_is_active. apply _. Qed.
#[export] Instance requires_reader : Reader _position_command_requires_reference.
Proof. unfold _position_command_requires_reference. apply _. Qed.
#[export] Instance in_position_reader : Reader is_in_position.
Proof. unfold is_in_position. apply _. Qed.
#[export] Instance max_velocity_reader t : Reader (profile_max_velocity t).
Proof. unfold profile_max_velocity. apply _. Qed.
#[export] Instance jog_limit_reader w : Reader (_jog_velocity_limit w).
Proof. unfold _jog_velocity_limit. apply _. Qed.
#[export] Instance jog_software_reader v : Reader (_limit_jog_velocity_at_software_limit v).
Proof. unfold _limit_jog_velocity_at_software_limit. apply _. Qed.

(** What only [process_cycle] and the owner of the model change. *)
Definition fixed (s : servo) := (sm s, device_profile s, kp s, cycle_time s).

(** A method changes neither [fixed] nor, for the commands, the position. *)
Definition settled (s : servo) := (fixed s, actual_position s).

#[export] Instance on_od_settled {A} (m : M od A) : Preserves settled (on_od m).
Proof. apply preserves_zoom. reflexivity. Qed.
#[export] Instance wr_settled i v : Preserves settled (wr i v).
Proof. unfold wr. apply _. Qed.
#[export] Instance int_role_settled r : Preserves settled (int_role r).
Proof. unfold int_role. apply _. Qed.
#[export] Instance feedback_settled : Preserves settled _write_actual_feedback.
Proof. unfold _write_actual_feedback. apply _. Qed.
#[export] Instance stop_settled : Preserves settled stop_at_current_position.
Proof. unfold stop_at_current_position. apply _. Qed.
#[export] Instance update_reached_settled : Preserves settled update_target_reached.
Proof. unfold update_target_reached. frame. Qed.
#[export] Instance set_mode_settled m p : Preserves settled (set_mode m p).
Proof. unfold set_mode. frame. Qed.
#[export] Instance set_target_settled t p : Preserves settled (set_target_position t p).
Proof. unfold set_target_position. frame. Qed.
#[export] Instance reset_response_settled : Preserves settled _apply_device_reset_response.
Proof. unfold _apply_device_reset_response. frame. Qed.
#[export] Instance commands_settled : Preserves settled _apply_od_commands.
Proof. unfold _apply_od_commands. frame. Qed.

Lemma settled_fixed {A} (m : M servo A) : Preserves settled m → Preserves fixed m.
Proof. intros H s. specialize (H s). unfold settled in H. congruence. Qed.

#[export] Hint Extern 5 (Preserves fixed _) =>
  apply settled_fixed; solve [apply _] : typeclass_instances.

#[export] Instance advance_fixed : Preserves fixed advance_position.
Proof. unfold advance_position. frame. Qed.
#[export] Instance decelerate_fixed : Preserves fixed _decelerate_to_stop.
Proof. unfold _decelerate_to_stop. frame. Qed.
#[export] Instance homing_fixed : Preserves fixed process_homing.
Proof. unfold process_homing, homing_start, homing_progress. frame. Qed.
#[export] Instance pp_advance_fixed t : Preserves fixed (pp_advance t).
Proof. unfold pp_advance. frame. Qed.
#[export] Instance pp_move_fixed : Preserves fixed pp_move.
Proof. unfold pp_move. frame. Qed.
#[export] Instance pp_fixed : Preserves fixed process_pp.
Proof. unfold process_pp. frame. Qed.
#[export] Instance pv_fixed : Preserves fixed process_pv.
Proof. unfold process_pv. frame. Qed.
#[export] Instance jog_fixed : Preserves fixed process_jog.
Proof. unfold process_jog. frame. Qed.
#[export] Instance csp_fixed : Preserves fixed process_csp.
Proof. unfold process_csp. frame. Qed.
#[export] Instance mode_fixed m : Preserves fixed (process_mode m).
Proof. unfold process_mode. frame. Qed.
