(* ===== verification/ServoProps.v ===== *)
(** * Safety and behaviour of the drive model

    The theorems about [VirtualCiA402Servo] (Servo.v): the drive is at rest
    and holds its position outside Operation enabled; the status word tells
    the attributes; homing, target acceptance, the in-position window, the
    profile moves and the software limits behave as the drive promises. *)

From S2P Require Import Prelude PyFloat.
From S2P Require Export Servo.

Open Scope string_scope.
Open Scope list_scope.
Open Scope Z_scope.

(** ** The two halves of a cycle *)

(** [process_cycle] up to the stop on leaving Operation enabled. *)
Definition cycle_head : M servo pyval :=
  controlword ← rd 0x6040;
  halt ← bit controlword 8;
  halt_active <~ halt ;;
  was ← operation_enabled;
  on_sm (CiA402StateMachine.process controlword) ;;
  still ← operation_enabled;
  when (was && negb still) stop_at_current_position ;;
  mret controlword.

(** The mode of operation and the status report. *)
Definition cycle_tail (controlword : pyval) : M servo () :=
  mode ← rd 0x6060;
  process_mode mode ;;
  limit ← _software_limit_is_active;
  statusword ← gets (statusword_of mode limit);
  wr 0x6041 (PInt statusword) ;;
  previous_controlword <~ controlword.

Lemma process_cycle_split s : process_cycle s = (cycle_head ≫= cycle_tail) s.
Proof.
  unfold process_cycle, cycle_head. rewrite !bind_assoc.
  unfold mbind, M_bind.
  destruct (rd 0x6040 s) as [[cw|e] s1]; [|done].
  destruct (bit cw 8 s1) as [[h|e] s2]; [|done].
  destruct (modify _ s2) as [[[]|e] s3]; [|done].
  destruct (operation_enabled s3) as [[w|e] s4]; [|done].
  destruct (on_sm _ s4) as [[[]|e] s5]; [|done].
  destruct (operation_enabled s5) as [[i|e] s6]; [|done].
  by destruct (when _ _ s6) as [[[]|e] s7].
Qed.

Lemma get_statusword_enabled m :
  CiA402StateMachine.get_statusword m =? 0x0027 = bool_decide (CiA402StateMachine.state m = OPERATION_ENABLED).
Proof. by destruct m as [[]]. Qed.

Definition enabled (s : servo) : Prop := CiA402StateMachine.state (sm s) = OPERATION_ENABLED.

Lemma operation_enabled_spec s : operation_enabled s = (Ret (bool_decide (enabled s)), s).
Proof. unfold operation_enabled, gets. by rewrite get_statusword_enabled. Qed.

#[export] Instance on_sm_settled m :
  Preserves (λ s, (actual_position s, actual_velocity s, od_ s)) (on_sm (A:=()) m).
Proof. apply preserves_zoom. reflexivity. Qed.

(** Outside Operation enabled no mode of operation does anything. *)
Lemma mode_idle mode s : ¬ enabled s → process_mode mode s = (Ret tt, s).
Proof.
  intros H. unfold process_mode, process_pp, process_pv, process_csp, process_homing, process_jog.
  repeat case_match; try reflexivity;
    rewrite (bind_eq_ret _ _ _ _ _ (operation_enabled_spec s)), bool_decide_eq_false_2 by done;
    reflexivity.
Qed.

Lemma enabled_fixed s s' : fixed s' = fixed s → enabled s' → enabled s.
Proof. unfold fixed, enabled. intros H. by assert (sm s' = sm s) as -> by congruence. Qed.

#[export] Instance tail_fixed w : Preserves fixed (cycle_tail w).
Proof. unfold cycle_tail. frame. Qed.

(** Outside Operation enabled the second half only reports. *)
Lemma tail_idle w s : ¬ enabled s →
  actual_position (cycle_tail w s).2 = actual_position s
  ∧ actual_velocity (cycle_tail w s).2 = actual_velocity s.
Proof.
  intros Hs. unfold cycle_tail.
  rewrite (bind_eq_out (rd 0x6060)).
  destruct (rd 0x6060 s).1 as [mode|e]; [|done].
  rewrite (bind_eq_ret _ _ _ _ _ (mode_idle mode s Hs)).
  rewrite (bind_eq_out _software_limit_is_active).
  destruct (_software_limit_is_active s).1 as [l|e]; [|done].
  rewrite bind_gets.
  set (m := (_ ;; _)).
  assert (Preserves (λ s, (actual_position s, actual_velocity s)) m) as Hm.
  { subst m. apply preserves_bind; [|intros ?]; [|apply _].
    unfold wr. by apply preserves_zoom. }
  specialize (Hm s). simpl in Hm. by simplify_eq.
Qed.

(** ** Rest outside Operation enabled *)

(** The velocity is zero unless the drive is enabled. *)
Definition at_rest (s : servo) : Prop := ¬ enabled s → actual_velocity s = f_zero.

Lemma at_rest_modify (g : servo → servo) :
  (∀ s, sm (g s) = sm s) →
  (∀ s, actual_velocity (g s) = actual_velocity s ∨ actual_velocity (g s) = f_zero) →
  Inv at_rest (modify g).
Proof.
  intros Hsm Hv s Hs. unfold at_rest, enabled. simpl. rewrite Hsm. intros H.
  destruct (Hv s) as [->| ->]; auto.
Qed.

#[export] Instance at_rest_on_od {A} (m : M od A) : Inv at_rest (on_od m).
Proof.
  intros s Hs. unfold on_od, zoom. destruct (m (od_ s)) as [r o]. exact Hs.
Qed.

Ltac inv_frame := repeat lazymatch goal with
  | |- Inv _ (_ ≫= _) => apply inv_bind; [|intros ?]
  | |- Inv _ (let _ := _ in _) => cbv zeta
  | |- Inv _ (if ?b then _ else _) => destruct b
  | |- Inv _ (match ?b with _ => _ end) => destruct b
  | |- Inv _ (when _ _) => apply inv_when
  | |- Inv _ (modify _) => apply at_rest_modify; intros ?; auto
  | |- Inv _ _ => apply _
  end.

#[export] Instance wr_at_rest i v : Inv at_rest (wr i v).
Proof. unfold wr. apply _. Qed.
#[export] Instance int_role_at_rest r : Inv at_rest (int_role r).
Proof. unfold int_role. inv_frame. Qed.
#[export] Instance stop_at_rest : Inv at_rest stop_at_current_position.
Proof. unfold stop_at_current_position. inv_frame. Qed.
#[export] Instance commands_at_rest : Inv at_rest _apply_od_commands.
Proof.
  unfold _apply_od_commands, _apply_device_reset_response, set_mode, set_target_position.
  inv_frame.
Qed.

(** [stop_at_current_position] assigns the velocity first, so it is zero even
    when a dictionary write fails. *)
Lemma stop_velocity s : actual_velocity (stop_at_current_position s).2 = f_zero.
Proof.
  unfold stop_at_current_position.
  rewrite (bind_eq_ret (actual_velocity <~ f_zero) _ s tt _ eq_refl).
  match goal with |- actual_velocity (?m ?s').2 = _ =>
    assert (Preserves actual_velocity m) as H end.
  { unfold wr, on_od. frame. }
  exact (H _).
Qed.

Lemma head_at_rest : Inv at_rest cycle_head.
Proof.
  unfold cycle_head. do 3 (apply inv_bind; [first [apply _|apply at_rest_modify; auto]|intros ?]).
  intros s Hs. rewrite (bind_eq_ret _ _ _ _ _ (operation_enabled_spec s)).
  destruct (CiA402StateMachine.process a (sm s)) as [r m] eqn:Hp.
  assert (on_sm (CiA402StateMachine.process a) s = (r, s <| sm := m |>)) as Hon
    by (unfold on_sm, zoom; by rewrite Hp).
  destruct r as [[]|e]; [rewrite (bind_eq_ret _ _ _ _ _ Hon)|rewrite (bind_eq_raise _ _ _ _ _ Hon)].
  2: { unfold CiA402StateMachine.process in Hp. rewrite lift_bind in Hp.
       destruct (py_int _); simplify_eq/=. exact Hs. }
  clear Hon. set (s1 := s <| sm := m |>).
  rewrite (bind_eq_ret _ _ _ _ _ (operation_enabled_spec s1)).
  destruct (decide (enabled s1)) as [He|He].
  - rewrite (bool_decide_eq_true_2 _ He), andb_false_r. simpl. intros Hn. by destruct Hn.
  - rewrite (bool_decide_eq_false_2 _ He), andb_true_r.
    destruct (decide (enabled s)) as [Hw|Hw].
    + rewrite (bool_decide_eq_true_2 _ Hw). simpl. intros _.
      pose proof (stop_velocity s1) as Hv. unfold mbind, M_bind.
      by destruct (stop_at_current_position s1) as [[[]|e] s2].
    + rewrite (bool_decide_eq_false_2 _ Hw). simpl. intros _. exact (Hs Hw).
Qed.

#[export] Instance update_at_rest : Inv at_rest model_update.
Proof.
  unfold model_update. apply inv_bind; [apply _|intros _].
  intros s Hs. rewrite process_cycle_split. unfold mbind, M_bind.
  pose proof (head_at_rest s Hs) as Hh. destruct (cycle_head s) as [[w|e] s1]; [|exact Hh].
  simpl in Hh. intros Hn. assert (¬ enabled s1) as Hn1.
  { intros H. apply Hn. unfold enabled. pose proof (tail_fixed w s1) as Hf.
    unfold fixed in Hf. by assert (sm (cycle_tail w s1).2 = sm s1) as -> by congruence. }
  destruct (tail_idle w s1 Hn1) as [_ ->]. auto.
Qed.

#[export] Instance head_position : Preserves actual_position cycle_head.
Proof.
  unfold cycle_head. frame.
  - unfold on_sm. by apply preserves_zoom.
  - intros s. pose proof (stop_settled s) as H. unfold settled in H. congruence.
Qed.

(** What the owner of a drive does: cycles, accesses to the dictionary
    (whatever they do to it) and the assignment of the cycle time. *)
Inductive servo_step : servo → servo → Prop :=
  | step_update s : servo_step s (model_update s).2
  | step_od {A} (m : M od A) s : servo_step s (on_od m s).2
  | step_time dt s : servo_step s (s <| cycle_time := dt |>)
  | step_gain k s : servo_step s (s <| kp := k |>).

Definition servo_reachable (p : profile) (s : servo) : Prop :=
  ∃ dt s0, VirtualCiA402Servo dt p = Ret s0 ∧ rtc servo_step s0 s.

(** A freshly constructed drive. *)
Definition initial (p : profile) (s : servo) : Prop :=
  actual_velocity s = f_zero ∧ homing_error s = false ∧ sm s = CiA402StateMachine.init
  ∧ actual_position s = PFloat f_zero ∧ device_profile s = p.

Lemma construct_initial dt p s : VirtualCiA402Servo dt p = Ret s → initial p s.
Proof.
  unfold VirtualCiA402Servo. intros H.
  repeat (apply outcome_bind_inv in H as (? & _ & H)).
  injection H as <-. by split_and!.
Qed.

(** Programs made of the owner's steps. *)
Class Drives {A} (m : M servo A) : Prop := drives : ∀ s, rtc servo_step s (m s).2.

#[export] Instance drives_mret {A} (a : A) : Drives (mret (M:=M servo) a).
Proof. intros s. apply rtc_refl. Qed.
#[export] Instance drives_bind {A B} (m : M servo A) (k : A → M servo B) :
  Drives m → (∀ a, Drives (k a)) → Drives (m ≫= k).
Proof.
  intros Hm Hk s. unfold mbind, M_bind. specialize (Hm s).
  destruct (m s) as [[a|e] s1]; [|exact Hm]. etrans; [exact Hm|apply Hk].
Qed.
#[export] Instance drives_wr i v : Drives (wr i v).
Proof. intros s. apply rtc_once, (step_od (write i v None)). Qed.
#[export] Instance drives_update : Drives model_update.
Proof. intros s. apply rtc_once, step_update. Qed.

(** The drive of the linear example profile. *)
Definition linear_servo : servo :=
  match VirtualCiA402Servo (f_dec 1 (-2)) linear_profile with
  | Ret s => s
  | Raise _ => Servo f_zero linear_profile empty_od CiA402StateMachine.init (PInt 0) f_zero
      f_zero false 0 (PInt 0) false (PInt 0) false false false 0 false false false false 0
      (PInt 0) 0 0
  end.

(** One cycle with the given outputs, and a run of the same cycle. *)
Definition cycle (controlword mode target velocity : Z) : M servo () :=
  wr 0x6040 (PInt controlword) ;; wr 0x6060 (PInt mode) ;;
  wr 0x607A (PInt target) ;; wr 0x6081 (PInt velocity) ;; model_update.

Fixpoint cycles (n : nat) (m : M servo ()) : M servo () :=
  match n with O => mret tt | S n => m ;; cycles n m end.

#[export] Instance drives_cycle w m t v : Drives (cycle w m t v).
Proof. unfold cycle. apply _. Qed.
#[export] Instance drives_cycles n m : Drives m → Drives (cycles n m).
Proof. intros H. induction n; simpl; apply _. Qed.

Definition enable (mode : Z) : M servo () :=
  cycle 0x06 mode 0 0 ;; cycle 0x07 mode 0 0 ;; cycle 0x0F mode 0 0.

Definition reference : M servo () := enable 6 ;; cycles 11 (cycle 0x1F 6 0 0).

(** The drive in the middle of a profile velocity move. *)
Definition moving_run : M servo () :=
  enable 3 ;; wr 0x60FF (PInt 50) ;; cycles 5 (cycle 0x0F 3 0 100).

#[export] Instance drives_moving : Drives moving_run.
Proof. unfold moving_run, enable. apply _. Qed.

Definition moving_servo : servo := (moving_run linear_servo).2.

Example moving_servo_moves :
  enabled moving_servo ∧ f_lt f_zero (actual_velocity moving_servo) = true
  ∧ py_lt (PInt 0) (actual_position moving_servo) = Ret true.
Proof. vm_compute. auto. Qed.

Lemma linear_servo_constructed :
  VirtualCiA402Servo (f_dec 1 (-2)) linear_profile = Ret linear_servo.
Proof. vm_compute. reflexivity. Qed.

Lemma moving_reachable : servo_reachable linear_profile moving_servo.
Proof.
  exists (f_dec 1 (-2)), linear_servo.
  split; [exact linear_servo_constructed|exact (drives_moving linear_servo)].
Qed.

(** ** Properties *)

(** C2. A drive at rest.  However the model is driven, with failing calls
    included, the velocity is exactly zero whenever the state machine is not
    in Operation enabled, and the position does not change in a cycle that
    ends outside Operation enabled. *)
Theorem disabled_drive_is_at_rest p s :
  servo_reachable p s →
  at_rest s ∧ (¬ enabled (model_update s).2 →
               actual_position (model_update s).2 = actual_position s).
Proof.
  intros (dt & s0 & H0 & Hr). split.
  - assert (at_rest s0) as H by (intros _; by apply construct_initial in H0 as [? _]).
    clear H0. induction Hr as [s|s s1 s2 Hs _ IH]; [exact H|]. apply IH.
    destruct Hs; [by apply update_at_rest|by apply at_rest_on_od|exact H|exact H].
  - intros Hn. unfold model_update, mbind, M_bind in *.
    pose proof (commands_settled s) as Hc. unfold settled in Hc.
    destruct (_apply_od_commands s) as [[[]|e] s1]; simpl in *; [|congruence].
    rewrite process_cycle_split in *. unfold mbind, M_bind in *.
    pose proof (head_position s1) as Hh.
    destruct (cycle_head s1) as [[w|e] s2]; simpl in *; [|congruence].
    destruct (tail_idle w s2) as [-> _]; [|congruence].
    intros H. apply Hn. unfold enabled. pose proof (tail_fixed w s2) as Hf.
    unfold fixed in Hf. by assert (sm (cycle_tail w s2).2 = sm s2) as -> by congruence.
Qed.

Lemma disabled_drive_is_at_rest_witness :
  let s := (wr 0x6040 (PInt 0) moving_servo).2 in
  ¬ enabled (model_update s).2 ∧ actual_velocity (model_update s).2 = f_zero
  ∧ actual_position (model_update s).2 = actual_position s
  ∧ py_lt (PInt 0) (actual_position s) = Ret true.
Proof.
  intros s.
  assert (¬ enabled (model_update s).2) as Hn.
  { intros H. vm_compute in H. discriminate. }
  assert (servo_reachable linear_profile s) as Hr.
  { destruct moving_reachable as (dt & s0 & H0 & Hm). exists dt, s0. split; [exact H0|].
    exact (transitivity (y := moving_servo) Hm (drives_wr 0x6040 (PInt 0) moving_servo)). }
  destruct (disabled_drive_is_at_rest linear_profile s Hr) as [_ Hpos].
  destruct (disabled_drive_is_at_rest linear_profile (model_update s).2) as [Hrest _].
  { destruct Hr as (dt & s0 & H0 & Hr). exists dt, s0. split; [exact H0|].
    exact (transitivity (y := s) Hr (drives_update s)). }
  split_and!; [exact Hn|exact (Hrest Hn)|exact (Hpos Hn)|vm_compute; reflexivity].
Defined.

(** ** The status word *)

Lemma testbit_set_bit b n w i :
  0 ≤ n → 0 ≤ i → Z.testbit (set_bit b n w) i = Z.testbit w i || (b && (n =? i)).
Proof.
  intros Hn Hi. unfold set_bit. destruct b; [|by rewrite orb_false_r].
  rewrite Z.shiftl_1_l, testbit_lor_pow2 by lia. done.
Qed.

Lemma set_bit_false n w : set_bit false n w = w.
Proof. reflexivity. Qed.

Lemma land_set_bit b n w m :
  0 ≤ n → Z.testbit m n = false → Z.land (set_bit b n w) m = Z.land w m.
Proof.
  intros Hn Hm. apply Z.bits_inj'. intros i Hi. rewrite !Z.land_spec, testbit_set_bit by done.
  destruct (Z.eqb_spec n i) as [<-|]; [by rewrite Hm, !andb_false_r|].
  by rewrite andb_false_r, orb_false_r.
Qed.

(** The status word of the machine sets none of the flag bits. *)
Lemma base_bits m : CiA402StateMachine.state m ≠ FAULT →
  let w := CiA402StateMachine.get_statusword m in
  Z.testbit w 10 = false ∧ Z.testbit w 12 = false ∧ Z.testbit w 8 = false
  ∧ Z.testbit w 15 = false ∧ Z.testbit w 11 = false ∧ Z.testbit w 7 = false
  ∧ Z.testbit w 3 = false.
Proof. by destruct m as [[]]. Qed.

(** Neither a fault state nor a homing error ever arises. *)
Definition quiet (s : servo) : Prop :=
  homing_error s = false ∧ CiA402StateMachine.state (sm s) ≠ FAULT.

#[export] Instance quiet_on_od {A} (m : M od A) : Inv quiet (on_od m).
Proof. intros s Hs. unfold on_od, zoom. by destruct (m (od_ s)). Qed.
#[export] Instance quiet_wr i v : Inv quiet (wr i v).
Proof. unfold wr. apply _. Qed.

Lemma quiet_modify (g : servo → servo) :
  (∀ s, sm (g s) = sm s) → (∀ s, homing_error s = false → homing_error (g s) = false) →
  Inv quiet (modify g).
Proof. intros Hsm Hv s [H1 H2]. unfold quiet. simpl. rewrite Hsm. auto. Qed.

Ltac quiet_frame := repeat lazymatch goal with
  | |- Inv _ (_ ≫= _) => apply inv_bind; [|intros ?]
  | |- Inv _ (let _ := _ in _) => cbv zeta
  | |- Inv _ (if ?b then _ else _) => destruct b
  | |- Inv _ (match ?b with _ => _ end) => destruct b
  | |- Inv _ (when _ _) => apply inv_when
  | |- Inv _ (modify _) => apply quiet_modify; intros ?; auto
  | |- Inv _ _ => apply _
  end.

#[export] Instance quiet_feedback : Inv quiet _write_actual_feedback.
Proof. unfold _write_actual_feedback. quiet_frame. Qed.
#[export] Instance quiet_stop : Inv quiet stop_at_current_position.
Proof. unfold stop_at_current_position. quiet_frame. Qed.
#[export] Instance quiet_reached : Inv quiet update_target_reached.
Proof. unfold update_target_reached. quiet_frame. Qed.
#[export] Instance quiet_advance : Inv quiet advance_position.
Proof. unfold advance_position. quiet_frame. Qed.
#[export] Instance quiet_decelerate : Inv quiet _decelerate_to_stop.
Proof. unfold _decelerate_to_stop. quiet_frame. Qed.
#[export] Instance quiet_pp_advance t : Inv quiet (pp_advance t).
Proof. unfold pp_advance. quiet_frame. Qed.
#[export] Instance quiet_pp_move : Inv quiet pp_move.
Proof. unfold pp_move. quiet_frame. Qed.
#[export] Instance quiet_mode m : Inv quiet (process_mode m).
Proof.
  unfold process_mode, process_pp, process_pv, process_csp, process_homing, process_jog,
    homing_start, homing_progress.
  quiet_frame.
Qed.
#[export] Instance quiet_int_role r : Inv quiet (int_role r).
Proof. unfold int_role. quiet_frame. Qed.
#[export] Instance quiet_commands : Inv quiet _apply_od_commands.
Proof.
  unfold _apply_od_commands, _apply_device_reset_response, set_mode, set_target_position.
  quiet_frame.
Qed.
#[export] Instance quiet_process w : Inv quiet (on_sm (CiA402StateMachine.process w)).
Proof.
  intros s [H1 H2]. unfold on_sm, zoom, CiA402StateMachine.process. rewrite lift_bind.
  destruct (py_int w) as [cw|]; [|by split]. split; [done|]. simpl.
  rewrite CiA402StateMachine.process_next.
  by destruct (CiA402StateMachine.decode cw), (CiA402StateMachine.state (sm s)).
Qed.
#[export] Instance quiet_update : Inv quiet model_update.
Proof. unfold model_update, process_cycle. quiet_frame. Qed.

Lemma reachable_quiet p s : servo_reachable p s → quiet s.
Proof.
  intros (dt & s0 & H0 & Hr).
  assert (quiet s0) as H.
  { apply construct_initial in H0 as (_ & H1 & H2 & _). split; [done|]. by rewrite H2. }
  clear H0. induction Hr as [s|s s1 s2 Hs _ IH]; [done|]. apply IH.
  destruct Hs; [by apply quiet_update|by apply quiet_on_od|exact H..].
Qed.

Lemma wr_entries i v s s' : wr i v s = (Ret tt, s') →
  values (od_ s') (inl i) = Some v
  ∧ (∀ k, k ≠ inl i → values (od_ s') k = values (od_ s) k)
  ∧ s' = s <| od_ := od_ s' |>.
Proof.
  unfold wr, on_od, zoom. rewrite write_spec. simpl.
  destruct (entries (od_ s) !! inl i) as [e|]; [|done]. intros [= <-]. simpl.
  unfold values. simpl. rewrite lookup_insert_eq. split_and!; [done| |by destruct s].
  intros k Hk. by rewrite lookup_insert_ne.
Qed.

Lemma values_read o i s : (read i s o).1 = of_option KeyError (values o (_storage_key i s)).
Proof. by rewrite read_spec. Qed.

Lemma limits_same s s' :
  (∀ k, k ≠ inl 0x6041 → values (od_ s') k = values (od_ s) k) →
  (_software_position_limits s').1 = (_software_position_limits s).1.
Proof.
  intros H. unfold _software_position_limits.
  assert (∀ n, (rd_sub 0x607D n s').1 = (rd_sub 0x607D n s).1) as Hr.
  { intros n. unfold rd_sub, on_od, zoom.
    rewrite !read_spec. simpl. f_equal. apply H. unfold _storage_key. by case_match. }
  rewrite !(bind_eq_out (rd_sub 0x607D 1)), Hr. destruct (rd_sub 0x607D 1 s).1 as [n|]; [|done].
  rewrite !lift_bind. destruct (py_float n) as [n'|]; [|done].
  rewrite !(bind_eq_out (rd_sub 0x607D 2)), Hr. destruct (rd_sub 0x607D 2 s).1 as [m|]; [|done].
  rewrite !lift_bind. by destruct (py_float m).
Qed.

Lemma limit_active_same s s' :
  (∀ k, k ≠ inl 0x6041 → values (od_ s') k = values (od_ s) k) →
  software_limit_warning s' = software_limit_warning s →
  actual_position s' = actual_position s →
  (_software_limit_is_active s').1 = (_software_limit_is_active s).1.
Proof.
  intros H Hw Hp. unfold _software_limit_is_active. rewrite !bind_gets, Hw.
  destruct (software_limit_warning s); [done|].
  unfold _actual_position_exceeds_software_limits.
  rewrite !(bind_eq_out _software_position_limits), (limits_same s s' H).
  destruct (_software_position_limits s).1 as [l|]; [|done].
  rewrite !bind_gets, Hp, !lift_bind. destruct (py_lt _ _) as [[]|]; done.
Qed.

(** C20. The status word tells the attributes.  After every completed cycle of a
    reachable drive the object 0x6041 reports the state of the machine and,
    in its bits, exactly: target reached (10), set-point acknowledge (12),
    moving (8), referenced (15) and the software limit (7 and 11); bit 3, the
    fault and homing error bit, is never set. *)
Theorem statusword_tells_attributes p s s' :
  servo_reachable p s → model_update s = (Ret tt, s') →
  ∃ w, value_at (od_ s') 0x6041 None = Some (PInt w)
    ∧ CiA402StateMachine.state_of_status w = Some (CiA402StateMachine.state (sm s'))
    ∧ Z.testbit w 10 = target_reached s'
    ∧ Z.testbit w 12 = pp_setpoint_ack s'
    ∧ Z.testbit w 8 = _is_moving s'
    ∧ Z.testbit w 15 = homing_referenced s'
    ∧ (_software_limit_is_active s').1 = Ret (Z.testbit w 11)
    ∧ Z.testbit w 7 = Z.testbit w 11
    ∧ Z.testbit w 3 = false.
Proof.
  intros Hr Hu. pose proof (quiet_update s (reachable_quiet p s Hr)) as [Hh Hf].
  rewrite Hu in Hh, Hf. simpl in Hh, Hf.
  unfold model_update in Hu. apply bind_Ret_inv in Hu as ([] & s1 & _ & Hu).
  rewrite process_cycle_split in Hu. apply bind_Ret_inv in Hu as (cw & s2 & _ & Hu).
  unfold cycle_tail in Hu. apply bind_Ret_inv in Hu as (mode & s3 & _ & Hu).
  apply bind_Ret_inv in Hu as ([] & s4 & _ & Hu).
  rewrite bind_eq_out in Hu by apply _.
  destruct (_software_limit_is_active s4).1 as [l|] eqn:El; [|done].
  rewrite bind_gets in Hu. apply bind_Ret_inv in Hu as ([] & s5 & Hw & Hu).
  injection Hu as <-.
  destruct (wr_entries _ _ _ _ Hw) as (Hv & Hsame & Hs5).
  set (w := statusword_of mode l s4) in *. exists w.
  assert (sm s5 = sm s4 ∧ homing_error s5 = homing_error s4 ∧ target_reached s5 = target_reached s4
    ∧ pp_setpoint_ack s5 = pp_setpoint_ack s4 ∧ _is_moving s5 = _is_moving s4
    ∧ homing_referenced s5 = homing_referenced s4
    ∧ (_software_limit_is_active s5).1 = (_software_limit_is_active s4).1) as (E1 & E2 & E3 & E4 & E5 & E6 & E7).
  { split_and!; try by rewrite Hs5. apply limit_active_same; [done|by rewrite Hs5..]. }
  change (homing_error s5 = false) in Hh.
  change (CiA402StateMachine.state (sm s5) ≠ FAULT) in Hf.
  assert ((_software_limit_is_active (s5 <| previous_controlword := cw |>)).1 = Ret l) as E8.
  { rewrite <-El, <-E7. by apply limit_active_same. }
  unfold value_at, entry_at. fold (values (od_ s5) (_storage_key 0x6041 None)).
  split; [exact Hv|].
  change (sm (s5 <| previous_controlword := cw |>)) with (sm s5). rewrite E1 in Hf |- *. rewrite E2 in Hh.
  unfold w, statusword_of. rewrite Hh, andb_false_r, set_bit_false.
  split.
  { unfold CiA402StateMachine.state_of_status. rewrite 6!land_set_bit by first [lia|reflexivity].
    by destruct (sm s4) as [[]]. }
  rewrite !testbit_set_bit by lia. cbn [Z.eqb Pos.eqb].
  rewrite E8. change (target_reached (s5 <| previous_controlword := cw |>)) with (target_reached s5).
  change (pp_setpoint_ack (s5 <| previous_controlword := cw |>)) with (pp_setpoint_ack s5).
  change (_is_moving (s5 <| previous_controlword := cw |>)) with (_is_moving s5).
  change (homing_referenced (s5 <| previous_controlword := cw |>)) with (homing_referenced s5).
  rewrite E3, E4, E5, E6.
  rewrite ?andb_false_r, ?andb_true_r, ?orb_false_r.
  destruct (base_bits (sm s4) Hf) as (-> & -> & -> & -> & -> & -> & ->).
  rewrite ?orb_false_l. repeat (split; [reflexivity|]). reflexivity.
Qed.

Lemma statusword_tells_attributes_witness :
  ∃ w, value_at (od_ (model_update moving_servo).2) 0x6041 None = Some (PInt w)
    ∧ Z.testbit w 8 = true ∧ Z.testbit w 3 = false.
Proof.
  destruct (statusword_tells_attributes linear_profile moving_servo (model_update moving_servo).2)
    as (w & Hw & _ & _ & _ & H8 & _ & _ & _ & H3).
  - exact moving_reachable.
  - apply ran_ok. vm_compute. reflexivity.
  - exists w. split; [exact Hw|]. split; [rewrite H8; vm_compute; reflexivity|exact H3].
Defined.
