(* ===== verification/ServoMotion.v ===== *)
(** * Motion of the drive model

    Theorems on the arithmetic of the modes of operation (Servo.v) over
    binary64: the velocity ramp stays between its ends, a profile move does
    not pass its target, the jog velocity obeys the limits; and on the
    bookkeeping around a move: target acceptance, the in-position window and
    the homing run. *)

From S2P Require Import Prelude PyFloat.
From S2P Require Export ServoProps.

Open Scope string_scope.
Open Scope list_scope.
Open Scope Z_scope.

(** ** The velocity ramp *)

Lemma f_abs_le_nonneg x d : f_le f_zero x = true → f_le (f_abs x) d = f_le x d.
Proof. by destruct x as [[]|[]| |[]], d as [[]|[]| |[]]. Qed.

Lemma f_abs_le_nonpos x d : f_le x f_zero = true → f_le (f_abs x) d = f_le (f_opp d) x.
Proof.
  assert (∀ y z, z = f_opp (f_opp z) → f_le (f_opp y) z = f_le (f_opp z) y) as H.
  { intros y z Hz. rewrite Hz at 1. apply f_le_opp. }
  destruct x as [[]|[]| |[] m e]; try done; destruct d as [[]|[]| |[] m' e']; try done;
    intros _; by apply (H (S754_finite true m e)).
Qed.

Lemma f_num_zero : num f_zero.
Proof. done. Qed.

Lemma f_positive_of_gt x d : f_lt f_zero d = true → f_le f_zero x = true → f_le x d = false →
  f_lt f_zero x = true.
Proof. by destruct x as [[]|[]| |[]], d as [[]|[]| |[]]. Qed.

Lemma f_negative_of_lt x d : f_lt f_zero d = true → f_le x f_zero = true →
  f_le (f_opp d) x = false → f_lt f_zero x = false.
Proof. by destruct x as [[]|[]| |[]], d as [[]|[]| |[]]. Qed.

Lemma f_minus_one_eq : f_minus_one = S754_finite true (2 ^ 52) (-52).
Proof. reflexivity. Qed.

Section ramp.
Context (current target max_delta : float).
Hypothesis Hc : num current.
Hypothesis Ht : num target.
Hypothesis Hd : num max_delta.
Let r := _move_towards current target max_delta.
Let δ := f_sub target current.

Lemma delta_order t : num t →
  (f_val target - f_val current ≤ f_val t → f_le δ t = true)
  ∧ (f_val t ≤ f_val target - f_val current → f_le t δ = true).
Proof. intros. by apply f_sub_order. Qed.

(** The ramp towards a target that is not below: the step is zero, the
    whole way, or a positive step that does not reach the target. *)
Lemma ramp_up :
  f_val current ≤ f_val target → f_le max_delta f_zero = false →
  r = target ∨
  (f_val max_delta < f_val target - f_val current ∧ r = f_add current max_delta).
Proof.
  intros Hup Hpos. unfold r, _move_towards. rewrite Hpos. fold δ.
  assert (f_le f_zero δ = true) as H0 by (apply delta_order; [done|]; simpl; lia).
  rewrite f_abs_le_nonneg by done. destruct (f_le δ max_delta) eqn:E; [by left|]. right.
  assert (0 < f_val max_delta) as Hpos'.
  { rewrite f_le_false_val in Hpos by done. simpl in Hpos. lia. }
  rewrite f_positive_of_gt with (d := max_delta); [|by apply f_lt_val|done|done].
  unfold f_one. rewrite f_mul_one_sign by done. split; [|done].
  destruct (Z.lt_ge_cases (f_val max_delta) (f_val target - f_val current)); [done|].
  destruct (delta_order max_delta) as [Hle _]; [done|]. rewrite Hle in E; done.
Qed.

Lemma ramp_down :
  f_val target ≤ f_val current → f_le max_delta f_zero = false →
  r = target ∨
  (f_val max_delta < f_val current - f_val target ∧ r = f_add current (f_opp max_delta)).
Proof.
  intros Hdn Hpos. unfold r, _move_towards. rewrite Hpos. fold δ.
  assert (f_le δ f_zero = true) as H0 by (apply delta_order; [done|]; simpl; lia).
  rewrite f_abs_le_nonpos by done. destruct (f_le (f_opp max_delta) δ) eqn:E; [by left|]. right.
  assert (0 < f_val max_delta) as Hpos'.
  { rewrite f_le_false_val in Hpos by done. simpl in Hpos. lia. }
  rewrite f_negative_of_lt with (d := max_delta); [|by apply f_lt_val|done|done].
  rewrite f_minus_one_eq, f_mul_one_sign by done. split; [|done].
  destruct (Z.lt_ge_cases (f_val max_delta) (f_val current - f_val target)); [done|].
  destruct (delta_order (f_opp max_delta)) as [_ Hge]; [by apply num_opp|].
  rewrite f_val_opp in Hge. rewrite Hge in E by lia. done.
Qed.

Lemma ramp_between :
  (f_val current ≤ f_val target → f_le current r = true ∧ f_le r target = true)
  ∧ (f_val target ≤ f_val current → f_le target r = true ∧ f_le r current = true).
Proof.
  destruct (f_le max_delta f_zero) eqn:Hpos.
  { assert (r = current) as -> by (unfold r, _move_towards; by rewrite Hpos).
    rewrite !f_le_val by done. lia. }
  assert (0 < f_val max_delta) as Hpos'.
  { rewrite f_le_false_val in Hpos by done. simpl in Hpos. lia. }
  split; intros H.
  - destruct (ramp_up H Hpos) as [->|[Hlt ->]]; [rewrite !f_le_val by done; lia|].
    split; [apply f_add_ge|apply f_add_le]; (done || lia).
  - destruct (ramp_down H Hpos) as [->|[Hlt ->]]; [rewrite !f_le_val by done; lia|].
    split; [apply f_add_ge|apply f_add_le]; rewrite ?f_val_opp;
      first [by apply num_opp|done|lia].
Qed.

Lemma ramp_valid : valid r = true.
Proof.
  destruct Hc, Ht, Hd. unfold r, _move_towards.
  destruct (f_le max_delta f_zero); [done|]. destruct (f_le _ max_delta); [done|].
  destruct (f_lt _ _); [unfold f_one|rewrite f_minus_one_eq];
    rewrite f_mul_one_sign by done; apply f_add_valid; rewrite ?valid_opp; done.
Qed.

Lemma ramp_num : num r.
Proof.
  destruct ramp_between as [H1 H2].
  destruct (Z.le_ge_cases (f_val current) (f_val target)) as [H|H].
  - destruct (H1 H). eapply (f_between_num current r target); eauto using ramp_valid.
  - destruct (H2 H). eapply (f_between_num target r current); eauto using ramp_valid.
Qed.
End ramp.

(** ** Properties *)

(** C25. The velocity ramp.  On finite floats, with rounding, [_move_towards]
    returns a finite velocity between the current and the target velocity; a
    step that is not positive keeps the current one; a distance within the
    step is taken at once, so the target is hit exactly. *)
Theorem move_towards_between current target max_delta :
  num current → num target → num max_delta →
  let r := _move_towards current target max_delta in
  num r
  ∧ (f_le current target = true → f_le current r = true ∧ f_le r target = true)
  ∧ (f_le target current = true → f_le target r = true ∧ f_le r current = true)
  ∧ (f_le max_delta f_zero = true → r = current)
  ∧ (0 < f_val max_delta → Z.abs (f_val target - f_val current) ≤ f_val max_delta → r = target).
Proof.
  intros Hc Ht Hd r. split_and!.
  - by apply ramp_num.
  - rewrite f_le_val by done. by apply ramp_between.
  - rewrite f_le_val by done. by apply ramp_between.
  - intros H. unfold r, _move_towards. by rewrite H.
  - intros H0 H.
    assert (f_le max_delta f_zero = false) as Hpos by (apply f_le_false_val; done).
    destruct (Z.le_ge_cases (f_val current) (f_val target)) as [Hle|Hle].
    + destruct (ramp_up current target max_delta Hc Ht Hd Hle Hpos) as [|[? _]]; [done|lia].
    + destruct (ramp_down current target max_delta Hc Ht Hd Hle Hpos) as [|[? _]]; [done|lia].
Qed.

Lemma move_towards_between_witness :
  let r := _move_towards (f_dec 1 (-1)) (f_dec 7 (-1)) (f_dec 3 (-1)) in
  f_le (f_dec 1 (-1)) r = true ∧ f_le r (f_dec 7 (-1)) = true.
Proof.
  apply (move_towards_between (f_dec 1 (-1)) (f_dec 7 (-1)) (f_dec 3 (-1)));
    first [vm_compute; reflexivity | split; vm_compute; reflexivity].
Defined.

(** ** Profile moves *)

(** [reads v x]: the number [v] is worth the float [x], of at most 52 bits
    before the point (every 32-bit position is). *)
Definition unit_bound : Z := D emin64 (2 ^ 52) 0.

Definition reads (v : pyval) (x : float) : Prop :=
  num x ∧ Z.abs (f_val x) ≤ unit_bound ∧
  match v with
  | PFloat f => f = x
  | PInt z => x = f_of_Z z ∧ Z.abs z < 2 ^ 52
  | _ => False
  end.

Lemma f_mul_positive_wide x y :
  num x → f_eq x f_zero = false → valid y = true → y ≠ S754_nan →
  f_le (f_mul x y) f_zero = false →
  (f_lt f_zero x = true ∧ f_lt f_zero y = true) ∨ (f_lt x f_zero = true ∧ f_lt y f_zero = true).
Proof.
  intros Hx H0 Vy Ny. destruct y as [sy|sy| |sy my ey]; try done.
  - intros H. apply f_mul_positive in H; [done..].
  - destruct Hx as [Vx Fx]. destruct x as [sx|sx| |sx mx ex]; try done.
    destruct sx, sy; simpl; auto; done.
  - intros H. by apply f_mul_positive.
Qed.

Lemma unit_diff_num x y :
  num x → num y → Z.abs (f_val x) ≤ unit_bound → Z.abs (f_val y) ≤ unit_bound →
  num (f_sub x y).
Proof.
  intros Hx Hy Bx By. destruct (f_sub_order x y f_max_float) as [H1 _]; [done..|exact f_max_float_num|].
  destruct (f_sub_order x y (f_opp f_max_float)) as [_ H2];
    [done..|apply num_opp, f_max_float_num|].
  assert (2 * unit_bound ≤ f_val f_max_float) by (vm_compute; discriminate).
  rewrite f_val_opp in H2.
  eapply (f_between_num (f_opp f_max_float) _ f_max_float);
    [apply num_opp, f_max_float_num|exact f_max_float_num| | |].
  - apply f_sub_valid; [apply Hx|apply Hy].
  - apply H2. lia.
  - apply H1. lia.
Qed.

Lemma f_sub_positive x y : num x → num y → f_lt f_zero (f_sub x y) = true → f_val y < f_val x.
Proof.
  intros Hx Hy H. destruct (f_sub_order x y f_zero) as [H1 _]; [done..|].
  destruct (Z.lt_ge_cases (f_val y) (f_val x)) as [|Hge]; [done|].
  assert (f_le (f_sub x y) f_zero = true) as H2 by (apply H1; simpl; lia).
  revert H H2. by destruct (f_sub x y) as [[]|[]| |[]].
Qed.

Lemma f_sub_negative x y : num x → num y → f_lt (f_sub x y) f_zero = true → f_val x < f_val y.
Proof.
  intros Hx Hy H. destruct (f_sub_order x y f_zero) as [_ H1]; [done..|].
  destruct (Z.lt_ge_cases (f_val x) (f_val y)) as [|Hge]; [done|].
  assert (f_le f_zero (f_sub x y) = true) as H2 by (apply H1; simpl; lia).
  revert H H2. by destruct (f_sub x y) as [[]|[]| |[]].
Qed.

Lemma f_of_Z_sign z : Z.abs z < 2 ^ 53 →
  num (f_of_Z z) ∧ (f_lt f_zero (f_of_Z z) = true → 0 < z) ∧ (f_lt (f_of_Z z) f_zero = true → z < 0).
Proof.
  intros Hz. destruct (f_of_Z_exact z Hz) as [Hn Hv]. split; [done|].
  rewrite !f_lt_val by done. change (f_val f_zero) with 0. rewrite Hv.
  unfold D. pose proof (pow2_pos (0 - emin64) ltac:(unfold emin64; lia)). nia.
Qed.

Lemma f_val_int_lt a b : Z.abs a < 2 ^ 52 → Z.abs b < 2 ^ 52 →
  a < b → f_val (f_of_Z a) < f_val (f_of_Z b).
Proof.
  intros Ha Hb H. destruct (f_of_Z_exact a) as [_ ->]; [lia|].
  destruct (f_of_Z_exact b) as [_ ->]; [lia|].
  apply D_lt; [unfold emin64; lia|done].
Qed.

Lemma float_of_Z_exact z : Z.abs z < 2 ^ 53 → float_of_Z z = Ret (f_of_Z z).
Proof.
  intros Hz. destruct (f_of_Z_exact z Hz) as [[_ Hf] _]. unfold float_of_Z.
  by destruct (f_of_Z z).
Qed.

(** The difference of two readings: a finite float worth, whose sign tells
    the order. *)
Lemma reads_sub t p x y left :
  reads t x → reads p y → py_sub t p = Ret left →
  ∃ δ, py_operand left = Ret δ ∧ num δ
    ∧ (py_eq left (PFloat f_zero) = f_eq δ f_zero)
    ∧ (f_lt f_zero δ = true → f_val y < f_val x)
    ∧ (f_lt δ f_zero = true → f_val x < f_val y).
Proof.
  intros (Nx & Bx & Hx) (Ny & By & Hy) H.
  assert (∀ f, left = PFloat f → f = f_sub x y →
    ∃ δ, py_operand left = Ret δ ∧ num δ ∧ (py_eq left (PFloat f_zero) = f_eq δ f_zero)
      ∧ (f_lt f_zero δ = true → f_val y < f_val x) ∧ (f_lt δ f_zero = true → f_val x < f_val y)) as Hf.
  { intros f -> ->. exists (f_sub x y). split_and!; [done|by apply unit_diff_num|done|..];
      [by apply f_sub_positive|by apply f_sub_negative]. }
  destruct t as [a|f| | |]; try done; destruct p as [b|g| | |]; try done;
    unfold py_sub, arith in H; simpl in H.
  - destruct Hx as [-> Ha], Hy as [-> Hb]. injection H as <-.
    exists (f_of_Z (a - b)). destruct (f_of_Z_sign (a - b)) as (Hn & Hp & Hm); [lia|].
    split_and!; [by apply float_of_Z_exact; lia|done| | |].
    + unfold py_eq. simpl. destruct (f_of_Z_exact (a - b)) as [_ Hv]; [lia|].
      destruct (f_of_Z (a - b)) as [s|s| |s m e]; try (by destruct Hn).
      * simpl in Hv. unfold D in Hv. pose proof (pow2_pos (0 - emin64) ltac:(unfold emin64; lia)).
        assert (a - b = 0) as -> by nia. done.
      * cbn in Hv. unfold D in Hv. pose proof (pow2_pos (0 - emin64) ltac:(unfold emin64; lia)).
        assert (emin64 ≤ e) by (apply (valid_emin s m e), Hn).
        pose proof (pow2_pos (e - emin64) ltac:(lia)) as He.
        destruct (a - b) eqn:E; [destruct s; cbn in Hv; nia|by destruct s..].
    + intros Hlt. apply f_val_int_lt; [done|done|]. specialize (Hp Hlt). lia.
    + intros Hlt. apply f_val_int_lt; [done|done|]. specialize (Hm Hlt). lia.
  - destruct Hx as [-> Ha]. subst g. rewrite float_of_Z_exact in H by lia. simpl in H. injection H as <-.
    by apply (Hf (f_sub (f_of_Z a) y)).
  - destruct Hy as [-> Hb]. subst f. rewrite float_of_Z_exact in H by lia. simpl in H. injection H as <-.
    by apply (Hf (f_sub x (f_of_Z b))).
  - subst f g. injection H as <-. by apply (Hf (f_sub x y)).
Qed.

(** [beyond x y t]: [x] and [y] lie strictly on one side of [t]. *)
Definition same_side (x y t : float) : Prop :=
  (f_lt x t = true ∧ f_lt y t = true) ∨ (f_lt t x = true ∧ f_lt t y = true).

Lemma pp_advance_side target t x s s' :
  reads target t → reads (actual_position s) x →
  pp_advance target s = (Ret tt, s') →
  (actual_position s' = target ∧ actual_velocity s' = f_zero ∧ pp_active s' = false)
  ∨ (∃ y, actual_position s' = PFloat y ∧ (num y → same_side x y t)).
Proof.
  intros Ht Hx H. unfold pp_advance in H. rewrite !bind_gets in H.
  rewrite bind_eq_out in H by apply _.
  destruct (_velocity_to_position_rate _ s).1 as [rate|]; [|done].
  rewrite bind_gets, !lift_bind in H.
  destruct (py_add _ _) as [next|] eqn:En; [|done]. rewrite lift_bind in H.
  assert (∃ y, next = PFloat y) as [y ->].
  { unfold py_add, arith in En.
    destruct (py_number (actual_position s)) as [[z|f]|]; simpl in En; [|injection En as <-; eauto|done].
    destruct (float_of_Z z); simpl in En; [injection En as <-; eauto|done]. }
  destruct (py_sub target (actual_position s)) as [left|] eqn:El; [|done].
  destruct (reads_sub _ _ _ _ _ Ht Hx El) as (δ & Hδ & Nδ & Heq & Hpos & Hneg).
  rewrite Heq in H. destruct (f_eq δ f_zero) eqn:E0.
  { rewrite bind_ret_l in H. minv H. by left. }
  rewrite bind_assoc, lift_bind in H.
  destruct (py_sub target (PFloat y)) as [after|] eqn:Ea; [|done].
  assert (after = PFloat (f_sub t y)) as ->.
  { destruct Ht as (_ & _ & Ht). unfold py_sub, arith in Ea. destruct target; try done; simpl in Ea.
    - destruct Ht as [-> Hz]. rewrite float_of_Z_exact in Ea by lia. simpl in Ea. by injection Ea as <-.
    - subst f. by injection Ea as <-. }
  rewrite bind_assoc, lift_bind in H.
  assert (py_mul left (PFloat (f_sub t y)) = Ret (PFloat (f_mul δ (f_sub t y)))) as Hm.
  { unfold py_mul, arith. unfold py_operand in Hδ.
    destruct (py_number left) as [n|]; simpl in *; [|done]. rewrite Hδ. by destruct n. }
  rewrite Hm in H. cbv beta iota in H.
  assert (py_le (PFloat (f_mul δ (f_sub t y))) (PFloat f_zero)
    = Ret (f_le (f_mul δ (f_sub t y)) f_zero)) as Hle.
  { unfold py_le. simpl. unfold f_le, SFleb, f_cmp.
    by destruct (SFcompare (f_mul δ (f_sub t y)) f_zero) as [[]|]. }
  rewrite Hle, lift_bind in H.
  destruct (f_le (f_mul δ (f_sub t y)) f_zero) eqn:Ep; minv H; [by left|].
  right. exists y. split; [done|]. intros Ny.
  destruct Ht as (Nt & _), Hx as (Nx & _).
  destruct (f_mul_positive_wide δ (f_sub t y)) as [[H1 H2]|[H1 H2]]; try done.
  - apply f_sub_valid; [apply Nt|apply Ny].
  - intros Hnan. destruct (f_sub_order t y f_zero) as [Hs Hs']; [done..|].
    rewrite Hnan in Hs, Hs'. simpl in Hs, Hs'.
    destruct (Z.le_ge_cases (f_val t - f_val y) 0); [by discriminate Hs|by discriminate Hs'].
  - left. rewrite !f_lt_val by done. split; [auto|by apply f_sub_positive].
  - right. rewrite !f_lt_val by done. split; [auto|by apply f_sub_negative].
Qed.

(** Walk over the reading statements of a body. *)
Ltac reads_in H :=
  repeat first
    [ rewrite bind_gets in H
    | rewrite lift_bind in H;
      match type of H with context [match ?m with Ret _ => _ | Raise _ => _ end] =>
        destruct m; [|discriminate H] end
    | rewrite bind_eq_out in H by apply _;
      match type of H with context [match (?m ?s).1 with Ret _ => _ | Raise _ => _ end] =>
        destruct (m s).1; [|discriminate H] end ].

Definition place (s : servo) := (actual_position s, actual_velocity s, pp_active s).

Lemma place_report (m : M servo ()) s s' : Preserves place m → m s = (Ret tt, s') →
  actual_position s' = actual_position s ∧ actual_velocity s' = actual_velocity s
  ∧ pp_active s' = pp_active s.
Proof. intros Hm H. specialize (Hm s). rewrite H in Hm. unfold place in Hm. simpl in Hm. by simplify_eq. Qed.

#[export] Instance wr_place i v : Preserves place (wr i v).
Proof. unfold wr. by apply preserves_zoom. Qed.
#[export] Instance feedback_place : Preserves place _write_actual_feedback.
Proof. unfold _write_actual_feedback. frame. Qed.
#[export] Instance reached_place : Preserves place update_target_reached.
Proof. unfold update_target_reached. frame. Qed.

(** C3. A profile move does not pass its target.  A completed turn of a move
    towards a 52-bit target either ends exactly on the target, at velocity
    zero and with the move closed, or leaves the position strictly on the
    side of the target where it was. *)
Theorem pp_never_passes_target t x s s' :
  reads (pp_target_position s) t → reads (actual_position s) x →
  pp_move s = (Ret tt, s') →
  (actual_position s' = pp_target_position s ∧ actual_velocity s' = f_zero ∧ pp_active s' = false)
  ∨ (∃ y, actual_position s' = PFloat y ∧ (num y → same_side x y t)).
Proof.
  intros Ht Hx H. unfold pp_move in H. reads_in H.
  match type of H with (if ?b then _ else _) _ = _ => destruct b end.
  - left. apply bind_Ret_inv in H as ([] & sa & H1 & H).
    apply bind_Ret_inv in H as ([] & sb & H2 & H).
    apply bind_Ret_inv in H as ([] & sc & H3 & H).
    unfold modify in H1, H2, H3. simplify_eq.
    apply (place_report (_write_actual_feedback ;; update_target_reached)) in H as (-> & -> & ->);
      [done|apply _].
  - reads_in H.
    match type of H with (let '(_, _) := ?p in _) _ = _ => destruct p end.
    reads_in H. apply bind_Ret_inv in H as ([] & sa & H1 & H).
    apply bind_Ret_inv in H as ([] & sb & H2 & H).
    apply (place_report (_write_actual_feedback ;; update_target_reached)) in H as (-> & -> & ->);
      [|apply _].
    unfold modify in H1. simplify_eq.
    by apply (pp_advance_side _ t x) in H2.
Qed.

(** The linear drive, referenced, in the middle of a move to 5000. *)
Definition pp_run : M servo () :=
  reference ;; cycle 0x0F 1 5000 100 ;; cycles 5 (cycle 0x1F 1 5000 100).
Definition pp_servo : servo := (pp_run linear_servo).2.

Lemma pp_never_passes_target_witness :
  ∃ y, actual_position (pp_move pp_servo).2 = PFloat y ∧ f_lt y (f_of_Z 5000) = true.
Proof.
  destruct (pp_never_passes_target (f_of_Z 5000)
    (match actual_position pp_servo with PFloat x => x | _ => f_zero end)
    pp_servo (pp_move pp_servo).2) as [[H _]|(y & Hy & Hs)].
  - split; [|split]; [split; vm_compute; reflexivity|vm_compute; discriminate|].
    vm_compute. split; reflexivity.
  - split; [|split]; [split; vm_compute; reflexivity|vm_compute; discriminate|].
    vm_compute. reflexivity.
  - apply ran_ok. vm_compute. reflexivity.
  - exfalso. vm_compute in H. discriminate.
  - exists y. split; [exact Hy|].
    assert (num y) as Ny.
    { vm_compute in Hy. injection Hy as <-. split; vm_compute; reflexivity. }
    destruct (Hs Ny) as [[_ H]|[H _]]; [exact H|]. vm_compute in H. discriminate.
Defined.
