(* ===== verification/ServoHoming.v ===== *)
(** * Homing of the drive model

    [process_homing] and [process_cycle] (Servo.v) run on a dictionary that
    holds what homing reads and writes: a run that starts completes after the
    number of cycles the code computes. *)

From S2P Require Import Prelude PyFloat.
From S2P Require Export ServoMotion.

Open Scope string_scope.
Open Scope list_scope.
Open Scope Z_scope.

(** ** Running a body on a known dictionary *)

Lemma rd_ok i v s : values (od_ s) (inl i) = Some v → rd i s = (Ret v, s).
Proof.
  intros H. rewrite reader_run by apply _. unfold rd, on_od, zoom. rewrite read_spec.
  unfold value_at, entry_at. simpl. unfold values in H. by rewrite H.
Qed.

Lemma rd_sub_ok i n v s : n ≠ 0 → values (od_ s) (inr (i, n)) = Some v → rd_sub i n s = (Ret v, s).
Proof.
  intros Hn H. rewrite reader_run by apply _. unfold rd_sub, on_od, zoom. rewrite read_spec.
  unfold value_at, entry_at, _storage_key. simpl. unfold values in H.
  by rewrite (proj2 (Z.eqb_neq n 0)), H.
Qed.

Lemma wr_ok i v s : is_Some (values (od_ s) (inl i)) →
  ∃ o, wr i v s = (Ret tt, s <| od_ := o |>)
    ∧ ∀ k, values o k = if decide (k = inl i) then Some v else values (od_ s) k.
Proof.
  unfold wr, on_od, zoom, values. rewrite write_spec. simpl.
  destruct (entries (od_ s) !! inl i) as [e|]; simpl; [|by intros [? ?]].
  intros _. eexists. split; [reflexivity|]. intros k. simpl. rewrite lookup_insert.
  case_decide; [|by rewrite decide_False by congruence]. subst.
  by rewrite decide_True.
Qed.

Lemma bit_ok cw n s : 0 ≤ n → bit (PInt cw) n s = (Ret (Z.testbit cw n), s).
Proof.
  intros Hn. unfold bit. simpl. rewrite lift_bind. unfold mret, M_ret. do 2 f_equal.
  rewrite Z.shiftl_1_l. destruct (Z.testbit cw n) eqn:E.
  - apply negb_true_iff, Z.eqb_neq. intros H.
    assert (Z.testbit (Z.land cw (2 ^ n)) n = true) as Hb.
    { by rewrite Z.land_spec, E, Z.pow2_bits_true. }
    by rewrite H, Z.bits_0 in Hb.
  - apply negb_false_iff, Z.eqb_eq. apply Z.bits_inj'. intros i Hi.
    rewrite Z.land_spec, Z.bits_0, Z.pow2_bits_eqb by lia.
    destruct (Z.eqb_spec n i) as [<-|]; [by rewrite E|apply andb_false_r].
Qed.

(** ** The homing run *)

(** The dictionary of a drive in homing mode, with the given control word. *)
Record homing_od (cw : Z) (o : od) : Prop := {
  ho_word : values o (inl 0x6040) = Some (PInt cw);
  ho_mode : values o (inl 0x6060) = Some (PInt 6);
  ho_status : is_Some (values o (inl 0x6041));
  ho_target : is_Some (values o (inl 0x607A));
  ho_position : is_Some (values o (inl 0x6064));
  ho_velocity : is_Some (values o (inl 0x606C));
  ho_limits : ∃ n p n' p', values o (inr (0x607D, 1)) = Some n ∧ py_float n = Ret n'
    ∧ values o (inr (0x607D, 2)) = Some p ∧ py_float p = Ret p';
}.

Ltac is_elem := match goal with |- ?P => exact (bool_decide_unpack P I) end.

Lemma homing_od_wr cw i v o o' :
  i ∈ [0x6041; 0x607A; 0x6064; 0x606C] → homing_od cw o →
  (∀ k, values o' k = if decide (k = inl i) then Some v else values o k) → homing_od cw o'.
Proof.
  intros Hi [H1 H2 H3 H4 H5 H6 H7] H.
  assert (∀ k, is_Some (values o k) → is_Some (values o' k)) as Hs.
  { intros k Hk. rewrite H. by case_decide. }
  assert (∀ j, j ∉ [0x6041; 0x607A; 0x6064; 0x606C] → values o' (inl j) = values o (inl j)) as Hl.
  { intros j Hj. rewrite H, decide_False; [done|]. intros [= ->]. by apply Hj. }
  split; auto.
  - by rewrite Hl by is_elem.
  - by rewrite Hl by is_elem.
  - destruct H7 as (n & p & n' & p' & A & B & C & E). exists n, p, n', p'.
    rewrite !H, !decide_False by done. done.
Qed.

Lemma wr_homing cw i v s :
  i ∈ [0x6041; 0x607A; 0x6064; 0x606C] → homing_od cw (od_ s) →
  ∃ o, wr i v s = (Ret tt, s <| od_ := o |>) ∧ homing_od cw o
    ∧ ∀ k, values o k = if decide (k = inl i) then Some v else values (od_ s) k.
Proof.
  intros Hi Ho.
  destruct (wr_ok i v s) as (o & E & H).
  { destruct Ho. rewrite !elem_of_cons in Hi. destruct Hi as [->|[->|[->|[->|Hi]]]]; try done.
    by apply elem_of_nil in Hi. }
  exists o. split_and!; [done| |done]. by eapply homing_od_wr.
Qed.

Lemma feedback_homing cw s : homing_od cw (od_ s) →
  ∃ o, _write_actual_feedback s = (Ret tt, s <| od_ := o |>) ∧ homing_od cw o
    ∧ values o (inl 0x607A) = values (od_ s) (inl 0x607A).
Proof.
  intros H. unfold _write_actual_feedback. rewrite bind_gets.
  destruct (wr_homing cw 0x6064 (actual_position s) s) as (o1 & E1 & H1 & V1); [is_elem|done|].
  rewrite (bind_eq_ret _ _ _ _ _ E1), bind_gets.
  destruct (wr_homing cw 0x606C (PFloat (actual_velocity s)) (s <| od_ := o1 |>)) as (o2 & E2 & H2 & V2);
    [is_elem|done|].
  exists o2. split_and!; [exact E2|done|]. by rewrite V2, decide_False, V1, decide_False.
Qed.

Lemma py_lt_numbers a b m n : py_number a = Ret m → py_number b = Ret n → ∃ c, py_lt a b = Ret c.
Proof. intros Ha Hb. unfold py_lt, py_cmp. rewrite Ha, Hb. simpl. by eexists. Qed.

Lemma limit_ok cw s n : homing_od cw (od_ s) → py_number (actual_position s) = Ret n →
  ∃ l, (_software_limit_is_active s).1 = Ret l.
Proof.
  intros Ho Hp. destruct (ho_limits _ _ Ho) as (a & b & a' & b' & A & A' & B & B').
  unfold _software_limit_is_active. rewrite bind_gets. destruct (software_limit_warning s); [by eexists|].
  unfold _actual_position_exceeds_software_limits, _software_position_limits.
  rewrite bind_assoc, (bind_eq_ret _ _ _ _ _ (rd_sub_ok _ 1 _ _ ltac:(done) A)).
  rewrite bind_assoc, lift_bind, A'.
  rewrite bind_assoc, (bind_eq_ret _ _ _ _ _ (rd_sub_ok _ 2 _ _ ltac:(done) B)).
  rewrite bind_assoc, lift_bind, B', bind_ret_l, bind_gets, lift_bind.
  set (l := if f_lt b' a' then _ else _).
  destruct (py_lt_numbers (actual_position s) (PFloat l.1) n (NFloat l.1)) as [c ->]; [done..|].
  destruct c; [by eexists|].
  destruct (py_lt_numbers (PFloat l.2) (actual_position s) (NFloat l.2) n) as [c ->]; [done..|].
  by eexists.
Qed.

Lemma start_spec cw s n :
  homing_od cw (od_ s) → (q ← py_div (f_dec 1 (-1)) (cycle_time s); int_of_float q) = Ret n →
  ∃ o, homing_start s = (Ret tt, s <| homing_active := true |> <| homing_counter := Z.max 1 n |>
      <| homing_referenced := false |> <| homing_error := false |> <| actual_velocity := f_zero |>
      <| od_ := o |> <| target_reached := false |>) ∧ homing_od cw o.
Proof.
  intros Ho Hn. apply outcome_bind_inv in Hn as (q & Hq & Hn).
  destruct (feedback_homing cw (s <| homing_active := true |> <| homing_counter := Z.max 1 n |>
      <| homing_referenced := false |> <| homing_error := false |> <| actual_velocity := f_zero |>))
    as (o & E & Ho' & _); [exact Ho|].
  exists o. split; [|exact Ho'].
  unfold homing_start.
  rewrite (bind_eq_ret (homing_active <~ true) _ s tt _ eq_refl), bind_gets, lift_bind.
  change (cycle_time (s <| homing_active := true |>)) with (cycle_time s).
  rewrite Hq, lift_bind, Hn.
  match goal with |- (?m ≫= ?k) ?x = _ => change ((m ≫= k) x) with
    ((_write_actual_feedback ≫= λ _, target_reached <~ false)
       (x <| homing_counter := Z.max 1 n |> <| homing_referenced := false |>
          <| homing_error := false |> <| actual_velocity := f_zero |>)) end.
  by rewrite (bind_eq_ret _ _ _ _ _ E).
Qed.

(** The state of a run with [c] cycles left, and after the last. *)
Definition counting (cw : Z) (c : Z) (s : servo) : Prop :=
  homing_active s = true ∧ homing_counter s = c ∧ homing_referenced s = false
  ∧ target_reached s = false ∧ homing_od cw (od_ s) ∧ enabled s
  ∧ (∃ n, py_number (actual_position s) = Ret n).

Definition homed (cw : Z) (s : servo) : Prop :=
  homing_active s = false ∧ homing_referenced s = true ∧ target_reached s = true
  ∧ actual_position s = PFloat f_zero ∧ actual_velocity s = f_zero
  ∧ values (od_ s) (inl 0x607A) = Some (PFloat f_zero)
  ∧ homing_od cw (od_ s) ∧ enabled s.

Lemma progress_spec cw c s :
  counting cw c s →
  ∃ s', homing_progress s = (Ret tt, s') ∧ fixed s' = fixed s
    ∧ if 0 <? c - 1 then counting cw (c - 1) s' else homed cw s'.
Proof.
  intros (Ha & Hc & Hr & Ht & Ho & He & Hp). unfold homing_progress.
  rewrite (bind_eq_ret (modify _) _ s tt _ eq_refl), bind_gets.
  change (homing_counter (s <| homing_counter := homing_counter s - 1 |>)) with (homing_counter s - 1).
  rewrite Hc. destruct (0 <? c - 1) eqn:E.
  { eexists. split; [reflexivity|]. split; [reflexivity|]. by split_and!. }
  set (s1 := s <| homing_counter := c - 1 |> <| actual_position := PFloat f_zero |>
    <| actual_velocity := f_zero |>).
  destruct (wr_homing cw 0x607A (PFloat f_zero) s1) as (o1 & E1 & Ho1 & V1); [is_elem|exact Ho|].
  destruct (feedback_homing cw (s1 <| od_ := o1 |>)) as (o2 & E2 & Ho2 & V2); [exact Ho1|].
  exists (s1 <| od_ := o2 |> <| target_reached := true |> <| homing_active := false |>
    <| homing_referenced := true |>).
  split; [|split; [reflexivity|]].
  - match goal with |- (?m ≫= ?k) ?x = _ => change ((m ≫= k) x) with
      ((wr 0x607A (PFloat f_zero) ≫= λ _, _write_actual_feedback ≫= λ _,
        target_reached <~ true ;; homing_active <~ false ;; homing_referenced <~ true) s1) end.
    rewrite (bind_eq_ret _ _ _ _ _ E1), (bind_eq_ret _ _ _ _ _ E2). reflexivity.
  - split_and!; try done. change (values o2 (inl 0x607A) = Some (PFloat f_zero)).
    rewrite V2. change (od_ (s1 <| od_ := o1 |>)) with o1. by rewrite V1, decide_True.
Qed.

(** What a cycle of a homing drive leaves: the mode's result, reported. *)
Lemma homing_cycle cw s s1 n :
  enabled s → homing_od cw (od_ s) →
  CiA402StateMachine.decode cw = CiA402StateMachine.EnableOperation →
  process_homing (s <| halt_active := Z.testbit cw 8 |>) = (Ret tt, s1) →
  homing_od cw (od_ s1) → fixed s1 = fixed s → py_number (actual_position s1) = Ret n →
  ∃ o w, process_cycle s
    = (Ret tt, s1 <| od_ := o |> <| previous_controlword := PInt cw |>)
    ∧ homing_od cw o ∧ values o (inl 0x607A) = values (od_ s1) (inl 0x607A)
    ∧ values o (inl 0x6041) = Some (PInt w).
Proof.
  intros He Ho Hdec Hh Ho1 Hf Hn.
  assert (process_cycle s = (cycle_head ≫= cycle_tail) s) as -> by apply process_cycle_split.
  assert (cycle_head s = (Ret (PInt cw), s <| halt_active := Z.testbit cw 8 |>)) as Hhead.
  { unfold cycle_head. rewrite (bind_eq_ret _ _ _ _ _ (rd_ok _ _ _ (ho_word _ _ Ho))).
    rewrite (bind_eq_ret _ _ _ _ _ (bit_ok cw 8 s ltac:(done))).
    rewrite (bind_eq_ret (modify _) _ s tt _ eq_refl).
    set (s2 := s <| halt_active := Z.testbit cw 8 |>).
    assert (enabled s2) as He2 by exact He.
    rewrite (bind_eq_ret _ _ _ _ _ (operation_enabled_spec s2)), bool_decide_eq_true_2 by done.
    assert (on_sm (CiA402StateMachine.process (PInt cw)) s2 = (Ret tt, s2)) as Hsm.
    { unfold on_sm, zoom, CiA402StateMachine.process.
      change (py_int (PInt cw)) with (@Ret Z cw). rewrite lift_bind. unfold modify.
      rewrite CiA402StateMachine.process_next, Hdec.
      unfold enabled in He2. clearbody s2. destruct s2 as [? ? ? [st]]. simpl in *. by subst. }
    rewrite (bind_eq_ret _ _ _ _ _ Hsm).
    rewrite (bind_eq_ret _ _ _ _ _ (operation_enabled_spec s2)), bool_decide_eq_true_2 by done.
    reflexivity. }
  rewrite (bind_eq_ret _ _ _ _ _ Hhead). unfold cycle_tail.
  rewrite (bind_eq_ret (rd 0x6060) _ _ (PInt 6) (s <| halt_active := Z.testbit cw 8 |>))
    by (apply rd_ok; apply (ho_mode _ _ Ho)).
  change (process_mode (PInt 6)) with process_homing.
  rewrite (bind_eq_ret _ _ _ _ _ Hh).
  destruct (limit_ok cw s1 n Ho1 Hn) as [l Hl].
  rewrite bind_eq_out by apply _. rewrite Hl, bind_gets.
  destruct (wr_homing cw 0x6041 (PInt (statusword_of (PInt 6) l s1)) s1) as (o & E & Hwo & V);
    [is_elem|done|].
  rewrite (bind_eq_ret _ _ _ _ _ E). exists o, (statusword_of (PInt 6) l s1).
  split; [reflexivity|]. split; [done|]. by rewrite !V, decide_False, decide_True.
Qed.

(** [c] cycles left of a run that started with this control word. *)
Definition phase (cw c : Z) (s : servo) : Prop :=
  previous_controlword s = PInt cw ∧ if 0 <? c then counting cw c s else homed cw s.

(** [process_homing] once the edge test is decided. *)
Lemma process_homing_eq cw pw s :
  enabled s → homing_od cw (od_ s) → Z.testbit cw 4 = true →
  previous_controlword s = PInt pw →
  process_homing s =
    (when (negb (Z.testbit pw 4)) homing_start ;;
     active ← gets homing_active;
     if negb active then mret tt else homing_progress) s.
Proof.
  intros He Ho Hb Hp. unfold process_homing.
  rewrite (bind_eq_ret _ _ _ _ _ (operation_enabled_spec s)), bool_decide_eq_true_2 by done.
  cbv beta iota delta [negb].
  rewrite (bind_eq_ret _ _ _ _ _ (rd_ok _ _ _ (ho_word _ _ Ho))).
  rewrite (bind_eq_ret _ _ _ _ _ (bit_ok cw 4 s ltac:(done))), Hb.
  rewrite bind_assoc, bind_gets, Hp.
  by rewrite (bind_eq_ret _ _ _ _ _ (bit_ok pw 4 s ltac:(done))).
Qed.

(** A cycle of a drive that counts after its edge test. *)
Lemma counting_cycle cw pw c s s0 :
  enabled s → homing_od cw (od_ s) →
  CiA402StateMachine.decode cw = CiA402StateMachine.EnableOperation →
  Z.testbit cw 4 = true → previous_controlword s = PInt pw →
  when (negb (Z.testbit pw 4)) homing_start (s <| halt_active := Z.testbit cw 8 |>) = (Ret tt, s0) →
  fixed s0 = fixed s → counting cw c s0 →
  ∃ s', process_cycle s = (Ret tt, s') ∧ phase cw (c - 1) s'.
Proof.
  intros He Ho Hdec Hb Hp Hw Hf0 Hc.
  destruct (progress_spec cw c s0 Hc) as (s1 & E1 & F1 & H1).
  assert (∃ n, py_number (actual_position s1) = Ret n) as [n Hn].
  { destruct (0 <? c - 1); [apply H1|]. destruct H1 as (_ & _ & _ & -> & _). by eexists. }
  assert (homing_od cw (od_ s1)) as Ho1 by (destruct (0 <? c - 1); apply H1).
  destruct (homing_cycle cw s s1 n) as (o & w & E & Hwo & Hv & _); try done.
  - rewrite (process_homing_eq cw pw) by done. rewrite (bind_eq_ret _ _ _ _ _ Hw), bind_gets.
    by destruct Hc as (-> & _).
  - congruence.
  - eexists. split; [exact E|]. split; [reflexivity|].
    destruct (0 <? c - 1).
    + destruct H1 as (A1 & A2 & A3 & A4 & _ & A6 & A7). by split_and!.
    + destruct H1 as (A1 & A2 & A3 & A4 & A5 & A6 & _ & A8). split_and!; try done.
      simpl. congruence.
Qed.

Lemma first_cycle cw pw s n p :
  enabled s → homing_od cw (od_ s) →
  CiA402StateMachine.decode cw = CiA402StateMachine.EnableOperation →
  Z.testbit cw 4 = true → previous_controlword s = PInt pw → Z.testbit pw 4 = false →
  (q ← py_div (f_dec 1 (-1)) (cycle_time s); int_of_float q) = Ret n →
  py_number (actual_position s) = Ret p →
  ∃ s', process_cycle s = (Ret tt, s') ∧ phase cw (Z.max 1 n - 1) s'.
Proof.
  intros He Ho Hdec Hb Hp Hpb Hn Hpos.
  destruct (start_spec cw (s <| halt_active := Z.testbit cw 8 |>) n) as (o & E & Ho'); [done..|].
  eapply (counting_cycle cw pw (Z.max 1 n) s _ He Ho Hdec Hb Hp).
  - rewrite Hpb. exact E.
  - reflexivity.
  - split_and!; try done. by exists p.
Qed.

Lemma next_cycle cw c s :
  CiA402StateMachine.decode cw = CiA402StateMachine.EnableOperation →
  Z.testbit cw 4 = true → 0 < c → phase cw c s →
  ∃ s', process_cycle s = (Ret tt, s') ∧ phase cw (c - 1) s'.
Proof.
  intros Hdec Hb Hc [Hp H]. rewrite (proj2 (Z.ltb_lt 0 c)) in H by done.
  pose proof H as (_ & _ & _ & _ & Ho & He & _).
  eapply (counting_cycle cw cw c s _ He Ho Hdec Hb Hp); [by rewrite Hb|done|exact H].
Qed.

Lemma cycles_phase cw c s k :
  CiA402StateMachine.decode cw = CiA402StateMachine.EnableOperation →
  Z.testbit cw 4 = true → phase cw c s → Z.of_nat k ≤ c →
  ∃ s', cycles k process_cycle s = (Ret tt, s') ∧ phase cw (c - Z.of_nat k) s'.
Proof.
  intros Hdec Hb. revert c s. induction k as [|k IH]; intros c s Hs Hk.
  { exists s. split; [done|]. by rewrite Z.sub_0_r. }
  destruct (next_cycle cw c s) as (s1 & E1 & H1); [done|done|lia|done|].
  destruct (IH (c - 1) s1) as (s2 & E2 & H2); [done|lia|].
  exists s2. split; [simpl; by rewrite (bind_eq_ret _ _ _ _ _ E1)|].
  by replace (c - Z.of_nat (S k)) with (c - 1 - Z.of_nat k) by lia.
Qed.

(** C18. Homing completes.  An enabled drive in homing mode that sees the start
    bit rise runs for [max(1, int(0.1 / cycle_time))] cycles of the same
    control word, all of which succeed: it stays active and unreferenced
    before the last one, and after it stands referenced at position zero, at
    rest, with the target position zero. *)
Theorem homing_completes cw pw s n p k :
  enabled s → homing_od cw (od_ s) →
  CiA402StateMachine.decode cw = CiA402StateMachine.EnableOperation →
  Z.testbit cw 4 = true → previous_controlword s = PInt pw → Z.testbit pw 4 = false →
  (q ← py_div (f_dec 1 (-1)) (cycle_time s); int_of_float q) = Ret n →
  py_number (actual_position s) = Ret p →
  (0 < k ≤ Z.to_nat (Z.max 1 n))%nat →
  ∃ s', cycles k process_cycle s = (Ret tt, s')
    ∧ if bool_decide (k = Z.to_nat (Z.max 1 n)) then homed cw s'
      else homing_active s' = true ∧ homing_referenced s' = false ∧ target_reached s' = false.
Proof.
  intros He Ho Hdec Hb Hp Hpb Hn Hpos Hk.
  destruct (first_cycle cw pw s n p) as (s1 & E1 & H1); [done..|].
  destruct k as [|k]; [lia|].
  destruct (cycles_phase cw (Z.max 1 n - 1) s1 k) as (s2 & E2 & [_ H2]); [done|done|done|lia|].
  exists s2. split; [simpl; by rewrite (bind_eq_ret _ _ _ _ _ E1)|].
  case_bool_decide as Heq.
  - by rewrite (proj2 (Z.ltb_ge _ _)) in H2 by lia.
  - rewrite (proj2 (Z.ltb_lt _ _)) in H2 by lia. by destruct H2 as (? & _ & ? & ? & _).
Qed.

(** An enabled, unreferenced drive that holds the homing outputs. *)
Definition homing_servo : servo :=
  ((enable 6 ;; wr 0x6040 (PInt 0x1F)) linear_servo).2.

Lemma homing_completes_witness :
  ∃ s', cycles 10 process_cycle homing_servo = (Ret tt, s') ∧ homed 0x1F s'.
Proof.
  apply (homing_completes 0x1F 0x0F homing_servo 10 (NFloat f_zero) 10%nat).
  - vm_compute. reflexivity.
  - split; [vm_compute; reflexivity|vm_compute; reflexivity|eexists; vm_compute; reflexivity..|].
    exists (PInt (-1000000)), (PInt 1000000), (f_of_Z (-1000000)), (f_of_Z 1000000).
    repeat split; vm_compute; reflexivity.
  - reflexivity.
  - reflexivity.
  - vm_compute. reflexivity.
  - reflexivity.
  - vm_compute. reflexivity.
  - vm_compute. reflexivity.
  - vm_compute. lia.
Defined.
