(* ===== verification/ServoTarget.v ===== *)
(** * Targets, windows and jog limits of the drive model

    What [set_target_position], [stop_at_current_position],
    [update_target_reached] and the jog limits of Servo.v do on every
    branch. *)

From S2P Require Import Prelude PyFloat.
From S2P Require Export ServoHoming.

Open Scope string_scope.
Open Scope list_scope.
Open Scope Z_scope.

(** ** Target acceptance *)

Lemma modify_inv (f : servo → servo) s s' : modify f s = (Ret tt, s') → s' = f s.
Proof. by intros [= <-]. Qed.

Lemma wr_inv i v s s' : wr i v s = (Ret tt, s') →
  ∃ o, s' = s <| od_ := o |>
    ∧ ∀ k, values o k = if decide (k = inl i) then Some v else values (od_ s) k.
Proof.
  intros H. destruct (decide (is_Some (values (od_ s) (inl i)))) as [Hi|Hn].
  - destruct (wr_ok i v s Hi) as (o & E & V). rewrite E in H. simplify_eq. eauto.
  - unfold wr, on_od, zoom in H. rewrite write_spec in H. simpl in H.
    unfold values in Hn. destruct (entries (od_ s) !! inl i); [|done].
    destruct Hn. by eexists.
Qed.

(** Open the assignments and dictionary writes at the head of a body. *)
Ltac effects_in H :=
  cbv beta in H;
  lazymatch type of H with
  | (modify _ ≫= _) _ = (Ret _, _) =>
      let E := fresh "E" in let s := fresh "sx" in
      apply bind_Ret_inv in H as ([] & s & E & H); apply modify_inv in E; subst s; effects_in H
  | (gets _ ≫= _) _ = (Ret _, _) => rewrite bind_gets in H; effects_in H
  | modify _ _ = (Ret _, _) => apply modify_inv in H
  | (wr _ _ ≫= _) _ = (Ret _, _) =>
      let E := fresh "E" in let s := fresh "sx" in let o := fresh "o" in let V := fresh "V" in
      apply bind_Ret_inv in H as ([] & s & E & H);
      apply wr_inv in E as (o & -> & V); effects_in H
  | wr _ _ _ = (Ret _, _) =>
      let o := fresh "o" in let V := fresh "V" in apply wr_inv in H as (o & -> & V)
  | _ => idtac
  end.

Lemma stop_spec s s' :
  stop_at_current_position s = (Ret tt, s') →
  values (od_ s') (inl 0x607A) = Some (actual_position s)
  ∧ actual_velocity s' = f_zero ∧ pp_active s' = false
  ∧ actual_position s' = actual_position s ∧ target_reached s' = true ∧ window_counter s' = 0
  ∧ software_limit_warning s' = software_limit_warning s
  ∧ position_target_rejected s' = position_target_rejected s
  ∧ homing_referenced s' = homing_referenced s.
Proof.
  intros H. unfold stop_at_current_position in H. effects_in H. subst s'.
  split_and!; try reflexivity.
  change (od_ _) with o1. rewrite V1, decide_False by done.
  change (od_ _) with o0. rewrite V0, decide_False by done.
  change (od_ _) with o. by rewrite V, decide_True.
Qed.

(** The target object of the dictionary. *)
Definition target_of (s : servo) : option pyval := values (od_ s) (inl 0x607A).

(** The three ways of [set_target_position pos (Some prev)]. *)
Inductive target_outcome (pos prev : pyval) (s s' : servo) : Prop :=
  | target_unreferenced :
      (_position_command_requires_reference s).1 = Ret true → homing_referenced s = false →
      target_of s' = Some prev → _last_target_position_command s' = prev →
      place s' = place s → position_target_rejected s' = position_target_rejected s →
      target_outcome pos prev s s'
  | target_rejected :
      (_position_target_is_within_software_limits pos s).1 = Ret false →
      target_of s' = Some (actual_position s) →
      place s' = (actual_position s, f_zero, false) →
      position_target_rejected s' = true → software_limit_warning s' = true →
      target_reached s' = false →
      target_outcome pos prev s s'
  | target_accepted b :
      (_position_command_requires_reference s).1 = Ret b → b && negb (homing_referenced s) = false →
      (_position_target_is_within_software_limits pos s).1 = Ret true →
      target_of s' = Some pos → _last_target_position_command s' = pos →
      place s' = place s → position_target_rejected s' = false →
      target_outcome pos prev s s'.

(** C21. Target acceptance.  [set_target_position], when it completes, takes one
    of three ways: a mode that needs a reference and a drive without one put
    the previous target back and change nothing of the motion; a target
    outside the software limits is rejected, with the drive stopped where it
    is, the target set to that position and the limit warning raised; a
    target within the limits is stored, for a referenced drive or a mode that
    needs no reference.  The position never changes. *)
Theorem target_gate pos prev s s' :
  set_target_position pos (Some prev) s = (Ret tt, s') → target_outcome pos prev s s'.
Proof.
  intros H. unfold set_target_position in H.
  rewrite bind_eq_out in H by apply _.
  destruct (_position_command_requires_reference s).1 as [b|] eqn:Er; [|done].
  rewrite bind_gets in H. destruct (b && negb (homing_referenced s)) eqn:Eb.
  { apply andb_true_iff in Eb as [-> Eb%negb_true_iff]. effects_in H. subst s'.
    apply target_unreferenced; try done. unfold target_of.
    change (od_ _) with o. by rewrite V, decide_True. }
  rewrite bind_eq_out in H by apply _.
  destruct (_position_target_is_within_software_limits pos s).1 as [w|] eqn:Ew; [|done].
  destruct w; cbv beta iota delta [negb] in H.
  - effects_in H. rewrite bind_eq_out in H by apply _.
    match type of H with (match ?m with _ => _ end) = _ => destruct m as [x|]; [|discriminate H] end.
    apply bind_Ret_inv in H as ([] & sa & Ha & H). rewrite bind_ret_l in H.
    apply bind_Ret_inv in H as ([] & sb & Hb & H).
    assert (place sa = place s ∧ position_target_rejected sa = false) as [Pa Ra].
    { destruct x; [injection Ha as <-|apply modify_inv in Ha; subst]; done. }
    assert (place sb = place sa ∧ position_target_rejected sb = position_target_rejected sa) as [Pb Rb].
    { destruct (py_eq pos prev); [by injection Hb as <-|].
      cbv beta iota delta [negb when] in Hb. effects_in Hb. by subst. }
    effects_in H. subst s'. apply (target_accepted _ _ _ _ b); try done.
    + unfold target_of. change (od_ _) with o. by rewrite V, decide_True.
    + unfold place in *. simpl. congruence.
    + simpl. congruence.
  - effects_in H. apply bind_Ret_inv in H as ([] & sa & Ha & H).
    apply stop_spec in Ha as (A1 & A2 & A3 & A4 & _ & _ & A7 & A8 & _). effects_in H. subst s'.
    apply target_rejected; try done. unfold place. simpl. by rewrite A2, A3, A4.
Qed.

Lemma target_gate_witness :
  let s := ((reference ;; cycle 0x0F 1 0 100) linear_servo).2 in
  target_outcome (PInt 2000000) (PInt 0) s (set_target_position (PInt 2000000) (Some (PInt 0)) s).2
  ∧ position_target_rejected (set_target_position (PInt 2000000) (Some (PInt 0)) s).2 = true.
Proof.
  intros s. split; [|vm_compute; reflexivity].
  apply target_gate. apply ran_ok. vm_compute. reflexivity.
Defined.

(** ** The in-position window *)

Lemma rd_out i s : (rd i s).1 = of_option KeyError (values (od_ s) (inl i)).
Proof. unfold rd, on_od, zoom. by rewrite read_spec. Qed.

Lemma in_position_od s t : od_ s = od_ t → (is_in_position s).1 = (is_in_position t).1.
Proof.
  intros H. unfold is_in_position.
  do 3 (rewrite !(bind_eq_out (rd _)), !rd_out, H;
        match goal with |- context [of_option KeyError ?v] => destruct (of_option KeyError v) end; [|done]).
  rewrite !lift_bind. destruct (py_sub _ _) as [d|]; [|done].
  rewrite !lift_bind. by destruct (py_abs d).
Qed.

(** One evaluation of the window. *)
Lemma window_turn w r t b :
  1 ≤ r → values (od_ t) (inl 0x6068) = Some w → required_count w (cycle_time t) = Ret r →
  (is_in_position t).1 = Ret b →
  update_target_reached t =
    (Ret tt, let n := if b then window_counter t + 1 else 0 in
     t <| window_counter := n |>
       <| target_reached := (if b then target_reached t else false) || (r <=? n) |>).
Proof.
  intros Hr1 Hwt Hrt Hb. unfold update_target_reached. rewrite bind_eq_out by apply _. rewrite Hb.
  destruct b.
  - rewrite (bind_eq_ret (modify _) _ t tt _ eq_refl).
    rewrite (bind_eq_ret (rd 0x6068) _ _ w (t <| window_counter := window_counter t + 1 |>))
      by (by apply rd_ok).
    rewrite bind_gets, lift_bind. change (cycle_time (t <| window_counter := _ |>)) with (cycle_time t).
    rewrite Hrt, bind_gets. simpl. destruct (r <=? window_counter t + 1); simpl.
    + by rewrite orb_true_r.
    + rewrite orb_false_r. by destruct t.
  - rewrite bind_assoc, (bind_eq_ret (modify _) _ t tt _ eq_refl).
    rewrite (bind_eq_ret (modify _) _ _ tt _ eq_refl).
    set (t' := t <| window_counter := 0 |> <| target_reached := false |>).
    rewrite (bind_eq_ret (rd 0x6068) _ _ w t') by (by apply rd_ok).
    rewrite bind_gets, lift_bind. change (cycle_time t') with (cycle_time t).
    rewrite Hrt, bind_gets. change (window_counter t') with 0.
    by rewrite (proj2 (Z.leb_gt r 0)) by lia.
Qed.

(** The in-position window.  While the position stays in the window, [k]
    calls count to [k] and report the target reached as soon as the count
    meets [max(1, int(window_time / (1000 * cycle_time)))]; one call outside
    the window clears the count and the report. *)
Theorem in_position_window s w r k :
  values (od_ s) (inl 0x6068) = Some w → required_count w (cycle_time s) = Ret r →
  (∀ b, (is_in_position s).1 = Ret b →
    if b then
      ∃ s', cycles (S k) update_target_reached s = (Ret tt, s')
        ∧ window_counter s' = window_counter s + Z.of_nat (S k)
        ∧ target_reached s' = target_reached s || (r <=? window_counter s + Z.of_nat (S k))
    else
      update_target_reached s
      = (Ret tt, s <| window_counter := 0 |> <| target_reached := false |>)).
Proof.
  intros Hw Hr.
  assert (1 ≤ r) as Hr1.
  { unfold required_count in Hr. apply outcome_bind_inv in Hr as (? & _ & Hr).
    apply outcome_bind_inv in Hr as (? & _ & Hr). apply outcome_bind_inv in Hr as (? & _ & Hr).
    unfold mret, outcome_ret in Hr. simplify_eq. lia. }
  intros b Hb. destruct b.
  2: { rewrite (window_turn w r s _ Hr1 Hw Hr Hb). simpl. by rewrite (proj2 (Z.leb_gt r 0)) by lia. }
  revert s Hw Hr Hb. induction k as [|k IH]; intros s Hw Hr Hb.
  - eexists. simpl cycles.
    rewrite (bind_eq_ret _ _ _ _ _ (window_turn w r s _ Hr1 Hw Hr Hb)). split; [reflexivity|]. by split.
  - pose proof (window_turn w r s _ Hr1 Hw Hr Hb) as E. cbv zeta in E.
    match type of E with _ = (_, ?t) => set (s1 := t) in * end.
    destruct (IH s1 Hw Hr) as (s' & E' & C & T).
    { by rewrite (in_position_od s1 s). }
    exists s'. split; [|split].
    + change (cycles (S (S k)) update_target_reached) with
        (update_target_reached ;; cycles (S k) update_target_reached).
      by rewrite (bind_eq_ret _ _ _ _ _ E).
    + rewrite C. unfold s1. simpl. lia.
    + rewrite T. unfold s1. simpl.
      destruct (target_reached s); [done|]. simpl.
      destruct (Z.leb_spec r (window_counter s + 1)); simpl.
      * symmetry. apply Z.leb_le. lia.
      * f_equal. lia.
Qed.

Lemma in_position_window_witness :
  let s := linear_servo <| cycle_time := f_dec 1 (-2) |> in
  ∃ s', cycles 2 update_target_reached s = (Ret tt, s')
    ∧ window_counter s' = 2 ∧ target_reached s' = true.
Proof.
  intros s. destruct (in_position_window s (PInt 20) 2 1) with (b := true) as (s' & E & C & T).
  - vm_compute. reflexivity.
  - vm_compute. reflexivity.
  - vm_compute. reflexivity.
  - exists s'. split; [exact E|]. split; [exact C|]. rewrite T. reflexivity.
Defined.

(** ** Jog limits *)

(** The target velocity of a jog at a software limit: a drive at or above the
    upper limit gets no positive one, one at or below the lower limit no
    negative one; otherwise the wish passes unchanged or, when it is tiny, as
    zero. *)
Lemma jog_target_limited v s r l :
  (_limit_jog_velocity_at_software_limit v s).1 = Ret r →
  (_software_position_limits s).1 = Ret l →
  (r = v ∨ r = f_zero)
  ∧ (f_lt f_zero r = true → py_le (PFloat l.2) (actual_position s) = Ret false)
  ∧ (f_lt r f_zero = true → py_le (actual_position s) (PFloat l.1) = Ret false).
Proof.
  intros H Hl. unfold _limit_jog_velocity_at_software_limit in H.
  destruct (f_le (f_abs v) f_1e_12); [injection H as <-; split; [by right|done]|].
  rewrite bind_eq_out in H by apply _. rewrite Hl, bind_gets in H.
  assert (∀ x, f_lt x f_zero = true → f_lt f_zero x = false) as Hasym
    by (by intros [[]|[]| |[]]).
  destruct (f_lt f_zero v) eqn:Ev.
  - rewrite lift_bind in H. destruct (py_le (PFloat l.2) (actual_position s)) as [[]|] eqn:Ep; [| |done].
    + injection H as <-. split; [by right|done].
    + rewrite bind_eq_out in H by apply _.
      destruct (f_lt v f_zero) eqn:Ev'; [by rewrite (Hasym v Ev') in Ev|]. injection H as <-.
      split_and!; [by left|done|congruence].
  - rewrite bind_ret_l in H. destruct (f_lt v f_zero) eqn:Ev'.
    + rewrite lift_bind in H. destruct (py_le (actual_position s) (PFloat l.1)) as [[]|] eqn:Ep; [| |done];
        injection H as <-; split_and!; try done; [by right|by left|congruence].
    + injection H as <-. split_and!; [by left|congruence..].
Qed.

(** Open the reading statements of a body, keeping what was read. *)
Ltac open_reads H :=
  repeat first
    [ rewrite bind_gets in H
    | rewrite bind_eq_out in H by apply _;
      match type of H with context [match (?m ?s).1 with Ret _ => _ | Raise _ => _ end] =>
        destruct (m s).1 eqn:?; [|discriminate H] end ].

(** One turn of a jog is one step of the ramp towards the limited target. *)
Lemma jog_turn s s' :
  process_jog s = (Ret tt, s') → enabled s →
  ∃ w t d, (_limit_jog_velocity_at_software_limit w s).1 = Ret t
    ∧ actual_velocity s' = _move_towards (actual_velocity s) t d.
Proof.
  intros H He. unfold process_jog in H.
  rewrite (bind_eq_ret _ _ _ _ _ (operation_enabled_spec s)), bool_decide_true in H by done.
  cbn [negb] in H.
  open_reads H.
  cbv zeta in H.
  open_reads H.
  apply bind_Ret_inv in H as ([] & sa & H1 & H). apply modify_inv in H1 as ->.
  match type of H with ?m ?sb = _ =>
    assert (Preserves actual_velocity m) as Hp
      by (unfold advance_position, _write_actual_feedback, wr, on_od; frame);
    specialize (Hp sb); rewrite H in Hp; cbn in Hp end.
  do 3 eexists. split; [eassumption|exact Hp].
Qed.

(** C26. Jogging at a software limit.  In a turn of a jog the velocity takes one
    step of the ramp towards a target velocity, and at or beyond a limit this
    target is never directed further out.  The velocity itself is ramped down,
    so a drive that passes the limit in motion still moves outward for some
    turns; but at or beyond the limit no turn makes it faster outward, and a
    drive at rest or moving inward gets no outward velocity. *)
Theorem jog_respects_software_limits s s' l :
  process_jog s = (Ret tt, s') → (_software_position_limits s).1 = Ret l → enabled s →
  let v := actual_velocity s in
  let v' := actual_velocity s' in
  let beyond_upper := py_le (PFloat l.2) (actual_position s) = Ret true in
  let beyond_lower := py_le (actual_position s) (PFloat l.1) = Ret true in
  ∃ t d, v' = _move_towards v t d
    ∧ (beyond_upper → f_lt f_zero t = false) ∧ (beyond_lower → f_lt t f_zero = false)
    ∧ (num v → num t → num d →
         (beyond_upper → f_lt f_zero v' = true → f_le v' v = true)
         ∧ (beyond_lower → f_lt v' f_zero = true → f_le v v' = true)).
Proof.
  intros H Hl He. destruct (jog_turn s s' H He) as (w & t & d & Ht & Hv).
  destruct (jog_target_limited w s t l Ht Hl) as (_ & Hup & Hlow).
  cbv zeta. rewrite Hv. exists t, d.
  assert (py_le (PFloat l.2) (actual_position s) = Ret true → f_lt f_zero t = false) as Hup'
    by (intros E; apply not_true_is_false; intros E'; apply Hup in E'; congruence).
  assert (py_le (actual_position s) (PFloat l.1) = Ret true → f_lt t f_zero = false) as Hlow'
    by (intros E; apply not_true_is_false; intros E'; apply Hlow in E'; congruence).
  split_and!; [done..|]. intros Nv Nt Nd.
  destruct (ramp_between (actual_velocity s) t d Nv Nt Nd) as [R1 R2].
  pose proof (ramp_num (actual_velocity s) t d Nv Nt Nd) as Nr.
  assert (num f_zero) as N0 by done.
  split; intros E Hs.
  - apply Hup' in E. rewrite f_lt_false_val in E by done. rewrite f_lt_val in Hs by done.
    destruct (Z.le_ge_cases (f_val (actual_velocity s)) (f_val t)) as [Hle|Hle]; [|by apply R2].
    destruct (R1 Hle) as [_ R]. rewrite f_le_val in R by done. lia.
  - apply Hlow' in E. rewrite f_lt_false_val in E by done. rewrite f_lt_val in Hs by done.
    destruct (Z.le_ge_cases (f_val (actual_velocity s)) (f_val t)) as [Hle|Hle]; [by apply R1|].
    destruct (R2 Hle) as [R _]. rewrite f_le_val in R by done. lia.
Qed.

(** An enabled drive beyond its upper limit, in motion, with the jog bit set. *)
Definition jogging_servo : servo :=
  (wr 0x6040 (PInt 0x1F) (linear_servo <| sm := CiA402StateMachine.Machine OPERATION_ENABLED |>
    <| actual_position := PInt 2000000 |> <| actual_velocity := f_of_Z 10 |>)).2.

Lemma jog_respects_software_limits_witness :
  ∃ t d, actual_velocity (process_jog jogging_servo).2
      = _move_towards (actual_velocity jogging_servo) t d
    ∧ f_lt f_zero t = false.
Proof.
  destruct (jog_respects_software_limits jogging_servo (process_jog jogging_servo).2
    (f_of_Z (-1000000), f_of_Z 1000000)) as (t & d & E & Hup & _).
  - apply ran_ok. vm_compute. reflexivity.
  - vm_compute. reflexivity.
  - vm_compute. reflexivity.
  - exists t, d. split; [exact E|]. apply Hup. vm_compute. reflexivity.
Defined.
