(* ===== verification/Fault.v ===== *)
(** * Axis diagnostics and the fault guard

    src/functional_model/diagnostics/fault.py ([Diagnostic], [AxisFault]).

    [AxisFault.t] is the guard of one axis: the last accepted inputs, the
    open fault and warning, the recovery phase and the previous control word.
    The wall clock is the argument [clock]: the n-th call of [time.time()]
    answers [clock n], for an arbitrary function, and [reads] counts the
    calls.  [logged] is the sequence of printed diagnostic events.  The random
    [diagnostic_id] and the texts of a diagnostic are arguments of its JSON
    object (Wire.v); here the detail of an escalation is present or absent.

    [admits], [held], [completed] and [failed] are the recovery as a table over
    what an observer sees of the guard; AxisProps.v shows that the cycles of an
    axis follow it.

    The theorems: which phases hold a fault; a restart latch never opens; no
    motion command passes a faulted guard; the recovery takes its steps in
    order; the status word of a faulted axis reports Fault. *)

From S2P Require Import Prelude PyFloat.
From S2P Require Export Bridge StateMachine.
From coqutil Require Import Word.LittleEndianList.

Open Scope string_scope.
Open Scope list_scope.
Open Scope Z_scope.

(** The codes of the diagnostics the simulator raises. *)
Inductive diag_code :=
  | AXIS_DRIVE_FAULT
  | AXIS_DRIVE_WARNING
  | AXIS_MODEL_EXECUTION_FAILED
  | AXIS_MODEL_OUTPUT_INVALID
  | AXIS_ADAPTER_FAULT
  | PARAMETER_SAVE_FAILED.

#[export] Instance diag_code_eq_dec : EqDecision diag_code.
Proof. solve_decision. Defined.

(** The context an [AxisFault] gives a diagnostic. *)
Record diag_context := DiagContext {
  ctx_last_valid_at : option float;
  ctx_feedback_valid : bool;
  ctx_restart_required : bool;
  ctx_execution_failure : bool;
}.

#[export] Instance diag_context_eta : Eta diag_context := λ c,
  DiagContext (ctx_last_valid_at c) (ctx_feedback_valid c) (ctx_restart_required c)
    (ctx_execution_failure c).

(** [Diagnostic.value] *)
Module Diagnostic.
Record t := Make {
  code : diag_code;
  axis : Z;
  latching : bool;
  fault_level : bool;
  context : option diag_context;
  occurred_at : float;
  acknowledged_at : option float;
  resolved_at : option float;
}.
End Diagnostic.

#[export] Instance diagnostic_eta : Eta Diagnostic.t := λ d,
  Diagnostic.Make (Diagnostic.code d) (Diagnostic.axis d) (Diagnostic.latching d)
    (Diagnostic.fault_level d) (Diagnostic.context d) (Diagnostic.occurred_at d)
    (Diagnostic.acknowledged_at d) (Diagnostic.resolved_at d).

Inductive diag_action := Detected | Acknowledged | Resolved | Escalated.

Inductive phase_t :=
  | Normal
  | Fault
  | VerifyReset
  | WaitShutdown
  | WaitSwitchOn
  | WaitEnable.

#[export] Instance phase_eq_dec : EqDecision phase_t.
Proof. solve_decision. Defined.

Record AxisFault := Guard {
  g_axis : Z;
  last : list byte;
  fault : option Diagnostic.t;
  warning : option Diagnostic.t;
  restart_required : bool;
  phase : phase_t;
  previous_cw : Z;
  last_valid_at : option float;
  feedback_valid : bool;
  reads : nat;
  logged : list (diag_action * diag_code);
}.

#[export] Instance AxisFault_eta : Eta AxisFault := λ g,
  Guard (g_axis g) (last g) (fault g) (warning g) (restart_required g) (phase g)
    (previous_cw g) (last_valid_at g) (feedback_valid g) (reads g) (logged g).

(** [AxisFault(axis, initial)] *)
Definition new_guard (axis : Z) (initial : list byte) : AxisFault :=
  Guard axis initial None None false Normal 0 None true 0 [].

(** [int.from_bytes(payload[:2], 'little')] *)
Definition word (payload : list byte) : Z := le_combine (take 2 payload).

Definition masked (cw mask : Z) : bool := negb (Z.land cw mask =? 0).

Section guard.
Context (clock : nat → float).

Definition now : M AxisFault float :=
  n ← gets reads; reads <~ S n ;; mret (clock n).

Definition log (a : diag_action) (c : diag_code) : M AxisFault () :=
  modify (λ g, g <| logged := logged g ++ [(a, c)] |>).

(** [Diagnostic(code, axis, detail, ...)] *)
Definition new_diagnostic (c : diag_code) (latching fault_level : bool)
    (context : option diag_context) : M AxisFault Diagnostic.t :=
  t ← now;
  a ← gets g_axis;
  log Detected c ;;
  mret (Diagnostic.Make c a latching fault_level context t None None).

Definition acknowledge (d : Diagnostic.t) : M AxisFault Diagnostic.t :=
  match Diagnostic.acknowledged_at d with
  | None =>
      t ← now;
      log Acknowledged (Diagnostic.code d) ;;
      mret (d <| Diagnostic.acknowledged_at := Some t |>)
  | Some _ => mret d
  end.

Definition resolve (d : Diagnostic.t) : M AxisFault Diagnostic.t :=
  match Diagnostic.resolved_at d with
  | None =>
      t ← now;
      log Resolved (Diagnostic.code d) ;;
      mret (d <| Diagnostic.resolved_at := Some t |>)
  | Some _ => mret d
  end.

(** The update of the context of an open fault by a blocking cause. *)
Definition escalate (d : Diagnostic.t) : Diagnostic.t :=
  d <| Diagnostic.context :=
    (λ c : diag_context, c <| ctx_execution_failure := true |> <| ctx_restart_required := true |>
       <| ctx_feedback_valid := false |>) <$> Diagnostic.context d |>.

Definition detect (c : diag_code) (restart : bool) : M AxisFault () :=
  when (negb (bool_decide (c = AXIS_DRIVE_FAULT)) || restart) (feedback_valid <~ false) ;;
  f ← gets fault;
  required ← gets restart_required;
  match f with
  | None =>
      v ← gets last_valid_at;
      d ← new_diagnostic c true true (Some (DiagContext v
            (bool_decide (c = AXIS_DRIVE_FAULT) && negb restart) restart false));
      fault <~ Some d
  | Some d =>
      when (restart && negb required)
        (fault <~ Some (escalate d) ;;
         log Escalated (Diagnostic.code d))
  end ;;
  modify (λ g, g <| restart_required := restart_required g || restart |>) ;;
  phase <~ Fault.

(** [b'\x00\x00' + payload[2:]] and [b'\x80\x00' + payload[2:]] *)
Definition disable_voltage (payload : list byte) : list byte := [x00; x00] ++ drop 2 payload.
Definition reset_only (payload : list byte) : list byte := [x80; x00] ++ drop 2 payload.

(** [payload[2]] *)
Definition third (payload : list byte) : outcome Z :=
  b ← of_option IndexError (payload !! 2%nat); mret (byte_Z b).

(** [prepare]: the payload to execute, if any, and whether it resets. *)
Definition prepare (payload : list byte) : M AxisFault (option (list byte) * bool) :=
  let cw := word payload in
  before ← gets previous_cw;
  let reset := masked cw 0x80 && negb (masked before 0x80) in
  previous_cw <~ cw ;;
  p ← gets phase;
  required ← gets restart_required;
  f ← gets fault;
  match p with
  | Normal => mret (Some payload, false)
  | VerifyReset =>
      mret (if masked cw 0x80 then (None, false) else (Some (disable_voltage payload), true))
  | Fault =>
      if (required : bool) || negb reset then
        if (required : bool) then mret (None, false)
        else
          match f with
          | None => raise AttributeError
          | Some d =>
              mret (if bool_decide (Diagnostic.code d = AXIS_DRIVE_FAULT)
                    then (Some (disable_voltage payload), false) else (None, false))
          end
      else
        match f with
        | None => raise AttributeError
        | Some d =>
            d ← acknowledge d;
            fault <~ Some d ;;
            mret (Some (reset_only payload), true)
        end
  | WaitShutdown =>
      if Z.land cw 0x8f =? 6 then phase <~ WaitSwitchOn ;; mret (Some payload, false)
      else mret (None, false)
  | WaitSwitchOn =>
      if Z.land cw 0x8f =? 7 then phase <~ WaitEnable ;; mret (Some payload, false)
      else mret (None, false)
  | WaitEnable =>
      pp ← (if (Z.land cw 0x8f =? 15) && negb (masked cw 0x10)
            then b ← lift (third payload); mret (b =? 1) else mret false);
      if pp : bool then phase <~ Normal ;; mret (Some payload, false)
      else mret (None, false)
  end.

Definition accept (output : list byte) (resetting : bool) : M AxisFault () :=
  l ← gets last;
  if negb (Nat.eqb (length output) (length l)) then raise ValueError
  else
    let sw := word output in
    last <~ output ;;
    t ← now; last_valid_at <~ Some t ;;
    feedback_valid <~ true ;;
    f ← gets fault;
    (if masked sw 8 then detect AXIS_DRIVE_FAULT false
     else
       match f with
       | Some d =>
           if resetting : bool then
             p ← gets phase;
             if bool_decide (p = VerifyReset) then
               _ ← resolve d;
               fault <~ None ;;
               phase <~ WaitShutdown
             else phase <~ VerifyReset
           else mret tt
       | None => mret tt
       end) ;;
    w ← gets warning;
    match w with
    | None =>
        when (masked sw 0x80)
          (d ← new_diagnostic AXIS_DRIVE_WARNING false false None; warning <~ Some d)
    | Some d =>
        when (negb (masked sw 0x80)) (_ ← resolve d; warning <~ None)
    end.

End guard.

(** The dict [response] returns, the texts left out. *)
Record guard_response := GuardResponse {
  r_data : list byte;
  r_fault : option Diagnostic.t;
  r_restart_required : bool;
  r_feedback_valid : bool;
  r_last_valid_at : option float;
}.

(** [sw.to_bytes(2, 'little')] for a word of 16 bits *)
Definition faulted_status (data : list byte) : Z :=
  Z.lor (Z.land (word data) (Z.lnot 0x106f)) 8.

Definition response (g : AxisFault) : guard_response := {|
  r_data := match fault g with
            | None => last g
            | Some _ => le_split 2 (faulted_status (last g)) ++ drop 2 (last g)
            end;
  r_fault := fault g;
  r_restart_required := restart_required g;
  r_feedback_valid := feedback_valid g;
  r_last_valid_at := last_valid_at g;
|}.

(** ** What the owner of a guard does

    One step of the owner (the dispatch of one request in runtime/axis.py):
    a cycle that the guard stops; a cycle whose result is accepted or found
    invalid; a cycle that fails; an idle read; a failure outside a cycle; a
    read of the clock or a printed event of another diagnostic.
    The label lists the control words of the cycle. *)
Section steps.
Context (clock : nat → float).

Inductive guard_step (g : AxisFault) : list Z → AxisFault → Prop :=
  | step_stopped payload r g1 :
      prepare clock payload g = (Ret (None, r), g1) →
      guard_step g [word payload] g1
  | step_accepted payload p r g1 output g2 :
      prepare clock payload g = (Ret (Some p, r), g1) →
      accept clock output r g1 = (Ret tt, g2) →
      guard_step g [word payload] g2
  | step_invalid payload p r g1 output e g2 g3 :
      prepare clock payload g = (Ret (Some p, r), g1) →
      accept clock output r g1 = (Raise e, g2) →
      detect clock AXIS_MODEL_OUTPUT_INVALID true g2 = (Ret tt, g3) →
      guard_step g [word payload] g3
  | step_failed payload out c b g1 g2 :
      prepare clock payload g = (out, g1) →
      detect clock c b g1 = (Ret tt, g2) →
      guard_step g [word payload] g2
  | step_idle output g1 :
      phase g = Normal → accept clock output false g = (Ret tt, g1) →
      guard_step g [] g1
  | step_idle_invalid output e g1 g2 :
      phase g = Normal → accept clock output false g = (Raise e, g1) →
      detect clock AXIS_MODEL_OUTPUT_INVALID true g1 = (Ret tt, g2) →
      guard_step g [] g2
  | step_detect c b g1 :
      detect clock c b g = (Ret tt, g1) → guard_step g [] g1
  | step_clock n l :
      guard_step g [] (g <| reads := n |> <| logged := l |>).

Inductive guard_run : AxisFault → list Z → AxisFault → Prop :=
  | guard_run_nil g : guard_run g [] g
  | guard_run_snoc g1 ws g2 ws' g3 :
      guard_run g1 ws g2 → guard_step g2 ws' g3 → guard_run g1 (ws ++ ws') g3.

(** A phase holds a fault exactly while the reset is pending, and a blocking
    cause keeps the guard in [Fault]. *)
Definition holds_fault (p : phase_t) : bool :=
  match p with Fault | VerifyReset => true | _ => false end.

Definition guard_ok (g : AxisFault) : Prop :=
  match fault g with Some _ => true | None => false end = holds_fault (phase g)
  ∧ (restart_required g = true → phase g = Fault).

(** ** Lemmas *)

Lemma detect_eq c b g :
  ∃ g', detect clock c b g = (Ret tt, g')
    ∧ phase g' = Fault ∧ is_Some (fault g') ∧ restart_required g' = restart_required g || b.
Proof.
  unfold detect, new_diagnostic, now, log. destruct g as [a l f w r p cw lv fv n lg].
  destruct (negb (bool_decide (c = AXIS_DRIVE_FAULT)) || b), f as [d|], b, r;
    (eexists; split; [reflexivity|]); simpl; split_and!; eauto.
Qed.

Lemma detect_ok c b g g' : detect clock c b g = (Ret tt, g') →
  phase g' = Fault ∧ guard_ok g' ∧ restart_required g' = restart_required g || b.
Proof.
  intros H. destruct (detect_eq c b g) as (g1 & E & H1 & [d H2] & H3).
  rewrite E in H. simplify_eq. split_and!; [done| |done].
  split; [by rewrite H1, H2|done].
Qed.

(** The code of the open fault. *)
Definition open_code (g : AxisFault) : option diag_code := Diagnostic.code <$> fault g.

Lemma detect_code c b g :
  open_code (detect clock c b g).2 = Some (default c (open_code g)).
Proof.
  unfold open_code, detect, new_diagnostic, now, log, escalate.
  destruct g as [a l f w r p cw lv fv n lg].
  by destruct (negb (bool_decide (c = AXIS_DRIVE_FAULT)) || b), f as [d|], b, r.
Qed.

Lemma detect_frame c b g :
  last (detect clock c b g).2 = last g ∧ previous_cw (detect clock c b g).2 = previous_cw g.
Proof.
  unfold detect, new_diagnostic, now, log. destruct g as [a l f w r p cw lv fv n lg].
  by destruct (negb (bool_decide (c = AXIS_DRIVE_FAULT)) || b), f as [d|], b, r.
Qed.

(** What [prepare] does to the phase, and what it lets through. *)
Inductive prepared (payload : list byte) (g g' : AxisFault) : option (list byte) * bool → Prop :=
  | prep_normal :
      phase g = Normal → phase g' = Normal →
      prepared payload g g' (Some payload, false)
  | prep_stop : phase g' = phase g → prepared payload g g' (None, false)
  | prep_disable :
      phase g = Fault → restart_required g = false → phase g' = Fault →
      prepared payload g g' (Some (disable_voltage payload), false)
  | prep_reset :
      phase g = Fault → restart_required g = false → phase g' = Fault →
      masked (word payload) 0x80 = true → masked (previous_cw g) 0x80 = false →
      prepared payload g g' (Some (reset_only payload), true)
  | prep_verify :
      phase g = VerifyReset → phase g' = VerifyReset → masked (word payload) 0x80 = false →
      prepared payload g g' (Some (disable_voltage payload), true)
  | prep_recover c :
      (phase g, phase g', c) ∈
        [(WaitShutdown, WaitSwitchOn, 6); (WaitSwitchOn, WaitEnable, 7); (WaitEnable, Normal, 15)] →
      Z.land (word payload) 0x8f = c →
      (c = 15 → masked (word payload) 0x10 = false ∧ third payload = Ret 1) →
      prepared payload g g' (Some payload, false).

Lemma prepare_spec payload g r g' :
  prepare clock payload g = (Ret r, g') →
  prepared payload g g' r
  ∧ restart_required g' = restart_required g
  ∧ match fault g' with Some _ => true | None => false end
    = match fault g with Some _ => true | None => false end
  ∧ last g' = last g ∧ warning g' = warning g.
Proof.
  unfold prepare. rewrite bind_gets.
  rewrite (bind_eq_ret (modify _) _ g tt _ eq_refl), !bind_gets.
  destruct g as [a l f w rr p cw lv fv n lg]. simpl.
  destruct p; simpl.
  - intros [= <- <-]. by split; [apply prep_normal|].
  - destruct rr; simpl; [intros [= <- <-]; by split; [apply prep_stop|]|].
    destruct (masked (word payload) 0x80 && negb (masked cw 0x80)) eqn:Er; simpl.
    + apply andb_true_iff in Er as [E1 E2%negb_true_iff].
      destruct f as [d|]; [|done]. unfold acknowledge.
      destruct (Diagnostic.acknowledged_at d); intros [= <- <-];
        (split; [by apply prep_reset|done]).
    + destruct f as [d|]; [|done].
      case_bool_decide; intros [= <- <-];
        (split; [first [by apply prep_disable|by apply prep_stop]|done]).
  - destruct (masked (word payload) 0x80) eqn:Er; intros [= <- <-];
      (split; [first [by apply prep_verify|by apply prep_stop]|done]).
  - destruct (Z.eqb_spec (Z.land (word payload) 0x8f) 6); intros [= <- <-];
      (split; [|done]); [|by apply prep_stop].
    apply (prep_recover _ _ _ 6); [set_solver|done|done].
  - destruct (Z.eqb_spec (Z.land (word payload) 0x8f) 7); intros [= <- <-];
      (split; [|done]); [|by apply prep_stop].
    apply (prep_recover _ _ _ 7); [set_solver|done|done].
  - destruct (Z.eqb_spec (Z.land (word payload) 0x8f) 15) as [E|]; simpl;
      [|intros [= <- <-]; split; [by apply prep_stop|done]].
    destruct (masked (word payload) 0x10) eqn:E4; simpl;
      [intros [= <- <-]; split; [by apply prep_stop|done]|].
    unfold mbind, M_bind, lift. destruct (third payload) as [b|] eqn:E3; [|done].
    simpl. destruct (Z.eqb_spec b 1) as [->|]; intros [= <- <-]; (split; [|done]);
      [|by apply prep_stop].
    apply (prep_recover _ _ _ 15); [set_solver|done|done].
Qed.

#[export] Instance acknowledge_restart d : Preserves restart_required (acknowledge clock d).
Proof. unfold acknowledge, now, log. destruct (Diagnostic.acknowledged_at d); apply _. Qed.

Lemma prepare_restart payload : Preserves restart_required (prepare clock payload).
Proof.
  unfold prepare. apply preserves_bind; [apply _|intros cw].
  apply preserves_bind; [apply _|intros _]. apply preserves_bind; [apply _|intros p].
  apply preserves_bind; [apply _|intros rr]. apply preserves_bind; [apply _|intros f].
  destruct p; try apply _.
  destruct ((rr : bool) || _); [destruct rr; [apply _|]|]; destruct f; apply _.
Qed.

(** What an accepted output does to the phase. *)
Inductive accepted (output : list byte) (r : bool) (g g' : AxisFault) : Prop :=
  | acc_fault :
      masked (word output) 8 = true → phase g' = Fault → fault g' ≠ None →
      open_code g' = Some (default AXIS_DRIVE_FAULT (open_code g)) → accepted output r g g'
  | acc_same :
      masked (word output) 8 = false → phase g' = phase g → fault g' = fault g →
      (r = false ∨ fault g = None) → accepted output r g g'
  | acc_verify :
      masked (word output) 8 = false → r = true → phase g ≠ VerifyReset →
      phase g' = VerifyReset → fault g' = fault g → fault g ≠ None → accepted output r g g'
  | acc_resolved :
      masked (word output) 8 = false → r = true → phase g = VerifyReset →
      phase g' = WaitShutdown → fault g' = None → accepted output r g g'.

(** The tail of [accept] that keeps the warning. *)
Definition track_warning (sw : Z) : M AxisFault () :=
  w ← gets warning;
  match w with
  | None =>
      when (masked sw 0x80)
        (d ← new_diagnostic clock AXIS_DRIVE_WARNING false false None; warning <~ Some d)
  | Some d =>
      when (negb (masked sw 0x80)) (_ ← resolve clock d; warning <~ None)
  end.

Definition guard_core (g : AxisFault) :=
  (phase g, fault g, restart_required g, last g, previous_cw g, feedback_valid g).

Lemma track_warning_core sw g :
  ∃ g', track_warning sw g = (Ret tt, g') ∧ guard_core g' = guard_core g
    ∧ (match warning g' with Some _ => true | None => false end = masked sw 0x80).
Proof.
  unfold track_warning, new_diagnostic, resolve, now, log. rewrite bind_gets.
  destruct g as [a l f w r p cw lv fv n lg]. simpl.
  destruct w as [d|]; destruct (masked sw 0x80); simpl; try (by eexists).
  destruct (Diagnostic.resolved_at d); by eexists.
Qed.

Lemma accept_spec output r g res g' :
  accept clock output r g = (res, g') →
  match res with
  | Raise e => e = ValueError ∧ g' = g ∧ length output ≠ length (last g)
  | Ret _ =>
      length output = length (last g) ∧ last g' = output
      ∧ restart_required g' = restart_required g ∧ previous_cw g' = previous_cw g
      ∧ accepted output r g g'
      ∧ (match warning g' with Some _ => true | None => false end = masked (word output) 0x80)
  end.
Proof.
  unfold accept. rewrite bind_gets.
  destruct (Nat.eqb_spec (length output) (length (last g))) as [Hl|Hl];
    cbv beta iota zeta delta [negb]; [|by intros [= <- <-]].
  fold (track_warning (word output)).
  set (g0 := g <| last := output |> <| reads := S (reads g) |>
    <| last_valid_at := Some (clock (reads g)) |> <| feedback_valid := true |>).
  match goal with |- (_ ≫= ?k) g = _ → _ =>
    change ((gets fault ≫= λ f, (if masked (word output) 8 then detect clock AXIS_DRIVE_FAULT false
      else match f with
           | Some d => if r then
                p ← gets phase;
                if bool_decide (p = VerifyReset) then
                  _ ← resolve clock d; fault <~ None ;; phase <~ WaitShutdown
                else phase <~ VerifyReset
              else mret tt
           | None => mret tt
           end) ;; track_warning (word output)) g0 = (res, g') → 
      match res with
      | Raise e => e = ValueError ∧ g' = g ∧ length output ≠ length (last g)
      | Ret _ =>
          length output = length (last g) ∧ last g' = output
          ∧ restart_required g' = restart_required g ∧ previous_cw g' = previous_cw g
          ∧ accepted output r g g'
          ∧ (match warning g' with Some _ => true | None => false end = masked (word output) 0x80)
      end) end.
  rewrite bind_gets. change (fault g0) with (fault g).
  match goal with |- (?m ≫= _) _ = _ → _ => set (body := m) end.
  assert (∃ g1, body g0 = (Ret tt, g1) ∧ last g1 = output ∧ restart_required g1 = restart_required g
    ∧ previous_cw g1 = previous_cw g ∧ accepted output r g g1) as (g1 & E & B1 & B2 & B3 & B4).
  { subst body. clear Hl. destruct (masked (word output) 8) eqn:E8.
    - destruct (detect_eq AXIS_DRIVE_FAULT false g0) as (g1 & E & D1 & D2 & D3).
      exists g1. split; [exact E|].
      pose proof (detect_frame AXIS_DRIVE_FAULT false g0) as F. rewrite E in F. simplify_eq/=.
      rewrite D3, orb_false_r. destruct F as [-> ->]. split_and!; try done.
      apply acc_fault; [done|done|by destruct D2 as [? ->]|].
      pose proof (detect_code AXIS_DRIVE_FAULT false g0) as Hc. by rewrite E in Hc.
    - destruct (fault g) as [d|] eqn:Ef; [|eexists; split; [reflexivity|]; split_and!; try done;
        apply acc_same; auto].
      destruct r; [|eexists; split; [reflexivity|]; split_and!; try done; apply acc_same; auto].
      rewrite bind_gets. change (phase g0) with (phase g).
      case_bool_decide as Hp.
      + unfold resolve, now, log. destruct (Diagnostic.resolved_at d);
          (eexists; split; [reflexivity|]; split_and!; try done; by apply acc_resolved).
      + eexists; split; [reflexivity|]; split_and!; try done. apply acc_verify; try done. congruence. }
  rewrite (bind_eq_ret _ _ _ _ _ E).
  destruct (track_warning_core (word output) g1) as (g2 & E2 & C & W). rewrite E2.
  intros [= <- <-]. unfold guard_core in C. simplify_eq.
  split_and!; try congruence.
  unfold open_code in *.
  destruct B4; [apply acc_fault|apply acc_same|apply acc_verify|apply acc_resolved];
    unfold open_code in *; congruence.
Qed.

Lemma prepare_ok g payload r g1 :
  guard_ok g → prepare clock payload g = (Ret r, g1) →
  guard_ok g1 ∧ restart_required g1 = restart_required g.
Proof.
  intros [O1 O2] E. destruct (prepare_spec _ _ _ _ E) as (P & R & F & _ & _).
  split; [|done]. split; [rewrite F, O1|rewrite R; intros Hr; specialize (O2 Hr)];
    (destruct P as [A B|A|A B C|A B C|A B|c A];
     [..|rewrite !elem_of_cons in A; destruct A as [A|[A|[A|A]]]; [..|by apply elem_of_nil in A]]);
    simplify_eq; try congruence;
    repeat match goal with E : phase ?x = _ |- context [phase ?x] => rewrite E end; done.
Qed.

Lemma accept_ok out (r : bool) g1 g2 :
  guard_ok g1 → (r = true → restart_required g1 = false) → accept clock out r g1 = (Ret tt, g2) →
  guard_ok g2 ∧ restart_required g2 = restart_required g1.
Proof.
  intros [A1 A2] Hr E. apply accept_spec in E as (_ & _ & R & _ & A & _). split; [|done].
  destruct A as [_ B C|_ B C D|_ B C D E F|_ B C D E]; split; rewrite ?R.
  - rewrite B. by destruct (fault g2).
  - done.
  - by rewrite C, B.
  - by rewrite B.
  - rewrite E, D. by destruct (fault g1).
  - intros Hq. by rewrite (Hr B) in Hq.
  - by rewrite E, D.
  - intros Hq. by rewrite (Hr B) in Hq.
Qed.

Lemma step_ok g ws g' : guard_ok g → guard_step g ws g' →
  guard_ok g' ∧ (restart_required g = true → restart_required g' = true).
Proof.
  intros Hok' H. pose proof Hok' as [O1 O2].
  assert (∀ payload p r g1, prepare clock payload g = (Ret (Some p, r), g1) →
    r = true → restart_required g1 = false) as Hrst.
  { intros payload p r g1 E ->. destruct (prepare_spec _ _ _ _ E) as (P & R & _).
    rewrite R. destruct (restart_required g) eqn:Hq; [|done]. specialize (O2 eq_refl).
    inversion P; congruence. }
  destruct H as [payload r g1 E|payload p r g1 out g2 E A|payload p r g1 out e g2 g3 E A Dt
                |payload out c b g1 g2 E Dt|out g1 N A|out e g1 g2 N A Dt|c b g1 Dt|n l].
  - destruct (prepare_ok _ _ _ _ Hok' E) as [H1 ->]. done.
  - destruct (prepare_ok _ _ _ _ Hok' E) as [H1 H2]. destruct (accept_ok _ _ _ _ H1 (Hrst _ _ _ _ E) A) as [H3 H4].
    split; [done|congruence].
  - apply detect_ok in Dt as (_ & H3 & H4). split; [done|]. rewrite H4. by rewrite orb_true_r.
  - apply detect_ok in Dt as (_ & H3 & H4). split; [done|]. rewrite H4.
    assert (restart_required g1 = restart_required g) as ->; [|by intros ->].
    destruct out as [r|e]; [by destruct (prepare_spec _ _ _ _ E) as (_ & ? & _)|].
    eapply preserves_eq; [|exact E]. apply prepare_restart.
  - assert (restart_required g = false ∨ true = true) as _ by auto.
    destruct (accept_ok out false g g1) as [H1 ->]; [by split|done|done|done].
  - apply detect_ok in Dt as (_ & H3 & H4). split; [done|]. rewrite H4. by rewrite orb_true_r.
  - apply detect_ok in Dt as (_ & H3 & H4). split; [done|]. rewrite H4. by intros ->.
  - done.
Qed.

Lemma run_ok g ws g' : guard_ok g → guard_run g ws g' →
  guard_ok g' ∧ (restart_required g = true → restart_required g' = true).
Proof.
  intros Hg H. induction H as [g|g1 ws g2 ws' g3 _ IH Hs]; [done|].
  destruct (IH Hg) as [H1 H2]. destruct (step_ok _ _ _ H1 Hs) as [H3 H4]. auto.
Qed.

Lemma new_guard_ok a i : guard_ok (new_guard a i).
Proof. by split. Qed.

(** The control words a phase of the recovery has seen. *)
Definition is_reset (cw : Z) : Prop := masked cw 0x80 = true.
Definition is_low (cw : Z) : Prop := masked cw 0x80 = false.
Definition is_command (c cw : Z) : Prop := Z.land cw 0x8f = c.

Definition recovery (p : phase_t) : list (Z → Prop) :=
  match p with
  | Fault => []
  | VerifyReset => [is_reset]
  | WaitShutdown => [is_reset; is_low]
  | WaitSwitchOn => [is_reset; is_low; is_command 6]
  | WaitEnable => [is_reset; is_low; is_command 6; is_command 7]
  | Normal => [is_reset; is_low; is_command 6; is_command 7; is_command 15]
  end.

Lemma step_recovery g ws0 ws g' :
  guard_ok g → occurs_in (recovery (phase g)) ws0 → guard_step g ws g' →
  occurs_in (recovery (phase g')) (ws0 ++ ws).
Proof.
  intros [O1 _] Ho H.
  assert (∀ payload r g1, prepare clock payload g = (Ret r, g1) →
    occurs_in (recovery (phase g1)) (ws0 ++ [word payload])) as Hprep.
  { intros payload r g1 E. destruct (prepare_spec _ _ _ _ E) as (P & _).
    destruct P as [A B|A|A B C|A B C|A B|c A Hc];
      [..|rewrite !elem_of_cons in A; destruct A as [A|[A|[A|A]]]; [..|by apply elem_of_nil in A]];
      simplify_eq/=;
      try (replace (phase g1) with (phase g) by congruence; by apply occurs_in_app).
    - replace (phase g) with WaitShutdown in Ho by congruence.
      replace (phase g1) with WaitSwitchOn by congruence.
      by apply (occurs_in_snoc [is_reset; is_low] (is_command 6)).
    - replace (phase g) with WaitSwitchOn in Ho by congruence.
      replace (phase g1) with WaitEnable by congruence.
      by apply (occurs_in_snoc [is_reset; is_low; is_command 6] (is_command 7)).
    - replace (phase g) with WaitEnable in Ho by congruence.
      replace (phase g1) with Normal by congruence.
      by apply (occurs_in_snoc [is_reset; is_low; is_command 6; is_command 7] (is_command 15)). }
  destruct H as [payload r g1 E|payload p r g1 out g2 E A|payload p r g1 out e g2 g3 E A Dt
                |payload out c b g1 g2 E Dt|out g1 N A|out e g1 g2 N A Dt|c b g1 Dt|n l];
    try (apply detect_ok in Dt as (-> & _ & _); constructor).
  - by eapply Hprep.
  - pose proof (Hprep _ _ _ E) as Hw. destruct (prepare_spec _ _ _ _ E) as (P & _ & F & _).
    apply accept_spec in A as (_ & _ & _ & _ & A & _).
    destruct A as [_ B _|_ B _ _|_ -> C D _ _|_ -> C D _].
    + rewrite B. constructor.
    + by rewrite B.
    + inversion P as [| | |P1 P2 P3 P4 P5|P1 P2 P3|]; subst; [|congruence].
      rewrite D. rewrite P1 in Ho. exact (occurs_in_snoc [] is_reset _ _ Ho P4).
    + inversion P as [| | |P1 P2 P3 P4 P5|P1 P2 P3|]; subst; [congruence|].
      rewrite D. rewrite P1 in Ho. exact (occurs_in_snoc [is_reset] is_low _ _ Ho P3).
  - rewrite app_nil_r. apply accept_spec in A as (_ & _ & _ & _ & A & _).
    destruct A as [_ B _|_ B _ _|_ C _ _ _ _|_ C _ _ _]; [rewrite B; constructor|by rewrite B|done..].
  - by rewrite app_nil_r.
Qed.

Lemma run_recovery g ws g' :
  guard_ok g → phase g = Fault → guard_run g ws g' →
  occurs_in (recovery (phase g')) ws ∧ guard_ok g'.
Proof.
  intros Hg Hp Hr. induction Hr as [g|g1 ws g2 ws' g3 _ IH Hs]; [by rewrite Hp|].
  destruct (IH Hg Hp) as [H1 H2].
  split; [by eapply step_recovery|]. by eapply step_ok.
Qed.

(** ** Specification: the recovery as a table

    What an observer of the guard sees: the phase, whether a restart is
    required, the code of the open fault and whether bit 7 of the previous
    control word was set.  [admits v payload] is the phase a cycle with this
    payload leads to when the drive then reports no fault; a cycle that is not
    admitted is held. *)
Record view := View {
  v_phase : phase_t;
  v_latched : bool;
  v_code : option diag_code;
  v_reset : bool;
}.

Definition view_of (g : AxisFault) : view :=
  View (phase g) (restart_required g) (open_code g) (masked (previous_cw g) 0x80).

Definition admits (v : view) (payload : list byte) : option phase_t :=
  let cw := word payload in
  match v_phase v with
  | Normal => Some Normal
  | Fault =>
      if v_latched v then None
      else if masked cw 0x80 && negb (v_reset v) then Some VerifyReset
      else if bool_decide (v_code v = Some AXIS_DRIVE_FAULT) then Some Fault
      else None
  | VerifyReset => if masked cw 0x80 then None else Some WaitShutdown
  | WaitShutdown => if Z.land cw 0x8f =? 6 then Some WaitSwitchOn else None
  | WaitSwitchOn => if Z.land cw 0x8f =? 7 then Some WaitEnable else None
  | WaitEnable =>
      if (Z.land cw 0x8f =? 15) && negb (masked cw 0x10) && bool_decide (payload !! 2%nat = Some x01)
      then Some Normal else None
  end.

(** The view after a cycle that is held, one that is completed with the status
    word [sw], and one that fails with the cause [c]: a drive fault keeps the
    cause that is open, the release of a reset closes it, and every failure
    but the rejection by the device needs a restart. *)
Definition held (v : view) (cw : Z) : view :=
  View (v_phase v) (v_latched v) (v_code v) (masked cw 0x80).

Definition completed (v : view) (cw : Z) (p : phase_t) (sw : Z) : view :=
  if masked sw 8
  then View Fault (v_latched v) (Some (default AXIS_DRIVE_FAULT (v_code v))) (masked cw 0x80)
  else View p (v_latched v)
         (if bool_decide (v_phase v = VerifyReset) then None else v_code v) (masked cw 0x80).

Definition failed (v : view) (cw : Z) (c : diag_code) : view :=
  View Fault (v_latched v || negb (bool_decide (c = AXIS_ADAPTER_FAULT)))
    (Some (default c (v_code v))) (masked cw 0x80).

(** The phase an execution let through by [prepare] leads to. *)
Definition settles (p : phase_t) (r : bool) : phase_t :=
  if r then if bool_decide (p = VerifyReset) then WaitShutdown else VerifyReset else p.

Lemma third_one payload : (3 ≤ length payload)%nat →
  ∃ b, third payload = Ret b ∧ (b =? 1) = bool_decide (payload !! 2%nat = Some x01).
Proof.
  intros Hl. unfold third. destruct (lookup_lt_is_Some_2 payload 2) as [x Hx]; [lia|].
  rewrite Hx. exists (byte_Z x). split; [done|].
  destruct x; vm_compute; reflexivity.
Qed.

Local Ltac held_case :=
  eexists; split; [|split; [|split; [|split; [|split; [reflexivity|]]]]]; done.

Local Ltac admitted_case :=
  eexists; split; [|split; [|split; [|split;
    [|do 2 eexists; split; [reflexivity|split; [|split]]]]]]; done.

Lemma prepare_admits payload g :
  guard_ok g → (3 ≤ length payload)%nat →
  ∃ g1, last g1 = last g ∧ restart_required g1 = restart_required g ∧ open_code g1 = open_code g
    ∧ previous_cw g1 = word payload
    ∧ match admits (view_of g) payload with
      | None => prepare clock payload g = (Ret (None, false), g1) ∧ phase g1 = phase g
      | Some p =>
          ∃ q r, prepare clock payload g = (Ret (Some q, r), g1)
            ∧ p = settles (phase g1) r ∧ (r = true → fault g1 ≠ None)
            ∧ (r && bool_decide (phase g1 = VerifyReset)) = bool_decide (phase g = VerifyReset)
      end.
Proof.
  intros [O1 O2] Hl. destruct (third_one payload Hl) as (b & H3 & Hb).
  unfold prepare. rewrite bind_gets.
  rewrite (bind_eq_ret (modify _) _ g tt _ eq_refl), !bind_gets.
  unfold admits, view_of, open_code, settles.
  destruct g as [a l f w rr p cw lv fv n lg]. simpl in *.
  destruct p; simpl in *.
  - destruct f as [d|]; [done|]. admitted_case.
  - destruct f as [d|]; [|done]. destruct rr; simpl; [held_case|].
    destruct (masked (word payload) 128 && negb (masked cw 128)); simpl.
    + unfold acknowledge, now, log. destruct (Diagnostic.acknowledged_at d);
        admitted_case.
    + destruct (decide (Diagnostic.code d = AXIS_DRIVE_FAULT)) as [Hd|Hd].
      * rewrite !bool_decide_true by congruence.
        admitted_case.
      * rewrite !bool_decide_false by congruence. held_case.
  - destruct f as [d|]; [|done]. destruct (masked (word payload) 128); simpl; [held_case|].
    admitted_case.
  - destruct (_ =? 6); simpl; [|held_case]. destruct f as [d|]; [done|].
    admitted_case.
  - destruct (_ =? 7); simpl; [|held_case]. destruct f as [d|]; [done|].
    admitted_case.
  - destruct (_ =? 15); simpl; [|held_case].
    destruct (masked (word payload) 16); simpl; [held_case|].
    rewrite H3. unfold mbind, M_bind, lift. simpl. rewrite <- Hb. destruct f as [d|]; [done|].
    destruct (b =? 1); [|held_case].
    admitted_case.
Qed.

(** What follows an admitted preparation: the drive answers with [output], or
    the cycle fails with [c]. *)
Lemma accept_completes v g1 output r g2 :
  accept clock output r g1 = (Ret tt, g2) → (r = true → fault g1 ≠ None) →
  (r && bool_decide (phase g1 = VerifyReset)) = bool_decide (v_phase v = VerifyReset) →
  restart_required g1 = v_latched v → open_code g1 = v_code v →
  view_of g2 = completed v (previous_cw g1) (settles (phase g1) r) (word output)
  ∧ last g2 = output.
Proof.
  intros E Hf Hv Hl Hc. apply accept_spec in E as (_ & E1 & E2 & E3 & A & _).
  split; [|done]. unfold view_of, completed. rewrite E2, E3, Hl, <- Hc. unfold settles.
  destruct A as [H8 Hp _ Ho|H8 Hp B C|H8 B H6 Hp C _|H8 B H6 Hp C]; rewrite H8, Hp.
  - by rewrite Ho.
  - unfold open_code. rewrite B. destruct r; [by destruct C; [|destruct Hf]|].
    cbn [andb] in Hv. by rewrite <- Hv.
  - rewrite <- Hv, B. unfold open_code. rewrite C. by rewrite bool_decide_false by done.
  - rewrite <- Hv, B. unfold open_code. rewrite C. by rewrite bool_decide_true by done.
Qed.

Lemma detect_fails v g1 c b g2 :
  detect clock c b g1 = (Ret tt, g2) → b = negb (bool_decide (c = AXIS_ADAPTER_FAULT)) →
  restart_required g1 = v_latched v → open_code g1 = v_code v →
  view_of g2 = failed v (previous_cw g1) c ∧ last g2 = last g1.
Proof.
  intros E -> Hl Hc. pose proof (detect_frame c (negb (bool_decide (c = AXIS_ADAPTER_FAULT))) g1) as [F1 F2].
  pose proof (detect_code c (negb (bool_decide (c = AXIS_ADAPTER_FAULT))) g1) as F3.
  rewrite E in F1, F2, F3. cbn in F1, F2, F3. apply detect_ok in E as (E1 & _ & E2).
  split; [|done]. unfold view_of, failed. by rewrite E1, E2, F2, F3, Hl, Hc.
Qed.

(** A latched guard stops every payload. *)
Lemma prepare_latched payload g :
  phase g = Fault → restart_required g = true →
  prepare clock payload g = (Ret (None, false), g <| previous_cw := word payload |>).
Proof.
  intros Hp Hr. unfold prepare. rewrite bind_gets.
  rewrite (bind_eq_ret (modify _) _ g tt _ eq_refl), !bind_gets.
  change (phase (g <| previous_cw := word payload |>)) with (phase g).
  change (restart_required (g <| previous_cw := word payload |>)) with (restart_required g).
  by rewrite Hp, Hr.
Qed.

Lemma prepare_normal payload g :
  phase g = Normal →
  prepare clock payload g = (Ret (Some payload, false), g <| previous_cw := word payload |>).
Proof.
  intros Hp. unfold prepare. rewrite bind_gets.
  rewrite (bind_eq_ret (modify _) _ g tt _ eq_refl), !bind_gets.
  change (phase (g <| previous_cw := word payload |>)) with (phase g). by rewrite Hp.
Qed.

(** ** Properties *)

(** The guard invariant: in every run from a new guard a fault is open
    exactly in the phases [Fault] and [VerifyReset], and a cause that needs a
    restart keeps the phase [Fault]; so [prepare] never meets a missing
    fault: it returns for every payload of at least three bytes. *)
Theorem guard_invariant a i ws g payload :
  guard_run (new_guard a i) ws g → (3 ≤ length payload)%nat →
  guard_ok g ∧ ∃ r g', prepare clock payload g = (Ret r, g').
Proof.
  intros H Hl. destruct (run_ok _ _ _ (new_guard_ok a i) H) as [[O1 O2] _].
  split; [by split|]. clear H.
  assert (∃ b, third payload = Ret b) as [b Hb].
  { unfold third. destruct (lookup_lt_is_Some_2 payload 2) as [x ->]; [lia|]. by eexists. }
  unfold prepare. rewrite bind_gets.
  rewrite (bind_eq_ret (modify _) _ g tt _ eq_refl), !bind_gets.
  destruct g as [ax l f w rr p cw lv fv n lg]. simpl in *.
  destruct p; simpl.
  - by do 2 eexists.
  - destruct f as [d|]; [|done]. destruct (_ || _).
    + destruct rr; by do 2 eexists.
    + unfold acknowledge, now, log. destruct (Diagnostic.acknowledged_at d); by do 2 eexists.
  - by do 2 eexists.
  - destruct (Z.land (word payload) 0x8f =? 6); by do 2 eexists.
  - destruct (Z.land (word payload) 0x8f =? 7); by do 2 eexists.
  - unfold mbind, M_bind, lift. rewrite Hb.
    destruct ((Z.land (word payload) 0x8f =? 15) && negb (masked (word payload) 0x10)); simpl;
      [|by do 2 eexists].
    destruct (b =? 1); by do 2 eexists.
Qed.

(** A cause that needs a restart is final: whatever the owner does, the
    guard stays latched and lets no payload through. *)
Theorem restart_is_final a i ws1 g1 ws2 g2 payload :
  guard_run (new_guard a i) ws1 g1 → restart_required g1 = true → guard_run g1 ws2 g2 →
  restart_required g2 = true ∧ (prepare clock payload g2).1 = Ret (None, false).
Proof.
  intros H1 Hr H2. destruct (run_ok _ _ _ (new_guard_ok a i) H1) as [O _].
  destruct (run_ok _ _ _ O H2) as [[O1 O2] Hr2]. specialize (Hr2 Hr). split; [done|].
  by rewrite (prepare_latched _ _ (O2 Hr2) Hr2).
Qed.

(** No motion command passes a guard that is not in normal operation: what
    is executed has the control word 0 or the bare reset, or is the payload
    whose command the recovery waits for next (Shutdown, Switch on, and
    Enable operation without a new set-point, in profile position mode). *)
Theorem no_motion_while_faulted payload p r g g' :
  prepare clock payload g = (Ret (Some p, r), g') → phase g ≠ Normal →
  (p = disable_voltage payload ∨ p = reset_only payload)
  ∨ (p = payload ∧
     match phase g with
     | WaitShutdown => is_command 6 (word payload)
     | WaitSwitchOn => is_command 7 (word payload)
     | WaitEnable => is_command 15 (word payload) ∧ masked (word payload) 0x10 = false
                     ∧ third payload = Ret 1
     | _ => False
     end).
Proof.
  intros E N. destruct (prepare_spec _ _ _ _ E) as (P & _).
  inversion P as [| | | | |c A Hc H15]; subst; auto; [done|].
  right. split; [done|].
  rewrite !elem_of_cons in A. destruct A as [A|[A|[A|A]]]; [..|by apply elem_of_nil in A];
    injection A as E1 _ E3; rewrite E1; unfold is_command; [congruence|congruence|].
  split; [congruence|]. apply H15. congruence.
Qed.

(** Recovery takes every step.  A run that leads from a faulted guard back to
    normal operation has control words with a reset, then a released reset,
    then Shutdown, Switch on and Enable operation, in this order. *)
Theorem recovery_takes_every_step g ws g' :
  guard_ok g → phase g = Fault → guard_run g ws g' → phase g' = Normal →
  occurs_in [is_reset; is_low; is_command 6; is_command 7; is_command 15] ws.
Proof.
  intros Hg Hp Hr Hn. destruct (run_recovery g ws g' Hg Hp Hr) as [Ho _]. by rewrite Hn in Ho.
Qed.
End steps.

(** The status word of a faulted response: Fault for every reader of the CiA
    402 state, no set-point acknowledge, and the bytes behind the status word
    as last accepted; without a fault the last accepted inputs. *)
Theorem response_reports_fault g :
  match fault g with
  | None => r_data (response g) = last g
  | Some _ =>
      CiA402StateMachine.state_of_status (word (r_data (response g))) = Some FAULT
      ∧ Z.testbit (word (r_data (response g))) 12 = false
      ∧ drop 2 (r_data (response g)) = drop 2 (last g)
  end.
Proof.
  destruct (fault g) as [d|] eqn:Ef; unfold response; cbn [r_data]; rewrite Ef; [|done].
  set (l := last g).
  assert (word (le_split 2 (faulted_status l) ++ drop 2 l) = faulted_status l mod 2 ^ 16) as Hw.
  { unfold word. rewrite take_app_length' by (by rewrite length_le_split).
    by rewrite le_combine_split. }
  rewrite Hw. split_and!.
  - unfold CiA402StateMachine.state_of_status.
    replace (Z.land (faulted_status l mod 2 ^ 16) 0x6f) with 8; [done|].
    rewrite <-(land_mod_pow2 _ 0x6f 16) by lia.
    unfold faulted_status. rewrite Z.land_lor_distr_l, <-Z.land_assoc.
    change (Z.land (Z.lnot 0x106f) 0x6f) with 0. by rewrite Z.land_0_r.
  - rewrite Z.mod_pow2_bits_low by lia. unfold faulted_status.
    rewrite Z.lor_spec, Z.land_spec, Z.lnot_spec by lia.
    change (Z.testbit 0x106f 12) with true. change (Z.testbit 8 12) with false.
    by rewrite andb_false_r.
  - by rewrite drop_app_length' by (by rewrite length_le_split).
Qed.

(** ** A concrete recovery *)

(** A cycle whose payload, if let through, is answered with [output]. *)
Definition do_cycle (clock : nat → float) (output : list byte) (payload : list byte)
    (g : AxisFault) : option AxisFault :=
  match prepare clock payload g with
  | (Ret (Some _, r), g1) =>
      match accept clock output r g1 with (Ret _, g2) => Some g2 | _ => None end
  | (Ret (None, _), g1) => Some g1
  | (Raise _, _) => None
  end.

Fixpoint do_cycles (clock : nat → float) (output : list byte) (payloads : list (list byte))
    (g : AxisFault) : option AxisFault :=
  match payloads with
  | [] => Some g
  | p :: payloads => g' ← do_cycle clock output p g; do_cycles clock output payloads g'
  end.

Lemma do_cycle_step clock output payload g g' :
  do_cycle clock output payload g = Some g' → guard_step clock g [word payload] g'.
Proof.
  unfold do_cycle. destruct (prepare clock payload g) as [[[[p|] r]|e] g1] eqn:E; [| |done].
  - destruct (accept clock output r g1) as [[[]|e] g2] eqn:A; [|done]. intros [= <-].
    by eapply step_accepted.
  - intros [= <-]. by eapply step_stopped.
Qed.

Lemma guard_run_cons clock g1 ws g2 ws' g3 :
  guard_step clock g1 ws g2 → guard_run clock g2 ws' g3 → guard_run clock g1 (ws ++ ws') g3.
Proof.
  intros Hs H. induction H as [g|g1' wsa g2' wsb g3' _ IH Hs'].
  - rewrite app_nil_r, <-(app_nil_l ws). eapply guard_run_snoc; [constructor|done].
  - rewrite app_assoc. eapply guard_run_snoc; [by apply IH|done].
Qed.

Lemma do_cycles_run clock output payloads g g' :
  do_cycles clock output payloads g = Some g' → guard_run clock g (map word payloads) g'.
Proof.
  revert g. induction payloads as [|p payloads IH]; simpl; intros g H.
  { simplify_eq. constructor. }
  destruct (do_cycle clock output p g) as [g1|] eqn:E; [|done]. simpl in H.
  apply (guard_run_cons clock g [word p] g1); [by eapply do_cycle_step|by apply IH].
Qed.

Definition still : nat → float := λ _, f_zero.

(** A payload of a control word and the mode byte of profile position. *)
Definition pp_payload (cw : Z) : list byte := le_split 2 cw ++ [x01].

Definition guard0 : AxisFault := new_guard 0 [x27; x00; x01].

Definition faulted_guard : AxisFault := (detect still AXIS_ADAPTER_FAULT false guard0).2.

Lemma faulted_guard_run : guard_run still guard0 [] faulted_guard.
Proof.
  apply (guard_run_snoc still guard0 [] guard0 [] faulted_guard); [constructor|].
  apply (step_detect still _ AXIS_ADAPTER_FAULT false). reflexivity.
Qed.

Lemma guard_invariant_witness :
  guard_ok faulted_guard ∧ ∃ r g', prepare still (pp_payload 0x80) faulted_guard = (Ret r, g').
Proof.
  apply (guard_invariant still 0 [x27; x00; x01] []); [exact faulted_guard_run|simpl; lia].
Defined.

Lemma restart_is_final_witness :
  let g1 := (detect still AXIS_MODEL_EXECUTION_FAILED true guard0).2 in
  ∃ g2, do_cycles still [x27; x00; x01] (map pp_payload [0x80; 0; 6; 7; 15]) g1 = Some g2
    ∧ restart_required g2 = true ∧ (prepare still (pp_payload 0x80) g2).1 = Ret (None, false).
Proof.
  intros g1.
  destruct (do_cycles still [x27; x00; x01] (map pp_payload [0x80; 0; 6; 7; 15]) g1) as [g2|] eqn:E;
    [|vm_compute in E; discriminate].
  exists g2. split; [reflexivity|].
  apply (restart_is_final still 0 [x27; x00; x01] [] g1
    (map word (map pp_payload [0x80; 0; 6; 7; 15])) g2).
  - apply (guard_run_snoc still guard0 [] guard0 [] g1); [constructor|].
    apply (step_detect still _ AXIS_MODEL_EXECUTION_FAILED true). reflexivity.
  - reflexivity.
  - exact (do_cycles_run _ _ _ _ _ E).
Defined.

Lemma no_motion_while_faulted_witness :
  ∃ g', prepare still (pp_payload 0x8F) faulted_guard
        = (Ret (Some (reset_only (pp_payload 0x8F)), true), g')
  ∧ word (reset_only (pp_payload 0x8F)) = 0x80.
Proof.
  assert (E : prepare still (pp_payload 0x8F) faulted_guard
    = (Ret (Some (reset_only (pp_payload 0x8F)), true),
       (prepare still (pp_payload 0x8F) faulted_guard).2)) by (vm_compute; reflexivity).
  eexists. split; [exact E|].
  destruct (no_motion_while_faulted still (pp_payload 0x8F) (reset_only (pp_payload 0x8F)) true
    faulted_guard _ E) as [[H|H]|[H _]]; try (vm_compute in H; discriminate);
    [discriminate|vm_compute; reflexivity].
Defined.

Lemma recovery_takes_every_step_witness :
  ∃ g', do_cycles still [x27; x00; x01] (map pp_payload [0x80; 0; 6; 7; 15]) faulted_guard = Some g'
    ∧ phase g' = Normal
    ∧ occurs_in [is_reset; is_low; is_command 6; is_command 7; is_command 15]
        (map word (map pp_payload [0x80; 0; 6; 7; 15])).
Proof.
  destruct (do_cycles still [x27; x00; x01] (map pp_payload [0x80; 0; 6; 7; 15]) faulted_guard)
    as [g'|] eqn:E; [|vm_compute in E; discriminate].
  assert (phase g' = Normal) as Hn by (vm_compute in E; injection E as <-; reflexivity).
  exists g'. split; [reflexivity|]. split; [exact Hn|].
  refine (recovery_takes_every_step still faulted_guard _ g' _ _ (do_cycles_run _ _ _ _ _ E) Hn).
  - split; vm_compute; reflexivity || discriminate.
  - reflexivity.
Defined.
