(* ===== verification/Adapter.v ===== *)
(** * The drive adapter

    src/functional_model/cia402_drive/adapter/: the [DriveAdapter] protocol
    (contract.py) as a class with its laws, the adapter of the built-in model
    (f_kr_cmmt.py, [FKrCmmtAdapter]) as its instance, and [create_adapter]
    (registry.py) for that model.

    The theorems: cyclic outputs are rejected before anything is written, or
    written completely; no mode of operation but a supported one passes. *)

From S2P Require Import Prelude PyFloat.
From S2P Require Export Servo ServoProps.

Open Scope string_scope.
Open Scope list_scope.
Open Scope Z_scope.

(** ** The contract

    What the runtime asks of an adapter.  [on_adapter_od] is a call on the
    attribute [od]; [adapter_roles] are the addresses of the roles that
    [persistent_roles] lists; [adapter_close] is [close], nothing for an
    adapter without it; [adapter_validate_parameters] is the static method of
    that name where the adapter has one. *)
Class DriveAdapter (A : Type) := {
  adapter_profile : A → profile;
  adapter_roles : A → list (Z * Z);
  on_adapter_od : ∀ {T : Type}, M od T → M A T;
  adapter_read_sdo : Z → Z → Z → M A (list byte);
  adapter_write_sdo : Z → Z → list byte → M A ();
  adapter_apply_outputs : list byte → M A ();
  adapter_step : float → M A ();
  adapter_read_inputs : M A (list byte);
  adapter_close : M A ();
  adapter_validate_parameters : A → option (list ((Z * Z) * pyval) → outcome ());
}.

(** Reading changes nothing, and the profile of an adapter is fixed. *)
Class DriveAdapterLaws (A : Type) `{DriveAdapter A} := {
  adapter_read_sdo_reader i s n :: Reader (adapter_read_sdo (A:=A) i s n);
  adapter_read_inputs_reader :: Reader (adapter_read_inputs (A:=A));
  on_adapter_od_reader {T} (m : M od T) :: Reader m → Reader (on_adapter_od (A:=A) m);
  adapter_od_profile {T} (m : M od T) :: Preserves adapter_profile (on_adapter_od (A:=A) m);
  adapter_write_profile i s p :: Preserves adapter_profile (adapter_write_sdo (A:=A) i s p);
  adapter_outputs_profile p :: Preserves adapter_profile (adapter_apply_outputs (A:=A) p);
  adapter_step_profile dt :: Preserves adapter_profile (adapter_step (A:=A) dt);
}.

(** An adapter around an object dictionary: [od] is a component of its state,
    SDO reads go to it, and exchanging it changes neither the persistent roles
    nor the validation of parameters. *)
Class DictionaryAdapter (A : Type) `{DriveAdapter A} := {
  adapter_od : A → od;
  set_adapter_od : od → A → A;
  on_adapter_od_eq {T} (m : M od T) a :
    on_adapter_od m a = let '(r, o) := m (adapter_od a) in (r, set_adapter_od o a);
  adapter_read_sdo_eq i s n a : adapter_read_sdo i s n a = on_adapter_od (read_sdo i s n) a;
  get_set_od o a : adapter_od (set_adapter_od o a) = o;
  set_get_od a : set_adapter_od (adapter_od a) a = a;
  set_set_od o o' a : set_adapter_od o (set_adapter_od o' a) = set_adapter_od o a;
  set_od_roles o a : adapter_roles (set_adapter_od o a) = adapter_roles a;
  set_od_validate o a :
    adapter_validate_parameters (set_adapter_od o a) = adapter_validate_parameters a;
}.

(** [DriveCapabilities], and its defaults. *)
Record DriveCapabilities := Capabilities {
  cap_modes : list Z;
  cap_state_machine_owner : string;
  cap_dynamic_pdo : bool;
  cap_arbitrary_state_restore : bool;
}.

Definition drive_capabilities (modes : list Z) : DriveCapabilities := Capabilities modes "model" false false.

(** [validate_adapter] on an object with these attributes, each with whether
    it can be called. *)
Definition has_attribute (attributes : list (string * bool)) (name : string) : bool :=
  match dict_get name attributes with Some _ => true | None => false end.

Definition has_method (attributes : list (string * bool)) (name : string) : bool :=
  default false (dict_get name attributes).

Definition validate_adapter {A} (attributes : list (string * bool)) (a : A) : outcome A :=
  if negb (forallb (has_attribute attributes) ["profile"; "od"; "capabilities"]) then Raise TypeError
  else if negb (forallb (has_method attributes)
                  ["read_sdo"; "write_sdo"; "apply_outputs"; "step"; "read_inputs"]) then Raise TypeError
  else Ret a.

(** ** The adapter of the built-in model *)

Record FKrCmmtAdapter := FKrCmmt {
  f_profile : profile;
  f_model : servo;
  f_persistent_roles : list (Z * Z);
}.

#[export] Instance FKrCmmtAdapter_eta : Eta FKrCmmtAdapter := λ a,
  FKrCmmt (f_profile a) (f_model a) (f_persistent_roles a).

Definition FKrCmmtAdapter_capabilities : DriveCapabilities := drive_capabilities [1; 3; 6; 8; -3].

(** The attributes of the class and of its objects. *)
Definition FKrCmmtAdapter_attributes : list (string * bool) :=
  [("capabilities", false); ("profile", false); ("model", false); ("od", false); ("persistent_roles", false);
   ("bridge", false); ("read_sdo", true); ("validate_mode", true); ("write_sdo", true);
   ("apply_outputs", true); ("step", true); ("read_inputs", true)].

Definition on_model {A} (m : M servo A) : M FKrCmmtAdapter A :=
  zoom f_model (λ s a, a <| f_model := s |>) m.

(** A call on [self.od], which is [self.model.od]. *)
Definition on_bridge {A} (m : M od A) : M FKrCmmtAdapter A := on_model (on_od m).

Definition persistent_addresses (p : profile) : list (Z * Z) :=
  map (λ r, (Role.index r, Role.subindex r)) (persistent_roles p)
  ++ filter (λ a, a = (0x6081, 0))
       (map (λ e, (Entry.index e, Entry.subindex e)) (rx (pdo_configuration p))).

(** [FKrCmmtAdapter(profile)] *)
Definition new_FKrCmmtAdapter (p : profile) : outcome FKrCmmtAdapter :=
  s ← VirtualCiA402Servo (f_dec 1 (-2)) p;
  let a := FKrCmmt p s (persistent_addresses p) in
  match on_bridge install_role_index a with
  | (Ret _, a) => Ret a
  | (Raise e, _) => Raise e
  end.

Definition supported_mode (mode : Z) : bool :=
  (mode =? 0) || bool_decide (mode ∈ cap_modes FKrCmmtAdapter_capabilities).

Definition validate_mode (mode : Z) : outcome () :=
  if supported_mode mode then mret tt else Raise DeviceRejectedException.

(** [int.from_bytes(payload, 'little', signed=True)] *)
Definition signed_word (payload : list byte) : Z :=
  if Nat.eqb (length payload) 0 then 0 else unpack_int true payload.

Definition f_read_sdo (index subindex size : Z) : M FKrCmmtAdapter (list byte) :=
  on_bridge (read_sdo index subindex size).

Definition f_write_sdo (index subindex : Z) (payload : list byte) : M FKrCmmtAdapter () :=
  (if (index =? 0x6060) && (subindex =? 0)
   then lift (validate_mode (signed_word payload)) else mret tt) ;;
  on_bridge (write_sdo index subindex payload).

(** The loop of [apply_outputs] over the layout, from [offset] on. *)
Fixpoint validate_modes (objs : list ObjectDictionaryEntry) (payload : list byte) (offset : Z)
    : outcome () :=
  match objs with
  | [] => mret tt
  | obj :: objs =>
      n ← byte_length obj;
      (if (Entry.index obj =? 0x6060) && (Entry.subindex obj =? 0)
       then validate_mode (signed_word (slice offset (offset + n) payload)) else mret tt) ≫= λ _,
      validate_modes objs payload (offset + n)
  end.

Definition f_apply_outputs (payload : list byte) : M FKrCmmtAdapter () :=
  p ← gets f_profile;
  let conf := pdo_configuration p in
  expected ← lift (layout_size (rx conf));
  if negb (Z.of_nat (length payload) =? expected) then raise ValueError
  else
    lift (validate_modes (rx conf) payload 0) ;;
    on_bridge (rxpdo_payload_to_od conf payload).

Definition f_step (dt : float) : M FKrCmmtAdapter () :=
  on_model (cycle_time <~ dt ;; model_update).

Definition f_read_inputs : M FKrCmmtAdapter (list byte) :=
  p ← gets f_profile;
  on_bridge (od_to_txpdo_payload (pdo_configuration p)).

#[export] Instance FKrCmmt_adapter : DriveAdapter FKrCmmtAdapter := {|
  adapter_profile := f_profile;
  adapter_roles := f_persistent_roles;
  on_adapter_od := @on_bridge;
  adapter_read_sdo := f_read_sdo;
  adapter_write_sdo := f_write_sdo;
  adapter_apply_outputs := f_apply_outputs;
  adapter_step := f_step;
  adapter_read_inputs := f_read_inputs;
  adapter_close := mret tt;
  adapter_validate_parameters := λ _, None;
|}.

(** An adapter of either kind: a call goes to the object at hand. *)
Definition on_sum {A B R} (m : M A R) (n : M B R) : M (A + B) R := λ s,
  match s with
  | inl a => let '(r, a) := m a in (r, inl a)
  | inr b => let '(r, b) := n b in (r, inr b)
  end.

#[export] Instance sum_adapter {A B} `{DriveAdapter A, DriveAdapter B} : DriveAdapter (A + B) := {|
  adapter_profile := λ s, match s with inl a => adapter_profile a | inr b => adapter_profile b end;
  adapter_roles := λ s, match s with inl a => adapter_roles a | inr b => adapter_roles b end;
  on_adapter_od := λ T m, on_sum (on_adapter_od m) (on_adapter_od m);
  adapter_read_sdo := λ i s n, on_sum (adapter_read_sdo i s n) (adapter_read_sdo i s n);
  adapter_write_sdo := λ i s p, on_sum (adapter_write_sdo i s p) (adapter_write_sdo i s p);
  adapter_apply_outputs := λ p, on_sum (adapter_apply_outputs p) (adapter_apply_outputs p);
  adapter_step := λ dt, on_sum (adapter_step dt) (adapter_step dt);
  adapter_read_inputs := on_sum adapter_read_inputs adapter_read_inputs;
  adapter_close := on_sum adapter_close adapter_close;
  adapter_validate_parameters := λ s,
    match s with inl a => adapter_validate_parameters a | inr b => adapter_validate_parameters b end;
|}.

(** The attributes of a [CopleyAdapter] (copley.py). *)
Definition CopleyAdapter_attributes : list (string * bool) :=
  [("capabilities", false); ("WRITABLE", false); ("profile", false); ("runner", false); ("od", false);
   ("bridge", false); ("_remainder", false); ("_fault", false); ("velocity_factor", false); ("acceleration_factor", false); ("persistent_roles", false);
   ("validate_parameters", true); ("_validate", true); ("_refresh", true); ("open", true); ("close", true); ("read_sdo", true); ("write_sdo", true);
   ("apply_outputs", true); ("inject_fault", true); ("step", true); ("read_inputs", true)].

Definition CopleyAdapter_capabilities : DriveCapabilities := drive_capabilities [1].

(** [create_adapter]: the tests of the device, its profile, and the factory of
    its model type; the answer of [CopleyAdapter.open] is the argument
    [open_copley]. *)
Definition create_adapter {C} (device_type model_type : string) (standard : list role)
    (d : outcome description) (open_copley : profile → outcome C)
    : outcome (FKrCmmtAdapter + C) :=
  if negb (String.eqb device_type "cia402-drive") then Raise ValueError
  else
    d ← d; p ← CiA402DriveProfile standard d;
    if String.eqb model_type "copley_drive_sim" then
      c ← open_copley p; c ← validate_adapter CopleyAdapter_attributes c; mret (inr c)
    else if negb (String.eqb model_type "f_kr_cmmt") then Raise ValueError
    else
      a ← new_FKrCmmtAdapter p; a ← validate_adapter FKrCmmtAdapter_attributes a; mret (inl a).

(** ** The laws hold *)

#[export] Instance get_definition_reader i s : Reader (get_definition i s).
Proof. unfold get_definition. intros o. rewrite bind_gets. by destruct (entries o !! _). Qed.

#[export] Instance _definition_reader i s : Reader (_definition i s).
Proof. unfold _definition. apply reader_try; [apply _|]. intros e. apply _. Qed.

#[export] Instance read_sdo_reader i s n : Reader (read_sdo i s n).
Proof. unfold read_sdo. apply _. Qed.

#[export] Instance txpdo_reader conf : Reader (od_to_txpdo_payload conf).
Proof. intros o. exact (preserves (f:=λ o, o) (m:=tx_loop (tx conf) []) o). Qed.

#[export] Instance on_model_reader {A} (m : M servo A) : Reader m → Reader (on_model m).
Proof.
  intros Hm a. unfold on_model, zoom. specialize (Hm (f_model a)).
  destruct (m (f_model a)) as [r s]. simpl in *. subst. by destruct a.
Qed.

#[export] Instance on_bridge_reader {A} (m : M od A) : Reader m → Reader (on_bridge m).
Proof. intros Hm. unfold on_bridge. apply on_model_reader, on_od_reader_spec, Hm. Qed.

#[export] Instance on_model_profile {A} (m : M servo A) : Preserves f_profile (on_model m).
Proof. apply preserves_zoom. reflexivity. Qed.

#[export] Instance on_bridge_profile {A} (m : M od A) : Preserves f_profile (on_bridge m).
Proof. apply _. Qed.

#[export] Instance FKrCmmt_laws : DriveAdapterLaws FKrCmmtAdapter.
Proof.
  constructor; simpl; intros; unfold f_read_sdo, f_read_inputs, f_write_sdo, f_apply_outputs, f_step;
    apply _.
Qed.

#[export] Instance FKrCmmt_dictionary : DictionaryAdapter FKrCmmtAdapter.
Proof.
  refine {| adapter_od := λ a, od_ (f_model a);
            set_adapter_od := λ o a, a <| f_model := (f_model a) <| od_ := o |> |> |};
    intros; try reflexivity.
  - simpl. unfold on_bridge, on_model, on_od, zoom. by destruct (m (od_ (f_model a))).
  - by destruct a as [? [] ?].
Defined.

(** ** Lemmas *)

Lemma rx_length objs widths :
  Forall2 wire objs widths → layout_size objs = Ret (Z.of_nat (sum_list widths)).
Proof.
  intros Hw. unfold layout_size.
  rewrite (traverse_Forall2 byte_length objs (map Z.of_nat widths)).
  - simpl. f_equal. clear Hw. induction widths as [|n ns IH]; simpl; [done|]. rewrite IH. lia.
  - induction Hw as [|obj n objs ns [H _] _ IH]; simpl; by constructor.
Qed.

(** A payload of the length of a layout is cut into the bytes of its objects. *)
Lemma cut_payload objs widths payload :
  Forall2 wire objs widths → length payload = sum_list widths →
  ∃ chunks, payload = mjoin chunks ∧ Forall2 chunk_of objs chunks
    ∧ map length chunks = widths.
Proof.
  intros Hw. revert payload.
  induction Hw as [|obj n objs ns [Hn Hf] _ IH]; intros payload Hl; simpl in Hl.
  { exists []. destruct payload; [|done]. by repeat constructor. }
  destruct (IH (drop n payload)) as (chunks & E & Hc & Hm).
  { rewrite length_drop. lia. }
  assert (length (take n payload) = n) as Ht by (rewrite length_take; lia).
  exists (take n payload :: chunks). split_and!.
  - rewrite <-(take_drop n payload) at 1. by rewrite E.
  - constructor; [|done]. split; by rewrite Ht.
  - simpl. by rewrite Ht, Hm.
Qed.

Lemma decode_int data_type signed bs :
  assoc (normalize_od_data_type data_type) DATA_TYPE_FORMATS = Some (FmtInt signed (length bs)) →
  decode_od_value data_type bs = Ret (PInt (unpack_int signed bs)).
Proof.
  intros Hf. rewrite (decode_plain_exact _ _ Hf) by done.
  unfold struct_unpack. simpl. by rewrite Nat.eqb_refl.
Qed.

Lemma default_wire :
  Forall2 wire (rx motion_server_default) [2; 1; 4; 4; 4; 2; 4; 2; 1]%nat.
Proof.
  repeat (constructor; [split; [vm_compute; reflexivity|
    first [discriminate | intros _; first [exists true; reflexivity | exists false; reflexivity]]]|]).
  constructor.
Qed.

Lemma default_keys_distinct : NoDup (mapped_keys (rx motion_server_default)).
Proof. apply (bool_decide_unpack (NoDup _)). vm_compute. exact I. Qed.

(** The third byte of the outputs carries the mode of operation. *)
Definition output_mode (payload : list byte) : Z := signed_word (slice 2 3 payload).

Lemma validate_default_modes payload :
  validate_modes (rx motion_server_default) payload 0 = validate_mode (output_mode payload).
Proof.
  transitivity (validate_mode (output_mode payload) ≫= λ _, mret tt); [reflexivity|].
  by destruct (validate_mode (output_mode payload)) as [[]|].
Qed.

(** ** Properties *)

(** Cyclic outputs are taken over as a whole or not at all.  With the fixed
    layout and its objects in the dictionary, outputs of another length are a
    [ValueError], outputs with an unsupported mode are rejected, and in both
    cases the adapter is unchanged; all other outputs are accepted, every
    mapped object then has the value of its bytes, and nothing but the mapped
    values of the dictionary changes. *)
Theorem outputs_all_or_nothing a payload :
  pdo_configuration (f_profile a) = motion_server_default →
  (∀ k, k ∈ mapped_keys (rx motion_server_default) → is_Some (entries (od_ (f_model a)) !! k)) →
  if negb (Nat.eqb (length payload) 24) then f_apply_outputs payload a = (Raise ValueError, a)
  else if negb (supported_mode (output_mode payload)) then
    f_apply_outputs payload a = (Raise DeviceRejectedException, a)
  else ∃ o' chunks,
    f_apply_outputs payload a
      = (Ret tt, a <| f_model := (f_model a) <| od_ := o' |> |>)
    ∧ payload = mjoin chunks ∧ Forall2 (holds o') (rx motion_server_default) chunks
    ∧ values o' (inl 0x6060) = Some (PInt (output_mode payload))
    ∧ (∀ k, k ∉ mapped_keys (rx motion_server_default) →
         entries o' !! k = entries (od_ (f_model a)) !! k).
Proof.
  intros Hconf Hdom. unfold f_apply_outputs. rewrite bind_gets, Hconf.
  rewrite (rx_length _ _ default_wire), lift_bind.
  change (Z.of_nat (sum_list _)) with 24.
  destruct (Nat.eqb_spec (length payload) 24) as [Hl|Hl]; cbn [negb].
  2: { destruct (Z.eqb_spec (Z.of_nat (length payload)) 24); [lia|done]. }
  rewrite Hl. change (negb (Z.of_nat 24 =? 24)) with false. cbv iota.
  rewrite validate_default_modes, lift_bind. unfold validate_mode.
  destruct (supported_mode (output_mode payload)) eqn:Hm; cbn [negb]; [|done].
  cbn [mret outcome_ret]. destruct (cut_payload _ _ payload default_wire Hl) as (chunks & E & Hc & Hw).
  destruct (rx_loop_spec _ chunks [] [] (od_ (f_model a)) Hc default_keys_distinct Hdom)
    as (o' & Hrun & Hsame & Hh).
  rewrite app_nil_r, app_nil_l, <-E in Hrun. change (Z.of_nat (length [])) with 0 in Hrun.
  exists o', chunks. split_and!; [|done|done| |done].
  - unfold on_bridge, on_model, on_od, zoom, rxpdo_payload_to_od. by rewrite Hrun.
  - destruct chunks as [|c1 [|c2 chunks]]; [done..|]. simpl in Hw.
    injection Hw as H1 H2 _. pose proof (Forall2_cons_1 _ _ _ _ _ Hh) as [_ Hh2].
    apply Forall2_cons_1 in Hh2 as [Hh2 _].
    destruct (Hh2 eq_refl) as (v & Hv & Hd). change (entry_key _) with (inl (B:=Z * Z) 0x6060) in Hv.
    rewrite (decode_int _ true c2) in Hd by (by rewrite H2). injection Hd as <-.
    assert (slice 2 3 payload = c2) as Hs.
    { pose proof (slice_middle c1 c2 (mjoin chunks)) as Hs. rewrite H1, H2 in Hs. rewrite E. exact Hs. }
    rewrite Hv. unfold output_mode. rewrite Hs. unfold signed_word. rewrite H2. reflexivity.
Qed.

(** The adapter of the linear example profile. *)
Definition linear_adapter : FKrCmmtAdapter :=
  match new_FKrCmmtAdapter linear_profile with
  | Ret a => a
  | Raise _ => FKrCmmt linear_profile linear_servo []
  end.

Lemma outputs_all_or_nothing_witness :
  supported_mode (output_mode (mjoin example_chunks)) = true
  ∧ ∃ o', f_apply_outputs (mjoin example_chunks) linear_adapter
          = (Ret tt, linear_adapter <| f_model := (f_model linear_adapter) <| od_ := o' |> |>)
    ∧ values o' (inl 0x6060) = Some (PInt 8).
Proof.
  split; [vm_compute; reflexivity|].
  assert (∀ k, k ∈ mapped_keys (rx motion_server_default) →
    is_Some (entries (od_ (f_model linear_adapter)) !! k)) as Hk
    by (apply keys_present; vm_compute; reflexivity).
  destruct (outputs_all_or_nothing linear_adapter (mjoin example_chunks) eq_refl Hk)
    as (o' & _ & E & _ & _ & H & _).
  exists o'. split; [exact E|exact H].
Defined.
