(* ===== verification/Axis.v ===== *)
(** * The axis runtime

    src/functional_model/runtime/axis.py ([Model]) and the save command of
    src/device_descriptions/cmmt_as/description.py
    ([CmmtAsDescription.write_sdo]).

    One [axis] owns an adapter, known through the class [DriveAdapter], and a
    fault guard (Fault.v).  [time.monotonic()] is the argument [mono], the
    n-th call answers [mono n]; the parameter storage that [Model.store]
    refers to is the component [disk], [store_save] is its [save].  Requests
    and responses are the JSON objects of the protocol, with the fields the
    code uses; what [describe] adds to the contract, the identity and the
    hashes, is in Wire.v, and the branches with timing are in TimedServer.v.

    The theorems are in AxisProps.v. *)

From S2P Require Import Prelude PyFloat.
From S2P Require Export Adapter Fault.

Open Scope string_scope.
Open Scope list_scope.
Open Scope Z_scope.

(** ** Requests and responses *)

(** A field that is absent is [None]; [request[key]] then raises [KeyError].
    [rq_slave_index] may hold any JSON value. *)
Record request := Request {
  rq_op : option string;
  rq_index : option Z;
  rq_subindex : option Z;
  rq_data : option string;
  rq_slave_index : option pyval;
}.

#[export] Instance request_eta : Eta request := λ r,
  Request (rq_op r) (rq_index r) (rq_subindex r) (rq_data r) (rq_slave_index r).

(** [request[key]] *)
Definition field {A} (get : request → option A) (r : request) : outcome A :=
  of_option KeyError (get r).

(** An element of [Model.entries] behind its address. *)
Module AxisEntry.
Record t := Make {
  name : string;
  type : string;
  bits : Z;
  access : string;
  initial : string;
}.
End AxisEntry.

Record device := Device {
  slave_index : Z;
  device_id : string;
  device_type : string;
  model_type : string;
  model_mode : string;
  parameter_set : string;
}.

(** The device of [Model()] without a configuration. *)
Definition default_device : device :=
  Device 0 "axis-0" "cia402-drive" "f_kr_cmmt" "linear" "axis-0".

Record contract := Contract {
  c_preset : string;
  c_rx_size : Z;
  c_tx_size : Z;
  c_entries : list ((Z * Z) * AxisEntry.t);
  c_rx : list (Z * Z * Z * string * string);
  c_tx : list (Z * Z * Z * string * string);
}.

(** The answers of an axis, and the description of a fleet (Fleet.v). *)
Inductive reply :=
  | REmpty
  | RData (data : string)
  | RCycle (data : string) (cycles : Z)
  | RError (code : Z)
  | RGuard (r : guard_response) (cycles : option Z)
  | RDescribe (c : contract)
  | RFleet (devices : list (device * contract)).

(** [result['data']] of a reply of [_dispatch] *)
Definition response_data (r : reply) : outcome string :=
  match r with
  | RData d | RCycle d _ => Ret d
  | _ => Raise KeyError
  end.

Definition TYPES : list (string * string) :=
  [("uint8", "USINT"); ("int8", "SINT"); ("uint16", "UINT"); ("int16", "INT");
   ("uint32", "UDINT"); ("int32", "DINT"); ("float32", "REAL")].

(** ** The state *)

Record axis (A D : Type) := Axis {
  ax_device : device;
  has_store : bool;
  disk : D;
  preset : string;
  adapter : A;
  rx_size : Z;
  tx_size : Z;
  ax_entries : list ((Z * Z) * AxisEntry.t);
  last_cycle : option float;
  ax_cycles : Z;
  fault_state : AxisFault;
  save_diagnostic : option Diagnostic.t;
  mono_reads : nat;
}.
Arguments Axis {A D} _ _ _ _ _ _ _ _ _ _ _ _ _.
Arguments ax_device {A D} _.
Arguments has_store {A D} _.
Arguments disk {A D} _.
Arguments preset {A D} _.
Arguments adapter {A D} _.
Arguments rx_size {A D} _.
Arguments tx_size {A D} _.
Arguments ax_entries {A D} _.
Arguments last_cycle {A D} _.
Arguments ax_cycles {A D} _.
Arguments fault_state {A D} _.
Arguments save_diagnostic {A D} _.
Arguments mono_reads {A D} _.

#[export] Instance axis_eta A D : Eta (axis A D) := λ x,
  Axis (ax_device x) (has_store x) (disk x) (preset x) (adapter x) (rx_size x) (tx_size x)
    (ax_entries x) (last_cycle x) (ax_cycles x) (fault_state x) (save_diagnostic x)
    (mono_reads x).

(** The lexicographic order of addresses, and [sorted] on a set of them. *)
Definition address_le (a b : Z * Z) : bool :=
  (a.1 <? b.1) || ((a.1 =? b.1) && (a.2 <=? b.2)).

Fixpoint insert_address (a : Z * Z) (l : list (Z * Z)) : list (Z * Z) :=
  match l with
  | [] => [a]
  | b :: l' => if bool_decide (a = b) then l else if address_le a b then a :: l
               else b :: insert_address a l'
  end.

Definition sorted_addresses (l : list (Z * Z)) : list (Z * Z) := foldr insert_address [] l.

Section axis.
Context {A D : Type} `{DriveAdapter A}.
Context (clock mono : nat → float).
Context (store_save : axis A D → outcome () * D).

Definition on_adapter {R} (m : M A R) : M (axis A D) R :=
  zoom adapter (λ a x, x <| adapter := a |>) m.

Definition on_guard {R} (m : M AxisFault R) : M (axis A D) R :=
  zoom fault_state (λ g x, x <| fault_state := g |>) m.

Definition monotonic : M (axis A D) float :=
  n ← gets mono_reads; mono_reads <~ S n ;; mret (mono n).

(** ** Construction *)

Definition addresses (p : profile) : list (Z * Z) :=
  sorted_addresses
    (map (λ e, (Entry.index e, Entry.subindex e))
       (filter (λ e, Entry.index e ≠ 0)
          (rx (pdo_configuration p) ++ tx (pdo_configuration p)))
     ++ map (λ r, (Role.index r, Role.subindex r)) (roles p)).

(** The element of [entries] for one address. *)
Definition axis_entry (address : Z * Z) : M A ((Z * Z) * AxisEntry.t) :=
  let '(index, subindex) := address in
  d ← on_adapter_od (get_definition index (Some subindex));
  let dtype := normalize_od_data_type (Def.data_type d) in
  match assoc dtype TYPES with
  | Some type =>
      if negb (bool_decide (Def.bit_size d ∈ [8; 16; 32])) then raise ValueError
      else
        initial ← adapter_read_sdo index subindex (Def.bit_size d / 8);
        mret (address, AxisEntry.Make (Def.name d) type (Def.bit_size d)
                         (Text.lower (Def.access d)) (hex initial))
  | None => raise ValueError
  end.

Fixpoint axis_entries (l : list (Z * Z)) : M A (list ((Z * Z) * AxisEntry.t)) :=
  match l with
  | [] => mret []
  | a :: l => e ← axis_entry a; es ← axis_entries l; mret (e :: es)
  end.

(** [Model.__init__] behind [create_adapter]; the store is attached later. *)
Definition new_axis (d : device) (a : A) (storage : D) : outcome (axis A D) :=
  let p := adapter_profile a in
  n_rx ← layout_size (rx (pdo_configuration p));
  n_tx ← layout_size (tx (pdo_configuration p));
  match axis_entries (addresses p) a with
  | (Raise e, _) => Raise e
  | (Ret es, a) =>
      match adapter_read_inputs a with
      | (Raise e, _) => Raise e
      | (Ret inputs, a) =>
          mret (Axis d false storage
            (if String.eqb (model_mode d) "linear" then "linear_mm" else "rotary_deg")
            a n_rx n_tx es None 0 (new_guard (slave_index d) inputs) None 0)
      end
  end.

(** [close] *)
Definition close_axis : M (axis A D) () := on_adapter adapter_close.

(** ** Requests outside the cycle *)

Definition pdo_mapping (es : list ((Z * Z) * AxisEntry.t)) (e : ObjectDictionaryEntry)
    : outcome (Z * Z * Z * string * string) :=
  b ← bit_length e;
  t ← (if Entry.index e =? 0 then mret "USINT"
       else i ← of_option KeyError (dict_get (Entry.index e, Entry.subindex e) es);
            mret (AxisEntry.type i));
  mret (Entry.index e, Entry.subindex e, b, Entry.name e, t).

Definition describe : M (axis A D) contract :=
  p ← gets (λ x, adapter_profile (adapter x));
  es ← gets ax_entries;
  r ← lift (traverse (pdo_mapping es) (rx (pdo_configuration p)));
  t ← lift (traverse (pdo_mapping es) (tx (pdo_configuration p)));
  x ← gets (λ x, x);
  mret (Contract (preset x) (rx_size x) (tx_size x) es r t).

(** [f'{r.index:04x}:{r.subindex:02x}'] *)
Definition parameter_key (address : Z * Z) : string :=
  (fmt_hex 4 address.1 ++ String.String ":" (fmt_hex 2 address.2))%string.

(** [parameter_values]: the text of every persistent parameter. *)
Definition parameter_value (address : Z * Z) : M A string :=
  let '(index, subindex) := address in
  d ← on_adapter_od (get_definition index (Some subindex));
  v ← adapter_read_sdo index subindex (Def.bit_size d / 8);
  mret (hex v).

Fixpoint parameter_loop (rs : list (Z * Z)) (d : list (string * string))
    : M A (list (string * string)) :=
  match rs with
  | [] => mret d
  | r :: rs => v ← parameter_value r; parameter_loop rs (dict_set (parameter_key r) v d)
  end.

Definition parameter_values : M A (list (string * string)) :=
  rs ← gets adapter_roles; parameter_loop rs [].

(** [save_parameters]: every failure of the store becomes an [OSError] behind
    one alarm, which the next success resolves. *)
Definition save_parameters : M (axis A D) () :=
  try_except
    (r ← gets store_save; disk <~ r.2 ;; lift r.1)
    (λ _,
      sd ← gets save_diagnostic;
      match sd with
      | None =>
          d ← on_guard (new_diagnostic clock PARAMETER_SAVE_FAILED false false None);
          save_diagnostic <~ Some d
      | Some _ => mret tt
      end ;;
      raise OSError) ;;
  sd ← gets save_diagnostic;
  match sd with
  | Some d => _ ← on_guard (resolve clock d); save_diagnostic <~ None
  | None => mret tt
  end.

Definition save_roles : list (string * Z) :=
  [("parameter_save_status", 0); ("parameter_save_return_code", 0);
   ("parameter_save_return_value", 1)].

(** [CmmtAsDescription.write_sdo] *)
Definition description_write_sdo (index sub : Z) (payload : list byte) (access : string)
    (save : option (M (axis A D) ())) : M (axis A D) () :=
  previous ← (if String.eqb access "wo" then mret None
              else p ← on_adapter (adapter_read_sdo index sub (Z.of_nat (length payload)));
                   mret (Some p));
  on_adapter (adapter_write_sdo index sub payload) ;;
  match save with
  | Some save =>
      if (index =? 0x2005) && (sub =? 1) && bool_decide (payload = [x01]) then
        try_except
          (v ← on_adapter (on_adapter_od (read 0x2005 (Some 3)));
           when (negb (py_eq v (PInt 1))) (raise ValueError) ;;
           save)
          (λ e,
            match previous with
            | Some p => on_adapter (adapter_write_sdo index sub p)
            | None => mret tt
            end ;;
            raise e) ;;
        mapM_ (λ '(role, v), on_adapter (on_adapter_od (write_role role (PInt v)))) save_roles
      else mret tt
  | None => mret tt
  end.

(** ** [_dispatch] *)

Definition dispatch_read (e : AxisEntry.t) (index sub : Z) : M (axis A D) reply :=
  if String.eqb (AxisEntry.access e) "wo" then raise ValueError
  else
    v ← on_adapter (adapter_read_sdo index sub (AxisEntry.bits e / 8));
    mret (RData (hex v)).

Definition dispatch_write (e : AxisEntry.t) (index sub : Z) (r : request)
    : M (axis A D) reply :=
  data ← lift (field rq_data r);
  payload ← lift (fromhex data);
  if negb (Z.of_nat (length payload) =? AxisEntry.bits e / 8) then raise ValueError
  else
    s ← gets has_store;
    description_write_sdo index sub payload (AxisEntry.access e)
      (if (s : bool) then Some save_parameters else None) ;;
    mret REmpty.

(** The time a cycle advances the model by. *)
Definition cycle_dt : M (axis A D) float :=
  now ← monotonic;
  l ← gets last_cycle;
  let dt := match l with None => f_dec 1 (-2) | Some t => f_sub now t end in
  if f_lt (f_dec 1 (-1)) dt then raise RuntimeError
  else last_cycle <~ Some now ;; mret dt.

(** One PDO exchange: outputs in, one step, inputs out. *)
Definition exchange (payload : list byte) (dt : float) : M A (list byte) :=
  adapter_apply_outputs payload ;; adapter_step dt ;; adapter_read_inputs.

Definition dispatch_cycle (r : request) : M (axis A D) reply :=
  data ← lift (field rq_data r);
  payload ← lift (fromhex data);
  n ← gets rx_size;
  if negb (Z.of_nat (length payload) =? n) then raise ValueError
  else
    dt ← cycle_dt;
    inputs ← on_adapter (exchange payload dt);
    modify (λ x, x <| ax_cycles := ax_cycles x + 1 |>) ;;
    c ← gets ax_cycles;
    mret (RCycle (hex inputs) c).

Definition _dispatch (r : request) : M (axis A D) reply :=
  op ← lift (field rq_op r);
  if String.eqb op "describe" then c ← describe; mret (RDescribe c)
  else if String.eqb op "read" || String.eqb op "write" then
    index ← lift (field rq_index r);
    sub ← lift (field rq_subindex r);
    es ← gets ax_entries;
    e ← lift (of_option KeyError (dict_get (index, sub) es));
    if String.eqb op "read" then dispatch_read e index sub
    else dispatch_write e index sub r
  else if String.eqb op "cycle" then dispatch_cycle r
  else if String.eqb op "idle" then
    last_cycle <~ None ;;
    inputs ← on_adapter adapter_read_inputs;
    mret (RData (hex inputs))
  else raise ValueError.

(** ** [dispatch] *)

Definition guard_answer (cycles : option Z) : M (axis A D) reply :=
  g ← gets fault_state; mret (RGuard (response g) cycles).

(** [guard.response()['data'][:4]]: four hexadecimal digits are two bytes. *)
Definition projected_statusword (g : AxisFault) : string := hex (take 2 (r_data (response g))).

(** The handlers around a request that is no cycle. *)
Definition access_handler (op : string) (r : request) (e : exn) : M (axis A D) reply :=
  let fail :=
    on_guard (detect clock AXIS_MODEL_EXECUTION_FAILED true) ;; mret (RError 0x08000000) in
  match e with
  | OSError =>
      if String.eqb op "write" && bool_decide (rq_index r = Some 0x2005)
         && bool_decide (rq_subindex r = Some 1) then raise e
      else fail
  | _ => if is_key_error e || is_value_error e then raise e else fail
  end.

Definition dispatch_access (op : string) (r : request) : M (axis A D) reply :=
  try_except (_dispatch r) (access_handler op r).

(** The preparation of a cycle: the request to execute and whether it resets,
    or the answer of a cycle the guard stops. *)
Definition prepare_cycle (r : request) : M (axis A D) (reply + request * bool) :=
  data ← lift (field rq_data r);
  payload ← lift (fromhex data);
  n ← gets rx_size;
  if negb (Z.of_nat (length payload) =? n) then raise DeviceRejectedException
  else
    p ← on_guard (prepare clock payload);
    match p with
    | (None, _) => last_cycle <~ None ;; a ← guard_answer None; mret (inl a)
    | (Some payload, resetting) =>
        when resetting
          (last_cycle <~ None ;;
           f ← gets (λ x, fault (fault_state x));
           d ← lift (of_option AttributeError f);
           when (bool_decide (Diagnostic.code d = AXIS_ADAPTER_FAULT))
             (on_adapter (adapter_apply_outputs (disable_voltage payload)) ;;
              on_adapter (adapter_step (f_dec 2 (-3))))) ;;
        mret (inr (r <| rq_data := Some (hex payload) |>, resetting))
    end.

Definition accept_result (result : reply) (resetting : bool) : M (axis A D) () :=
  try_except
    (data ← lift (response_data result);
     output ← lift (fromhex data);
     on_guard (accept clock output resetting))
    (λ e,
      if is_value_error e || is_key_error e || bool_decide (e = TypeError) then
        on_guard (detect clock AXIS_MODEL_OUTPUT_INVALID true) ;; last_cycle <~ None
      else raise e).

(** The body of the [try] of a cycle or an idle request: an answer returned
    from inside, or the result. *)
Definition guarded_body (op : string) (r : request) : M (axis A D) (reply + reply) :=
  prepared ← (if String.eqb op "cycle" then prepare_cycle r
              else
                p ← gets (λ x, phase (fault_state x));
                if bool_decide (p = Normal) then mret (inr (r, false))
                else last_cycle <~ None ;; a ← guard_answer None; mret (inl a));
  match prepared with
  | inl a => mret (inl a)
  | inr (r, resetting) =>
      result ← _dispatch r;
      accept_result result resetting ;;
      mret (inr result)
  end.

Definition guarded_handler (e : exn) : M (axis A D) (option (reply + reply)) :=
  (if bool_decide (e = DeviceRejectedException)
   then on_guard (detect clock AXIS_ADAPTER_FAULT false)
   else on_guard (detect clock AXIS_MODEL_EXECUTION_FAILED true)) ;;
  last_cycle <~ None ;; mret None.

Definition dispatch_guarded (op : string) (r : request) : M (axis A D) reply :=
  result ← try_except (x ← guarded_body op r; mret (Some x)) guarded_handler;
  match result with
  | Some (inl a) => mret a
  | _ =>
      g ← gets fault_state;
      if bool_decide (phase g = Normal) && match fault g with None => true | Some _ => false end
      then
        match result with
        | Some (inr a) => mret a
        | _ => raise UnboundLocalError
        end
      else c ← gets ax_cycles; guard_answer (Some c)
  end.

Definition dispatch (r : request) : M (axis A D) reply :=
  op ← lift (field rq_op r);
  g ← gets fault_state;
  status ← (if String.eqb op "read" then
              index ← lift (field rq_index r);
              if index =? 0x6041 then sub ← lift (field rq_subindex r); mret (sub =? 0)
              else mret false
            else mret false);
  if (status : bool) && negb (bool_decide (phase g = Normal)) then
    mret (RData (projected_statusword g))
  else if restart_required g && (String.eqb op "read" || String.eqb op "write") then
    mret (RError 0x08000022)
  else if String.eqb op "cycle" || String.eqb op "idle" then dispatch_guarded op r
  else dispatch_access op r.

End axis.
