(* ===== verification/AxisProps.v ===== *)
(** * Properties of the axis runtime

    The contract of [Model.dispatch] (Axis.v) for every adapter, clock and
    store: a cycle always has an answer; it follows the recovery table of
    Fault.v, and a faulted axis recovers only through the recovery commands; a faulted axis feeds its adapter no motion;
    a latched axis is frozen. *)

From S2P Require Import Prelude PyFloat.
From S2P Require Export Axis.
From coqutil Require Import Word.LittleEndianList.

Open Scope string_scope.
Open Scope list_scope.
Open Scope Z_scope.

Section axis_props.
Context {A D : Type} `{DriveAdapter A}.
Context (clock mono : nat → float).
Context (store_save : axis A D → outcome () * D).

Local Abbreviation dispatch := (dispatch clock mono store_save).
Local Abbreviation _dispatch := (_dispatch clock mono store_save).
Implicit Types (x : axis A D) (r : request).

(** ** The guard of a request *)

Lemma on_guard_detect c b x :
  ∃ g, detect clock c b (fault_state x) = (Ret tt, g) ∧ phase g = Fault
    ∧ restart_required g = restart_required (fault_state x) || b
    ∧ on_guard (detect clock c b) x = (Ret tt, x <| fault_state := g |>).
Proof.
  destruct (detect_eq clock c b (fault_state x)) as (g & E & Hp & _ & Hr).
  exists g. split_and!; [done..|]. unfold on_guard, zoom. by rewrite E.
Qed.

(** [guarded_handler] latches the guard and never raises. *)
Lemma guarded_handler_run e x :
  ∃ g c b, guarded_handler clock e x
      = (Ret None, x <| fault_state := g |> <| last_cycle := None |>)
    ∧ detect clock c b (fault_state x) = (Ret tt, g) ∧ phase g = Fault
    ∧ c ∈ [AXIS_ADAPTER_FAULT; AXIS_MODEL_EXECUTION_FAILED]
    ∧ b = negb (bool_decide (c = AXIS_ADAPTER_FAULT)).
Proof.
  unfold guarded_handler. case_bool_decide.
  - destruct (on_guard_detect AXIS_ADAPTER_FAULT false x) as (g & E & Hp & _ & Hg).
    exists g, AXIS_ADAPTER_FAULT, false. split_and!; [|done..|set_solver|done].
    by rewrite (bind_eq_ret _ _ _ _ _ Hg).
  - destruct (on_guard_detect AXIS_MODEL_EXECUTION_FAILED true x) as (g & E & Hp & _ & Hg).
    exists g, AXIS_MODEL_EXECUTION_FAILED, true. split_and!; [|done..|set_solver|done].
    by rewrite (bind_eq_ret _ _ _ _ _ Hg).
Qed.

(** The three ends of a guarded request. *)
Lemma dispatch_guarded_cases op r x :
  match guarded_body clock mono store_save op r x with
  | (Ret (inl a), x1) => dispatch_guarded clock mono store_save op r x = (Ret a, x1)
  | (Ret (inr a), x1) =>
      (dispatch_guarded clock mono store_save op r x = (Ret a, x1)
       ∧ phase (fault_state x1) = Normal ∧ fault (fault_state x1) = None)
      ∨ (¬ (phase (fault_state x1) = Normal ∧ fault (fault_state x1) = None))
        ∧ dispatch_guarded clock mono store_save op r x
          = (Ret (RGuard (response (fault_state x1)) (Some (ax_cycles x1))), x1)
  | (Raise e, x1) =>
      ∃ g c b, detect clock c b (fault_state x1) = (Ret tt, g)
        ∧ (c ∈ [AXIS_ADAPTER_FAULT; AXIS_MODEL_EXECUTION_FAILED]
           ∧ b = negb (bool_decide (c = AXIS_ADAPTER_FAULT)))
        ∧ dispatch_guarded clock mono store_save op r x
          = (Ret (RGuard (response g) (Some (ax_cycles x1))),
             x1 <| fault_state := g |> <| last_cycle := None |>)
  end.
Proof.
  unfold dispatch_guarded, try_except.
  destruct (guarded_body clock mono store_save op r x) as [[[a|a]|e] x1] eqn:E.
  - rewrite (bind_eq_ret _ _ _ (Some (inl a)) x1); [done|].
    by rewrite (bind_eq_ret _ _ _ _ _ E).
  - rewrite (bind_eq_ret _ _ _ (Some (inr a)) x1); [|by rewrite (bind_eq_ret _ _ _ _ _ E)].
    rewrite bind_gets. case_bool_decide as Hp; [|right; naive_solver].
    destruct (fault (fault_state x1)); [right; naive_solver|by left].
  - destruct (guarded_handler_run e x1) as (g & c & b & Eh & Ed & Hp & Hc & Hb).
    exists g, c, b. split_and!; [done..|].
    rewrite (bind_eq_ret _ _ _ None (x1 <| fault_state := g |> <| last_cycle := None |>));
      [|by rewrite (bind_eq_raise _ _ _ _ _ E)].
    rewrite bind_gets. change (fault_state (x1 <| fault_state := g |> <| last_cycle := None |>)) with g.
    by rewrite Hp.
Qed.

(** ** What a request does to the guard *)

(** The guard without its clock and its printed events. *)
Definition silent (g : AxisFault) : AxisFault := g <| reads := 0%nat |> <| logged := [] |>.

Lemma silent_step g g' : silent g' = silent g → guard_step clock g [] g'.
Proof.
  intros E. replace g' with (g <| reads := reads g' |> <| logged := logged g' |>);
    [apply step_clock|].
  destruct g, g'. unfold silent in E. cbn in E. injection E as -> -> -> -> -> -> -> -> ->. reflexivity.
Qed.

Local Abbreviation mute := (λ x : axis A D, silent (fault_state x)).

#[local] Instance on_adapter_mute {R} (m : M A R) : Preserves mute (on_adapter (D:=D) m).
Proof. apply preserves_zoom. reflexivity. Qed.

#[local] Instance on_guard_mute {R} (m : M AxisFault R) :
  Preserves silent m → Preserves mute (on_guard (A:=A) (D:=D) m).
Proof.
  intros Hm x. unfold on_guard, zoom. specialize (Hm (fault_state x)).
  by destruct (m (fault_state x)).
Qed.

#[local] Instance new_diagnostic_silent c l f k :
  Preserves silent (new_diagnostic clock c l f k).
Proof. unfold new_diagnostic, now, log. apply _. Qed.

#[local] Instance resolve_silent d : Preserves silent (resolve clock d).
Proof. unfold resolve, now, log. destruct (Diagnostic.resolved_at d); apply _. Qed.

#[local] Instance save_parameters_mute : Preserves mute (save_parameters clock store_save).
Proof. unfold save_parameters. frame. Qed.

#[local] Instance description_mute i s p a save :
  (∀ m, save = Some m → Preserves mute m) →
  Preserves mute (description_write_sdo i s p a save).
Proof.
  intros Hs. unfold description_write_sdo. destruct save as [m|]; frame.
Qed.

#[local] Instance _dispatch_mute r : Preserves mute (_dispatch r).
Proof.
  unfold Axis._dispatch, describe, dispatch_read, dispatch_write, dispatch_cycle, cycle_dt, monotonic. frame.
  apply description_mute. intros m E. match type of E with (if ?b then _ else _) = _ => destruct b end;
    [injection E as <-; apply _|done].
Qed.

(** ** What a cycle feeds the adapter *)

(** One call on the adapter that may move the drive, with outputs in [P]. *)
Inductive feed (P : list byte → Prop) : A → A → Prop :=
  | feed_outputs p a : P p → feed P a (adapter_apply_outputs p a).2
  | feed_step dt a : feed P a (adapter_step dt a).2
  | feed_inputs a : feed P a (adapter_read_inputs a).2.

Definition feeds (P : list byte → Prop) (x x' : axis A D) : Prop :=
  rtc (feed P) (adapter x) (adapter x').

#[local] Instance feeds_preorder P : PreOrder (feeds P).
Proof.
  split; [intros x; apply rtc_refl|intros x y z H1 H2; unfold feeds in *; by etrans].
Qed.

Lemma feeds_on_adapter {R} P (m : M A R) :
  (∀ a, rtc (feed P) a (m a).2) → Moves (feeds P) (on_adapter (D:=D) m).
Proof.
  intros Hm x. unfold feeds, on_adapter, zoom. specialize (Hm (adapter x)).
  by destruct (m (adapter x)).
Qed.

#[local] Instance feeds_on_guard {R} P (m : M AxisFault R) : Moves (feeds P) (on_guard (D:=D) m).
Proof.
  intros x. unfold feeds, on_guard, zoom. destruct (m (fault_state x)). apply rtc_refl.
Qed.

Lemma feeds_exchange P p dt : P p → Moves (feeds P) (on_adapter (D:=D) (exchange p dt)).
Proof.
  intros HP. apply feeds_on_adapter. intros a. unfold exchange, mbind, M_bind.
  pose proof (feed_outputs P p a HP) as H1.
  destruct (adapter_apply_outputs p a) as [[[]|] a1]; simpl in *; [|by apply rtc_once].
  eapply rtc_l; [exact H1|].
  pose proof (feed_step P dt a1) as H2.
  destruct (adapter_step dt a1) as [[[]|] a2]; simpl in *; [|by apply rtc_once].
  eapply rtc_l; [exact H2|]. apply rtc_once, feed_inputs.
Qed.

Lemma feeds_cycle P r p :
  rq_data r = Some (hex p) → P p → Moves (feeds P) (dispatch_cycle mono r).
Proof.
  intros Hr HP x. unfold dispatch_cycle, field. rewrite Hr. cbn [of_option].
  rewrite !lift_bind, fromhex_hex. revert x.
  change (Moves (feeds P) (n ← gets (rx_size (A:=A) (D:=D));
    if negb (Z.of_nat (length p) =? n) then raise ValueError
    else dt ← cycle_dt mono; inputs ← on_adapter (exchange p dt);
         modify (λ x, x <| ax_cycles := ax_cycles x + 1 |>) ;;
         c ← gets ax_cycles; mret (RCycle (hex inputs) c))).
  pose proof (feeds_exchange P p) as He.
  unfold cycle_dt, monotonic. walk; apply rtc_refl.
Qed.

(** The payloads a guard may let through for a received payload. *)
Definition let_through (g : AxisFault) (payload q : list byte) : Prop :=
  (phase g = Normal ∧ q = payload)
  ∨ q = disable_voltage payload ∨ q = reset_only payload
  ∨ q = payload ∧
    match phase g with
    | WaitShutdown => is_command 6 (word payload)
    | WaitSwitchOn => is_command 7 (word payload)
    | WaitEnable => is_command 15 (word payload) ∧ masked (word payload) 0x10 = false
                    ∧ third payload = Ret 1
    | _ => False
    end.

Lemma prepared_lets payload g g' p b :
  prepared payload g g' (Some p, b) → let_through g payload p.
Proof.
  unfold let_through.
  inversion 1 as [| | | | |c E Hc H15]; subst; auto. right. right. right. split; [done|].
  rewrite !elem_of_cons in E. destruct E as [E|[E|[E|E]]]; [..|by apply elem_of_nil in E];
    injection E as E1 _ E3; rewrite E1; unfold is_command; [congruence|congruence|].
  split; [congruence|]. apply H15. congruence.
Qed.

Lemma disable_reset payload : disable_voltage (reset_only payload) = disable_voltage payload.
Proof. reflexivity. Qed.

Lemma disable_disable payload : disable_voltage (disable_voltage payload) = disable_voltage payload.
Proof. reflexivity. Qed.

Lemma resetting_lets payload g g' p :
  prepared payload g g' (Some p, true) → disable_voltage p = disable_voltage payload.
Proof. by inversion 1. Qed.

Lemma prepare_cycle_cases r x :
  let '(res, x1) := prepare_cycle clock r x in
  (fault_state x1 = fault_state x ∧ adapter x1 = adapter x ∧ ∃ e, res = Raise e)
  ∨ ∃ data payload out, rq_data r = Some data ∧ fromhex data = Ret payload
    ∧ prepare clock payload (fault_state x) = (out, fault_state x1)
    ∧ feeds (let_through (fault_state x) payload) x x1
    ∧ match res with
      | Ret (inl a) =>
          (∃ b, out = Ret (None, b)) ∧ a = RGuard (response (fault_state x1)) None
          ∧ adapter x1 = adapter x
      | Ret (inr (r', rst)) =>
          ∃ p, out = Ret (Some p, rst) ∧ r' = r <| rq_data := Some (hex p) |>
      | Raise _ => (∃ e, out = Raise e) ∨ ∃ p b, out = Ret (Some p, b)
      end.
Proof.
  unfold prepare_cycle, field. destruct (rq_data r) as [data|]; cbn [of_option];
    rewrite lift_bind; [|cbn; left; eauto].
  rewrite lift_bind. destruct (fromhex data) as [payload|e] eqn:Ef; [|cbn; left; eauto].
  rewrite bind_gets. destruct (negb _); [cbn; left; eauto|].
  unfold on_guard, zoom, mbind at 1, M_bind at 1.
  destruct (prepare clock payload (fault_state x)) as [[[[p|] rst]|e] g] eqn:E.
  2: right; exists data, payload; eexists; split_and!;
    [done|done|exact E|apply rtc_refl|eauto|done|done].
  2: right; exists data, payload; eexists; split_and!; [done|done|exact E|apply rtc_refl|eauto].
  set (x1 := x <| fault_state := g |>).
  destruct (prepare_spec _ _ _ _ _ E) as (P & _).
  pose (tail := (last_cycle <~ None ;;
    f ← gets (λ x : axis A D, fault (fault_state x)); d ← lift (of_option AttributeError f);
    when (bool_decide (Diagnostic.code d = AXIS_ADAPTER_FAULT))
      (on_adapter (adapter_apply_outputs (disable_voltage p)) ;;
       on_adapter (adapter_step (f_dec 2 (-3)))) : M (axis A D) ())).
  assert (Preserves fault_state (when rst tail)) as Ht by (unfold tail, on_adapter; frame).
  assert (feeds (let_through (fault_state x) payload) x1 (when rst tail x1).2) as Hfeed.
  { destruct rst; [|apply rtc_refl]. simpl when.
    assert (let_through (fault_state x) payload (disable_voltage p)) as HP
      by (right; left; by eapply resetting_lets).
    pose proof (λ Q, feeds_on_adapter Q (adapter_step (A:=A) (f_dec 2 (-3)))
      (λ a, rtc_once _ _ (feed_step Q (f_dec 2 (-3)) a))) as H2.
    pose proof (feeds_on_adapter (let_through (fault_state x) payload)
      (adapter_apply_outputs (A:=A) (disable_voltage p))
      (λ a, rtc_once _ _ (feed_outputs _ _ a HP))) as H1.
    revert x1. assert (Moves (feeds (let_through (fault_state x) payload)) tail) as Hm
      by (unfold tail; walk; apply rtc_refl).
    intros x1. exact (Hm x1). }
  specialize (Ht x1). unfold mbind at 1, M_bind at 1. fold tail.
  destruct (when rst tail x1) as [[[]|e] x2]; simpl in Ht, Hfeed; cbn beta iota.
  - right. exists data, payload, (Ret (Some p, rst)). rewrite Ht. split_and!; eauto 6.
  - right. exists data, payload, (Ret (Some p, rst)). rewrite Ht. split_and!; eauto 6.
Qed.

(** ** The result of a cycle *)

(** [accept_result] never raises: the guard accepts the inputs, or it latches
    them as invalid. *)
Lemma accept_result_run result rst x :
  ∃ x', accept_result clock result rst x = (Ret tt, x') ∧ adapter x' = adapter x
    ∧ ((∃ out, accept clock out rst (fault_state x) = (Ret tt, fault_state x'))
       ∨ detect clock AXIS_MODEL_OUTPUT_INVALID true (fault_state x) = (Ret tt, fault_state x')).
Proof.
  assert (∀ e, is_value_error e || is_key_error e || bool_decide (e = TypeError) = true → ∃ x',
    (if is_value_error e || is_key_error e || bool_decide (e = TypeError)
     then on_guard (detect clock AXIS_MODEL_OUTPUT_INVALID true) ;; last_cycle <~ None
     else raise e) x = (Ret tt, x') ∧ adapter x' = adapter x
    ∧ ((∃ out, accept clock out rst (fault_state x) = (Ret tt, fault_state x'))
       ∨ detect clock AXIS_MODEL_OUTPUT_INVALID true (fault_state x) = (Ret tt, fault_state x')))
    as Hinvalid.
  { intros e ->. destruct (on_guard_detect AXIS_MODEL_OUTPUT_INVALID true x) as (g & E & _ & _ & Hg).
    eexists. split_and!; [by rewrite (bind_eq_ret _ _ _ _ _ Hg)|done|right; exact E]. }
  unfold accept_result, try_except.
  assert (∀ e, response_data result = Raise e → e = KeyError) as Hk
    by (destruct result; simpl; congruence).
  rewrite lift_bind. destruct (response_data result) as [data|e].
  2: { rewrite (Hk e eq_refl). by apply (Hinvalid KeyError). }
  rewrite lift_bind. unfold fromhex. destruct (fromhex_aux _ _) as [out|]; cbn [of_option];
    [|by apply (Hinvalid ValueError)].
  unfold on_guard at 1, zoom. destruct (accept clock out rst (fault_state x)) as [[[]|e] g] eqn:E.
  - eexists. split_and!; [done|done|left; eauto].
  - pose proof (accept_spec _ _ _ _ _ _ E) as (-> & -> & _).
    replace (x <| fault_state := fault_state x |>) with x by (by destruct x).
    by apply (Hinvalid ValueError).
Qed.

#[local] Instance dispatch_cycle_guard r : Preserves fault_state (dispatch_cycle (A:=A) (D:=D) mono r).
Proof. unfold dispatch_cycle, cycle_dt, monotonic, on_adapter. frame. Qed.

(** The control words a request puts before the guard. *)
Definition request_words r : list Z :=
  match rq_op r, rq_data r with
  | Some op, Some data =>
      if String.eqb op "cycle" then
        match fromhex data with Ret payload => [word payload] | Raise _ => [] end
      else []
  | _, _ => []
  end.

(** The payloads a cycle request may feed the adapter in a guard state. *)
Definition fed_by g r (q : list byte) : Prop :=
  ∃ data payload, rq_data r = Some data ∧ fromhex data = Ret payload ∧ let_through g payload q.

Lemma feeds_weaken (P Q : list byte → Prop) x x' : (∀ q, P q → Q q) → feeds P x x' → feeds Q x x'.
Proof.
  intros HPQ H1. unfold feeds in *. induction H1 as [|a b c Hs _ IH]; [done|].
  eapply rtc_l; [|exact IH]. destruct Hs; constructor. by apply HPQ.
Qed.

Lemma run_one g ws g' : guard_step clock g ws g' → guard_run clock g ws g'.
Proof. intros Hs. apply (guard_run_snoc clock g [] g ws g'); [constructor|done]. Qed.

(** A cycle: what it does to the guard and to the adapter. *)
Lemma guarded_cycle r x :
  rq_op r = Some "cycle" →
  let x' := (dispatch_guarded clock mono store_save "cycle" r x).2 in
  (∃ ws, sublist ws (request_words r) ∧ guard_run clock (fault_state x) ws (fault_state x'))
  ∧ feeds (fed_by (fault_state x) r) x x'.
Proof.
  intros Hop. pose proof (dispatch_guarded_cases "cycle" r x) as Hd.
  pose proof (prepare_cycle_cases r x) as Hp. revert Hd.
  unfold guarded_body. cbn [String.eqb Ascii.eqb Bool.eqb].
  unfold mbind at 1, M_bind at 1.
  destruct (prepare_cycle clock r x) as [res x1].
  destruct Hp as [(Hg & Ha & e & ->)|(data & payload & out & Hdata & Hhex & Hprep & Hf & Hres)].
  { intros (g & c & b & Hdet & _ & ->). cbn. rewrite Hg in Hdet. split.
    - exists []. split; [apply sublist_nil_l|]. by eapply run_one, step_detect.
    - unfold feeds. cbn. by rewrite Ha. }
  assert (request_words r = [word payload]) as Hw
    by (unfold request_words; by rewrite Hop, Hdata, Hhex).
  assert (feeds (fed_by (fault_state x) r) x x1) as Hf1.
  { eapply feeds_weaken; [|exact Hf]. intros q Hq. by exists data, payload. }
  destruct res as [[a|[r' rst]]|e].
  - destruct Hres as ([b ->] & -> & Ha). intros ->. split; [|done].
    exists [word payload]. rewrite Hw. split; [done|]. by eapply run_one, step_stopped.
  - destruct Hres as (p & -> & ->).
    assert (_dispatch (r <| rq_data := Some (hex p) |>)
            = dispatch_cycle mono (r <| rq_data := Some (hex p) |>)) as Hdis.
    { unfold Axis._dispatch, field.
      replace (rq_op (r <| rq_data := Some (hex p) |>)) with (Some "cycle") by (symmetry; exact Hop).
      reflexivity. }
    assert (feeds (fed_by (fault_state x) r) x1
      (dispatch_cycle mono (r <| rq_data := Some (hex p) |>) x1).2) as Hf2.
    { apply (feeds_cycle _ _ p); [done|]. exists data, payload. split_and!; [done..|].
      destruct (prepare_spec _ _ _ _ _ Hprep) as (P & _). by eapply prepared_lets. }
    pose proof (dispatch_cycle_guard (r <| rq_data := Some (hex p) |>) x1) as Hg2.
    unfold mbind at 1, M_bind at 1. rewrite Hdis.
    destruct (dispatch_cycle mono (r <| rq_data := Some (hex p) |>) x1) as [[result|e] x2];
      simpl in Hf2, Hg2.
    + destruct (accept_result_run result rst x2) as (x3 & Hr & Ha3 & Hstep).
      rewrite (bind_eq_ret _ _ _ _ _ Hr). cbn [mret M_ret].
      assert (feeds (fed_by (fault_state x) r) x x3) as Hf3
        by (unfold feeds in *; rewrite Ha3; by etrans).
      intros Hd. assert ((dispatch_guarded clock mono store_save "cycle" r x).2 = x3) as ->
        by (by destruct Hd as [(-> & _ & _) | [_ ->]]).
      split; [|done]. exists [word payload]. rewrite Hw. split; [done|]. rewrite Hg2 in Hstep.
      destruct Hstep as [[out Hacc]|Hdet].
      * by eapply run_one, step_accepted.
      * by eapply run_one, step_failed.
    + intros (g & c & b & Hdet & _ & ->). rewrite Hg2 in Hdet. split.
      * exists [word payload]. rewrite Hw. split; [done|]. by eapply run_one, step_failed.
      * unfold feeds in *. cbn. by etrans.
  - intros (g & c & b & Hdet & _ & ->). split; [|done].
    exists [word payload]. rewrite Hw. split; [done|]. by eapply run_one, step_failed.
Qed.

(** An idle request reads the inputs of an axis in normal operation. *)
Lemma guarded_idle r x :
  rq_op r = Some "idle" →
  let x' := (dispatch_guarded clock mono store_save "idle" r x).2 in
  guard_run clock (fault_state x) [] (fault_state x') ∧ feeds (λ _, False) x x'
  ∧ (phase (fault_state x) ≠ Normal → fault_state x' = fault_state x ∧ adapter x' = adapter x).
Proof.
  intros Hop. pose proof (dispatch_guarded_cases "idle" r x) as Hd. revert Hd.
  unfold guarded_body. cbn [String.eqb Ascii.eqb Bool.eqb].
  rewrite bind_assoc, bind_gets. case_bool_decide as Hn.
  2: { intros ->. split_and!; [constructor|apply rtc_refl|done]. }
  rewrite bind_ret_l. unfold Axis._dispatch, field. rewrite Hop. cbn [of_option].
  rewrite !bind_assoc, lift_bind. cbn [String.eqb Ascii.eqb Bool.eqb orb].
  rewrite bind_assoc, (bind_eq_ret (last_cycle <~ None) _ x tt _ eq_refl).
  set (x0 := x <| last_cycle := None |>). rewrite bind_assoc.
  assert (feeds (λ _, False) x0 (on_adapter adapter_read_inputs x0).2) as Hf.
  { apply feeds_on_adapter. intros a. apply rtc_once, feed_inputs. }
  unfold mbind at 1, M_bind at 1. unfold on_adapter, zoom in *.
  destruct (adapter_read_inputs (adapter x0)) as [[inputs|e] a1]; simpl in Hf.
  - rewrite bind_ret_l. set (x1 := x0 <| adapter := a1 |>).
    destruct (accept_result_run (RData (hex inputs)) false x1) as (x2 & Hr & Ha2 & Hstep).
    rewrite (bind_eq_ret _ _ _ _ _ Hr). cbn [mret M_ret]. intros Hd.
    assert ((dispatch_guarded clock mono store_save "idle" r x).2 = x2) as ->
      by (by destruct Hd as [(-> & _ & _) | [_ ->]]).
    split_and!; [|unfold feeds in *; by rewrite Ha2|done].
    destruct Hstep as [[out Hacc]|Hdet]; [by eapply run_one, step_idle|by eapply run_one, step_detect].
  - intros (g & c & b & Hdet & _ & ->). split_and!; [by eapply run_one, step_detect|exact Hf|done].
Qed.

Lemma access_run op r x :
  guard_run clock (fault_state x) []
    (fault_state (dispatch_access clock mono store_save op r x).2).
Proof.
  unfold dispatch_access, try_except. pose proof (_dispatch_mute r x) as Hm.
  destruct (_dispatch r x) as [[a|e] x1]; simpl in *; [by apply run_one, silent_step|].
  assert (guard_run clock (fault_state x) [] (fault_state x1)) as H1
    by (by apply run_one, silent_step).
  assert (∀ c b, guard_run clock (fault_state x) []
    (fault_state ((on_guard (detect clock c b) ;; mret (RError 0x08000000)) x1).2)) as H2.
  { intros c b. destruct (on_guard_detect c b x1) as (g & E & _ & _ & Hg).
    rewrite (bind_eq_ret _ _ _ _ _ Hg). cbn.
    apply (guard_run_snoc clock _ [] (fault_state x1) [] g); [done|by eapply step_detect]. }
  unfold access_handler. destruct e; try exact H1; try apply H2.
  destruct (_ && _ && _); [exact H1|apply H2].
Qed.

(** ** Requests in sequence *)

Lemma dispatch_guarded_eq op r x :
  rq_op r = Some op → op = "cycle" ∨ op = "idle" →
  dispatch r x = dispatch_guarded clock mono store_save op r x.
Proof.
  intros E Hop. unfold Axis.dispatch, field. rewrite E. cbn [of_option].
  rewrite lift_bind, bind_gets.
  destruct Hop as [-> | ->]; cbn [String.eqb Ascii.eqb Bool.eqb]; rewrite bind_ret_l;
    cbn [andb orb]; by rewrite andb_false_r.
Qed.

(** The axis after a sequence of requests; a request that raises leaves the
    state it reached. *)
Definition after (rs : list request) x : axis A D := foldl (λ x r, (dispatch r x).2) x rs.

(** A constructed axis, with or without a store, that served requests. *)
Definition axis_reachable x : Prop :=
  ∃ d a storage x0 b rs, new_axis d a storage = Ret x0 ∧ x = after rs (x0 <| has_store := b |>).

Lemma dispatch_run r x :
  ∃ ws, sublist ws (request_words r) ∧ guard_run clock (fault_state x) ws (fault_state (dispatch r x).2).
Proof.
  destruct (rq_op r) as [op|] eqn:Hop.
  2: { exists []. split; [apply sublist_nil_l|]. unfold Axis.dispatch, field. rewrite Hop. constructor. }
  destruct (decide (op = "cycle")) as [->|Hc].
  { rewrite (dispatch_guarded_eq "cycle") by auto. by apply guarded_cycle. }
  exists []. split; [apply sublist_nil_l|].
  destruct (decide (op = "idle")) as [->|Hi].
  { rewrite (dispatch_guarded_eq "idle") by auto. by apply guarded_idle. }
  unfold Axis.dispatch, field. rewrite Hop. cbn [of_option]. rewrite lift_bind, bind_gets.
  assert (∀ s : bool, guard_run clock (fault_state x) [] (fault_state
    ((if s && negb (bool_decide (phase (fault_state x) = Normal))
      then mret (RData (projected_statusword (fault_state x)))
      else if restart_required (fault_state x) && (String.eqb op "read" || String.eqb op "write")
           then mret (RError 0x08000022)
           else if String.eqb op "cycle" || String.eqb op "idle"
                then dispatch_guarded clock mono store_save op r
                else dispatch_access clock mono store_save op r) x).2)) as Hs.
  { intros s. apply String.eqb_neq in Hc, Hi. rewrite Hc, Hi.
    destruct (s && _); [constructor|]. destruct (_ && _); [constructor|]. apply access_run. }
  destruct (String.eqb op "read"); [|by rewrite bind_ret_l].
  rewrite bind_assoc, lift_bind. destruct (of_option KeyError (rq_index r)); [|constructor].
  destruct (_ =? _); [|by rewrite bind_ret_l].
  rewrite bind_assoc, lift_bind. destruct (of_option KeyError (rq_subindex r)); [|constructor].
  by rewrite bind_ret_l.
Qed.

Lemma run_app g1 ws1 g2 ws2 g3 :
  guard_run clock g1 ws1 g2 → guard_run clock g2 ws2 g3 → guard_run clock g1 (ws1 ++ ws2) g3.
Proof.
  intros H1 H2. induction H2 as [g|ga wa gb wb gc _ IH Hs]; [by rewrite app_nil_r|].
  rewrite app_assoc. eapply guard_run_snoc; [by apply IH|done].
Qed.

Lemma after_guard_run rs x :
  ∃ ws, sublist ws (concat (map request_words rs))
    ∧ guard_run clock (fault_state x) ws (fault_state (after rs x)).
Proof.
  revert x. induction rs as [|r rs IH]; intros x; simpl; [exists []; split; constructor|].
  destruct (dispatch_run r x) as (ws1 & S1 & R1). destruct (IH (dispatch r x).2) as (ws2 & S2 & R2).
  exists (ws1 ++ ws2). split; [by apply sublist_app|by eapply run_app].
Qed.

Lemma new_axis_storage d a storage x0 : new_axis d a storage = Ret x0 →
  ax_device x0 = d ∧ disk x0 = storage.
Proof.
  unfold new_axis. intros E.
  apply outcome_bind_inv in E as (n & _ & E). apply outcome_bind_inv in E as (m & _ & E).
  destruct (axis_entries _ a) as [[es|] a1]; [|done].
  destruct (adapter_read_inputs a1) as [[inputs|] a2]; [|done]. by injection E as <-.
Qed.

Lemma new_axis_guard d a storage x0 : new_axis d a storage = Ret x0 →
  ∃ inputs, fault_state x0 = new_guard (slave_index d) inputs.
Proof.
  unfold new_axis. intros E.
  apply outcome_bind_inv in E as (n & _ & E). apply outcome_bind_inv in E as (m & _ & E).
  destruct (axis_entries _ a) as [[es|] a1]; [|done].
  destruct (adapter_read_inputs a1) as [[inputs|] a2]; [|done].
  injection E as <-. by exists inputs.
Qed.

Lemma reachable_guard x : axis_reachable x → guard_ok (fault_state x).
Proof.
  intros (d & a & st & x0 & b & rs & E & ->).
  destruct (new_axis_guard _ _ _ _ E) as [inputs Hg].
  destruct (after_guard_run rs (x0 <| has_store := b |>)) as (ws & _ & R).
  change (fault_state (x0 <| has_store := b |>)) with (fault_state x0) in R. rewrite Hg in R.
  by destruct (run_ok clock _ _ _ (new_guard_ok _ _) R).
Qed.

(** ** A latched axis *)

Lemma prepare_cycle_latched r x :
  phase (fault_state x) = Fault → restart_required (fault_state x) = true →
  match prepare_cycle clock r x with
  | (Ret (inl a), x1) => a = RGuard (response (fault_state x1)) None
  | (Ret (inr _), _) => False
  | (Raise _, _) => True
  end ∧ adapter (prepare_cycle clock r x).2 = adapter x.
Proof.
  intros Hp Hr. pose proof (prepare_cycle_cases r x) as Hc.
  destruct (prepare_cycle clock r x) as [res x1].
  destruct Hc as [(_ & Ha & e & ->)|(data & payload & out & _ & _ & E & _ & Hres)]; [done|].
  rewrite prepare_latched in E by done. injection E as <- _.
  destruct res as [[a|[r' rst]]|e].
  - destruct Hres as (_ & -> & Ha). by split.
  - destruct Hres as (p & ? & _). congruence.
  - destruct Hres as [[e' ?]|(p & b & ?)]; congruence.
Qed.

Lemma latched_guarded op r x :
  rq_op r = Some op → op = "cycle" ∨ op = "idle" →
  phase (fault_state x) = Fault → restart_required (fault_state x) = true →
  ∃ c x', dispatch_guarded clock mono store_save op r x = (Ret (RGuard (response (fault_state x')) c), x')
    ∧ adapter x' = adapter x.
Proof.
  intros Hop Hor Hp Hr. pose proof (dispatch_guarded_cases op r x) as Hd. revert Hd.
  destruct Hor as [-> | ->].
  - destruct (prepare_cycle_latched r x Hp Hr) as [H1 H2]. revert H1 H2.
    unfold guarded_body. cbn [String.eqb Ascii.eqb Bool.eqb]. unfold mbind at 1, M_bind at 1.
    destruct (prepare_cycle clock r x) as [[[a|p]|e] x1]; [intros -> Ha|done|intros _ Ha].
    + intros ->. by exists None, x1.
    + intros (g & c & b & _ & _ & ->).
      by exists (Some (ax_cycles x1)), (x1 <| fault_state := g |> <| last_cycle := None |>).
  - unfold guarded_body. cbn [String.eqb Ascii.eqb Bool.eqb].
    rewrite bind_assoc, bind_gets, Hp. rewrite bool_decide_false by done. intros ->.
    by exists None, (x <| last_cycle := None |>).
Qed.

(** The answer of a latched axis.  A write is aborted; a read is a [KeyError]
    without the fields it is decided by, the projected status word on 0x6041:0
    and aborted on every other object; none of them changes the axis.  A cycle
    and an idle request are answered by the guard.  A description is still
    given, and an unknown operation is a [ValueError]. *)
Definition latched_read r x : outcome reply :=
  match rq_index r with
  | None => Raise KeyError
  | Some i =>
      if i =? 0x6041 then
        match rq_subindex r with
        | None => Raise KeyError
        | Some sub =>
            if sub =? 0 then Ret (RData (projected_statusword (fault_state x)))
            else Ret (RError 0x08000022)
        end
      else Ret (RError 0x08000022)
  end.

Definition latched_answer r x (res : outcome reply) x' : Prop :=
  match rq_op r with
  | None => res = Raise KeyError ∧ x' = x
  | Some op =>
      if String.eqb op "write" then res = Ret (RError 0x08000022) ∧ x' = x
      else if String.eqb op "read" then res = latched_read r x ∧ x' = x
      else if String.eqb op "cycle" || String.eqb op "idle" then
        ∃ c, res = Ret (RGuard (response (fault_state x')) c)
      else if String.eqb op "describe" then
        ∀ c, (describe x).1 = Ret c → res = Ret (RDescribe c) ∧ x' = x
      else res = Raise ValueError ∧ x' = x
  end.

Lemma describe_adapter r x :
  rq_op r = Some "describe" →
  adapter (dispatch_access clock mono store_save "describe" r x).2 = adapter x.
Proof.
  intros E. unfold dispatch_access.
  assert (_dispatch r = (c ← describe; mret (RDescribe c))) as ->
    by (unfold Axis._dispatch, field; by rewrite E).
  enough (Preserves adapter (try_except (c ← describe; mret (RDescribe c))
    (access_handler (D:=D) clock "describe" r))) as Hf by apply Hf.
  unfold describe, access_handler, on_guard. frame.
Qed.

Lemma latched_dispatch r x :
  guard_ok (fault_state x) → restart_required (fault_state x) = true →
  adapter (dispatch r x).2 = adapter x ∧ latched_answer r x (dispatch r x).1 (dispatch r x).2.
Proof.
  intros Hok Hr. pose proof (proj2 Hok Hr) as Hp.
  assert (∀ op, rq_op r = Some op → op = "cycle" ∨ op = "idle" →
    adapter (dispatch r x).2 = adapter x
    ∧ ∃ c, (dispatch r x).1 = Ret (RGuard (response (fault_state (dispatch r x).2)) c)) as Hg.
  { intros op E Hor. rewrite (dispatch_guarded_eq op) by done.
    destruct (latched_guarded op r x E Hor Hp Hr) as (c & x' & -> & Ha). simpl. eauto. }
  unfold latched_answer. destruct (rq_op r) as [op|] eqn:E.
  2: { unfold Axis.dispatch, field. by rewrite E. }
  destruct (decide (op = "describe")) as [->|N1]; [|
    destruct (decide (op = "read")) as [->|N2]; [|
    destruct (decide (op = "write")) as [->|N3]; [|
    destruct (decide (op = "cycle")) as [->|N4]; [|
    destruct (decide (op = "idle")) as [->|N5]]]]].
  - assert (dispatch r x = dispatch_access clock mono store_save "describe" r x) as Hd.
    { unfold Axis.dispatch, field. rewrite E. cbn [of_option].
      rewrite lift_bind, bind_gets. cbn [String.eqb Ascii.eqb Bool.eqb orb].
      by rewrite bind_ret_l, andb_false_r. }
    rewrite Hd. split; [exact (describe_adapter r x E)|].
    intros c Hc. cbn [String.eqb Ascii.eqb Bool.eqb orb].
    unfold dispatch_access, Axis._dispatch, field. rewrite E. cbn [of_option].
    unfold try_except. rewrite lift_bind. cbn [String.eqb Ascii.eqb Bool.eqb].
    assert ((describe x).2 = x) as Hrd
      by (apply (reader (m:=describe)); unfold describe; apply _).
    rewrite (bind_eq_ret describe _ x c x); [done|].
    destruct (describe x) as [res x1]. cbn in *. congruence.
  - cbn [String.eqb Ascii.eqb Bool.eqb]. unfold latched_read.
    unfold Axis.dispatch, field. rewrite E. cbn [of_option]. rewrite lift_bind, bind_gets.
    cbn [String.eqb Ascii.eqb Bool.eqb]. rewrite bind_assoc, lift_bind.
    destruct (rq_index r) as [i|]; cbn [of_option]; [|done].
    rewrite Hp, Hr. destruct (i =? 0x6041); [|by rewrite bind_ret_l].
    rewrite bind_assoc, lift_bind.
    destruct (rq_subindex r) as [sub|]; cbn [of_option]; [|done].
    rewrite bind_ret_l, bool_decide_false by done. by destruct (sub =? 0).
  - unfold Axis.dispatch, field. rewrite E. cbn [of_option]. rewrite lift_bind, bind_gets.
    cbn [String.eqb Ascii.eqb Bool.eqb]. rewrite bind_ret_l, Hr. by cbn.
  - by apply (Hg "cycle"); [|left].
  - by apply (Hg "idle"); [|right].
  - apply String.eqb_neq in N1, N2, N3, N4, N5. rewrite N1, N2, N3, N4, N5. cbn [orb].
    assert (_dispatch r x = (Raise ValueError, x)) as Hd
      by (unfold Axis._dispatch, field; rewrite E; cbn [of_option];
          by rewrite lift_bind, N1, N2, N3, N4, N5).
    assert (dispatch r x = (Raise ValueError, x)) as ->; [|done].
    unfold Axis.dispatch, field. rewrite E. cbn [of_option].
    rewrite lift_bind, bind_gets, N2, N3, N4, N5, bind_ret_l, andb_false_r. cbn [andb orb].
    unfold dispatch_access, try_except. by rewrite Hd.
Qed.

(** ** A cycle in normal operation *)

(** The time the next cycle of the axis advances its model by. *)
Definition next_dt x : float :=
  match last_cycle x with
  | None => f_dec 1 (-2)
  | Some t => f_sub (mono (mono_reads x)) t
  end.

Lemma cycle_dt_run x :
  cycle_dt mono x =
  if f_lt (f_dec 1 (-1)) (next_dt x) then (Raise RuntimeError, x <| mono_reads := S (mono_reads x) |>)
  else (Ret (next_dt x), x <| mono_reads := S (mono_reads x) |>
                           <| last_cycle := Some (mono (mono_reads x)) |>).
Proof.
  unfold cycle_dt, monotonic, next_dt, mbind, M_bind, gets, modify, mret, M_ret. cbn beta iota.
  change (last_cycle (x <| mono_reads := S (mono_reads x) |>)) with (last_cycle x).
  by destruct (f_lt _ _).
Qed.

Lemma normal_body r x data payload :
  rq_op r = Some "cycle" → rq_data r = Some data → fromhex data = Ret payload →
  Z.of_nat (length payload) = rx_size x → phase (fault_state x) = Normal →
  guarded_body clock mono store_save "cycle" r x
  = (dt ← cycle_dt mono;
     inputs ← on_adapter (exchange payload dt);
     modify (λ x, x <| ax_cycles := ax_cycles x + 1 |>) ;;
     c ← gets ax_cycles;
     accept_result clock (RCycle (hex inputs) c) false ;;
     mret (inr (RCycle (hex inputs) c)))
    (x <| fault_state := (fault_state x) <| previous_cw := word payload |> |>).
Proof.
  intros Hop Hdata Hhex Hlen Hp. unfold guarded_body. cbn [String.eqb Ascii.eqb Bool.eqb].
  unfold prepare_cycle, field. rewrite Hdata. cbn [of_option].
  rewrite bind_assoc, lift_bind, bind_assoc, lift_bind, Hhex, bind_assoc, bind_gets, Hlen, Z.eqb_refl.
  cbn [negb]. rewrite bind_assoc.
  rewrite (bind_eq_ret _ _ _ (Some payload, false)
    (x <| fault_state := (fault_state x) <| previous_cw := word payload |> |>))
    by (unfold on_guard, zoom; by rewrite prepare_normal).
  rewrite bind_assoc. cbn [when]. rewrite !bind_ret_l.
  set (x0 := x <| fault_state := _ |>).
  unfold Axis._dispatch, field.
  replace (rq_op (r <| rq_data := Some (hex payload) |>)) with (Some "cycle") by (symmetry; exact Hop).
  cbn [of_option]. rewrite bind_assoc, lift_bind. cbn [String.eqb Ascii.eqb Bool.eqb orb].
  unfold dispatch_cycle, field. cbn [of_option].
  change (rq_data (r <| rq_data := Some (hex payload) |>)) with (Some (hex payload)). cbn [of_option].
  rewrite bind_assoc, lift_bind, bind_assoc, lift_bind, fromhex_hex, bind_assoc, bind_gets.
  change (rx_size x0) with (rx_size x). rewrite Hlen, Z.eqb_refl. cbn [negb].
  rewrite bind_assoc. apply bind_ext. intros dt x1.
  rewrite bind_assoc. apply bind_ext. intros inputs x2.
  rewrite bind_assoc. apply bind_ext. intros [] x3. reflexivity.
Qed.

Lemma accept_result_ok result rst x out g :
  response_data result = Ret (hex out) → accept clock out rst (fault_state x) = (Ret tt, g) →
  accept_result clock result rst x = (Ret tt, x <| fault_state := g |>).
Proof.
  intros Hd Ha. unfold accept_result, try_except.
  rewrite lift_bind, Hd, lift_bind, fromhex_hex. unfold on_guard at 1, zoom. by rewrite Ha.
Qed.

(** The answers of a cycle or an idle request. *)
Definition feedback (a : reply) : Prop :=
  match a with RCycle _ _ | RData _ | RGuard _ _ => True | _ => False end.

Lemma dispatch_feedback r x a x' :
  rq_op r = Some "cycle" ∨ rq_op r = Some "idle" → _dispatch r x = (Ret a, x') → feedback a.
Proof.
  intros Hop. unfold Axis._dispatch, dispatch_cycle, field.
  destruct Hop as [E|E]; rewrite E; cbn [of_option]; rewrite lift_bind;
    cbn [String.eqb Ascii.eqb Bool.eqb orb]; intros Hd; minv Hd.
  - destruct (negb _); [done|]. minv Hd. done.
  - done.
Qed.

Lemma prepare_cycle_op r x r' rst x' :
  prepare_cycle clock r x = (Ret (inr (r', rst)), x') → rq_op r' = rq_op r.
Proof.
  intros E. pose proof (prepare_cycle_cases r x) as Hc. rewrite E in Hc.
  destruct Hc as [(_ & _ & e & ?)|(data & payload & out & _ & _ & _ & _ & p & _ & ->)]; done.
Qed.

Lemma guarded_body_feedback op r x a x' :
  rq_op r = Some op → op = "cycle" ∨ op = "idle" →
  guarded_body clock mono store_save op r x = (Ret a, x') →
  match a with inl a => ∃ c, a = RGuard (response (fault_state x')) c | inr a => feedback a end.
Proof.
  intros Hop Hor E. unfold guarded_body in E. apply bind_Ret_inv in E as (pr & x1 & E1 & E).
  assert (match pr with inl a => ∃ c, a = RGuard (response (fault_state x1)) c
                   | inr (r', _) => rq_op r' = rq_op r end) as Hpr.
  { destruct (String.eqb op "cycle").
    - destruct pr as [a'|[r' rst]]; [|by eapply prepare_cycle_op].
      pose proof (prepare_cycle_cases r x) as Hc. rewrite E1 in Hc.
      destruct Hc as [(_ & _ & e & ?)|(data & payload & out & _ & _ & _ & _ & _ & -> & _)]; eauto; done.
    - rewrite bind_gets in E1. case_bool_decide; [by injection E1 as <- _|].
      injection E1 as <- <-. by exists None. }
  destruct pr as [a'|[r' rst]]; [by injection E as <- <-|].
  apply bind_Ret_inv in E as (res & x2 & E2 & E). apply bind_Ret_inv in E as (u & x3 & _ & E).
  injection E as <- _. eapply dispatch_feedback; [|exact E2]. rewrite Hpr, Hop.
  destruct Hor as [-> | ->]; auto.
Qed.

(** ** A cycle against the recovery table *)

(** The guard and the counter do not change while the adapter is reset. *)
Local Abbreviation guarded := (λ x : axis A D, (fault_state x, ax_cycles x)).

Lemma prepare_cycle_valid r x data payload :
  rq_data r = Some data → fromhex data = Ret payload →
  Z.of_nat (length payload) = rx_size x → guard_ok (fault_state x) → (3 ≤ length payload)%nat →
  ∃ g1, last g1 = last (fault_state x) ∧ restart_required g1 = restart_required (fault_state x)
    ∧ open_code g1 = open_code (fault_state x) ∧ previous_cw g1 = word payload
    ∧ match admits (view_of (fault_state x)) payload with
      | None =>
          prepare_cycle clock r x = (Ret (inl (RGuard (response g1) None)),
                                     x <| fault_state := g1 |> <| last_cycle := None |>)
          ∧ phase g1 = phase (fault_state x)
      | Some p =>
          ∃ q rst, p = settles (phase g1) rst ∧ (rst = true → fault g1 ≠ None)
            ∧ (rst && bool_decide (phase g1 = VerifyReset))
              = bool_decide (phase (fault_state x) = VerifyReset)
            ∧ (∃ res x1, prepare_cycle clock r x = (res, x1) ∧ guarded x1 = (g1, ax_cycles x)
                 ∧ match res with
                   | Ret (inl _) => False
                   | Ret (inr pr) => pr = (r <| rq_data := Some (hex q) |>, rst)
                   | Raise _ => True
                   end)
      end.
Proof.
  intros Hdata Hhex Hlen Hok H3.
  destruct (prepare_admits clock payload (fault_state x) Hok H3) as (g1 & Hl & Hr & Hc & Hw & Hadm).
  exists g1. split_and!; [done..|].
  unfold prepare_cycle, field. rewrite Hdata. cbn [of_option].
  rewrite lift_bind, lift_bind, Hhex, bind_gets, Hlen, Z.eqb_refl. cbn [negb].
  destruct (admits (view_of (fault_state x)) payload) as [p|].
  - destruct Hadm as (q & rst & E & Hp & Hf & Hv). exists q, rst. split_and!; [done..|].
    rewrite (bind_eq_ret _ _ _ (Some q, rst) (x <| fault_state := g1 |>))
      by (unfold on_guard, zoom; by rewrite E).
    match goal with |- context [(when rst ?m ;; ?k) ?s] =>
      assert (Preserves guarded (when rst m ;; k)) as Hfr by (unfold on_adapter; frame);
      pose proof (Hfr s) as Hs; destruct ((when rst m ;; k) s) as [res x1] eqn:E1 end.
    exists res, x1. split_and!; [done|exact Hs|].
    destruct res as [pr|e]; [|done]. apply bind_Ret_inv in E1 as (u & s1 & _ & E1).
    by injection E1 as <- _.
  - destruct Hadm as [E Hp]. split; [|done].
    by rewrite (bind_eq_ret _ _ _ (None, false) (x <| fault_state := g1 |>))
      by (unfold on_guard, zoom; by rewrite E).
Qed.

Lemma dispatch_cycle_result r x res x' :
  dispatch_cycle mono r x = (res, x') →
  fault_state x' = fault_state x
  ∧ match res with
    | Ret a => ∃ inputs q dt a1, a = RCycle (hex inputs) (ax_cycles x')
        ∧ ax_cycles x' = ax_cycles x + 1 ∧ exchange q dt a1 = (Ret inputs, adapter x')
    | Raise _ => True
    end.
Proof.
  intros E. split; [pose proof (dispatch_cycle_guard r x) as Hg; by rewrite E in Hg|].
  destruct res as [a|e]; [|done]. unfold dispatch_cycle, field in E.
  minv E. destruct (negb _); [done|]. minv E.
  match goal with H : cycle_dt mono _ = _, H' : on_adapter _ _ = _ |- _ =>
    rename H into Hdt; rename H' into Hex end.
  assert (Preserves ax_cycles (cycle_dt (A:=A) (D:=D) mono)) as Hp
    by (unfold cycle_dt, monotonic; frame).
  pose proof (Hp s) as E1. rewrite Hdt in E1. cbn in E1.
  unfold on_adapter, zoom in Hex. destruct (exchange _ _ _) as [res a1'] eqn:E2.
  simplify_eq. do 4 eexists. cbn. split_and!; [done|by rewrite <- E1|exact E2].
Qed.

(** The guard after an answer with inputs: they are accepted, or invalid. *)
Lemma accept_result_cycle inputs c rst x :
  ∃ x', accept_result clock (RCycle (hex inputs) c) rst x = (Ret tt, x') ∧ adapter x' = adapter x
    ∧ ax_cycles x' = ax_cycles x
    ∧ (accept clock inputs rst (fault_state x) = (Ret tt, fault_state x')
       ∨ detect clock AXIS_MODEL_OUTPUT_INVALID true (fault_state x) = (Ret tt, fault_state x')).
Proof.
  unfold accept_result, try_except. cbn [response_data]. rewrite lift_bind, lift_bind, fromhex_hex.
  unfold on_guard at 1, zoom.
  destruct (accept clock inputs rst (fault_state x)) as [[[]|e] g] eqn:E.
  - eexists. split_and!; [done|done|done|left; done].
  - pose proof (accept_spec _ _ _ _ _ _ E) as (-> & -> & _). cbn [is_value_error orb].
    replace (x <| fault_state := fault_state x |>) with x by (by destruct x).
    destruct (on_guard_detect AXIS_MODEL_OUTPUT_INVALID true x) as (g & Ed & _ & _ & Hg).
    eexists. split_and!; [by rewrite (bind_eq_ret _ _ _ _ _ Hg)|done|done|right; exact Ed].
Qed.


(** The end of a cycle whose cause [c] is detected in the guard [g1]. *)
Lemma failing_cycle r x g1 payload :
  let v := view_of (fault_state x) in
  let d := dispatch_guarded clock mono store_save "cycle" r x in
  last g1 = last (fault_state x) → restart_required g1 = v_latched v → open_code g1 = v_code v →
  previous_cw g1 = word payload →
  ∀ g c b x2, detect clock c b g1 = (Ret tt, g) →
    c ∈ [AXIS_ADAPTER_FAULT; AXIS_MODEL_EXECUTION_FAILED; AXIS_MODEL_OUTPUT_INVALID]
      ∧ b = negb (bool_decide (c = AXIS_ADAPTER_FAULT)) →
    fault_state x2 = g → d = (Ret (RGuard (response g) (Some (ax_cycles x2))), x2) →
    ∃ c, c ∈ [AXIS_ADAPTER_FAULT; AXIS_MODEL_EXECUTION_FAILED; AXIS_MODEL_OUTPUT_INVALID]
      ∧ view_of (fault_state d.2) = failed v (word payload) c
      ∧ last (fault_state d.2) = last (fault_state x)
      ∧ d.1 = Ret (RGuard (response (fault_state d.2)) (Some (ax_cycles d.2))).
Proof.
  intros v d Hl Hr Hc Hw g c b x2 Ed [Hin Hb] Hx2 ->. exists c. cbn. rewrite Hx2.
  destruct (detect_fails clock v g1 c b g Ed Hb Hr Hc) as [-> ->]. by rewrite Hw.
Qed.

(** An admitted cycle is completed, or it fails. *)
Lemma admitted_cycle r x g1 q rst payload p :
  let v := view_of (fault_state x) in
  let a := (dispatch_guarded clock mono store_save "cycle" r x).1 in
  let x' := (dispatch_guarded clock mono store_save "cycle" r x).2 in
  let v' := view_of (fault_state x') in
  rq_op r = Some "cycle" → guard_ok (fault_state x) →
  last g1 = last (fault_state x) → restart_required g1 = v_latched v → open_code g1 = v_code v →
  previous_cw g1 = word payload → p = settles (phase g1) rst → (rst = true → fault g1 ≠ None) →
  (rst && bool_decide (phase g1 = VerifyReset)) = bool_decide (v_phase v = VerifyReset) →
  (∃ res x1, prepare_cycle clock r x = (res, x1) ∧ guarded x1 = (g1, ax_cycles x)
     ∧ match res with
       | Ret (inl _) => False
       | Ret (inr pr) => pr = (r <| rq_data := Some (hex q) |>, rst)
       | Raise _ => True
       end) →
  (∃ inputs, v' = completed v (word payload) p (word inputs)
     ∧ last (fault_state x') = inputs ∧ ax_cycles x' = ax_cycles x + 1
     ∧ (∃ q dt a1, exchange q dt a1 = (Ret inputs, adapter x'))
     ∧ a = Ret (if bool_decide (v_phase v' = Normal) then RCycle (hex inputs) (ax_cycles x')
                else RGuard (response (fault_state x')) (Some (ax_cycles x'))))
  ∨ (∃ c, c ∈ [AXIS_ADAPTER_FAULT; AXIS_MODEL_EXECUTION_FAILED; AXIS_MODEL_OUTPUT_INVALID]
     ∧ v' = failed v (word payload) c
     ∧ last (fault_state x') = last (fault_state x)
     ∧ a = Ret (RGuard (response (fault_state x')) (Some (ax_cycles x')))).
Proof.
  intros v a x' v' Hop Hok Hl Hr Hc Hw -> Hf Hv (res & x1 & E & Hg & Hres).
  injection Hg as Hg1 Hcy.
  assert (guard_ok (fault_state x')) as Hok'.
  { destruct (guarded_cycle r x Hop) as [(ws & _ & R) _]. by destruct (run_ok clock _ _ _ Hok R). }
  pose proof (dispatch_guarded_cases "cycle" r x) as Hd. revert Hd.
  unfold guarded_body. cbn [String.eqb Ascii.eqb Bool.eqb].
  unfold mbind at 1, M_bind at 1. rewrite E. clear E. subst a x' v'.
  pose proof (failing_cycle r x g1 payload Hl Hr Hc Hw) as Hfail.
  destruct res as [[a|pr]|e]; [done| |].
  2: { intros (g & c & b & Ed & [Hin Hb] & ED). right. rewrite Hg1 in Ed.
    eapply (Hfail g c b (x1 <| fault_state := g |> <| last_cycle := None |>) Ed); [split; [set_solver|done]| |exact ED]. done. }
  subst pr. cbn beta iota.
  assert (_dispatch (r <| rq_data := Some (hex q) |>)
          = dispatch_cycle mono (r <| rq_data := Some (hex q) |>)) as Hdis.
  { unfold Axis._dispatch, field.
    replace (rq_op (r <| rq_data := Some (hex q) |>)) with (Some "cycle") by (symmetry; exact Hop).
    reflexivity. }
  unfold mbind at 1, M_bind at 1. rewrite Hdis.
  destruct (dispatch_cycle mono (r <| rq_data := Some (hex q) |>) x1) as [res x2] eqn:E2.
  destruct (dispatch_cycle_result _ _ _ _ E2) as [Hg2 Hres]. rewrite Hg1 in Hg2.
  destruct res as [result|e].
  2: { intros (g & c & b & Ed & [Hin Hb] & ED). right. rewrite Hg2 in Ed.
    eapply (Hfail g c b (x2 <| fault_state := g |> <| last_cycle := None |>) Ed); [split; [set_solver|done]| |exact ED]. done. }
  destruct Hres as (inputs & q' & dt & a1 & -> & Hn & Hex).
  destruct (accept_result_cycle inputs (ax_cycles x2) rst x2) as (x3 & Ea & Had & Hcn & Hst).
  rewrite (bind_eq_ret _ _ _ _ _ Ea). cbn [mret M_ret]. rewrite Hg2 in Hst. intros Hd.
  destruct Hst as [Hst|Hst].
  - left. exists inputs.
    destruct (accept_completes clock v g1 inputs rst _ Hst Hf Hv Hr Hc) as [Hview Hlast].
    rewrite Hw in Hview.
    assert ((dispatch_guarded clock mono store_save "cycle" r x).2 = x3) as Hx3
      by (by destruct Hd as [(-> & _ & _) | [_ ->]]).
    rewrite Hx3 in *. split_and!; [done|done|by rewrite Hcn, Hn, Hcy|by rewrite Had; eauto|].
    change (v_phase (view_of (fault_state x3))) with (phase (fault_state x3)).
    destruct Hd as [(-> & Hp & _)|[Hn' ->]]; cbn.
    + by rewrite bool_decide_true, Hcn by done.
    + rewrite bool_decide_false; [done|]. intros Hp. apply Hn'. split; [done|].
      destruct Hok' as [O _]. rewrite Hp in O. by destruct (fault (fault_state x3)).
  - right. eapply (Hfail _ AXIS_MODEL_OUTPUT_INVALID true x3 Hst); [split; [set_solver|done]|done|].
    destruct Hd as [(_ & Hp & _)|[_ ->]]; [|done].
    exfalso. apply detect_ok in Hst as (Hst & _). congruence.
Qed.

(** ** Properties *)

(** A cycle or an idle request always has an answer: whatever the adapter,
    the storage and the request do, no exception leaves the axis.  A plain
    result is given only in normal operation; otherwise the answer is the
    feedback of the guard. *)
Theorem cycle_always_answers r x :
  rq_op r = Some "cycle" ∨ rq_op r = Some "idle" →
  ∃ a, (dispatch r x).1 = Ret a
    ∧ ((feedback a ∧ phase (fault_state (dispatch r x).2) = Normal
        ∧ fault (fault_state (dispatch r x).2) = None)
       ∨ ∃ c, a = RGuard (response (fault_state (dispatch r x).2)) c).
Proof.
  intros Hop. assert (∃ op, rq_op r = Some op ∧ (op = "cycle" ∨ op = "idle")) as (op & E & Hor)
    by (destruct Hop; eauto).
  rewrite (dispatch_guarded_eq op) by done.
  pose proof (dispatch_guarded_cases op r x) as Hd.
  pose proof (guarded_body_feedback op r x) as Hb.
  destruct (guarded_body clock mono store_save op r x) as [[[a|a]|e] x1].
  - rewrite Hd. exists a. split; [done|]. right. exact (Hb _ _ E Hor eq_refl).
  - destruct Hd as [(-> & Hp & Hf)|[_ ->]]; eexists; (split; [done|]); [left|right; eauto].
    split; [exact (Hb _ _ E Hor eq_refl)|done].
  - destruct Hd as (g & c & b & _ & _ & ->). eexists. split; [done|]. right. by eexists.
Qed.

(** C35. A cycle follows the recovery table.  A cycle that the table does not
    admit is held: the adapter, the remembered inputs and the counter stay, and
    the answer is the feedback of the guard.  An admitted cycle either is
    completed, with inputs read from the adapter: it leads to the phase of the
    table, or to [Fault] when their status word has the fault bit, and a plain
    result is answered exactly in normal operation; or it fails with a cause:
    the phase is [Fault], the first cause stays open, and every cause but a
    rejection by the device latches the axis. *)
Theorem cycle_follows_recovery r x data payload :
  axis_reachable x → rq_op r = Some "cycle" → rq_data r = Some data → fromhex data = Ret payload →
  Z.of_nat (length payload) = rx_size x → (3 ≤ length payload)%nat →
  let v := view_of (fault_state x) in
  let a := (dispatch r x).1 in
  let x' := (dispatch r x).2 in
  let v' := view_of (fault_state x') in
  match admits v payload with
  | None =>
      v' = held v (word payload) ∧ a = Ret (RGuard (response (fault_state x')) None)
      ∧ adapter x' = adapter x ∧ last (fault_state x') = last (fault_state x)
      ∧ ax_cycles x' = ax_cycles x
  | Some p =>
      (∃ inputs, v' = completed v (word payload) p (word inputs)
         ∧ last (fault_state x') = inputs ∧ ax_cycles x' = ax_cycles x + 1
         ∧ (∃ q dt a1, exchange q dt a1 = (Ret inputs, adapter x'))
         ∧ a = Ret (if bool_decide (v_phase v' = Normal) then RCycle (hex inputs) (ax_cycles x')
                    else RGuard (response (fault_state x')) (Some (ax_cycles x'))))
      ∨ (∃ c, c ∈ [AXIS_ADAPTER_FAULT; AXIS_MODEL_EXECUTION_FAILED; AXIS_MODEL_OUTPUT_INVALID]
         ∧ v' = failed v (word payload) c
         ∧ last (fault_state x') = last (fault_state x)
         ∧ a = Ret (RGuard (response (fault_state x')) (Some (ax_cycles x'))))
  end.
Proof.
  intros Hx Hop Hdata Hhex Hlen H3. apply reachable_guard in Hx as Hok.
  cbv zeta. rewrite (dispatch_guarded_eq "cycle") by auto.
  destruct (prepare_cycle_valid r x data payload Hdata Hhex Hlen Hok H3)
    as (g1 & Hl & Hr & Hc & Hw & Hadm).
  destruct (admits (view_of (fault_state x)) payload) as [p|].
  - destruct Hadm as (q & rst & -> & Hf & Hv & Hres).
    by apply (admitted_cycle r x g1 q rst payload).
  - destruct Hadm as [E Hp]. pose proof (dispatch_guarded_cases "cycle" r x) as Hd. revert Hd.
    unfold guarded_body. cbn [String.eqb Ascii.eqb Bool.eqb].
    rewrite (bind_eq_ret _ _ _ _ _ E). intros ->. cbn.
    split_and!; [|done..]. unfold view_of, held. by rewrite Hp, Hr, Hc, Hw.
Qed.

(** C6. A faulted axis recovers only through its recovery: the requests that lead
    from the phase [Fault] back to normal operation carry a reset, a released
    reset, Shutdown, Switch on and Enable operation, in this order. *)
Theorem axis_recovery x rs :
  axis_reachable x → phase (fault_state x) = Fault → phase (fault_state (after rs x)) = Normal →
  occurs_in [is_reset; is_low; is_command 6; is_command 7; is_command 15]
    (concat (map request_words rs)).
Proof.
  intros Hx Hp Hn. destruct (after_guard_run rs x) as (ws & Hs & R).
  eapply occurs_in_sublist; [exact Hs|].
  destruct (run_recovery clock _ _ _ (reachable_guard x Hx) Hp R) as [Ho _].
  by rewrite Hn in Ho.
Qed.

(** C5. A latched axis is frozen: after a cause that needs a restart no request
    touches the adapter and the latch stays.  Every write is aborted with
    0x08000022, and so is every read but that of 0x6041:0, which is answered
    with the projected status word; a read without its address fields is a
    [KeyError]; cycle and idle are answered with the feedback of the guard. *)
Theorem latched_axis_is_frozen x rs r :
  axis_reachable x → restart_required (fault_state x) = true →
  adapter (after rs x) = adapter x ∧ restart_required (fault_state (after rs x)) = true
  ∧ latched_answer r (after rs x) (dispatch r (after rs x)).1 (dispatch r (after rs x)).2.
Proof.
  intros Hx Hr.
  assert (adapter (after rs x) = adapter x ∧ restart_required (fault_state (after rs x)) = true
    ∧ guard_ok (fault_state (after rs x))) as (H1 & H2 & H3).
  { pose proof (reachable_guard x Hx) as Hok. clear Hx. revert x Hr Hok.
    induction rs as [|r' rs IH]; intros x Hr Hok; [done|].
    destruct (latched_dispatch r' x Hok Hr) as [Ha _].
    destruct (dispatch_run r' x) as (ws & _ & R).
    destruct (run_ok clock _ _ _ Hok R) as [Hok' Hr'].
    destruct (IH (dispatch r' x).2 (Hr' Hr) Hok') as (I1 & I2 & I3).
    simpl. rewrite I1. done. }
  split_and!; [done..|]. by apply latched_dispatch.
Qed.

(** C4. A faulted axis executes no motion: a cycle outside normal operation feeds
    the adapter only outputs with the control word 0 or the bare reset, or
    the received outputs when they carry the command the recovery waits for. *)
Theorem faulted_axis_executes_no_motion r x :
  rq_op r = Some "cycle" → phase (fault_state x) ≠ Normal →
  rtc (feed (λ q, ∃ data payload, rq_data r = Some data ∧ fromhex data = Ret payload
    ∧ (q = disable_voltage payload ∨ q = reset_only payload
       ∨ q = payload ∧
         match phase (fault_state x) with
         | WaitShutdown => is_command 6 (word payload)
         | WaitSwitchOn => is_command 7 (word payload)
         | WaitEnable => is_command 15 (word payload) ∧ masked (word payload) 0x10 = false
                         ∧ third payload = Ret 1
         | _ => False
         end)))
    (adapter x) (adapter (dispatch r x).2).
Proof.
  intros Hop Hn. rewrite (dispatch_guarded_eq "cycle") by auto.
  destruct (guarded_cycle r x Hop) as [_ Hf]. eapply feeds_weaken; [|exact Hf].
  intros q (data & payload & H1 & H2 & [[H3 _]|H3]); [done|eauto].
Qed.

(** C33. A cycle in normal operation: within the time limit the outputs go to the
    adapter, the model advances by the elapsed time (10 ms in the first
    cycle), and the inputs are the answer and what the guard remembers. *)
Theorem cycle_exchanges r x data payload inputs a' :
  rq_op r = Some "cycle" → rq_data r = Some data → fromhex data = Ret payload →
  Z.of_nat (length payload) = rx_size x →
  phase (fault_state x) = Normal → fault (fault_state x) = None →
  f_lt (f_dec 1 (-1)) (next_dt x) = false →
  exchange payload (next_dt x) (adapter x) = (Ret inputs, a') →
  length inputs = length (last (fault_state x)) → masked (word inputs) 8 = false →
  (dispatch r x).1 = Ret (RCycle (hex inputs) (ax_cycles x + 1))
  ∧ adapter (dispatch r x).2 = a' ∧ ax_cycles (dispatch r x).2 = ax_cycles x + 1
  ∧ last_cycle (dispatch r x).2 = Some (mono (mono_reads x))
  ∧ last (fault_state (dispatch r x).2) = inputs
  ∧ phase (fault_state (dispatch r x).2) = Normal.
Proof.
  intros Hop Hdata Hhex Hlen Hp Hf Hdt Hex Hin Hsw.
  rewrite (dispatch_guarded_eq "cycle") by auto.
  pose proof (normal_body r x data payload Hop Hdata Hhex Hlen Hp) as Hb.
  pose proof (dispatch_guarded_cases "cycle" r x) as Hd. revert Hd. rewrite Hb. clear Hb.
  set (x0 := x <| fault_state := (fault_state x) <| previous_cw := word payload |> |>).
  unfold mbind at 1, M_bind at 1. rewrite cycle_dt_run. change (next_dt x0) with (next_dt x).
  rewrite Hdt. set (x1 := x0 <| mono_reads := _ |> <| last_cycle := _ |>).
  rewrite (bind_eq_ret _ _ _ inputs (x1 <| adapter := a' |>))
    by (unfold on_adapter, zoom; change (adapter x1) with (adapter x); by rewrite Hex).
  rewrite (bind_eq_ret (modify _) _ _ tt _ eq_refl), bind_gets.
  set (x2 := upd ax_cycles _ _). set (result := RCycle _ _).
  change (fault_state x) with (fault_state x) in *.
  destruct (accept clock inputs false (fault_state x2)) as [res g] eqn:Ha.
  pose proof (accept_spec clock _ _ _ _ _ Ha) as Hs.
  destruct res as [[]|e]; [|by destruct Hs as (_ & _ & Hs)].
  destruct Hs as (_ & Hl & _ & _ & Hacc & _).
  rewrite (bind_eq_ret _ _ _ _ _ (accept_result_ok result false x2 inputs g eq_refl Ha)).
  cbn [mret M_ret].
  assert (phase g = Normal ∧ fault g = None) as [Hpg Hfg]
    by (destruct Hacc; try congruence; split; [etrans; [eassumption|exact Hp]|etrans; [eassumption|exact Hf]]).
  intros [(-> & _ & _)|[Hne _]]; [by split_and!|]. by destruct Hne.
Qed.

(** A gap of more than 100 ms between two cycles stops the axis for good:
    nothing reaches the adapter and a restart is required. *)
Theorem pdo_gap_latches r x data payload :
  rq_op r = Some "cycle" → rq_data r = Some data → fromhex data = Ret payload →
  Z.of_nat (length payload) = rx_size x → phase (fault_state x) = Normal →
  f_lt (f_dec 1 (-1)) (next_dt x) = true →
  (∃ c, (dispatch r x).1 = Ret (RGuard (response (fault_state (dispatch r x).2)) c))
  ∧ adapter (dispatch r x).2 = adapter x
  ∧ restart_required (fault_state (dispatch r x).2) = true
  ∧ last_cycle (dispatch r x).2 = None.
Proof.
  intros Hop Hdata Hhex Hlen Hp Hdt. rewrite (dispatch_guarded_eq "cycle") by auto.
  set (x1 := x <| fault_state := (fault_state x) <| previous_cw := word payload |> |>
    <| mono_reads := S (mono_reads x) |>).
  assert (guarded_body clock mono store_save "cycle" r x = (Raise RuntimeError, x1)) as Hb.
  { rewrite (normal_body r x data payload Hop Hdata Hhex Hlen Hp).
    set (x0 := x <| fault_state := _ |>).
    apply bind_eq_raise. rewrite cycle_dt_run. change (next_dt x0) with (next_dt x). by rewrite Hdt. }
  destruct (on_guard_detect AXIS_MODEL_EXECUTION_FAILED true x1) as (g & _ & Hpg & Hrg & Hg).
  unfold dispatch_guarded.
  rewrite (bind_eq_ret _ _ _ None (x1 <| fault_state := g |> <| last_cycle := None |>)).
  2: { unfold try_except. rewrite (bind_eq_raise _ _ _ _ _ Hb). unfold guarded_handler.
       rewrite bool_decide_false by done. by rewrite (bind_eq_ret _ _ _ _ _ Hg). }
  rewrite bind_gets. change (fault_state (x1 <| fault_state := g |> <| last_cycle := None |>)) with g.
  rewrite Hpg, bool_decide_false by done. cbn [andb].
  split_and!; [by eexists|done| |done].
  change (restart_required g = true). by rewrite Hrg, orb_true_r.
Qed.
End axis_props.

(** ** A concrete axis

    The axis of the linear example profile, cycled every 10 ms, without a
    store. *)

Definition ticks (n : nat) : float := f_mul (f_of_Z (Z.of_nat n)) (f_dec 1 (-2)).
Definition no_save (x : axis FKrCmmtAdapter ()) : outcome () * () := (Ret tt, tt).

Definition outputs (cw mode : Z) : list byte := le_split 2 cw ++ le_split 1 mode ++ replicate 21 x00.

Definition cycle_request (cw mode : Z) : request :=
  Request (Some "cycle") None None (Some (hex (outputs cw mode))) None.

Definition linear_axis : axis FKrCmmtAdapter () :=
  match new_axis default_device linear_adapter () with
  | Ret x => x
  | Raise _ => Axis default_device false tt "" linear_adapter 0 0 [] None 0 (new_guard 0 []) None 0
  end.

Definition served (rs : list request) : axis FKrCmmtAdapter () := after still ticks no_save rs linear_axis.

Lemma linear_axis_constructed : new_axis default_device linear_adapter () = Ret linear_axis.
Proof. apply is_ret_eq. vm_compute. reflexivity. Qed.

Lemma keep_store {A D} (x : axis A D) b : has_store x = b → x <| has_store := b |> = x.
Proof. intros <-. by destruct x. Qed.

Lemma served_reachable rs : axis_reachable still ticks no_save (served rs).
Proof.
  exists default_device, linear_adapter, tt, linear_axis, false, rs.
  rewrite keep_store by (vm_compute; reflexivity).
  exact (conj linear_axis_constructed (eq_refl (served rs))).
Qed.

(** An unsupported mode faults the axis; a missing cycle latches it. *)
Definition faulted_axis : axis FKrCmmtAdapter () := served [cycle_request 6 2].

Definition recovery_requests : list request :=
  [cycle_request 0x80 1; cycle_request 0 1; cycle_request 6 1; cycle_request 7 1; cycle_request 15 1].

Lemma cycle_always_answers_witness :
  ∃ a, (dispatch still ticks no_save (cycle_request 6 2) linear_axis).1 = Ret a.
Proof.
  destruct (cycle_always_answers still ticks no_save (cycle_request 6 2) linear_axis) as (a & E & _);
    [by left|]. by exists a.
Defined.

Lemma axis_recovery_witness :
  phase (fault_state faulted_axis) = Fault
  ∧ occurs_in [is_reset; is_low; is_command 6; is_command 7; is_command 15]
      (concat (map request_words recovery_requests)).
Proof.
  assert (phase (fault_state faulted_axis) = Fault) as Hp by (vm_compute; reflexivity).
  split; [exact Hp|].
  apply (axis_recovery still ticks no_save faulted_axis recovery_requests
    (served_reachable [cycle_request 6 2]) Hp).
  vm_compute. reflexivity.
Defined.

Lemma latched_axis_is_frozen_witness :
  let x := served [cycle_request 6 1; Request (Some "cycle") None None None None] in
  restart_required (fault_state x) = true
  ∧ (dispatch still ticks no_save (Request (Some "write") (Some 0x6081) (Some 0) (Some "00000000") None)
      (after still ticks no_save recovery_requests x)).1 = Ret (RError 0x08000022).
Proof.
  intros x. assert (restart_required (fault_state x) = true) as Hr by (vm_compute; reflexivity).
  split; [exact Hr|].
  refine (proj1 (proj2 (proj2 (latched_axis_is_frozen still ticks no_save x recovery_requests
    (Request (Some "write") (Some 0x6081) (Some 0) (Some "00000000") None) _ Hr)))).
  apply served_reachable.
Defined.

Lemma cycle_follows_recovery_witness :
  phase (fault_state faulted_axis) = Fault
  ∧ admits (view_of (fault_state faulted_axis)) (outputs 0x9F 1) = Some VerifyReset
  ∧ v_reset (view_of (fault_state
      (dispatch still ticks no_save (cycle_request 0x9F 1) faulted_axis).2)) = true.
Proof.
  assert (Hp : phase (fault_state faulted_axis) = Fault) by (vm_compute; reflexivity).
  assert (Ha : admits (view_of (fault_state faulted_axis)) (outputs 0x9F 1) = Some VerifyReset)
    by (vm_compute; reflexivity).
  split; [exact Hp|split; [exact Ha|]].
  pose proof (cycle_follows_recovery still ticks no_save (cycle_request 0x9F 1) faulted_axis
    (hex (outputs 0x9F 1)) (outputs 0x9F 1) (served_reachable [cycle_request 6 2]) eq_refl eq_refl (fromhex_hex _)
    ltac:(vm_compute; reflexivity) ltac:(vm_compute; lia)) as Hc.
  cbv zeta in Hc. rewrite Ha in Hc.
  destruct Hc as [(inputs & -> & _)|(c & _ & -> & _)]; [|reflexivity].
  unfold completed. destruct (masked (word inputs) 8); reflexivity.
Defined.

Lemma faulted_axis_executes_no_motion_witness :
  phase (fault_state faulted_axis) = Fault
  ∧ rtc (feed (λ q, word q = 0 ∨ word q = 0x80))
      (adapter faulted_axis)
      (adapter (dispatch still ticks no_save (cycle_request 0x9F 1) faulted_axis).2).
Proof.
  assert (phase (fault_state faulted_axis) = Fault) as Hp by (vm_compute; reflexivity).
  split; [exact Hp|].
  assert (phase (fault_state faulted_axis) ≠ Normal) as Hn by (rewrite Hp; discriminate).
  pose proof (faulted_axis_executes_no_motion still ticks no_save (cycle_request 0x9F 1) faulted_axis
    eq_refl Hn) as Hf.
  rewrite Hp in Hf. eapply (feeds_weaken (D:=())); [|exact Hf].
  intros q (data & payload & _ & _ & [-> | [-> |[_ []]]]); [by left|by right].
Defined.

Lemma cycle_exchanges_witness :
  let x := served [cycle_request 6 1] in
  (dispatch still ticks no_save (cycle_request 7 1) x).1
    = Ret (RCycle "2304010000000000000000000000" 2).
Proof.
  intros x.
  assert (E : exchange (outputs 7 1) (next_dt ticks x) (adapter x)
    = (Ret ([x23; x04; x01] ++ replicate 11 x00), (exchange (outputs 7 1) (next_dt ticks x) (adapter x)).2))
    by (apply ran_ret; vm_compute; reflexivity).
  destruct (cycle_exchanges still ticks no_save (cycle_request 7 1) x (hex (outputs 7 1))
    (outputs 7 1) _ _ eq_refl eq_refl (fromhex_hex _)
    ltac:(vm_compute; reflexivity) ltac:(vm_compute; reflexivity) ltac:(vm_compute; reflexivity)
    ltac:(vm_compute; reflexivity) E ltac:(vm_compute; reflexivity) eq_refl) as [H _].
  rewrite H. vm_compute. reflexivity.
Defined.

Lemma pdo_gap_latches_witness :
  let late n := f_of_Z (Z.of_nat n) in
  let x := after still late no_save [cycle_request 6 1] linear_axis in
  restart_required (fault_state (dispatch still late no_save (cycle_request 7 1) x).2) = true.
Proof.
  intros late x.
  refine (proj1 (proj2 (proj2 (pdo_gap_latches still late no_save (cycle_request 7 1) x
    (hex (outputs 7 1)) (outputs 7 1) eq_refl eq_refl _ _ _ _)))); vm_compute; reflexivity.
Defined.
