(* ===== verification/Contract.v ===== *)
(** * The contract of an axis

    What [Model.describe] of src/functional_model/runtime/axis.py answers for
    an axis that its constructor accepted (Axis.v): the entries and mappings
    that the bus process and the ESI file (Fixture.v) rely on.

    The theorem is about types and sizes, for every adapter that obeys the
    laws of Adapter.v, and holds throughout the life of the axis. *)

From Stdlib Require Import Sorting.Sorted.
From S2P Require Import Prelude PyFloat.
From S2P Require Export Axis.

Open Scope string_scope.
Open Scope list_scope.
Open Scope Z_scope.

(** ** Sorted addresses *)

Definition address_lt (a b : Z * Z) : Prop := a.1 < b.1 ∨ (a.1 = b.1 ∧ a.2 < b.2).

#[export] Instance address_lt_trans : Transitive address_lt.
Proof. intros [] [] []. unfold address_lt. cbn. lia. Qed.

Lemma address_le_lt a b : a ≠ b → address_le a b = true → address_lt a b.
Proof.
  destruct a as [i s], b as [j t]. unfold address_le, address_lt. cbn. intros Hne H.
  assert (i ≠ j ∨ s ≠ t) by (destruct (decide (i = j)); [right; congruence|by left]). lia.
Qed.

Lemma address_gt_lt a b : address_le a b = false → address_lt b a.
Proof. destruct a, b. unfold address_le, address_lt. cbn. lia. Qed.

Lemma elem_of_insert_address a b l : b ∈ insert_address a l ↔ b = a ∨ b ∈ l.
Proof.
  induction l as [|c l IH]; cbn [insert_address]; [set_solver|].
  case_bool_decide; [subst; set_solver|]. destruct (address_le a c); set_solver.
Qed.

Lemma insert_address_sorted a l :
  StronglySorted address_lt l → StronglySorted address_lt (insert_address a l).
Proof.
  induction 1 as [|b l Hl IH Hb]; cbn [insert_address]; [by repeat constructor|].
  case_bool_decide as Hab; [by constructor|]. destruct (address_le a b) eqn:E.
  - constructor; [by constructor|]. pose proof (address_le_lt _ _ Hab E). constructor; [done|].
    eapply Forall_impl; [exact Hb|]. intros c Hc. by etrans.
  - constructor; [done|]. rewrite Forall_forall in Hb |- *.
    intros c [->|Hc]%elem_of_insert_address; [by apply address_gt_lt|by apply Hb].
Qed.

Lemma sorted_addresses_spec l :
  StronglySorted address_lt (sorted_addresses l) ∧ ∀ a, a ∈ sorted_addresses l ↔ a ∈ l.
Proof.
  induction l as [|b l [IH1 IH2]]; [by split; [constructor|]|].
  change (sorted_addresses (b :: l)) with (insert_address b (sorted_addresses l)).
  split; [by apply insert_address_sorted|]. intros a. rewrite elem_of_insert_address, IH2. set_solver.
Qed.

(** ** The entries *)

Lemma lower_lower s : Text.lower (Text.lower s) = Text.lower s.
Proof.
  unfold Text.lower. induction s as [|a s IH]; [done|]. cbn. rewrite IH. f_equal.
  apply Ascii.eqb_eq. revert a. apply forall_ascii. vm_compute. reflexivity.
Qed.

(** The sizes and the type names of the wire. *)
Definition typed_entry (e : AxisEntry.t) : Prop :=
  AxisEntry.type e ∈ TYPES.*2 ∧ AxisEntry.bits e ∈ [8; 16; 32]
  ∧ AxisEntry.access e = Text.lower (AxisEntry.access e).

(** A mapped object is padding, or an entry of the same type. *)
Definition typed_mapping (es : list ((Z * Z) * AxisEntry.t)) (m : Z * Z * Z * string * string) : Prop :=
  let '(i, s, b, n, t) := m in
  if i =? 0 then t = "USINT" else ∃ e, dict_get (i, s) es = Some e ∧ AxisEntry.type e = t.

(** [sum(bits // 8)] *)
Definition mapped_bytes (ms : list (Z * Z * Z * string * string)) : Z :=
  foldr Z.add 0 (map (λ m, m.1.1.2 / 8) ms).

Lemma assoc_in {B} key (l : list (string * B)) b : assoc key l = Some b → b ∈ l.*2.
Proof.
  induction l as [|[k v] l IH]; [done|]. cbn. destruct (String.eqb key k).
  - intros [= ->]. left.
  - intros E. right. by apply IH.
Qed.

Section contract.
Context {A : Type} `{DriveAdapterLaws A}.

#[export] Instance axis_entry_reader address : Reader (axis_entry (A:=A) address).
Proof.
  destruct address as [i s]. unfold axis_entry. apply reader_bind; [apply _|]. intros d.
  destruct (assoc _ _); [|apply _]. apply reader_if; apply _.
Qed.

#[export] Instance axis_entries_reader l : Reader (axis_entries (A:=A) l).
Proof. induction l as [|a l IH]; cbn [axis_entries]; apply _. Qed.

Lemma axis_entry_typed address (a a' : A) e :
  axis_entry address a = (Ret e, a') → e.1 = address ∧ typed_entry e.2.
Proof.
  destruct address as [i s]. unfold axis_entry. intros E.
  apply bind_Ret_inv in E as (d & a1 & _ & E).
  destruct (assoc _ TYPES) as [type|] eqn:Ht; [|done]. case_bool_decide as Hb; [|done]. cbn [negb] in E.
  apply bind_Ret_inv in E as (bs & a2 & _ & E). injection E as <- _. split; [done|].
  unfold typed_entry. cbn. split_and!; [|done|].
  - by apply assoc_in in Ht.
  - symmetry. apply lower_lower.
Qed.

Lemma axis_entries_typed l : ∀ (a a' : A) es,
  axis_entries l a = (Ret es, a') → es.*1 = l ∧ Forall (λ e, typed_entry e.2) es.
Proof.
  induction l as [|ad l IH]; intros a a' es E; cbn [axis_entries] in E.
  { injection E as <- _. by split; [|constructor]. }
  apply bind_Ret_inv in E as (e & a1 & He & E). apply bind_Ret_inv in E as (es1 & a2 & Hes & E).
  injection E as <- _. apply axis_entry_typed in He as [H1 H2]. apply IH in Hes as [H3 H4].
  cbn. rewrite H1, H3. split; [done|by constructor].
Qed.

Lemma pdo_mappings l es n :
  layout_size l = Ret n →
  (∀ e, e ∈ l → Entry.index e ≠ 0 → (Entry.index e, Entry.subindex e) ∈ es.*1) →
  ∃ ms, traverse (pdo_mapping es) l = Ret ms ∧ mapped_bytes ms = n ∧ Forall (typed_mapping es) ms.
Proof.
  unfold layout_size. intros E. apply outcome_bind_inv in E as (bs & E & [= <-]). revert bs E.
  induction l as [|e l IH]; intros bs E Hin.
  { injection E as <-. exists []. split_and!; [done|done|constructor]. }
  cbn [traverse] in E. apply outcome_bind_inv in E as (b & Hb & E). apply outcome_bind_inv in E as (bs' & Hbs & E).
  injection E as <-. destruct (IH bs' Hbs) as (ms & Hms & Hsum & Hty); [intros x Hx; apply Hin; by right|].
  unfold byte_length in Hb. apply outcome_bind_inv in Hb as (bits & Hbits & [= <-]).
  assert (∃ t, pdo_mapping es e = Ret (Entry.index e, Entry.subindex e, bits, Entry.name e, t)
    ∧ typed_mapping es (Entry.index e, Entry.subindex e, bits, Entry.name e, t)) as (t & Ht & Hty').
  { unfold pdo_mapping, typed_mapping. rewrite Hbits. cbn [mbind outcome_bind].
    destruct (Z.eqb_spec (Entry.index e) 0) as [Hz|Hz]; [by exists "USINT"|].
    destruct (dict_get_known (Entry.index e, Entry.subindex e) es) as [i Hi]; [apply Hin; [by left|done]|].
    exists (AxisEntry.type i). rewrite Hi. split; [done|]. by exists i. }
  exists ((Entry.index e, Entry.subindex e, bits, Entry.name e, t) :: ms). split_and!.
  - cbn [traverse]. by rewrite Ht, Hms.
  - unfold mapped_bytes in *. cbn. by rewrite Hsum.
  - by constructor.
Qed.

(** ** The contract stays *)

Context {D : Type} (clock mono : nat → float) (store_save : axis A D → outcome () * D).

(** What [describe] depends on. *)
Definition signature (x : axis A D) : profile * string * Z * Z * list ((Z * Z) * AxisEntry.t) :=
  (adapter_profile (adapter x), preset x, rx_size x, tx_size x, ax_entries x).

Lemma describe_signature x y : signature x = signature y → (describe x).1 = (describe y).1.
Proof.
  intros [= E1 E2 E3 E4 E5]. unfold describe. rewrite !bind_gets, E1, E5, !lift_bind.
  destruct (traverse _ (rx _)) as [r|]; [|done]. rewrite !lift_bind.
  destruct (traverse _ (tx _)) as [t|]; [|done]. rewrite !bind_gets. cbn. by rewrite E2, E3, E4.
Qed.

#[local] Instance on_adapter_signature {R} (m : M A R) :
  Preserves adapter_profile m → Preserves signature (on_adapter (D:=D) m).
Proof.
  intros Hm x. unfold on_adapter, zoom. specialize (Hm (adapter x)).
  destruct (m (adapter x)) as [r a]. unfold signature. cbn in *. by rewrite Hm.
Qed.

#[local] Instance on_guard_signature {R} (m : M AxisFault R) : Preserves signature (on_guard (A:=A) (D:=D) m).
Proof. apply preserves_zoom. reflexivity. Qed.

#[local] Instance save_parameters_signature : Preserves signature (save_parameters clock store_save).
Proof. unfold save_parameters. frame. Qed.

#[local] Instance description_signature i s p a save :
  (∀ m, save = Some m → Preserves signature m) →
  Preserves signature (description_write_sdo i s p a save).
Proof. intros Hs. unfold description_write_sdo. destruct save as [m|]; frame. Qed.

#[local] Instance exchange_profile payload dt : Preserves adapter_profile (exchange (A:=A) payload dt).
Proof. unfold exchange. frame. Qed.

#[local] Instance _dispatch_signature r : Preserves signature (_dispatch clock mono store_save r).
Proof.
  unfold _dispatch, describe, dispatch_read, dispatch_write, dispatch_cycle, cycle_dt, monotonic. frame.
  apply description_signature. intros m E. match type of E with (if ?b then _ else _) = _ => destruct b end;
    [injection E as <-; apply _|done].
Qed.

#[local] Instance dispatch_signature r : Preserves signature (dispatch clock mono store_save r).
Proof.
  unfold dispatch, dispatch_access, dispatch_guarded, guarded_body, guarded_handler, prepare_cycle,
    accept_result, access_handler, guard_answer. frame.
Qed.

(** The axis behind a sequence of requests. *)
Definition served (rs : list request) (x : axis A D) : axis A D :=
  foldl (λ x r, (dispatch clock mono store_save r x).2) x rs.

Lemma served_signature rs x : signature (served rs x) = signature x.
Proof.
  revert x. induction rs as [|r rs IH]; intros x; [done|]. cbn. unfold served in IH. rewrite IH.
  apply (preserves (f:=signature) (m:=dispatch clock mono store_save r)).
Qed.

(** What a constructed axis describes, whatever it is asked before. *)
Lemma constructed_contract d a s (x : axis A D) :
  new_axis d a s = Ret x →
  ∃ ms ts,
    (∀ rs, (describe (served rs x)).1
       = Ret (Contract (preset x) (rx_size x) (tx_size x) (ax_entries x) ms ts))
    ∧ (traverse (pdo_mapping (ax_entries x)) (rx (pdo_configuration (adapter_profile a))) = Ret ms
       ∧ traverse (pdo_mapping (ax_entries x)) (tx (pdo_configuration (adapter_profile a))) = Ret ts)
    ∧ StronglySorted address_lt (ax_entries x).*1
    ∧ (∀ i sub, (i, sub) ∈ (ax_entries x).*1 ↔
        (∃ e, e ∈ rx (pdo_configuration (adapter_profile a)) ++ tx (pdo_configuration (adapter_profile a))
           ∧ i ≠ 0 ∧ Entry.index e = i ∧ Entry.subindex e = sub)
        ∨ ∃ r, r ∈ roles (adapter_profile a) ∧ Role.index r = i ∧ Role.subindex r = sub)
    ∧ Forall (λ e, typed_entry e.2) (ax_entries x)
    ∧ Forall (typed_mapping (ax_entries x)) (ms ++ ts)
    ∧ mapped_bytes ms = rx_size x ∧ mapped_bytes ts = tx_size x.
Proof.
  intros Hx. unfold new_axis in Hx.
  apply outcome_bind_inv in Hx as (n_rx & Hrx & Hx). apply outcome_bind_inv in Hx as (n_tx & Htx & Hx).
  rewrite (reader_run (axis_entries _)) in Hx.
  destruct (axis_entries (addresses (adapter_profile a)) a) as [[es|] a1] eqn:Hes; [|done]. cbn [fst] in Hx.
  rewrite (reader_run adapter_read_inputs) in Hx. destruct (adapter_read_inputs a).1 as [inputs|]; [|done].
  apply axis_entries_typed in Hes as [Hkeys Hty].
  destruct (sorted_addresses_spec
    (map (λ e, (Entry.index e, Entry.subindex e))
       (filter (λ e, Entry.index e ≠ 0) (rx (pdo_configuration (adapter_profile a)) ++ tx (pdo_configuration (adapter_profile a))))
     ++ map (λ r, (Role.index r, Role.subindex r)) (roles (adapter_profile a)))) as [Hsort Hin].
  fold (addresses (adapter_profile a)) in Hsort, Hin. rewrite <-Hkeys in Hsort, Hin.
  assert (∀ i sub, (i, sub) ∈ es.*1 ↔
    (∃ e, e ∈ rx (pdo_configuration (adapter_profile a)) ++ tx (pdo_configuration (adapter_profile a))
       ∧ i ≠ 0 ∧ Entry.index e = i ∧ Entry.subindex e = sub)
    ∨ ∃ r, r ∈ roles (adapter_profile a) ∧ Role.index r = i ∧ Role.subindex r = sub) as Hmem.
  { intros i sub. rewrite Hin, elem_of_app, !list_elem_of_fmap. f_equiv.
    - split; [intros (e & [= -> ->] & [Hne He]%list_elem_of_filter)|intros (e & He & Hne & <- & <-)]; exists e;
        [by split_and!|split; [done|by apply list_elem_of_filter]].
    - split; [intros (r & [= -> ->] & Hr)|intros (r & Hr & <- & <-)]; exists r; by split_and!. }
  destruct (pdo_mappings _ es _ Hrx) as (ms & Hms & Hmb & Hmt).
  { intros e He Hne. apply Hmem. left. exists e. rewrite elem_of_app. by split_and!; [left|..]. }
  destruct (pdo_mappings _ es _ Htx) as (ts & Hts & Htb & Htt).
  { intros e He Hne. apply Hmem. left. exists e. rewrite elem_of_app. by split_and!; [right|..]. }
  injection Hx as Hx. exists ms, ts. subst x.
  cbn [ax_entries rx_size tx_size preset]. split_and!; try done; [|by apply Forall_app].
  intros rs. rewrite (describe_signature _ _ (served_signature rs _)).
  unfold describe. rewrite !bind_gets. cbn [adapter ax_entries]. by rewrite lift_bind, Hms, lift_bind, Hts.
Qed.

(** C8. The contract of an axis is typed and fixed.  An axis that was constructed
    describes itself, and gives the same answer after every sequence of
    requests.  The contract lists the objects of the PDOs, without padding,
    and of the roles, once each in the order of the addresses; every entry
    has a type of the wire, 8, 16 or 32 bits and a lower-case access; every
    mapped object is padding or an entry of the type it is mapped with; the
    sizes are those of the mappings. *)
Theorem contract_typed d a s (x : axis A D) :
  new_axis d a s = Ret x →
  ∃ c, (∀ rs, (describe (served rs x)).1 = Ret c)
    ∧ StronglySorted address_lt (c_entries c).*1
    ∧ (∀ i sub, (i, sub) ∈ (c_entries c).*1 ↔
        (∃ e, e ∈ rx (pdo_configuration (adapter_profile a)) ++ tx (pdo_configuration (adapter_profile a))
           ∧ i ≠ 0 ∧ Entry.index e = i ∧ Entry.subindex e = sub)
        ∨ ∃ r, r ∈ roles (adapter_profile a) ∧ Role.index r = i ∧ Role.subindex r = sub)
    ∧ Forall (λ e, typed_entry e.2) (c_entries c)
    ∧ Forall (typed_mapping (c_entries c)) (c_rx c ++ c_tx c)
    ∧ mapped_bytes (c_rx c) = c_rx_size c ∧ mapped_bytes (c_tx c) = c_tx_size c.
Proof.
  intros Hx. apply constructed_contract in Hx as (ms & ts & Hd & _ & Hc).
  by exists (Contract (preset x) (rx_size x) (tx_size x) (ax_entries x) ms ts).
Qed.
End contract.

(** The axis of the built-in model, behind two requests. *)
Definition demo_built : outcome (axis FKrCmmtAdapter ()) := new_axis default_device linear_adapter tt.

Definition demo_served (x : axis FKrCmmtAdapter ()) : axis FKrCmmtAdapter () :=
  served (λ _, f_zero) (λ _, f_zero) (λ _, (Ret tt, tt))
    [Request (Some "idle") None None None None; Request (Some "read") (Some 0x6041) (Some 0) None None] x.

Lemma demo_built_eq : demo_built = new_axis default_device linear_adapter tt.
Proof. reflexivity. Qed.

Lemma contract_typed_witness :
  match demo_built with
  | Ret x => ∃ c, (describe (demo_served x)).1 = Ret c
      ∧ Forall (λ e, typed_entry e.2) (c_entries c)
      ∧ Forall (typed_mapping (c_entries c)) (c_rx c ++ c_tx c) ∧ mapped_bytes (c_rx c) = c_rx_size c
  | Raise _ => False
  end.
Proof.
  assert (is_ret demo_built = true) as H by (vm_compute; reflexivity).
  pose proof (contract_typed (λ _, f_zero) (λ _, f_zero) (λ _, (Ret tt, tt)) default_device linear_adapter tt) as Hc.
  rewrite <-demo_built_eq in Hc.
  destruct demo_built as [x|]; [|discriminate H].
  destruct (Hc x eq_refl) as (c & H1 & _ & _ & H2 & H3 & H4 & _). exists c.
  split; [apply H1|]. split; [exact H2|]. split; [exact H3|exact H4].
Defined.
