(* ===== verification/Fmi.v ===== *)
(** * The FMU runner

    src/functional_model/runtime/fmi/runner.py ([Fmi3Runner]): the checked
    access to one FMU.  The FMU and the library that loads it are the class
    [Fmu]: an artifact answers with its description, a loaded FMU is a state
    of type [F] with the calls the runner makes on it, each of which may
    raise.

    [released] holds the FMUs the runner let go in [close], in their last
    state; the runner has no reference to them any more.  The temporary
    folder is kept as present or removed.

    The theorems: an operation the FMU raises in leaves a failed runner; a
    failed or closed runner refuses every access without a call on the FMU,
    and the first close of a failed runner frees the FMU without terminating
    it, every later one does nothing; no integer outside the type of its
    variable reaches the FMU. *)

From S2P Require Import Prelude PyFloat.
From S2P Require Export PyValue.

Open Scope string_scope.
Open Scope list_scope.
Open Scope Z_scope.

Record model_variable := ModelVariable {
  v_type : string;
  v_causality : string;
  v_dimensions : bool;
  v_reference : Z;
}.

Record model_description := ModelDescription {
  md_version : string;
  md_cosimulation : bool;
  md_variables : list (string * model_variable);
}.

(** fmpy: [read_model_description], [extract] and [FMU3Slave(...)], and the
    methods of the loaded FMU.  [fmu_set t] and [fmu_get t] are the methods
    ['set' + t] and ['get' + t] on one value reference. *)
Class Fmu (F : Type) := {
  fmu_describe : string → outcome model_description;
  fmu_create : string → model_description → string → outcome F;
  fmu_instantiate : M F ();
  fmu_enter_initialization : M F ();
  fmu_exit_initialization : M F ();
  fmu_component : F → bool;
  fmu_set : string → Z → pyval → M F ();
  fmu_get : string → Z → M F pyval;
  fmu_do_step : float → float → M F (bool * bool * bool);
  fmu_terminate : M F ();
  fmu_free : M F ();
}.

Record runner (F : Type) := Runner {
  r_fmu : option F;
  r_initialized : bool;
  r_failed : bool;
  r_time : float;
  r_variables : list (string * model_variable);
  r_folder : bool;
  released : list F;
}.
Arguments Runner {F} _ _ _ _ _ _ _.
Arguments r_fmu {F} _.
Arguments r_initialized {F} _.
Arguments r_failed {F} _.
Arguments r_time {F} _.
Arguments r_variables {F} _.
Arguments r_folder {F} _.
Arguments released {F} _.

#[export] Instance runner_eta F : Eta (runner F) := λ r,
  Runner (r_fmu r) (r_initialized r) (r_failed r) (r_time r) (r_variables r) (r_folder r)
    (released r).

(** [v.type.startswith(...)], and [int(v.type.lstrip('UInt'))] *)
Definition is_signed (t : string) : bool := Text.starts_with "Int" t.
Definition is_integer (t : string) : bool := is_signed t || Text.starts_with "UInt" t.

Fixpoint lstrip_UInt (t : string) : string :=
  match t with
  | String.String a t' =>
      if Text.contains (String.String a EmptyString) "UInt" then lstrip_UInt t' else t
  | EmptyString => t
  end.

Definition integer_range (t : string) : outcome (Z * Z) :=
  bits ← of_option ValueError (parse_int (lstrip_UInt t));
  mret (if is_signed t then (- Z.shiftl 1 (bits - 1), Z.shiftl 1 (bits - 1) - 1)
        else (0, Z.shiftl 1 bits - 1)).

(** The value checks of [set]. *)
Definition check_float (value : pyval) : outcome () :=
  match value with
  | PFloat f => if f_is_finite f then mret tt else Raise ValueError
  | _ => mret tt
  end.

Definition check_integer (t : string) (value : pyval) : outcome () :=
  if is_integer t then
    '(low, high) ← integer_range t;
    let inside z := if (low <=? z) && (z <=? high) then mret tt else Raise ValueError in
    match value with
    | PInt z => inside z
    | PBool b => inside (Z_of_bool b)
    | _ => Raise ValueError
    end
  else mret tt.

Definition check_boolean (t : string) (value : pyval) : outcome () :=
  if String.eqb t "Boolean" && match value with PBool _ => false | _ => true end
  then Raise ValueError else mret tt.

Section runner.
Context {F : Type} `{Fmu F}.

(** The runner before the body of its constructor. *)
Definition empty_runner : runner F := Runner None false false f_zero [] true [].

(** A call on [self._fmu]. *)
Definition on_fmu {R} (m : M F R) : M (runner F) R := λ r,
  match r_fmu r with
  | None => (Raise AttributeError, r)
  | Some u => let '(a, u) := m u in (a, r <| r_fmu := Some u |>)
  end.

(** [close]: the nested [finally] clauses; an exception of [freeInstance]
    takes the place of one of [terminate]. *)
Definition close_runner : M (runner F) () := λ r,
  let r0 := r <| r_fmu := None |> <| r_initialized := false |> <| r_folder := false |> in
  match r_fmu r with
  | None => (Ret tt, r0)
  | Some u =>
      let '(o1, u) := if r_initialized r && negb (r_failed r) then fmu_terminate u else (Ret tt, u) in
      let '(o2, u) := if fmu_component u then fmu_free u else (Ret tt, u) in
      (match o2 with Raise e => Raise e | Ret _ => o1 end, r0 <| released := released r ++ [u] |>)
  end.

Definition check_signature (variables : list (string * model_variable))
    (row : string * (string * string)) : outcome () :=
  let '(name, (kind, causality)) := row in
  match dict_get name variables with
  | Some v =>
      if String.eqb (v_type v) kind && String.eqb (v_causality v) causality
         && negb (v_dimensions v)
      then mret tt else Raise ValueError
  | None => Raise ValueError
  end.

(** [Fmi3Runner.__init__] *)
Definition init_runner (artifact : string) (signature : list (string * (string * string)))
    (instance_name : string) : M (runner F) () :=
  try_except
    (md ← lift (fmu_describe artifact);
     if negb (String.eqb (md_version md) "3.0") || negb (md_cosimulation md) then raise ValueError
     else
       let variables := foldl (λ d '(name, v), dict_set name v d) [] (md_variables md) in
       r_variables <~ variables ;;
       lift (traverse (check_signature variables) signature) ;;
       u ← lift (fmu_create artifact md instance_name);
       r_fmu <~ Some u ;;
       on_fmu fmu_instantiate ;;
       on_fmu fmu_enter_initialization ;;
       on_fmu fmu_exit_initialization ;;
       r_initialized <~ true)
    (λ e, close_runner ;; raise e).

Definition _check : M (runner F) () :=
  i ← gets r_initialized; f ← gets r_failed;
  if negb (i : bool) || (f : bool) then raise RuntimeError else mret tt.

(** A call on the FMU whose exception marks the runner as failed. *)
Definition guarded_call {R} (m : M (runner F) R) : M (runner F) R :=
  try_except m (λ e, r_failed <~ true ;; raise e).

Definition runner_set (name : string) (value : pyval) : M (runner F) () :=
  _check ;;
  vs ← gets r_variables;
  v ← lift (of_option KeyError (dict_get name vs));
  if negb (String.eqb (v_causality v) "input" || String.eqb (v_causality v) "parameter")
  then raise ValueError
  else
    lift (check_float value) ;;
    lift (check_integer (v_type v) value) ;;
    lift (check_boolean (v_type v) value) ;;
    guarded_call (on_fmu (fmu_set (v_type v) (v_reference v) value)).

Definition runner_get (name : string) : M (runner F) pyval :=
  _check ;;
  vs ← gets r_variables;
  v ← lift (of_option KeyError (dict_get name vs));
  guarded_call (on_fmu (fmu_get (v_type v) (v_reference v))).

Definition runner_step (dt : float) : M (runner F) () :=
  _check ;;
  if negb (f_is_finite dt) || f_le dt f_zero then raise ValueError
  else
    guarded_call
      (t ← gets r_time;
       '(event, terminate, early) ← on_fmu (fmu_do_step t dt);
       if (event : bool) || (terminate : bool) || (early : bool) then raise RuntimeError
       else modify (λ r, r <| r_time := f_add (r_time r) dt |>)).

(** ** Properties *)

(** The operations of the owner of a runner. *)
Inductive runner_op := OpSet (name : string) (value : pyval) | OpGet (name : string) | OpStep (dt : float) | OpClose.

Definition run_op (op : runner_op) : M (runner F) () :=
  match op with
  | OpSet name value => runner_set name value
  | OpGet name => _ ← runner_get name; mret tt
  | OpStep dt => runner_step dt
  | OpClose => close_runner
  end.

(** The runner refuses work: it failed or is not initialized. *)
Definition dead (r : runner F) : Prop := r_initialized r = false ∨ r_failed r = true.

Lemma check_dead r : dead r → _check r = (Raise RuntimeError, r).
Proof.
  unfold _check. rewrite !bind_gets. intros [-> | ->]; [done|]. by rewrite orb_true_r.
Qed.

Lemma close_state r :
  r_initialized (close_runner r).2 = false ∧ r_fmu (close_runner r).2 = None
  ∧ r_folder (close_runner r).2 = false.
Proof. unfold close_runner. repeat case_match; simplify_eq; done. Qed.

Lemma dead_op op r : dead r →
  match op with
  | OpClose => dead (run_op op r).2
  | _ => run_op op r = (Raise RuntimeError, r)
  end.
Proof.
  intros Hd. pose proof (check_dead r Hd) as Hc.
  destruct op; simpl; unfold runner_set, runner_get, runner_step;
    rewrite ?bind_assoc; try by rewrite (bind_eq_raise _ _ _ _ _ Hc).
  left. apply close_state.
Qed.

(** A guarded call that raises leaves a failed runner. *)
Lemma guarded_call_fails {R} (m : M (runner F) R) r e r' :
  guarded_call m r = (Raise e, r') → r_failed r' = true.
Proof.
  unfold guarded_call, try_except. destruct (m r) as [[a|e1] r1]; [done|].
  intros [= _ <-]. done.
Qed.

(** ** The end of a runner *)

Definition is_close (op : runner_op) : bool := match op with OpClose => true | _ => false end.

(** The operation passes its checks and calls the FMU. *)
Definition reaches (op : runner_op) (r : runner F) : bool :=
  match op with
  | OpSet name value =>
      match dict_get name (r_variables r) with
      | Some v =>
          (String.eqb (v_causality v) "input" || String.eqb (v_causality v) "parameter")
          && is_ret (check_float value) && is_ret (check_integer (v_type v) value)
          && is_ret (check_boolean (v_type v) value)
      | None => false
      end
  | OpGet name => match dict_get name (r_variables r) with Some _ => true | None => false end
  | OpStep dt => f_is_finite dt && negb (f_le dt f_zero)
  | OpClose => true
  end.

(** An FMU that is let go without being terminated. *)
Definition freed (u : option F) : list F :=
  match u with
  | Some u => [if fmu_component u then (fmu_free u).2 else u]
  | None => []
  end.

Lemma live_op op r : is_close op = false → ¬ dead r →
  if reaches op r then is_ret (run_op op r).1 = false → r_failed (run_op op r).2 = true
  else (∃ e, (run_op op r).1 = Raise e) ∧ (run_op op r).2 = r.
Proof.
  intros Ho Hd. assert (_check r = (Ret tt, r)) as Hc.
  { unfold _check. rewrite !bind_gets. unfold dead in Hd.
    destruct (r_initialized r); [|by exfalso; apply Hd; left].
    destruct (r_failed r); [by exfalso; apply Hd; right|done]. }
  assert (∀ R (m : M (runner F) R), is_ret (guarded_call m r).1 = false →
    r_failed (guarded_call m r).2 = true) as Hg.
  { intros R m. destruct (guarded_call m r) as [[a|e] r'] eqn:E; [done|intros _].
    by apply guarded_call_fails in E. }
  destruct op as [name value|name|dt|]; [| | |done]; cbn [run_op reaches];
    unfold runner_set, runner_get, runner_step.
  - rewrite (bind_eq_ret _ _ _ _ _ Hc), bind_gets, lift_bind.
    destruct (dict_get name (r_variables r)) as [v|]; cbn [of_option]; [|by eauto].
    destruct (_ || _); cbn [negb andb]; [|by eauto]. rewrite lift_bind.
    destruct (check_float value) as [[]|]; cbn [is_ret andb]; [|by eauto]. rewrite lift_bind.
    destruct (check_integer (v_type v) value) as [[]|]; cbn [is_ret andb]; [|by eauto]. rewrite lift_bind.
    destruct (check_boolean (v_type v) value) as [[]|]; cbn [is_ret andb]; [|by eauto]. apply Hg.
  - rewrite bind_assoc, (bind_eq_ret _ _ _ _ _ Hc), bind_assoc, bind_gets, bind_assoc, lift_bind.
    destruct (dict_get name (r_variables r)) as [v|]; cbn [of_option]; [|by eauto].
    match goal with |- context [guarded_call ?m] => specialize (Hg _ m);
      unfold mbind, M_bind; destruct (guarded_call m r) as [[a|e] r'] end; done.
  - rewrite (bind_eq_ret _ _ _ _ _ Hc).
    destruct (f_is_finite dt); cbn [negb orb andb]; [|by eauto].
    destruct (f_le dt f_zero); cbn [negb]; [by eauto|]. apply Hg.
Qed.

(** Closing a dead runner. *)
Lemma close_dead r : dead r →
  r_fmu (close_runner r).2 = None
  ∧ released (close_runner r).2 = released r ++ freed (r_fmu r).
Proof.
  intros Hd. unfold close_runner, freed. destruct (r_fmu r) as [u|]; [|by rewrite app_nil_r].
  assert (r_initialized r && negb (r_failed r) = false) as ->
    by (destruct Hd as [-> | ->]; [done|apply andb_false_r]).
  cbn beta iota. destruct (fmu_component u); [|done]. by destruct (fmu_free u).
Qed.

Lemma dead_ops ops r :
  let r' := foldl (λ r op, (run_op op r).2) r ops in
  dead r →
  (∀ o, is_close o = false → run_op o r' = (Raise RuntimeError, r'))
  ∧ r_fmu r' = (if existsb is_close ops then None else r_fmu r)
  ∧ released r' = released r ++ (if existsb is_close ops then freed (r_fmu r) else []).
Proof.
  cbv zeta. revert r. induction ops as [|op ops IH]; intros r Hd.
  - cbn. rewrite app_nil_r. split_and!; [|done..]. intros o Ho.
    pose proof (dead_op o r Hd) as H1. by destruct o.
  - cbn [foldl existsb]. pose proof (dead_op op r Hd) as H1.
    destruct (is_close op) eqn:Ho.
    + destruct op; try done. cbn [run_op] in *.
      destruct (IH _ H1) as (H2 & H3 & H4). destruct (close_dead r Hd) as [E1 E2].
      split_and!; [done|rewrite H3; by case_match|]. rewrite H4, E1, E2. cbn [orb freed].
      by destruct (existsb is_close ops); rewrite app_nil_r.
    + assert ((run_op op r).2 = r) as -> by (destruct op; [by rewrite H1..|done]). by apply IH.
Qed.

(** The runner reaches its FMU only with values of the type of the variable. *)
Definition representable (t : string) (value : pyval) : Prop :=
  (∀ f, value = PFloat f → f_is_finite f = true)
  ∧ (is_integer t = true → ∃ low high z, integer_range t = Ret (low, high)
       ∧ (value = PInt z ∨ ∃ b, value = PBool b ∧ z = Z_of_bool b) ∧ low ≤ z ≤ high)
  ∧ (t = "Boolean" → ∃ b, value = PBool b).

Lemma checks_representable t value :
  check_float value = Ret tt → check_integer t value = Ret tt → check_boolean t value = Ret tt →
  representable t value.
Proof.
  intros Hf Hi Hb. split_and!.
  - intros f ->. simpl in Hf. by destruct (f_is_finite f).
  - intros Ht. unfold check_integer in Hi. rewrite Ht in Hi.
    destruct (integer_range t) as [[low high]|]; [|done]. simpl in Hi. exists low, high.
    destruct value as [z| |b| |]; try done;
      match type of Hi with (if ?c then _ else _) = _ => destruct c eqn:Hz; [|done] end;
      apply andb_true_iff in Hz as [H1%Z.leb_le H2%Z.leb_le]; eauto 10.
  - intros ->. unfold check_boolean in Hb. simpl in Hb. destruct value; try done. eauto.
Qed.

(** C39. A runner dies once and stays dead.  An operation of a live runner that
    is rejected before its call on the FMU leaves the runner as it is, and one
    whose call raises, or whose step reports an event or a termination, leaves
    a failed runner.  Once the runner is dead, over every sequence of
    operations: each access raises [RuntimeError] and changes nothing; the
    FMU is held until the first close, which frees it without terminating it
    and lets it go; nothing is called on it afterwards. *)
Theorem dead_runner_stays_dead op ops r :
  let r1 := (run_op op r).2 in
  let r2 := foldl (λ r op, (run_op op r).2) r1 ops in
  (is_close op = false → ¬ dead r →
     if reaches op r then is_ret (run_op op r).1 = false → r_failed r1 = true
     else (∃ e, (run_op op r).1 = Raise e) ∧ r1 = r)
  ∧ (is_close op = true → dead r1 ∧ r_fmu r1 = None ∧ r_folder r1 = false)
  ∧ (dead r1 →
       (∀ o, is_close o = false → run_op o r2 = (Raise RuntimeError, r2))
       ∧ r_fmu r2 = (if existsb is_close ops then None else r_fmu r1)
       ∧ released r2 = released r1 ++ (if existsb is_close ops then freed (r_fmu r1) else [])).
Proof.
  cbv zeta. split_and!.
  - intros Ho Hd. by apply live_op.
  - intros Ho. destruct op; try done. destruct (close_state r) as (H1 & H2 & H3).
    split_and!; [by left|done|done].
  - apply dead_ops.
Qed.

(** An initialized runner has an FMU. *)
Definition runner_ok (r : runner F) : Prop := r_initialized r = true → is_Some (r_fmu r).

Lemma on_fmu_some {R} (m : M F R) r u :
  r_fmu r = Some u → on_fmu m r = ((m u).1, r <| r_fmu := Some (m u).2 |>).
Proof. intros E. unfold on_fmu. rewrite E. by destruct (m u). Qed.

Lemma runner_set_checked name value r :
  dead r ∨ (∃ e, runner_set name value r = (Raise e, r))
  ∨ ∃ v, dict_get name (r_variables r) = Some v ∧ representable (v_type v) value
      ∧ runner_set name value r
        = guarded_call (on_fmu (fmu_set (v_type v) (v_reference v) value)) r.
Proof.
  destruct (r_initialized r) eqn:Hi; [|by do 2 left].
  destruct (r_failed r) eqn:Hf; [by left; right|]. right.
  assert (_check r = (Ret tt, r)) as Hc by (unfold _check; by rewrite !bind_gets, Hi, Hf).
  unfold runner_set. rewrite (bind_eq_ret _ _ _ _ _ Hc), bind_gets, lift_bind.
  destruct (dict_get name (r_variables r)) as [v|]; cbn [of_option]; [|left; eauto].
  destruct (negb _); [left; eauto|]. rewrite lift_bind.
  destruct (check_float value) as [[]|] eqn:H1; [|left; eauto]. rewrite lift_bind.
  destruct (check_integer (v_type v) value) as [[]|] eqn:H2; [|left; eauto]. rewrite lift_bind.
  destruct (check_boolean (v_type v) value) as [[]|] eqn:H3; [|left; eauto].
  right. exists v. split_and!; [done|by apply checks_representable|done].
Qed.

(** Only a representable value reaches the FMU: [set] raises and leaves the
    runner as it is, or the variable exists, the value has its type, and the
    FMU is what its own setter makes of it; when that setter raises, the
    runner has failed. *)
Theorem set_is_checked name value r :
  runner_ok r →
  let '(res, r') := runner_set name value r in
  (r' = r ∧ ∃ e, res = Raise e)
  ∨ ∃ v u, dict_get name (r_variables r) = Some v ∧ r_fmu r = Some u
      ∧ representable (v_type v) value
      ∧ r_fmu r' = Some (fmu_set (v_type v) (v_reference v) value u).2
      ∧ res = (fmu_set (v_type v) (v_reference v) value u).1
      ∧ (is_ret res = false → r_failed r' = true).
Proof.
  intros Hok. destruct (runner_set_checked name value r) as [Hd|[[e He]|(v & Hv & Hr & E)]].
  - pose proof (dead_op (OpSet name value) r Hd) as E. simpl in E. rewrite E. eauto.
  - rewrite He. eauto.
  - destruct (r_fmu r) as [u|] eqn:Hu.
    2: { destruct (runner_set name value r) as [res r'] eqn:E1.
         destruct (r_initialized r) eqn:Hi; [apply Hok in Hi as [? ?]; congruence|].
         pose proof (dead_op (OpSet name value) r (or_introl Hi)) as E2. simpl in E2.
         rewrite E1 in E2. injection E2 as -> ->. eauto. }
    rewrite E. unfold guarded_call, try_except. rewrite (on_fmu_some _ _ _ Hu).
    destruct (fmu_set (v_type v) (v_reference v) value u) as [[[]|e] u'] eqn:Es; cbn;
      right; exists v, u; rewrite Es; split_and!; done.
Qed.

(** Construction and every operation keep an initialized runner with its FMU. *)
Lemma guarded_ok {R} (m : M (runner F) R) : Inv runner_ok m → Inv runner_ok (guarded_call m).
Proof. intros Hm. unfold guarded_call. apply inv_try; [done|]. intros e r Hr. exact Hr. Qed.

Lemma on_fmu_ok {R} (m : M F R) : Inv runner_ok (on_fmu m).
Proof.
  intros r Hr. unfold on_fmu, runner_ok in *. destruct (r_fmu r) as [u|] eqn:E; [|simpl; by rewrite E].
  destruct (m u). simpl. eauto.
Qed.

Lemma run_op_ok op : Inv runner_ok (run_op op).
Proof.
  assert (Reader _check) by (unfold _check; apply _).
  destruct op; simpl; unfold runner_set, runner_get, runner_step.
  - apply inv_bind; [apply _|intros _]. apply inv_bind; [apply _|intros vs].
    apply inv_bind; [apply _|intros v]. apply inv_if; [apply _|].
    repeat (apply inv_bind; [apply _|intros _]). apply guarded_ok, on_fmu_ok.
  - apply inv_bind; [|intros a; apply _]. apply inv_bind; [apply _|intros _].
    apply inv_bind; [apply _|intros vs]. apply inv_bind; [apply _|intros v].
    apply guarded_ok, on_fmu_ok.
  - apply inv_bind; [apply _|intros _]. apply inv_if; [apply _|]. apply guarded_ok.
    apply inv_bind; [apply _|intros t]. apply inv_bind; [apply on_fmu_ok|].
    intros [[ev te] ea]. apply inv_if; [apply _|]. intros r Hr. exact Hr.
  - intros r Hr Hi. destruct (close_state r) as [Hc _]. congruence.
Qed.

Lemma on_fmu_keeps_some {R} (m : M F R) r a r' :
  on_fmu m r = (Ret a, r') → is_Some (r_fmu r') ∧ r_failed r' = r_failed r.
Proof.
  unfold on_fmu. destruct (r_fmu r) as [u|]; [|done]. destruct (m u) as [b u'].
  intros [= _ <-]. eauto.
Qed.

(** The constructor returns a usable runner, or it raises and has released
    everything. *)
Lemma init_runner_spec artifact signature name :
  let '(res, r) := init_runner artifact signature name empty_runner in
  match res with
  | Ret _ => r_initialized r = true ∧ r_failed r = false ∧ is_Some (r_fmu r)
  | Raise _ => r_initialized r = false ∧ r_fmu r = None ∧ r_folder r = false
  end.
Proof.
  unfold init_runner, try_except.
  match goal with |- context [match ?m empty_runner with _ => _ end] =>
    destruct (m empty_runner) as [[[]|e] r] eqn:E end.
  - minv E. destruct (negb _ || negb _); [done|]. cbv zeta in *.
    match goal with Hb : (_ ≫= _) _ = (Ret _, _) |- _ => minv Hb end.
    repeat match goal with Hf : on_fmu _ _ = (Ret _, _) |- _ =>
      apply on_fmu_keeps_some in Hf as [? ?] end.
    split_and!; [done| |done]. cbn in *. congruence.
  - unfold mbind, M_bind. pose proof (close_state r) as (H1 & H2 & H3).
    destruct (close_runner r) as [[[]|e'] r']; done.
Qed.

Lemma runner_ops_ok artifact signature name ops :
  runner_ok (foldl (λ r op, (run_op op r).2) (init_runner artifact signature name empty_runner).2 ops).
Proof.
  assert (runner_ok (init_runner artifact signature name empty_runner).2) as H0.
  { pose proof (init_runner_spec artifact signature name) as Hs.
    destruct (init_runner artifact signature name empty_runner) as [[[]|e] r]; simpl in *.
    - intros _. apply Hs.
    - intros Hi. destruct Hs as (Hs & _). congruence. }
  revert H0. generalize (init_runner artifact signature name empty_runner).2.
  induction ops as [|op ops IH]; intros r Hr; simpl; [done|]. by apply IH, run_op_ok.
Qed.
End runner.

(** ** A concrete FMU

    A memory of the values set, from given ones on and with 0 for the others;
    a step succeeds up to a step size of one second. *)
Record demo := Demo { demo_values : list (Z * pyval); demo_time : float }.

Definition demo_fmu (md : model_description) (values : list (Z * pyval)) : Fmu demo := {|
  fmu_describe := λ artifact, if String.eqb artifact "demo.fmu" then Ret md else Raise OSError;
  fmu_create := λ _ _ _, Ret (Demo values f_zero);
  fmu_instantiate := mret tt;
  fmu_enter_initialization := mret tt;
  fmu_exit_initialization := mret tt;
  fmu_component := λ _, true;
  fmu_set := λ _ ref v, modify (λ d, Demo (dict_set ref v (demo_values d)) (demo_time d));
  fmu_get := λ _ ref, gets (λ d, default (PInt 0) (dict_get ref (demo_values d)));
  fmu_do_step := λ t dt,
    if f_lt f_one dt then raise RuntimeError
    else modify (λ d, Demo (demo_values d) (f_add t dt)) ;; mret (false, false, false);
  fmu_terminate := mret tt;
  fmu_free := mret tt;
|}.

Definition level_description : model_description :=
  ModelDescription "3.0" true [("Level", ModelVariable "UInt8" "input" false 7)].

Definition level_runner : runner demo :=
  (init_runner (H:=demo_fmu level_description []) "demo.fmu" [("Level", ("UInt8", "input"))] "demo"
     empty_runner).2.

Lemma dead_runner_stays_dead_witness :
  let H := demo_fmu level_description [] in
  let r1 := (run_op (OpStep (f_of_Z 2)) level_runner).2 in
  r_failed r1 = true
  ∧ run_op (OpSet "Level" (PInt 3)) (foldl (λ r op, (run_op op r).2) r1 [OpStep f_one; OpClose; OpClose])
    = (Raise RuntimeError, foldl (λ r op, (run_op op r).2) r1 [OpStep f_one; OpClose; OpClose]).
Proof.
  intros H r1. assert (Hf : r_failed r1 = true) by (vm_compute; reflexivity). split; [exact Hf|].
  exact (proj1 (proj2 (proj2 (dead_runner_stays_dead (OpStep (f_of_Z 2)) [OpStep f_one; OpClose; OpClose]
    level_runner)) (or_intror Hf)) (OpSet "Level" (PInt 3)) eq_refl).
Defined.

Lemma set_is_checked_witness :
  let H := demo_fmu level_description [] in
  runner_set "Level" (PInt 256) level_runner = (Raise ValueError, level_runner)
  ∧ ∃ u, r_fmu (runner_set "Level" (PInt 255) level_runner).2 = Some u
         ∧ demo_values u = [(7, PInt 255)].
Proof.
  intros H. assert (runner_ok level_runner) as Hok by (intros _; by eexists).
  split; [vm_compute; reflexivity|].
  pose proof (set_is_checked "Level" (PInt 255) level_runner Hok) as Hs.
  assert (E : (runner_set "Level" (PInt 255) level_runner).1 = Ret tt) by (vm_compute; reflexivity).
  destruct (runner_set "Level" (PInt 255) level_runner) as [res r'] eqn:Er. simpl in E. subst res.
  destruct Hs as [[_ [e He]]|(v & u & Hv & Hu & _ & Hr & _)]; [discriminate|].
  eexists. split; [exact Hr|]. injection Hv as <-. injection Hu as <-. reflexivity.
Defined.
