(* ===== verification/Copley.v ===== *)
(** * The FMU drive adapter

    src/functional_model/cia402_drive/adapter/copley.py ([CopleyAdapter]) on
    the runner of Fmi.v, with the contract of its FMU
    (model_definitions/copley_drive_sim, [SIGNATURE], [STEP_SECONDS]).

    The adapter owns a configured dictionary, the runner and the time not yet
    stepped, [_remainder].  The unit exponents of 0x2194 are integers in the
    dictionary; for other values the factors are a [TypeError].

    The loop of [step] runs on fuel: [STEP_FUEL] turns are enough for every
    step of at most 0.1 s, and more fuel changes nothing
    ([step_loop_terminates]).  The other theorems: the outputs are rejected
    before anything is written; a step that the adapter refuses reaches
    neither the FMU nor the dictionary. *)

From S2P Require Import Prelude PyFloat.
From S2P Require Export Adapter Fmi.

Open Scope string_scope.
Open Scope list_scope.
Open Scope Z_scope.

Definition SIGNATURE : list (string * (string * string)) := [
  ("ControlWord", ("UInt16", "input")); ("ModesOfOp", ("Int8", "input"));
  ("TargetPosition", ("Int32", "input")); ("TargetVelocity", ("Int32", "input"));
  ("TargetTorque", ("Int16", "input")); ("FaultInject", ("Boolean", "input"));
  ("StatusWord", ("UInt16", "output")); ("ModesDisplay", ("Int8", "output"));
  ("ActualPosition", ("Int32", "output")); ("ActualVelocity", ("Int32", "output"));
  ("TorqueActual", ("Int16", "output")); ("AmplifierEvent", ("UInt32", "output"));
  ("ProfileVelocity", ("Float64", "parameter"));
  ("ProfileAcceleration", ("Float64", "parameter"));
  ("TorqueTimeConstant", ("Float64", "parameter"))].

Definition STEP_SECONDS : float := f_dec 2 (-3).

Definition WRITABLE : list (Z * Z) :=
  [(0x6040, 0); (0x6060, 0); (0x607A, 0); (0x6081, 0); (0x6083, 0); (0x6084, 0);
   (0x2005, 1); (0x2005, 3); (0x2000, 1)].

(** The objects whose values the model applies, and the unit exponents. *)
Definition persistent_keys : list (Z * Z) :=
  [(0x216E, 1); (0x2194, 1); (0x2194, 2); (0x2194, 3); (0x2194, 4);
   (0x6081, 0); (0x6083, 0); (0x6084, 0)].

Record copley (F : Type) := Copley {
  cp_profile : profile;
  cp_runner : runner F;
  cp_od : od;
  _remainder : float;
  _fault : bool;
  velocity_factor : float;
  acceleration_factor : float;
  cp_persistent_roles : list (Z * Z);
}.
Arguments Copley {F} _ _ _ _ _ _ _ _.
Arguments cp_profile {F} _.
Arguments cp_runner {F} _.
Arguments cp_od {F} _.
Arguments _remainder {F} _.
Arguments _fault {F} _.
Arguments velocity_factor {F} _.
Arguments acceleration_factor {F} _.
Arguments cp_persistent_roles {F} _.

#[export] Instance copley_eta F : Eta (copley F) := λ c,
  Copley (cp_profile c) (cp_runner c) (cp_od c) (_remainder c) (_fault c) (velocity_factor c)
    (acceleration_factor c) (cp_persistent_roles c).

(** [_validate] *)
Definition copley_validate (index : Z) (value : pyval) : outcome () :=
  if (index =? 0x6060) && negb (py_eq value (PInt 0) || py_eq value (PInt 1))
  then Raise DeviceRejectedException
  else if bool_decide (index ∈ [0x6081; 0x6083; 0x6084]) then
    b ← py_le value (PInt 0);
    if (b : bool) then Raise DeviceRejectedException else mret tt
  else mret tt.

(** [bool(value)] *)
Definition py_truth (value : pyval) : bool :=
  match value with
  | PInt z => negb (z =? 0)
  | PFloat f => negb (f_eq f f_zero)
  | PBool b => b
  | PStr s => negb (String.eqb s "")
  | PBytes bs => match bs with [] => false | _ => true end
  end.

(** [a | mask] for an integer mask. *)
Definition py_or (a : pyval) (mask : Z) : outcome Z :=
  match a with
  | PInt z => Ret (Z.lor z mask)
  | PBool b => Ret (Z.lor (Z_of_bool b) mask)
  | _ => Raise TypeError
  end.

(** [validate_parameters] *)
Definition copley_validate_parameters (values : list ((Z * Z) * pyval)) : outcome () :=
  let value k := of_option KeyError (dict_get k values) in
  let positive k :=
    v ← value k; b ← py_le v (PInt 0);
    if (b : bool) then Raise ValueError else mret tt in
  positive (0x6081, 0) ≫= λ _, positive (0x6083, 0) ≫= λ _, positive (0x6084, 0) ≫= λ _,
  a ← value (0x6083, 0); d ← value (0x6084, 0);
  if negb (py_eq a d) then Raise ValueError else mret tt.

(** The loop of [apply_outputs] over the layout, from [offset] on. *)
Fixpoint validate_outputs (objs : list ObjectDictionaryEntry) (payload : list byte) (offset : Z)
    : outcome () :=
  match objs with
  | [] => mret tt
  | obj :: objs =>
      n ← byte_length obj;
      let raw := slice offset (offset + n) payload in
      (if Entry.index obj =? 0 then mret tt
       else
         v ← decode_od_value (Entry.data_type obj) raw;
         _ ← copley_validate (Entry.index obj) v;
         if bool_decide (Entry.index obj ∈ [0x60FF; 0x6071; 0x60B1; 0x60B2]) && py_truth v
         then Raise DeviceRejectedException else mret tt) ≫= λ _,
      validate_outputs objs payload (offset + n)
  end.

(** [scale] *)
Definition unit_scale (e : pyval) : outcome float :=
  match e with
  | PInt z => Ret (f_pow10 (- Z.abs z))
  | PBool b => Ret (f_pow10 (- Z_of_bool b))
  | _ => Raise TypeError
  end.

Section copley.
Context {F : Type} `{Fmu F}.

Definition on_runner {R} (m : M (runner F) R) : M (copley F) R :=
  zoom cp_runner (λ r c, c <| cp_runner := r |>) m.
Definition on_cod {R} (m : M od R) : M (copley F) R := zoom cp_od (λ o c, c <| cp_od := o |>) m.

Definition cp_read (index : Z) : M (copley F) pyval := on_cod (read index None).

(** [_refresh] *)
Definition _refresh : M (copley F) () :=
  sw ← on_runner (runner_get "StatusWord"); w ← lift (py_or sw 0x8000);
  on_cod (write_internal 0x6041 (PInt w) None) ;;
  mapM_ (λ '(index, name),
    v ← on_runner (runner_get name); on_cod (write_internal index v None))
    [(0x6061, "ModesDisplay"); (0x6064, "ActualPosition"); (0x6077, "TorqueActual")] ;;
  v ← on_runner (runner_get "ActualVelocity");
  x ← lift (py_operand v);
  f ← gets velocity_factor;
  q ← lift (py_div (f_mul x (f_dec 1 (-1))) f);
  z ← lift (round_float q);
  on_cod (write_internal 0x606C (PInt z) None).

(** [round(runner.get(name) / factor)] *)
Definition scaled_parameter (name : string) (factor : float) : M (copley F) pyval :=
  v ← on_runner (runner_get name);
  x ← lift (py_operand v); q ← lift (py_div x factor); z ← lift (round_float q);
  mret (PInt z).

Definition unit_ratio (sub : Z) : M (copley F) float :=
  e ← on_cod (read 0x2194 (Some sub)); a ← lift (unit_scale e);
  e ← on_cod (read 0x2194 (Some 1)); b ← lift (unit_scale e);
  lift (py_div a b).

(** The roles and outputs of the profile in their order. *)
Definition candidate_addresses (p : profile) : list (Z * Z) :=
  map (λ r, (Role.index r, Role.subindex r)) (roles p)
  ++ map (λ e, (Entry.index e, Entry.subindex e)) (rx (pdo_configuration p)).

(** [CopleyAdapter.__init__] on an adapter that has its profile and runner. *)
Definition init_copley : M (copley F) () :=
  p ← gets cp_profile;
  o ← lift (construct p);
  cp_od <~ o ;;
  on_cod (write_internal 0x6060 (PInt 1) None) ;;
  on_cod (write_internal 0x6061 (PInt 1) None) ;;
  v ← unit_ratio 2; velocity_factor <~ v ;;
  a ← unit_ratio 3; acceleration_factor <~ a ;;
  pv ← scaled_parameter "ProfileVelocity" v;
  on_cod (write_internal 0x6081 pv None) ;;
  acceleration ← scaled_parameter "ProfileAcceleration" a;
  on_cod (write_internal 0x6083 acceleration None) ;;
  on_cod (write_internal 0x6084 acceleration None) ;;
  cp_persistent_roles <~ filter (λ k, k ∈ persistent_keys) (candidate_addresses p) ;;
  _refresh.

(** [CopleyAdapter.open]; the second component is what is left of the runner
    when the construction fails. *)
Definition open_copley (p : profile) (artifact instance_name : string)
    : outcome (copley F) * runner F :=
  match init_runner artifact SIGNATURE instance_name empty_runner with
  | (Raise e, r) => (Raise e, r)
  | (Ret _, r) =>
      match init_copley (Copley p r empty_od f_zero false f_zero f_zero []) with
      | (Ret _, c) => (Ret c, cp_runner c)
      | (Raise e, c) =>
          match close_runner (cp_runner c) with
          | (Ret _, r) => (Raise e, r)
          | (Raise e', r) => (Raise e', r)
          end
      end
  end.

Definition cp_close : M (copley F) () := on_runner close_runner.
Definition cp_read_sdo (index subindex size : Z) : M (copley F) (list byte) :=
  on_cod (read_sdo index subindex size).

Definition cp_write_sdo (index subindex : Z) (payload : list byte) : M (copley F) () :=
  if negb (bool_decide ((index, subindex) ∈ WRITABLE)) then raise DeviceRejectedException
  else
    d ← on_cod (get_definition index (Some subindex));
    if negb (Z.of_nat (length payload) =? Def.bit_size d / 8) then raise ValueError
    else
      v ← lift (decode_od_value (Def.data_type d) payload);
      if (index =? 0x2000) && (subindex =? 1) && negb (py_eq v (PInt 0))
      then raise DeviceRejectedException
      else
        lift (copley_validate index v) ;;
        on_cod (write_sdo index subindex payload).

Definition cp_apply_outputs (payload : list byte) : M (copley F) () :=
  p ← gets cp_profile;
  let conf := pdo_configuration p in
  expected ← lift (layout_size (rx conf));
  if negb (Z.of_nat (length payload) =? expected) then raise ValueError
  else
    lift (validate_outputs (rx conf) payload 0) ;;
    on_cod (rxpdo_payload_to_od conf payload).

(** [inject_fault(active)] *)
Definition inject_fault (active : bool) : M (copley F) () := _fault <~ active.

(** The inputs of the FMU, in the order they are set. *)
Definition fmu_inputs (acceleration : pyval) : M (copley F) (list (string * pyval)) :=
  cw ← cp_read 0x6040; cw ← lift (py_and cw (Z.lnot 0x0100));
  mode ← cp_read 0x6060;
  target ← cp_read 0x607A;
  f ← gets _fault;
  v ← cp_read 0x6081; vf ← gets velocity_factor; v ← lift (py_mul v (PFloat vf));
  af ← gets acceleration_factor; a ← lift (py_mul acceleration (PFloat af));
  mret [("ControlWord", PInt cw); ("ModesOfOp", mode); ("TargetPosition", target);
        ("TargetVelocity", PInt 0); ("TargetTorque", PInt 0); ("FaultInject", PBool f);
        ("ProfileVelocity", v); ("ProfileAcceleration", a)].

(** The loop that steps the FMU while a whole step is due. *)
Definition step_due (remainder : float) : bool :=
  f_le STEP_SECONDS (f_add remainder (f_dec 1 (-12))).

Definition rest_of (remainder : float) : float := f_max f_zero (f_sub remainder STEP_SECONDS).

Fixpoint step_loop (fuel : nat) : M (copley F) () :=
  match fuel with
  | O => mret tt
  | S fuel =>
      r ← gets _remainder;
      if step_due r then
        on_runner (runner_step STEP_SECONDS) ;;
        _remainder <~ rest_of r ;;
        step_loop fuel
      else mret tt
  end.

Definition STEP_FUEL : nat := 64.

(** What [step] does before it touches the FMU: the inputs, or an exception. *)
Definition check_step (dt : float) : M (copley F) (list (string * pyval)) :=
  if negb (f_is_finite dt) || negb (f_lt f_zero dt && f_le dt (f_dec 1 (-1))) then raise ValueError
  else
    fault ← gets _fault;
    cw ← (if (fault : bool) then v ← cp_read 0x6040; lift (py_and v 0x80) else mret 0);
    if negb (cw =? 0) then raise DeviceRejectedException
    else
      acceleration ← cp_read 0x6083; deceleration ← cp_read 0x6084;
      if negb (py_eq acceleration deceleration) then raise DeviceRejectedException
      else
        mapM_ (λ index, v ← cp_read index; lift (copley_validate index v))
          [0x6040; 0x6060; 0x6081; 0x6083; 0x6084] ;;
        fmu_inputs acceleration.

Definition cp_step_fuel (fuel : nat) (dt : float) : M (copley F) () :=
  inputs ← check_step dt;
  mapM_ (λ '(name, v), on_runner (runner_set name v)) inputs ;;
  modify (λ c, c <| _remainder := f_add (_remainder c) dt |>) ;;
  step_loop fuel ;;
  _refresh.

Definition cp_step : float → M (copley F) () := cp_step_fuel STEP_FUEL.

Definition cp_read_inputs : M (copley F) (list byte) :=
  p ← gets cp_profile; on_cod (od_to_txpdo_payload (pdo_configuration p)).

#[export] Instance copley_adapter : DriveAdapter (copley F) := {|
  adapter_profile := cp_profile;
  adapter_roles := cp_persistent_roles;
  on_adapter_od := @on_cod;
  adapter_read_sdo := cp_read_sdo;
  adapter_write_sdo := cp_write_sdo;
  adapter_apply_outputs := cp_apply_outputs;
  adapter_step := cp_step;
  adapter_read_inputs := cp_read_inputs;
  adapter_close := cp_close;
  adapter_validate_parameters := λ _, Some copley_validate_parameters;
|}.

#[export] Instance copley_dictionary : DictionaryAdapter (copley F).
Proof.
  refine {| adapter_od := cp_od; set_adapter_od := λ o c, c <| cp_od := o |> |};
    intros; try reflexivity.
  by destruct a.
Defined.

(** ** Frame facts *)

#[export] Instance on_runner_reader {R} (m : M (runner F) R) : Reader m → Reader (on_runner m).
Proof.
  intros Hm c. unfold on_runner, zoom. specialize (Hm (cp_runner c)).
  destruct (m (cp_runner c)) as [r x]. simpl in *. subst. by destruct c.
Qed.

#[export] Instance on_cod_reader {R} (m : M od R) : Reader m → Reader (on_cod m).
Proof.
  intros Hm c. unfold on_cod, zoom. specialize (Hm (cp_od c)).
  destruct (m (cp_od c)) as [r x]. simpl in *. subst. by destruct c.
Qed.

#[export] Instance on_runner_profile {R} (m : M (runner F) R) : Preserves cp_profile (on_runner m).
Proof. apply preserves_zoom. reflexivity. Qed.
#[export] Instance on_cod_profile {R} (m : M od R) : Preserves cp_profile (on_cod m).
Proof. apply preserves_zoom. reflexivity. Qed.
#[export] Instance on_runner_rest {R} (m : M (runner F) R) : Preserves _remainder (on_runner m).
Proof. apply preserves_zoom. reflexivity. Qed.
#[export] Instance on_cod_rest {R} (m : M od R) : Preserves _remainder (on_cod m).
Proof. apply preserves_zoom. reflexivity. Qed.

#[export] Instance fmu_inputs_reader a : Reader (fmu_inputs a).
Proof. unfold fmu_inputs, cp_read. apply _. Qed.

Lemma mapM_reader {S C} (f : C → M S ()) (l : list C) : (∀ c, Reader (f c)) → Reader (mapM_ f l).
Proof. intros Hf. induction l; simpl; apply _. Qed.

#[export] Instance check_step_reader dt : Reader (check_step dt).
Proof.
  unfold check_step, cp_read. apply reader_if; [apply _|].
  apply reader_bind; [apply _|intros fault]. apply reader_bind; [apply _|intros cw].
  apply reader_if; [apply _|]. apply reader_bind; [apply _|intros a].
  apply reader_bind; [apply _|intros d]. apply reader_if; [apply _|].
  apply reader_bind; [apply mapM_reader; apply _|intros _; apply _].
Qed.

#[export] Instance step_loop_profile fuel : Preserves cp_profile (step_loop fuel).
Proof. induction fuel as [|fuel IH]; simpl; frame. Qed.

#[export] Instance refresh_profile : Preserves cp_profile _refresh.
Proof. unfold _refresh. frame. Qed.

#[export] Instance refresh_rest : Preserves _remainder _refresh.
Proof. unfold _refresh. frame. Qed.

#[export] Instance copley_laws : DriveAdapterLaws (copley F).
Proof.
  constructor; simpl; intros;
    unfold cp_read_sdo, cp_read_inputs, cp_write_sdo, cp_apply_outputs, cp_step, cp_step_fuel;
    first [apply _ | frame].
Qed.

(** ** The step loop *)

Definition eps : float := f_dec 1 (-12).

(** [bound k]: a remainder of at most [bound k] needs at most [k] turns.  A
    turn takes 2 ms off; the bounds are 1.9 ms apart, which leaves room for
    the rounding. *)
Definition bound (k : nat) : float := f_dec (19 * (Z.of_nat k + 1)) (-4).

Lemma bounds_checked :
  forallb (λ k, valid (bound k) && f_is_finite (bound k)
    && (f_val (bound (S k)) - f_val STEP_SECONDS <=? f_val (bound k))
    && (f_val f_zero <=? f_val (bound k))) (seq 0 STEP_FUEL) = true.
Proof. vm_compute. reflexivity. Qed.

Lemma bound_facts k : (k < STEP_FUEL)%nat →
  num (bound k) ∧ f_val (bound (S k)) - f_val STEP_SECONDS ≤ f_val (bound k)
  ∧ 0 ≤ f_val (bound k).
Proof.
  intros Hk. pose proof bounds_checked as H1. rewrite forallb_forall in H1.
  specialize (H1 k). rewrite in_seq in H1. specialize (H1 ltac:(lia)).
  apply andb_true_iff in H1 as [H1 H4]. apply andb_true_iff in H1 as [H1 H3].
  apply andb_true_iff in H1 as [H1 H2].
  apply Z.leb_le in H3, H4. change (f_val f_zero) with 0 in H4.
  split_and!; [by split|done|done].
Qed.

Lemma step_num : num STEP_SECONDS. Proof. by split; vm_compute. Qed.
Lemma eps_num : num eps. Proof. by split; vm_compute. Qed.
Lemma zero_num : num f_zero. Proof. by split; vm_compute. Qed.

(** A usable remainder. *)
Definition nonneg_num (r : float) : Prop := num r ∧ 0 ≤ f_val r.

Lemma rest_of_bound r k :
  (k < STEP_FUEL)%nat → nonneg_num r → f_val r ≤ f_val (bound (S k)) →
  nonneg_num (rest_of r) ∧ f_val (rest_of r) ≤ f_val (bound k).
Proof.
  intros Hk [Hr H0] Hb. destruct (bound_facts k Hk) as (Hn & Hd & Hp).
  pose proof step_num as Hs.
  assert (num (f_sub r STEP_SECONDS)) as Hsub.
  { apply (f_between_num (f_opp STEP_SECONDS) _ r); [by apply num_opp|done| | |].
    - apply f_sub_valid; [apply Hr|apply Hs].
    - apply f_sub_order; [done|done|by apply num_opp|]. rewrite f_val_opp. lia.
    - apply f_sub_order; [done..|]. assert (0 ≤ f_val STEP_SECONDS) by (vm_compute; discriminate). lia. }
  assert (f_val (f_sub r STEP_SECONDS) ≤ f_val (bound k)) as Hle.
  { apply f_le_val; [done..|]. apply f_sub_order; [done..|]. lia. }
  unfold rest_of, f_max. destruct (f_lt f_zero (f_sub r STEP_SECONDS)) eqn:E.
  - apply f_lt_val in E; [|apply zero_num|done]. change (f_val f_zero) with 0 in E.
    split; [split; [done|lia]|done].
  - split; [split; [apply zero_num|done]|]. exact Hp.
Qed.

Lemma not_due_below r : nonneg_num r → step_due r = false → f_val r < f_val STEP_SECONDS.
Proof.
  intros [Hr _] Hd. apply Z.nle_gt. intros Hle.
  assert (step_due r = true); [|congruence].
  apply f_add_ge; [done|apply eps_num|apply step_num|].
  assert (0 ≤ f_val eps) by (vm_compute; discriminate). unfold eps in *. lia.
Qed.

Lemma bound_0_not_due r : nonneg_num r → f_val r ≤ f_val (bound 0) → step_due r = false.
Proof.
  intros [Hr H0] Hb. unfold step_due.
  assert (∃ t, num t ∧ f_val t < f_val STEP_SECONDS ∧ f_val (bound 0) + f_val eps ≤ f_val t)
    as (t & Ht & Hlt & Hle).
  { exists (f_dec 195 (-5)). split_and!; [by split; vm_compute|vm_compute; reflexivity|].
    vm_compute. discriminate. }
  assert (f_le (f_add r eps) t = true) as H1 by (apply f_add_le; [done|apply eps_num|done|lia]).
  assert (num (f_add r eps)) as Hn.
  { apply (f_between_num f_zero _ t); [apply zero_num|done| | |done].
    - apply f_add_valid; [apply Hr|apply eps_num].
    - apply f_add_ge; [done|apply eps_num|apply zero_num|].
      change (f_val f_zero) with 0. assert (0 ≤ f_val eps) by (vm_compute; discriminate). lia. }
  apply f_le_false_val; [apply step_num|done|]. apply f_le_val in H1; [|done..].
  fold eps. lia.
Qed.

(** What the loop leaves when it returns. *)
Definition settled_rest (c : copley F) : Prop :=
  nonneg_num (_remainder c) ∧ step_due (_remainder c) = false.

Lemma step_loop_turn n c :
  step_loop (S n) c =
  if step_due (_remainder c) then
    match on_runner (runner_step STEP_SECONDS) c with
    | (Ret _, c1) => step_loop n (c1 <| _remainder := rest_of (_remainder c) |>)
    | (Raise e, c1) => (Raise e, c1)
    end
  else (Ret tt, c).
Proof.
  simpl. rewrite bind_gets. destruct (step_due (_remainder c)); [|done].
  unfold mbind at 1, M_bind at 1. by destruct (on_runner (runner_step STEP_SECONDS) c) as [[[]|e] c1].
Qed.

Lemma step_loop_runs k fuel c :
  (k ≤ fuel)%nat → (k < STEP_FUEL)%nat →
  nonneg_num (_remainder c) → f_val (_remainder c) ≤ f_val (bound k) →
  step_loop fuel c = step_loop k c
  ∧ ((step_loop k c).1 = Ret tt → settled_rest (step_loop k c).2).
Proof.
  revert fuel c. induction k as [|k IH]; intros fuel c Hf Hk Hn Hb.
  { pose proof (bound_0_not_due _ Hn Hb) as Hd. destruct fuel as [|fuel]; [done|].
    rewrite step_loop_turn, Hd. done. }
  destruct fuel as [|fuel]; [lia|]. rewrite !step_loop_turn.
  destruct (step_due (_remainder c)) eqn:Hd; [|split; [done|intros _; by split]].
  destruct (on_runner (runner_step STEP_SECONDS) c) as [[u|e] c1]; [|done].
  destruct (rest_of_bound (_remainder c) k) as [H1 H2]; [lia|done|done|].
  apply IH; [lia|lia|exact H1|exact H2].
Qed.

(** The time a step starts with: what the last step left, and [dt]. *)
Lemma step_start r dt :
  nonneg_num r → step_due r = false → valid dt = true →
  f_is_finite dt && (f_lt f_zero dt && f_le dt (f_dec 1 (-1))) = true →
  nonneg_num (f_add r dt) ∧ f_val (f_add r dt) ≤ f_val (bound 53).
Proof.
  intros Hr Hd Hv H1. apply andb_true_iff in H1 as [Hfin H1]. apply andb_true_iff in H1 as [H1 H2].
  assert (num dt) as Hdt by done. pose proof (not_due_below r Hr Hd) as Hlt.
  apply f_lt_val in H1; [|apply zero_num|done]. change (f_val f_zero) with 0 in H1.
  assert (num (f_dec 1 (-1))) as Ht by (by split; vm_compute).
  apply f_le_val in H2; [|done..]. destruct Hr as [Hr H0].
  destruct (bound_facts 53) as (Hb & _ & _); [unfold STEP_FUEL; lia|].
  assert (f_val STEP_SECONDS + f_val (f_dec 1 (-1)) ≤ f_val (bound 53)) as Hsum
    by (vm_compute; discriminate).
  assert (f_le (f_add r dt) (bound 53) = true) as Hle by (apply f_add_le; [done..|lia]).
  assert (f_le f_zero (f_add r dt) = true) as Hge.
  { apply f_add_ge; [done|done|apply zero_num|]. change (f_val f_zero) with 0. lia. }
  assert (num (f_add r dt)) as Hn.
  { apply (f_between_num f_zero _ (bound 53)); [apply zero_num|done| |done|done].
    apply f_add_valid; [apply Hr|done]. }
  apply f_le_val in Hle; [|done..]. apply f_le_val in Hge; [|apply zero_num|done].
  change (f_val f_zero) with 0 in Hge. done.
Qed.

(** ** Properties *)

(** C38. The step loop ends.  After a step that left no whole step due, every step
    of at most 100 ms runs the loop to its end: more fuel than [STEP_FUEL]
    changes nothing, and when the step returns, again no whole step is due
    and the remaining time is not negative. *)
Theorem step_loop_terminates c dt fuel :
  settled_rest c → valid dt = true → (STEP_FUEL ≤ fuel)%nat →
  cp_step_fuel fuel dt c = cp_step dt c
  ∧ ((cp_step dt c).1 = Ret tt → settled_rest (cp_step dt c).2).
Proof.
  intros [Hn Hd] Hv Hf. unfold cp_step, cp_step_fuel.
  rewrite !(bind_eq_out (check_step dt)).
  destruct (check_step dt c).1 as [inputs|e] eqn:Ec; [|done].
  set (sets := mapM_ _ inputs).
  assert (Preserves _remainder sets) as Hp.
  { subst sets. apply preserves_mapM_. intros [name v]. apply _. }
  unfold mbind at 1 4 7 10, M_bind at 1 4 7 10. specialize (Hp c).
  destruct (sets c) as [[[]|e] c1]; [|done]. simpl in Hp.
  assert (∀ n, (modify (λ c, c <| _remainder := f_add (_remainder c) dt |>) ;; step_loop n ;; _refresh) c1
    = (step_loop n ;; _refresh) (c1 <| _remainder := f_add (_remainder c) dt |>)) as Hm
    by (intros n; rewrite <-Hp; reflexivity).
  rewrite !Hm. set (c2 := c1 <| _remainder := _ |>).
  assert (f_is_finite dt && (f_lt f_zero dt && f_le dt (f_dec 1 (-1))) = true) as Hdt.
  { unfold check_step in Ec. destruct (f_is_finite dt), (f_lt f_zero dt && f_le dt (f_dec 1 (-1))); done. }
  destruct (step_start (_remainder c) dt Hn Hd Hv Hdt) as [H1 H2].
  destruct (step_loop_runs 53 fuel c2) as [E1 Hs]; [unfold STEP_FUEL in *; lia|unfold STEP_FUEL; lia|done|done|].
  destruct (step_loop_runs 53 STEP_FUEL c2) as [E2 _]; [unfold STEP_FUEL; lia..|done|done|].
  unfold mbind, M_bind. rewrite E1, E2. split; [done|].
  destruct (step_loop 53 c2) as [[[]|e] c3]; [|done]. intros _.
  pose proof (preserves (f:=_remainder) (m:=_refresh) c3) as Hr.
  specialize (Hs eq_refl). unfold settled_rest in *. by rewrite Hr.
Qed.

Lemma cp_read_inv index c v c' : cp_read index c = (Ret v, c') → c' = c ∧ (cp_read index c).1 = Ret v.
Proof.
  intros E. assert (Reader (cp_read index)) as Hr by (unfold cp_read; apply _).
  specialize (Hr c). rewrite E in *. done.
Qed.

Lemma validate_positive index v :
  copley_validate index v = Ret tt → index ∈ [0x6081; 0x6083; 0x6084] → py_le v (PInt 0) = Ret false.
Proof.
  intros Hv Hi. unfold copley_validate in Hv. rewrite bool_decide_true in Hv by done.
  destruct (_ && _); [done|]. by destruct (py_le v (PInt 0)) as [[]|].
Qed.

Lemma validate_mode_value v :
  copley_validate 0x6060 v = Ret tt → py_eq v (PInt 0) || py_eq v (PInt 1) = true.
Proof. unfold copley_validate. simpl. by destruct (_ || _). Qed.

(** C37. A step is executed only when it is allowed.  [step] raises and leaves the
    adapter as it is, or the step is within the time limit, the fault
    injection does not block a reset, the profile velocity is positive, the
    acceleration is positive and equals the deceleration, and the mode is
    unselected or profile position. *)
Theorem step_is_checked c dt :
  (∃ e, cp_step dt c = (Raise e, c))
  ∨ f_lt f_zero dt = true ∧ f_le dt (f_dec 1 (-1)) = true
    ∧ ∃ cw mode v a d,
        (cp_read 0x6040 c).1 = Ret cw ∧ (_fault c = true → py_and cw 0x80 = Ret 0)
        ∧ (cp_read 0x6060 c).1 = Ret mode ∧ py_eq mode (PInt 0) || py_eq mode (PInt 1) = true
        ∧ (cp_read 0x6081 c).1 = Ret v ∧ py_le v (PInt 0) = Ret false
        ∧ (cp_read 0x6083 c).1 = Ret a ∧ py_le a (PInt 0) = Ret false
        ∧ (cp_read 0x6084 c).1 = Ret d ∧ py_eq a d = true.
Proof.
  unfold cp_step, cp_step_fuel. rewrite (bind_eq_out (check_step dt)).
  destruct (check_step dt c).1 as [inputs|e] eqn:Ec; [|left; eauto]. right.
  pose proof (reader_run (check_step dt) c) as E. rewrite Ec in E. clear Ec. unfold check_step in E.
  destruct (f_is_finite dt); [|done].
  destruct (f_lt f_zero dt), (f_le dt (f_dec 1 (-1))); try done. split_and!; [done..|].
  cbn [negb andb orb] in E. rewrite bind_gets in E.
  apply bind_Ret_inv in E as (w & c1 & Hw & E).
  assert (c1 = c ∧ (_fault c = true → ∃ cw, (cp_read 0x6040 c).1 = Ret cw ∧ py_and cw 0x80 = Ret w)) as [-> Hcw].
  { destruct (_fault c); [|by injection Hw as _ <-]. minv Hw.
    match goal with Hr : cp_read _ _ = _ |- _ => apply cp_read_inv in Hr as [-> Hr]; eauto end. }
  destruct (w =? 0) eqn:Hw0; [|done]. apply Z.eqb_eq in Hw0. cbn [negb] in E.
  apply bind_Ret_inv in E as (a & c1 & Ha & E). apply cp_read_inv in Ha as [-> Ha].
  apply bind_Ret_inv in E as (d & c1 & Hd & E). apply cp_read_inv in Hd as [-> Hd].
  destruct (py_eq a d) eqn:Had; [|done]. cbn [negb] in E.
  apply bind_Ret_inv in E as (u & c1 & Hm & _). cbn [mapM_] in Hm. minv Hm.
  repeat match goal with Hr : cp_read _ _ = _ |- _ => apply cp_read_inv in Hr as [-> Hr] end.
  repeat match goal with x : () |- _ => destruct x end.
  repeat match goal with
  | Hv : copley_validate 0x6060 _ = Ret _ |- _ => apply validate_mode_value in Hv
  | Hv : copley_validate 0x6040 _ = Ret _ |- _ => clear Hv
  | Hv : copley_validate _ _ = Ret _ |- _ => apply validate_positive in Hv; [|set_solver]
  end.
  repeat match goal with Hx : ?x = Ret ?v, Hy : ?x = Ret ?w |- _ =>
    assert (v = w) by congruence; subst; clear Hy end.
  do 5 eexists. split_and!; try eassumption.
  intros Hf. destruct (Hcw Hf) as (cw & Hcw1 & Hcw2). congruence.
Qed.


(** Cyclic outputs of the FMU adapter are taken over as a whole or not at all:
    with the fixed layout, outputs of another length or with a value the model
    does not support raise and leave the adapter as it is; all others are
    accepted, and every mapped object has the value of its bytes. *)
Theorem fmu_outputs_all_or_nothing c payload :
  pdo_configuration (cp_profile c) = motion_server_default →
  (∀ k, k ∈ mapped_keys (rx motion_server_default) → is_Some (entries (cp_od c) !! k)) →
  if Nat.eqb (length payload) 24 then
    match validate_outputs (rx motion_server_default) payload 0 with
    | Raise e => cp_apply_outputs payload c = (Raise e, c)
    | Ret _ => ∃ o' chunks, cp_apply_outputs payload c = (Ret tt, c <| cp_od := o' |>)
        ∧ payload = mjoin chunks ∧ Forall2 (holds o') (rx motion_server_default) chunks
        ∧ (∀ k, k ∉ mapped_keys (rx motion_server_default) → entries o' !! k = entries (cp_od c) !! k)
    end
  else cp_apply_outputs payload c = (Raise ValueError, c).
Proof.
  intros Hconf Hdom. unfold cp_apply_outputs. rewrite bind_gets, Hconf.
  rewrite (rx_length _ _ default_wire), lift_bind. change (Z.of_nat (sum_list _)) with 24.
  destruct (Nat.eqb_spec (length payload) 24) as [Hl|Hl].
  2: { destruct (Z.eqb_spec (Z.of_nat (length payload)) 24); [lia|done]. }
  rewrite Hl. change (negb (Z.of_nat 24 =? 24)) with false. cbv iota. rewrite lift_bind.
  destruct (validate_outputs (rx motion_server_default) payload 0) as [u|e]; [|done].
  destruct (cut_payload _ _ payload default_wire Hl) as (chunks & E & Hc & Hw).
  destruct (rx_loop_spec _ chunks [] [] (cp_od c) Hc default_keys_distinct Hdom)
    as (o' & Hrun & Hsame & Hh).
  rewrite app_nil_r, app_nil_l, <-E in Hrun. change (Z.of_nat (length [])) with 0 in Hrun.
  exists o', chunks. split_and!; [|done..].
  unfold on_cod, zoom, rxpdo_payload_to_od. by rewrite Hrun.
Qed.
End copley.

(** ** A concrete adapter

    The memory of Fmi.v with the signature of the FMU, on the linear example
    profile. *)

Definition copley_description : model_description :=
  ModelDescription "3.0" true
    (imap (λ i row, (row.1, ModelVariable row.2.1 row.2.2 false (Z.of_nat i))) SIGNATURE).

Definition copley_fmu : Fmu demo :=
  demo_fmu copley_description [(12, PFloat (f_of_Z 100000)); (13, PFloat (f_of_Z 100000))].

Definition demo_copley : copley demo :=
  match (open_copley (H:=copley_fmu) linear_profile "demo.fmu" "demo").1 with
  | Ret c => c
  | Raise _ => Copley linear_profile empty_runner empty_od f_zero false f_zero f_zero []
  end.

Lemma demo_copley_opens :
  is_ret (open_copley (H:=copley_fmu) linear_profile "demo.fmu" "demo").1 = true
  ∧ settled_rest demo_copley.
Proof.
  split; [vm_compute; reflexivity|]. assert (_remainder demo_copley = f_zero) as E by (vm_compute; reflexivity).
  unfold settled_rest. rewrite E. split; [split; [apply zero_num|done]|vm_compute; reflexivity].
Qed.

Lemma step_loop_terminates_witness :
  let H := copley_fmu in
  (cp_step (f_dec 1 (-1)) demo_copley).1 = Ret tt
  ∧ cp_step_fuel 1000 (f_dec 1 (-1)) demo_copley = cp_step (f_dec 1 (-1)) demo_copley
  ∧ settled_rest (cp_step (f_dec 1 (-1)) demo_copley).2.
Proof.
  intros H. assert (E : (cp_step (f_dec 1 (-1)) demo_copley).1 = Ret tt) by (vm_compute; reflexivity).
  destruct (step_loop_terminates demo_copley (f_dec 1 (-1)) 1000 (proj2 demo_copley_opens)) as [H1 H2].
  - vm_compute. reflexivity.
  - apply Nat.leb_le. vm_compute. reflexivity.
  - split; [exact E|]. split; [exact H1|exact (H2 E)].
Defined.

Lemma fmu_outputs_all_or_nothing_witness :
  let H := copley_fmu in
  let payload := [x06; x00; x01] ++ replicate 4 x00 ++ [x64] ++ replicate 16 x00 in
  ∃ o', cp_apply_outputs payload demo_copley = (Ret tt, demo_copley <| cp_od := o' |>).
Proof.
  intros H payload.
  assert (∀ k, k ∈ mapped_keys (rx motion_server_default) → is_Some (entries (cp_od demo_copley) !! k)) as Hk
    by (apply keys_present; vm_compute; reflexivity).
  assert (Hc : pdo_configuration (cp_profile demo_copley) = motion_server_default) by (vm_compute; reflexivity).
  pose proof (fmu_outputs_all_or_nothing demo_copley payload Hc Hk) as Ho.
  change (Nat.eqb (length payload) 24) with true in Ho. cbv iota in Ho.
  assert (E : validate_outputs (rx motion_server_default) payload 0 = Ret tt) by (vm_compute; reflexivity).
  rewrite E in Ho. destruct Ho as (o' & _ & Ho & _). exists o'. exact Ho.
Defined.
