(* ===== verification/Store.v ===== *)
(** * The parameter storage

    src/functional_model/storage/parameter_store.py ([ParameterStore]): one
    JSON file per axis in a directory that one process owns.  [load] checks
    a snapshot completely before it touches the model; [save] writes a
    temporary file and renames it over the snapshot.

    The directory is a map from names to contents.  Every system call may
    fail: the n-th call does when [fails n] says so, with an [OSError].  A
    write that has not been flushed may have reached the file in part:
    [torn n text] is what is there.  [journal] collects the directory after
    every call, the states a crash can leave behind.  [mkstemp] is the name
    [tempfile.mkstemp] chooses, [sha256] the hexadecimal digest, [unreadable]
    tells the files that cannot be read, and [busy] whether another process
    holds the lock.  The paths are those of Linux.

    The theorems: a crash or a failing call during [save] leaves the old
    snapshot or the new one, complete, and no other file is touched; [load]
    changes nothing unless it accepts, and accepts exactly the snapshots that
    fit; loading a saved snapshot restores every parameter. *)

From stdpp Require Import fin_maps stringmap.
From S2P Require Import Prelude PyFloat.
From S2P Require Export Json Axis.

Open Scope string_scope.
Open Scope list_scope.
Open Scope Z_scope.

Abbreviation directory := (gmap string string).

Record store := Store {
  files : directory;
  locked : bool;
  calls : nat;
  journal : list directory;
}.

#[export] Instance store_eta : Eta store := λ s, Store (files s) (locked s) (calls s) (journal s).

(** ** System calls *)

Section calls.
Context (fails : nat → bool) (torn : nat → string → string).
Context (mkstemp : directory → string → string).

Definition next_call : M store nat := n ← gets calls; calls <~ S n ;; mret n.

(** The directory becomes [d]. *)
Definition change (d : directory) : M store () :=
  modify (λ s, s <| files := d |> <| journal := d :: journal s |>).

(** A call that does [f] or fails. *)
Definition syscall (f : directory → directory) : M store () :=
  n ← next_call;
  if fails n then raise OSError else d ← gets files; change (f d).

(** [json.dump(data, stream)]: an unflushed write. *)
Definition write_stream (name text : string) : M store () :=
  n ← next_call;
  d ← gets files;
  change (<[name := torn n text]> d) ;;
  if fails n then raise OSError else mret tt.

(** [try: m] with [finally: h]. *)
Definition try_finally {S A} (m : M S A) (h : M S ()) : M S A := λ s,
  let '(r, s) := m s in
  match h s with
  | (Ret _, s) => (r, s)
  | (Raise e, s) => (Raise e, s)
  end.

(** [os.replace(a, b)] *)
Definition rename (a b : string) (d : directory) : directory :=
  match d !! a with
  | Some c => <[b := c]> (delete a d)
  | None => d
  end.

(** The end of [save]: from [mkstemp] on. *)
Definition replace_file (target text : string) : M store () :=
  d ← gets files;
  let temporary := mkstemp d (String.String "." target) in
  syscall (insert temporary "") ;;
  try_finally
    (syscall id ;;
     try_finally
       (write_stream temporary text ;;
        syscall (insert temporary text) ;;
        syscall id)
       (syscall id) ;;
     syscall (rename temporary target) ;;
     syscall id ;;
     try_finally (syscall id) (syscall id))
    (syscall (delete temporary)).
End calls.

(** ** Snapshots *)

Section snapshots.
Context (sha256 : string → string).

(** [schema_version(model)], [identity(model)] and [path(model)] *)
Definition schema_version (d : device) : Z :=
  if String.eqb (model_type d) "f_kr_cmmt" then 2 else 1.

Definition identity (d : device) : json :=
  JObj [("type", JStr (device_type d));
        ("model", JObj [("type", JStr (model_type d)); ("mode", JStr (model_mode d))])].

Definition path (d : device) : string := (parameter_set d ++ ".json")%string.

(** [checksum(data)] *)
Definition checksum (data : json) : outcome string :=
  text ← dumps Spaced (sort_json data); mret (sha256 text).

Definition snapshot_data (d : device) (values : list (string * string)) : list (string * json) :=
  [("schema_version", JInt (schema_version d)); ("identity", identity d);
   ("values", JObj (map (λ '(k, v), (k, JStr v)) values))].

(** The text of a snapshot. *)
Definition snapshot_text (d : device) (values : list (string * string)) : outcome string :=
  let data := snapshot_data d values in
  digest ← checksum (JObj data);
  dumps (Indented 2) (JObj (data ++ [("checksum", JStr digest)])).

Section adapter.
Context {A : Type} `{DriveAdapter A}.

(** The values of the persistent roles, as [validate_parameters] gets them. *)
Fixpoint read_parameters (rs : list (Z * Z)) (d : list ((Z * Z) * pyval))
    : M A (list ((Z * Z) * pyval)) :=
  match rs with
  | [] => mret d
  | r :: rs =>
      v ← on_adapter_od (read r.1 (Some r.2));
      read_parameters rs (dict_set r v d)
  end.

(** What [save] does before it touches the directory. *)
Definition take_snapshot (d : device) : M A string :=
  validate ← gets adapter_validate_parameters;
  match validate with
  | Some validate =>
      rs ← gets adapter_roles; vs ← read_parameters rs []; lift (validate vs)
  | None => mret tt
  end ;;
  values ← parameter_values;
  lift (snapshot_text d values).

(** [save(model)] for a model with device [d] and adapter [a] *)
Definition save_model (fails : nat → bool) (torn : nat → string → string)
    (mkstemp : directory → string → string) (d : device) (a : A) : M store () :=
  l ← gets locked;
  if negb l then raise RuntimeError
  else
    text ← lift (take_snapshot d a).1;
    replace_file fails torn mkstemp (path d) text.

Definition save (fails : nat → bool) (torn : nat → string → string)
    (mkstemp : directory → string → string) (x : axis A store) : M store () :=
  save_model fails torn mkstemp (ax_device x) (adapter x).

(** ** Loading *)

(** [int(x, 16)] of a run of hexadecimal digits; what follows it. *)
Fixpoint scan_hex (acc : Z) (s : string) : Z * string :=
  match s with
  | String.String a s' =>
      match hex_digit a with
      | Some n => scan_hex (16 * acc + n) s'
      | None => (acc, s)
      end
  | EmptyString => (acc, s)
  end.

(** [(int(x, 16) for x in key.split(':'))] *)
Definition parse_key (key : string) : outcome (Z * Z) :=
  match scan_hex 0 key with
  | (i, String.String a r) =>
      if Ascii.eqb a ":" then
        match scan_hex 0 r with
        | (s, EmptyString) => Ret (i, s)
        | _ => Raise ValueError
        end
      else Raise ValueError
  | _ => Raise ValueError
  end.

Definition nonfinite (v : pyval) : bool :=
  match v with PFloat f => negb (f_is_finite f) | _ => false end.

(** One turn of the loop that decodes and checks the values. *)
Definition decode_parameter (values : list (string * json)) (key original : string)
    : M A ((Z * Z) * pyval) :=
  raw ← lift (of_option KeyError (dict_get key values));
  match raw with
  | JStr raw =>
      if negb (str_len raw =? str_len original) then raise ValueError
      else
        a ← lift (parse_key key);
        d ← on_adapter_od (get_definition a.1 (Some a.2));
        bs ← lift (fromhex raw);
        v ← lift (decode_od_value (Def.data_type d) bs);
        if nonfinite v then raise ValueError
        else
          _ ← lift (encode_od_value (Def.data_type d) v (Some (str_len raw / 2)));
          if String.eqb (Text.lower (Def.access d)) "ro" && negb (String.eqb raw original)
          then raise ValueError
          else mret (a, v)
  | _ => raise ValueError
  end.

Fixpoint decode_parameters (values : list (string * json)) (expected : list (string * string))
    : M A (list ((Z * Z) * pyval)) :=
  match expected with
  | [] => mret []
  | (key, original) :: expected =>
      v ← decode_parameter values key original;
      vs ← decode_parameters values expected;
      mret (v :: vs)
  end.

Definition snapshot_fields : list string := ["schema_version"; "identity"; "values"; "checksum"].

(** [data.pop(key)] *)
Definition without (key : string) (d : list (string * json)) : list (string * json) :=
  filter (λ kv, kv.1 ≠ key) d.

Definition integer_equals (j : json) (n : Z) : bool :=
  match j with JInt z => z =? n | _ => false end.

(** The tests of a snapshot that do not concern its values. *)
Definition check_header (d : device) (content : string) : outcome json :=
  j ← parse_json content;
  data ← fields j snapshot_fields;
  digest ← of_option KeyError (dict_get "checksum" data);
  let data := without "checksum" data in
  h ← checksum (JObj data);
  if negb (json_eqb (JStr h) digest) then Raise ValueError
  else
    v ← of_option KeyError (dict_get "schema_version" data);
    i ← of_option KeyError (dict_get "identity" data);
    if negb (integer_equals v (schema_version d)) || negb (json_eqb i (identity d))
    then Raise ValueError
    else of_option KeyError (dict_get "values" data).

(** [values]: an object with exactly the expected keys. *)
Definition check_catalog (values : json) (expected : list (string * string))
    : outcome (list (string * json)) :=
  match values with
  | JObj vs => if same_keys vs expected.*1 then Ret vs else Raise ValueError
  | _ => Raise ValueError
  end.

(** The addresses as the keys of a dict: the last value of an address. *)
Definition as_dict (vs : list ((Z * Z) * pyval)) : list ((Z * Z) * pyval) :=
  foldl (λ d kv, dict_set kv.1 kv.2 d) [] vs.

(** The decoded and validated values of a snapshot. *)
Definition check_snapshot (d : device) (content : string) : M A (list ((Z * Z) * pyval)) :=
  values ← lift (check_header d content);
  expected ← parameter_values;
  values ← lift (check_catalog values expected);
  decoded ← decode_parameters values expected;
  validate ← gets adapter_validate_parameters;
  match validate with
  | Some validate => lift (validate (as_dict decoded))
  | None => mret tt
  end ;;
  mret decoded.

Definition write_parameters (vs : list ((Z * Z) * pyval)) : M A () :=
  mapM_ (λ '(a, v), on_adapter_od (write a.1 v (Some a.2))) vs.

Definition load_text (d : device) (content : string) : M A () :=
  decoded ← check_snapshot d content; write_parameters decoded.

(** [load(model)] *)
Definition load (unreadable : string → bool) (s : store) (d : device) : M A bool :=
  match files s !! path d with
  | None => mret false
  | Some content =>
      if unreadable (path d) then raise OSError
      else load_text d content ;; mret true
  end.
End adapter.
End snapshots.

(** ** The lock *)

(** [__enter__]: the directory and the lock file are opened, then the lock is
    taken without waiting; a lock held elsewhere is a [RuntimeError]. *)
Definition enter (fails : nat → bool) (busy : bool) : M store () :=
  syscall fails id ;;
  syscall fails (λ d, <[".lock" := default "" (d !! ".lock")]> d) ;;
  locked <~ true ;;
  try_except (n ← next_call; if fails n || busy then raise OSError else mret tt)
    (λ _, locked <~ false ;; raise RuntimeError).

(** [__exit__] *)
Definition exit_store : M store () := locked <~ false.

(** ** A crash logic for system calls *)

Section crash_logic.
Context {S : Type} (disk_of : S → store).
Implicit Types (J Pre : directory → Prop) (d : directory).

(** From a directory with [Pre], [m] ends with [Post], and every directory a
    crash of it can leave behind has [J].  The storage is a part of the state
    of [m]. *)
Definition crash_triple {A} J Pre (m : M S A) (Post : outcome A → directory → Prop) : Prop :=
  ∀ s, Pre (files (disk_of s)) →
    Post (m s).1 (files (disk_of (m s).2)) ∧ locked (disk_of (m s).2) = locked (disk_of s)
    ∧ ∃ l, journal (disk_of (m s).2) = l ++ journal (disk_of s) ∧ Forall J l.

Lemma crash_bind {A B} J Pre (m : M S A) (k : A → M S B) Mid Post :
  crash_triple J Pre m (λ r d, match r with Ret a => Mid a d | Raise e => Post (Raise e) d end) →
  (∀ a, crash_triple J (Mid a) (k a) Post) →
  crash_triple J Pre (m ≫= k) Post.
Proof.
  intros Hm Hk s Hs. destruct (Hm s Hs) as (Hp & Hl & l & Hj & HF). unfold mbind, M_bind.
  destruct (m s) as [[a|e] s1]; cbn in *; [|by eauto].
  destruct (Hk a s1 Hp) as (Hp' & Hl' & l' & Hj' & HF').
  split_and!; [done|congruence|]. exists (l' ++ l). rewrite Hj', Hj, app_assoc. split; [done|].
  by apply Forall_app.
Qed.

Lemma crash_finally {A} J Pre (m : M S A) (h : M S ()) Mid Post :
  crash_triple J Pre m Mid →
  (∀ r, crash_triple J (Mid r) h
    (λ r' d, match r' with Ret _ => Post r d | Raise e => Post (Raise e) d end)) →
  crash_triple J Pre (try_finally m h) Post.
Proof.
  intros Hm Hh s Hs. destruct (Hm s Hs) as (Hp & Hl & l & Hj & HF). unfold try_finally.
  destruct (m s) as [r s1]; cbn in *. destruct (Hh r s1 Hp) as (Hp' & Hl' & l' & Hj' & HF').
  assert (∃ l, journal (disk_of (h s1).2) = l ++ journal (disk_of s) ∧ Forall J l) as HJ.
  { exists (l' ++ l). rewrite Hj', Hj, app_assoc. split; [done|]. by apply Forall_app. }
  destruct (h s1) as [[[]|e] s2]; cbn in *; (split_and!; [done|congruence|done]).
Qed.

Lemma crash_gets {A B} J Pre (f : S → A) (k : A → M S B) Post :
  (∀ s, Pre (files (disk_of s)) → crash_triple J (eq (files (disk_of s))) (k (f s)) Post) →
  crash_triple J Pre (gets f ≫= k) Post.
Proof. intros Hk s Hs. rewrite bind_gets. by apply Hk. Qed.

Lemma crash_lift {A B} J Pre (r : outcome A) (k : A → M S B) Post :
  match r with
  | Ret a => crash_triple J Pre (k a) Post
  | Raise e => ∀ d, Pre d → Post (Raise e) d
  end → crash_triple J Pre (lift r ≫= k) Post.
Proof.
  intros Hr s Hs. rewrite lift_bind. destruct r as [a|e]; [by apply Hr|].
  split_and!; [by apply Hr|done|]. by exists [].
Qed.

Lemma crash_weaken {A} J J' Pre Pre' (m : M S A) (Post Post' : outcome A → directory → Prop) :
  crash_triple J Pre m Post → (∀ d, J d → J' d) → (∀ d, Pre' d → Pre d) →
  (∀ r d, Post r d → Post' r d) → crash_triple J' Pre' m Post'.
Proof.
  intros Hm HJ HP HQ s Hs. destruct (Hm s (HP _ Hs)) as (? & ? & l & ? & ?).
  split_and!; [auto..|]. exists l. split; [done|]. by eapply Forall_impl.
Qed.

(** A program that leaves the storage alone. *)
Lemma crash_quiet {A} J Pre (m : M S A) (Post : outcome A → directory → Prop) :
  Preserves disk_of m → (∀ s, Pre (files (disk_of s)) → Post (m s).1 (files (disk_of s))) →
  crash_triple J Pre m Post.
Proof.
  intros Hm HP s Hs. rewrite (preserves (f:=disk_of) (m:=m) s).
  split_and!; [auto|done|]. by exists [].
Qed.
End crash_logic.

Section crash.
Context (fails : nat → bool) (torn : nat → string → string).
Context (mkstemp : directory → string → string).
Implicit Types (J Pre : directory → Prop) (d : directory).

Lemma syscall_run f s :
  syscall fails f s =
  if fails (calls s) then (Raise OSError, s <| calls := S (calls s) |>)
  else (Ret tt, Store (f (files s)) (locked s) (S (calls s)) (f (files s) :: journal s)).
Proof.
  transitivity ((if fails (calls s) then raise OSError
    else d ← gets files; change (f d)) (s <| calls := S (calls s) |>)); [reflexivity|].
  by destruct (fails (calls s)).
Qed.

Lemma write_stream_run name text s :
  write_stream fails torn name text s =
  (if fails (calls s) then Raise OSError else Ret tt,
   Store (<[name := torn (calls s) text]> (files s)) (locked s) (S (calls s))
     (<[name := torn (calls s) text]> (files s) :: journal s)).
Proof.
  transitivity ((if fails (calls s) then raise OSError else mret tt)
    (Store (<[name := torn (calls s) text]> (files s)) (locked s) (S (calls s))
     (<[name := torn (calls s) text]> (files s) :: journal s))); [reflexivity|].
  by destruct (fails (calls s)).
Qed.

Lemma crash_syscall J Pre f (Post : outcome () → directory → Prop) :
  (∀ d, Pre d → J (f d) ∧ Post (Ret tt) (f d) ∧ Post (Raise OSError) d) →
  crash_triple (λ s, s) J Pre (syscall fails f) Post.
Proof.
  intros Hf s Hs. destruct (Hf _ Hs) as (HJ & HR & HE).
  rewrite syscall_run. destruct (fails (calls s)); cbn.
  - split_and!; [done|done|]. by exists [].
  - split_and!; [done|done|]. exists [f (files s)]. split; [done|]. by constructor.
Qed.

Lemma crash_write J Pre name text (Post : outcome () → directory → Prop) :
  (∀ d c, Pre d → J (<[name := c]> d) ∧ Post (Ret tt) (<[name := c]> d)
    ∧ Post (Raise OSError) (<[name := c]> d)) →
  crash_triple (λ s, s) J Pre (write_stream fails torn name text) Post.
Proof.
  intros Hf s Hs. destruct (Hf _ (torn (calls s) text) Hs) as (HJ & HR & HE).
  rewrite write_stream_run. cbn. split_and!; [by destruct (fails (calls s))|done|].
  eexists [_]. split; [reflexivity|by constructor].
Qed.

(** [replace_file] from the directory [d0]. *)
Section replace.
Context (d0 : directory) (target text temporary : string).
Context (Htemp : mkstemp d0 (String.String "." target) = temporary).
Context (Hfresh : d0 !! temporary = None) (Hne : temporary ≠ target).

Definition unfinished d : Prop := ∃ c, d = <[temporary := c]> d0.
Definition renamed d : Prop := d = <[target := text]> d0.
Definition between d : Prop := d = d0 ∨ unfinished d ∨ renamed d.

Lemma unfinished_intro c : unfinished (<[temporary := c]> d0).
Proof. by exists c. Qed.

Lemma between_unfinished d : unfinished d → between d.
Proof. by right; left. Qed.

Lemma between_renamed d : renamed d → between d.
Proof. by right; right. Qed.

Lemma renamed_intro : renamed (<[target := text]> d0).
Proof. done. Qed.

#[local] Hint Resolve renamed_intro unfinished_intro between_unfinished between_renamed : core.

Lemma delete_unfinished d : unfinished d → delete temporary d = d0.
Proof. intros [c ->]. by rewrite delete_insert_id. Qed.

Lemma delete_renamed d : renamed d → delete temporary d = d.
Proof.
  intros ->. apply delete_id. rewrite lookup_insert_ne by done. done.
Qed.

Lemma rename_complete : rename temporary target (<[temporary := text]> d0) = <[target := text]> d0.
Proof. unfold rename. rewrite lookup_insert_eq. cbv beta iota. by rewrite delete_insert_id. Qed.

Lemma replace_file_spec :
  crash_triple (λ s, s) between (eq d0) (replace_file fails torn mkstemp target text)
    (λ r d, match r with Ret _ => renamed d | Raise e => e = OSError ∧ between d end).
Proof.
  unfold replace_file. apply crash_gets. intros s <-. rewrite Htemp. cbv zeta.
  apply (crash_bind _ _ _ _ _ (λ _, unfinished)).
  { apply crash_syscall. intros d <-. split_and!; auto; by left. }
  intros _.
  apply (crash_finally _ _ _ _ _ (λ r d, match r with Ret _ => renamed d
    | Raise e => e = OSError ∧ (unfinished d ∨ renamed d) end)).
  - apply (crash_bind _ _ _ _ _ (λ _, unfinished)).
    { apply crash_syscall. intros d Hd. cbn. auto 6. }
    intros _. apply (crash_bind _ _ _ _ _ (λ _ d, d = <[temporary := text]> d0)).
    { apply (crash_finally _ _ _ _ _ (λ r d, match r with
        | Ret _ => d = <[temporary := text]> d0 | Raise e => e = OSError ∧ unfinished d end)).
      - apply (crash_bind _ _ _ _ _ (λ _, unfinished)).
        { apply crash_write. intros d c [c' ->].
          rewrite !insert_insert_eq. auto 8. }
        intros _. apply (crash_bind _ _ _ _ _ (λ _ d, d = <[temporary := text]> d0)).
        { apply crash_syscall. intros d [c ->].
          rewrite !insert_insert_eq. auto 8. }
        intros _. apply crash_syscall. intros d ->. cbn. auto 8.
      - intros r. apply crash_syscall. intros d Hd.
        destruct r; cbn; destruct_and?; subst; auto 8. }
    intros _. apply (crash_bind _ _ _ _ _ (λ _, renamed)).
    { apply crash_syscall. intros d ->. rewrite rename_complete. auto 8. }
    intros _. apply (crash_bind _ _ _ _ _ (λ _, renamed)).
    { apply crash_syscall. intros d Hd. cbn. auto 8. }
    intros _. apply (crash_finally _ _ _ _ _ (λ r d, renamed d ∧ ∀ e, r = Raise e → e = OSError)).
    + apply crash_syscall. intros d Hd. cbn. naive_solver.
    + intros r. apply crash_syscall. intros d [Hd Hr]. cbn. destruct r; cbn; naive_solver.
  - intros r. apply crash_syscall. intros d Hd.
    assert (unfinished d ∨ renamed d) as Hd' by (destruct r; naive_solver).
    assert (delete temporary d = d0 ∨ renamed (delete temporary d)) as Hdel.
    { destruct Hd' as [H|H]; [left; by apply delete_unfinished|right; by rewrite delete_renamed]. }
    assert (between (delete temporary d)) as Hb by (destruct Hdel as [->|]; [by left|auto]).
    assert (between d) by (destruct Hd'; auto).
    destruct r as [[]|e]; cbn; [|destruct Hd]; split_and!; auto. by rewrite delete_renamed.
Qed.
End replace.
End crash.

(** ** Saving *)

(** [tempfile.mkstemp(prefix=p)]: a new name that starts with the prefix. *)
Definition fresh_names (mkstemp : directory → string → string) : Prop :=
  ∀ d p, d !! mkstemp d p = None ∧ ∃ suffix, mkstemp d p = (p ++ suffix)%string.

Lemma temporary_ne mkstemp d target :
  fresh_names mkstemp → mkstemp d (String.String "." target) ≠ target.
Proof.
  intros Hm E. destruct (Hm d (String.String "." target)) as [_ [suffix H]].
  rewrite H in E. apply (f_equal String.length) in E.
  rewrite String.app_length in E. change (String.length (String.String "." target)) with (S (String.length target)) in E. lia.
Qed.

Section succeeds.
Context (fails : nat → bool) (torn : nat → string → string).
Context (mkstemp : directory → string → string).
Context (Hok : ∀ n, fails n = false).

Definition returns {A} (m : M store A) : Prop := ∀ s, is_ret (m s).1 = true.

Lemma syscall_returns f : returns (syscall fails f).
Proof. intros s. by rewrite syscall_run, Hok. Qed.

Lemma write_returns name text : returns (write_stream fails torn name text).
Proof. intros s. by rewrite write_stream_run, Hok. Qed.

Lemma bind_returns {A B} (m : M store A) (k : A → M store B) :
  returns m → (∀ a, returns (k a)) → returns (m ≫= k).
Proof.
  intros Hm Hk s. specialize (Hm s). unfold mbind, M_bind.
  destruct (m s) as [[a|e] s1]; [apply Hk|done].
Qed.

Lemma finally_returns {A} (m : M store A) h : returns m → returns h → returns (try_finally m h).
Proof.
  intros Hm Hh s. specialize (Hm s). unfold try_finally. destruct (m s) as [r s1].
  specialize (Hh s1). destruct (h s1) as [[[]|e] s2]; done.
Qed.

Lemma replace_file_returns target text : returns (replace_file fails torn mkstemp target text).
Proof.
  apply bind_returns; [done|]. intros d. cbv zeta.
  repeat first
    [ apply syscall_returns | apply write_returns
    | apply finally_returns | apply bind_returns; [|intros ?] ].
Qed.
End succeeds.

Section save.
Context {A : Type} `{DriveAdapter A} (sha256 : string → string).
Context (fails : nat → bool) (torn : nat → string → string).
Context (mkstemp : directory → string → string).

(** C9. Saving is atomic.  Without the lock, or when the model cannot be read or
    its parameters are invalid, nothing happens.  Otherwise every directory
    that exists in between, and so every directory a crash leaves behind,
    holds the old snapshot or the complete new one, and every other file but
    the temporary one as before; a failing system call is an [OSError]; after
    success the directory is the old one with the new snapshot; and without a
    failing call saving succeeds. *)
Theorem save_atomic (x : axis A store) s :
  fresh_names mkstemp →
  let '(r, s') := save sha256 fails torn mkstemp x s in
  if negb (locked s) then r = Raise RuntimeError ∧ s' = s
  else
    match (take_snapshot sha256 (ax_device x) (adapter x)).1 with
    | Raise e => r = Raise e ∧ s' = s
    | Ret text =>
        let target := path (ax_device x) in
        let temporary := mkstemp (files s) (String.String "." target) in
        (∃ l, journal s' = l ++ journal s
          ∧ Forall (λ d, (d !! target = files s !! target ∨ d !! target = Some text)
              ∧ ∀ name, name ≠ target → name ≠ temporary → d !! name = files s !! name)
            (files s' :: l))
        ∧ match r with
          | Ret _ => files s' = <[target := text]> (files s)
          | Raise e => e = OSError
          end
        ∧ ((∀ n, fails n = false) → r = Ret tt)
    end.
Proof.
  intros Hfresh. destruct (save sha256 fails torn mkstemp x s) as [r s'] eqn:Hsave.
  unfold save, save_model in Hsave. rewrite bind_gets in Hsave.
  destruct (locked s); cbn [negb] in Hsave |- *; [|by injection Hsave as <- <-].
  rewrite lift_bind in Hsave.
  destruct ((take_snapshot sha256 (ax_device x) (adapter x)).1) as [text|e]; [|by injection Hsave as <- <-].
  destruct (Hfresh (files s) (String.String "." (path (ax_device x)))) as [Hnone _].
  pose proof (temporary_ne mkstemp (files s) (path (ax_device x)) Hfresh) as Hne.
  destruct (replace_file_spec fails torn mkstemp (files s) (path (ax_device x)) text _ eq_refl Hnone Hne s eq_refl)
    as (Hpost & _ & l & Hl & HF).
  rewrite Hsave in Hpost, Hl. cbn [fst snd] in Hpost, Hl.
  assert (∀ d, between (files s) (path (ax_device x)) text
    (mkstemp (files s) (String.String "." (path (ax_device x)))) d →
    (d !! path (ax_device x) = files s !! path (ax_device x) ∨ d !! path (ax_device x) = Some text)
    ∧ ∀ name, name ≠ path (ax_device x) → name ≠ mkstemp (files s) (String.String "." (path (ax_device x))) →
      d !! name = files s !! name) as Hb.
  { unfold between, unfinished, renamed. intros d [->|[[c ->]| ->]]; (split; [|intros name H1 H2]); auto;
      rewrite ?lookup_insert_eq, ?lookup_insert_ne by done; auto. }
  split_and!.
  - exists l. split; [done|]. constructor; [|by eapply Forall_impl].
    apply Hb. destruct r as [[]|e]; [right; right; exact Hpost|exact (proj2 Hpost)].
  - destruct r as [[]|e]; [exact Hpost|exact (proj1 Hpost)].
  - intros Hok. pose proof (replace_file_returns fails torn mkstemp Hok (path (ax_device x)) text s) as Hr.
    rewrite Hsave in Hr. by destruct r as [[]|e].
Qed.
End save.

(** A choice of names: the prefix, with a number when it is taken. *)
Lemma fresh_string_names : fresh_names (λ d p, fresh_string p d).
Proof.
  intros d p. split; [apply fresh_string_fresh|]. unfold fresh_string.
  destruct (d !! p) as [c|]; [|exists ""; induction p as [|a p IH]; [done|by rewrite IH at 1]].
  generalize 0%N (wf_guard 32 (fresh_string_R_wf p d) 0%N). fix FIX 2.
  intros n [?]. simpl. unfold fresh_string_go at 1. simpl.
  destruct (Some_dec _) as [[? ?]|?]; [apply FIX|by eexists].
Qed.

(** An axis of the built-in model, a directory that holds an old snapshot. *)
Definition demo_store : store := Store {[ "axis-0.json" := "old" ]} true 0 [].

Definition demo_axis (a : FKrCmmtAdapter) : axis FKrCmmtAdapter store :=
  Axis default_device true demo_store "linear_mm" a 24 0 [] None 0 (new_guard 0 []) None 0.

Definition demo_text : string :=
  match (take_snapshot (λ t, t) default_device linear_adapter).1 with
  | Ret text => text
  | Raise _ => ""
  end.

(** The directory cannot be synchronised: the save fails, the snapshot is the
    old one or the new one. *)
Definition demo_save : outcome () * store :=
  save (λ t, t) (λ n, Nat.eqb n 8) (λ _ t, t) (λ d p, fresh_string p d)
    (demo_axis linear_adapter) demo_store.

Lemma demo_save_eq :
  demo_save = save (λ t, t) (λ n, Nat.eqb n 8) (λ _ t, t) (λ d p, fresh_string p d)
    (demo_axis linear_adapter) demo_store.
Proof. reflexivity. Qed.

Lemma demo_snapshot :
  (take_snapshot (λ t, t) (ax_device (demo_axis linear_adapter))
     (adapter (demo_axis linear_adapter))).1 = Ret demo_text.
Proof. vm_compute. reflexivity. Qed.

Lemma save_atomic_witness :
  demo_save.1 = Raise OSError
  ∧ (files demo_save.2 !! "axis-0.json" = Some "old"
     ∨ files demo_save.2 !! "axis-0.json" = Some demo_text).
Proof.
  split; [vm_compute; reflexivity|].
  pose proof (save_atomic (λ t, t) (λ n, Nat.eqb n 8) (λ _ t, t) (λ d p, fresh_string p d)
    (demo_axis linear_adapter) demo_store fresh_string_names) as H.
  rewrite <-demo_save_eq in H. destruct demo_save as [r s']. rewrite demo_snapshot in H.
  destruct H as [(l & _ & HF) _]. apply Forall_cons in HF as [[HF _] _].
  change (path (ax_device (demo_axis linear_adapter))) with "axis-0.json" in HF.
  cbn [snd]. destruct HF as [HF|HF].
  - left. rewrite HF. vm_compute. reflexivity.
  - right. exact HF.
Defined.
