(* ===== verification/StoreProps.v ===== *)
(** * Loading what was saved

    The theorems about [load] of src/functional_model/storage/parameter_store.py
    (Store.v), for every adapter that keeps an object dictionary: loading is
    all or nothing, and it restores what [save] wrote. *)

From coqutil Require Import Word.LittleEndianList.
From stdpp Require Import stringmap.
From S2P Require Import Prelude PyFloat.
From S2P Require Export Store.

Open Scope string_scope.
Open Scope list_scope.
Open Scope Z_scope.

(** ** The lock *)

Section lock.
Context (fails : nat → bool) (busy : bool).

#[local] Instance syscall_locked g : Preserves locked (syscall fails g).
Proof. unfold syscall, next_call, change. frame. Qed.

(** The lock is held behind an [enter] that returns and only then. *)
Lemma enter_locked (s : store) :
  locked s = false → let '(r, s') := enter fails busy s in
  is_ret r = locked s' ∧ (busy = true → is_ret r = false).
Proof.
  intros Hl. unfold enter. unfold mbind at 1, M_bind at 1.
  pose proof (preserves (f:=locked) (m:=syscall fails id) s) as H1.
  destruct (syscall fails id s) as [[[]|e] s1]; cbn [snd] in H1; [|cbn; split; [congruence|done]].
  unfold mbind at 1, M_bind at 1.
  pose proof (preserves (f:=locked) (m:=syscall fails (λ d, <[".lock" := default "" (d !! ".lock")]> d)) s1) as H2.
  destruct (syscall fails _ s1) as [[[]|e] s2]; cbn [snd] in H2; [|cbn; split; [congruence|done]].
  unfold try_except, next_call, mbind, M_bind, modify, gets, raise, mret, M_ret.
  destruct (fails (calls (s2 <| locked := true |>))), busy; cbn; split; done.
Qed.

(** The calls behind [enter]: the directory is as before, but for the lock file. *)
Definition lock_file (d : directory) : directory := <[".lock" := default "" (d !! ".lock")]> d.

Lemma enter_files (s : store) :
  let s' := (enter fails busy s).2 in
  ∃ l, journal s' = l ++ journal s
    ∧ Forall (λ d, d = files s ∨ d = lock_file (files s)) (files s' :: l)
    ∧ (is_ret (enter fails busy s).1 = true → files s' = lock_file (files s)).
Proof.
  unfold enter, mbind, M_bind. rewrite syscall_run. destruct (fails (calls s)).
  { exists []. split_and!; [done|by repeat constructor; left|done]. }
  rewrite syscall_run. cbn. destruct (fails (S (calls s))).
  { exists [files s]. split_and!; [done| |done]. by repeat (constructor; [by left|]). }
  exists [lock_file (files s); files s]. unfold try_except, next_call, mbind, M_bind, modify, gets, raise, mret, M_ret.
  destruct (fails _), busy; cbn; (split_and!; [done| |done]);
    (constructor; [by right|constructor; [by right|constructor; [by left|done]]]).
Qed.
End lock.

(** ** Lists of triples *)

Lemma Forall3_pairs {B C D} (R : B → C → D → Prop) (P : B → Prop) (Q : B → C → Prop) (S : B → D → Prop)
    ls ms ns :
  (∀ x y z, R x y z → P x ∧ Q x y ∧ S x z) → Forall3 R ls ms ns →
  Forall P ls ∧ Forall2 Q ls ms ∧ Forall2 S ls ns.
Proof.
  intros HR. induction 1 as [|x y z ls ms ns Hx _ (H1 & H2 & H3)]; [done|].
  destruct (HR _ _ _ Hx) as (? & ? & ?). split_and!; by constructor.
Qed.

Lemma Forall3_Forall2 {B C D} (R : B → C → D → Prop) (Q : B → C → Prop) ls ms ns :
  Forall3 R ls ms ns → (∀ x y z, x ∈ ls → R x y z → Q x y) → Forall2 Q ls ms.
Proof.
  induction 1 as [|x y z ls ms ns Hx _ IH]; intros HQ; constructor.
  - eapply HQ; [by left|exact Hx].
  - apply IH. intros x' y' z' Hin. apply HQ. by right.
Qed.

(** ** Readers *)

Section load.
Context {A : Type} `{DA : DictionaryAdapter A}.

#[export] Instance dictionary_reader {T} (m : M od T) : Reader m → Reader (on_adapter_od (A:=A) m).
Proof.
  intros Hm a. rewrite on_adapter_od_eq. specialize (Hm (adapter_od a)).
  destruct (m (adapter_od a)) as [r o]. cbn in *. subst o. apply set_get_od.
Qed.

Lemma on_od_reads {T} (m : M od T) a : Reader m → on_adapter_od m a = ((m (adapter_od a)).1, a).
Proof.
  intros Hm. rewrite (reader_run (on_adapter_od m)). f_equal. rewrite on_adapter_od_eq.
  by destruct (m (adapter_od a)).
Qed.

#[export] Instance read_sdo_adapter_reader i s n : Reader (adapter_read_sdo (A:=A) i s n).
Proof. intros a. rewrite adapter_read_sdo_eq. apply (reader (m:=on_adapter_od _)). Qed.

#[export] Instance parameter_value_reader r : Reader (parameter_value (A:=A) r).
Proof. destruct r as [i s]. unfold parameter_value. apply _. Qed.

#[export] Instance parameter_loop_reader rs d : Reader (parameter_loop (A:=A) rs d).
Proof. revert d. induction rs as [|r rs IH]; intros d; cbn [parameter_loop]; apply _. Qed.

#[export] Instance parameter_values_reader : Reader (parameter_values (A:=A)).
Proof. unfold parameter_values. apply _. Qed.

#[export] Instance decode_parameter_reader values key original :
  Reader (decode_parameter (A:=A) values key original).
Proof.
  unfold decode_parameter. apply reader_bind; [apply _|]. intros [| | | |raw| |]; try apply _.
Qed.

#[export] Instance decode_parameters_reader values expected :
  Reader (decode_parameters (A:=A) values expected).
Proof.
  induction expected as [|[key original] expected IH]; cbn [decode_parameters]; apply _.
Qed.

#[export] Instance check_snapshot_reader sha256 d content : Reader (check_snapshot (A:=A) sha256 d content).
Proof.
  unfold check_snapshot. repeat (apply reader_bind; [apply _|intros ?]).
  apply reader_bind; [|apply _]. destruct a3; apply _.
Qed.

#[export] Instance read_parameters_reader rs d : Reader (read_parameters (A:=A) rs d).
Proof. revert d. induction rs as [|r rs IH]; intros d; cbn [read_parameters]; apply _. Qed.

#[export] Instance take_snapshot_reader sha256 d : Reader (take_snapshot (A:=A) sha256 d).
Proof.
  unfold take_snapshot. apply reader_bind; [apply _|]. intros validate.
  apply reader_bind; [destruct validate; apply _|apply _].
Qed.

(** ** Writing the decoded values *)

Definition address_key (a : Z * Z) : okey := _storage_key a.1 (Some a.2).

Lemma address_key_inj a b : address_key a = address_key b → a = b.
Proof.
  destruct a as [i s], b as [j t]. unfold address_key. cbn.
  destruct (Z.eqb_spec s 0), (Z.eqb_spec t 0); congruence.
Qed.

Definition known (o : od) (a : Z * Z) : Prop := is_Some (entries o !! address_key a).

(** What the dictionary [d] of earlier writes holds, or else the value of [o]. *)
Definition overlaid (d : list ((Z * Z) * pyval)) (o : od) (a : Z * Z) : option pyval :=
  match dict_get a d with
  | Some v => Some v
  | None => value_at o a.1 (Some a.2)
  end.

Lemma write_known a v (o : od) :
  known o a →
  ∃ o', write a.1 v (Some a.2) o = (Ret tt, o') ∧ definition_map o' = definition_map o
    ∧ (∀ b, value_at o' b.1 (Some b.2) = if decide (b = a) then Some v else value_at o b.1 (Some b.2))
    ∧ (∀ k, k ≠ address_key a → entries o' !! k = entries o !! k).
Proof.
  intros [e He]. pose proof (write_definitions a.1 v (Some a.2) o) as Hd. revert Hd.
  rewrite write_spec. fold (address_key a). rewrite He. intros Hd.
  eexists. split; [reflexivity|]. split; [exact Hd|]. split.
  - intros b. unfold value_at, entry_at. fold (address_key b). cbn.
    destruct (decide (b = a)) as [->|Hne]; [by rewrite lookup_insert_eq|].
    rewrite lookup_insert_ne; [done|]. intros E. by apply address_key_inj in E.
  - intros k Hk. cbn. by rewrite lookup_insert_ne.
Qed.

Lemma known_preserved (o o' : od) a : definition_map o' = definition_map o → known o a → known o' a.
Proof.
  unfold definition_map, known. intros E [e He].
  apply (f_equal (λ m, m !! address_key a)) in E. rewrite !lookup_fmap, He in E.
  by destruct (entries o' !! address_key a).
Qed.

Lemma write_parameters_spec vs d (o0 : od) (a : A) :
  Forall (λ kv, known (adapter_od a) kv.1) vs →
  (∀ b, value_at (adapter_od a) b.1 (Some b.2) = overlaid d o0 b) →
  ∃ o', write_parameters vs a = (Ret tt, set_adapter_od o' a)
    ∧ definition_map o' = definition_map (adapter_od a)
    ∧ (∀ b, value_at o' b.1 (Some b.2) = overlaid (foldl (λ d kv, dict_set kv.1 kv.2 d) d vs) o0 b)
    ∧ (∀ k, k ∉ map (λ kv, address_key kv.1) vs → entries o' !! k = entries (adapter_od a) !! k).
Proof.
  revert d a. induction vs as [|[b v] vs IH]; intros d a Hk Hv.
  { exists (adapter_od a). rewrite set_get_od. done. }
  apply Forall_cons in Hk as [Hb Hk].
  destruct (write_known b v (adapter_od a) Hb) as (o1 & Hw & Hd & Hval & Hrest).
  assert (on_adapter_od (write b.1 v (Some b.2)) a = (Ret tt, set_adapter_od o1 a)) as Hrun
    by (by rewrite on_adapter_od_eq, Hw).
  destruct (IH (dict_set b v d) (set_adapter_od o1 a)) as (o' & Hr & Hd' & Hval' & Hrest').
  - rewrite get_set_od. eapply Forall_impl; [exact Hk|]. intros kv. by apply known_preserved.
  - intros c. rewrite get_set_od, Hval. unfold overlaid. rewrite dict_get_set.
    destruct (decide (c = b)); [done|apply Hv].
  - exists o'. rewrite get_set_od in Hd', Hrest'. rewrite set_set_od in Hr. split_and!.
    + unfold write_parameters in Hr |- *. cbn [mapM_]. by rewrite (bind_eq_ret _ _ _ _ _ Hrun).
    + congruence.
    + exact Hval'.
    + intros k Hk'. cbn in Hk'. apply not_elem_of_cons in Hk' as [H1 H2].
      by rewrite Hrest', Hrest.
Qed.

(** ** What is accepted *)

Context (sha256 : string → string).

(** An accepted value fits its object: the object is in the catalog, the value
    is finite and its data type encodes it in the size of the payload. *)
Definition fits (a : A) (kv : (Z * Z) * pyval) : Prop :=
  ∃ e, entries (adapter_od a) !! address_key kv.1 = Some e
    ∧ nonfinite kv.2 = false
    ∧ ∃ n bs, encode_od_value (Def.data_type (definition e)) kv.2 (Some n) = Ret bs.

Lemma get_definition_run i s (o : od) :
  get_definition i s o = (of_option KeyError (definition <$> entries o !! _storage_key i s), o).
Proof. unfold get_definition. rewrite bind_gets. by destruct (entries o !! _storage_key i s). Qed.

Lemma decode_parameter_fits values key original (a : A) kv :
  (decode_parameter values key original a).1 = Ret kv →
  fits a kv ∧ parse_key key = Ret kv.1.
Proof.
  unfold decode_parameter. rewrite lift_bind.
  destruct (of_option KeyError (dict_get key values)) as [[| | | |raw| |]|]; try done.
  destruct (negb (str_len raw =? str_len original)); [done|]. rewrite lift_bind.
  destruct (parse_key key) as [[i s]|]; [|done].
  unfold mbind at 1, M_bind at 1. rewrite on_od_reads by apply _. rewrite get_definition_run.
  cbn [fst snd]. destruct (entries (adapter_od a) !! _storage_key i (Some s)) as [e|] eqn:He; [|done].
  cbn [fmap option_fmap option_map of_option]. rewrite lift_bind.
  destruct (fromhex raw) as [bs|]; [|done]. rewrite lift_bind.
  destruct (decode_od_value _ bs) as [v|]; [|done].
  destruct (nonfinite v) eqn:Hn; [done|]. rewrite lift_bind.
  destruct (encode_od_value _ v _) as [bs'|] eqn:Hv; [|done].
  destruct (_ && _); [done|]. intros [= <-]. split; [|done]. exists e. eauto.
Qed.

Lemma decode_parameters_fit values expected (a : A) vs :
  (decode_parameters values expected a).1 = Ret vs →
  Forall (fits a) vs ∧ Forall2 (λ key kv, parse_key key = Ret kv.1) expected.*1 vs.
Proof.
  revert vs. induction expected as [|[key original] expected IH]; intros vs; cbn [decode_parameters].
  { intros [= <-]. split; constructor. }
  rewrite (bind_eq_out (decode_parameter values key original)).
  destruct (decode_parameter values key original a).1 as [kv|] eqn:E; [|done].
  rewrite (bind_eq_out (decode_parameters values expected)).
  destruct (decode_parameters values expected a).1 as [kvs|] eqn:E'; [|done].
  intros [= <-]. apply decode_parameter_fits in E as [Hf Hp]. destruct (IH kvs eq_refl) as [H1 H2].
  split; constructor; auto.
Qed.

Lemma check_snapshot_fits d content (a : A) vs :
  (check_snapshot sha256 d content a).1 = Ret vs → Forall (fits a) vs.
Proof.
  unfold check_snapshot. rewrite lift_bind.
  destruct (check_header sha256 d content) as [values|]; [|done].
  rewrite (bind_eq_out parameter_values).
  destruct (parameter_values a).1 as [expected|]; [|done]. rewrite lift_bind.
  destruct (check_catalog values expected) as [vals|]; [|done].
  rewrite (bind_eq_out (decode_parameters vals expected)).
  destruct (decode_parameters vals expected a).1 as [kvs|] eqn:E; [|done]. rewrite bind_gets.
  apply decode_parameters_fit in E as [Hf _].
  destruct (adapter_validate_parameters a) as [f|]; [rewrite lift_bind; destruct (f (as_dict kvs)); [|done]|];
    by intros [= <-].
Qed.

(** C17. Loading is all or nothing.  Without a snapshot the answer is [False]; a
    snapshot that is unreadable or rejected raises; in each case the model is
    unchanged.  An accepted snapshot gives every parameter its decoded value,
    which is finite and can be encoded again, and changes nothing else. *)
Theorem load_all_or_nothing unreadable s d (a : A) :
  let '(r, a') := load sha256 unreadable s d a in
  match files s !! path d with
  | None => r = Ret false ∧ a' = a
  | Some content =>
      match (if unreadable (path d) then Raise OSError
             else (check_snapshot sha256 d content a).1) with
      | Raise e => r = Raise e ∧ a' = a
      | Ret vs => r = Ret true ∧ Forall (fits a) vs
          ∧ ∃ o', a' = set_adapter_od o' a
            ∧ definition_map o' = definition_map (adapter_od a)
            ∧ (∀ b, value_at o' b.1 (Some b.2)
                    = match dict_get b (as_dict vs) with
                      | Some v => Some v
                      | None => value_at (adapter_od a) b.1 (Some b.2)
                      end)
            ∧ (∀ k, k ∉ map (λ kv, address_key kv.1) vs →
                 entries o' !! k = entries (adapter_od a) !! k)
      end
  end.
Proof.
  destruct (load sha256 unreadable s d a) as [r a'] eqn:Hl. unfold load in Hl.
  destruct (files s !! path d) as [content|]; [|by injection Hl as <- <-].
  destruct (unreadable (path d)); [by injection Hl as <- <-|].
  unfold load_text, mbind at 1, M_bind at 1, mbind at 1, M_bind at 1 in Hl.
  rewrite (reader_run (check_snapshot sha256 d content)) in Hl.
  destruct (check_snapshot sha256 d content a).1 as [vs|e] eqn:Hc; [|by injection Hl as <- <-].
  pose proof (check_snapshot_fits d content a vs Hc) as Hf.
  destruct (write_parameters_spec vs [] (adapter_od a) a) as (o' & Hw & H1 & H2 & H3).
  { eapply Forall_impl; [exact Hf|]. intros kv (e & He & _). by exists e. }
  { done. }
  rewrite Hw in Hl. injection Hl as <- <-. split; [done|]. split; [done|]. exists o'.
  split_and!; [done|done|exact H2|exact H3].
Qed.
End load.

Section restore.

Lemma scan_hex_digit a d k :
  0 ≤ d < 16 → scan_hex a (String.String (digit_char d) k) = scan_hex (16 * a + d) k.
Proof.
  intros Hd. assert (hex_digit (digit_char d) = Some d) as E; [|cbn [scan_hex]; by rewrite E].
  assert (bool_decide (hex_digit (digit_char d) = Some d) = true) as H.
  { revert d Hd. apply (forall_residues 16). vm_compute. reflexivity. }
  by apply bool_decide_eq_true_1 in H.
Qed.

Lemma scan_zeros m k : scan_hex 0 (replicate_char "0" m ++ k) = scan_hex 0 k.
Proof. induction m as [|m IH]; [done|]. exact IH. Qed.

Lemma scan_fmt_hex width n k :
  0 ≤ n → scan_hex 0 (fmt_hex width n ++ k) = scan_hex n k.
Proof.
  intros Hn. unfold fmt_hex. rewrite (proj2 (Z.ltb_ge n 0)) by done. unfold pad_left, PyText.zeros.
  assert (∀ a b c, ((a ++ b) ++ c = a ++ (b ++ c))%string) as Happ.
  { intros a b c. induction a as [|x a IH]; [done|]. exact (f_equal (String.String x) IH). }
  rewrite Happ, scan_zeros. unfold to_base. rewrite digits_base_app.
  destruct (scan_digits_base 16 _ ltac:(lia) scan_hex_digit (S (Z.to_nat (Z.log2 n))) n ("" ++ k)) as [p Hp].
  { split; [done|by apply log2_fuel]. }
  destruct (Hp 0) as [-> _]. done.
Qed.

(** [load] reads the address back from the key that [parameter_values] made. *)
Lemma parse_parameter_key a : 0 ≤ a.1 → 0 ≤ a.2 → parse_key (parameter_key a) = Ret a.
Proof.
  intros H1 H2. destruct a as [i s]. unfold parse_key, parameter_key. cbn [fst snd] in *.
  rewrite scan_fmt_hex by done. cbn [scan_hex]. change (hex_digit ":") with (@None Z). cbv iota.
  change (Ascii.eqb ":" ":") with true. cbv iota.
  assert (scan_hex 0 (fmt_hex 2 s) = (s, "")) as ->; [|done].
  transitivity (scan_hex 0 (fmt_hex 2 s ++ "")); [|by rewrite scan_fmt_hex].
  f_equal. generalize (fmt_hex 2 s). intros t. induction t as [|x t IH]; [done|].
  exact (f_equal (String.String x) IH).
Qed.

(** *** Payloads that survive *)

(** A payload of a numeric type that is no infinity and no NaN. *)
Definition plain_payload (f : struct_format) (bs : list byte) : bool :=
  Nat.eqb (length bs) (calcsize f)
  && match f with
     | FmtInt _ _ => true
     | FmtFloat32 => negb ((le_combine bs / 2 ^ 23) mod 256 =? 255)
     | FmtBool => false
     end.

Lemma float_of_bits32_finite b :
  0 ≤ b < 2 ^ 32 → (b / 2 ^ 23) mod 256 ≠ 255 → f_is_finite (float_of_bits32 b) = true.
Proof.
  intros Hb He. assert (is_nan32 b = false) as Hn.
  { unfold is_nan32. by rewrite (proj2 (Z.eqb_neq _ _) He). }
  destruct (bits32_roundtrip b Hb Hn) as [Hr _].
  destruct (float_of_bits32 b) as [s|s| |s m e]; [done| | |done]; exfalso; apply He; rewrite <-Hr;
    [by destruct s|done].
Qed.

Lemma payload_survives data_type f bs :
  assoc (normalize_od_data_type data_type) DATA_TYPE_FORMATS = Some f → plain_payload f bs = true →
  ∃ v, decode_od_value data_type bs = Ret v ∧ nonfinite v = false
    ∧ ∀ size, encode_od_value data_type v size = Ret bs.
Proof.
  intros Hf Hp. apply andb_true_iff in Hp as [Hl%Nat.eqb_eq Hp].
  destruct f as [|signed n|]; try done.
  - destruct (int_payload data_type signed n bs Hf Hl) as (z & Hd & _ & He). by exists (PInt z).
  - apply negb_true_iff, Z.eqb_neq in Hp. cbn in Hl.
    pose proof (le_combine_bound bs) as Hb. rewrite Hl in Hb.
    assert (0 ≤ le_combine bs < 2 ^ 32) as Hb' by (simpl in *; lia).
    destruct (float32_payload data_type bs Hf Hl) as [Hd He].
    { unfold is_nan32. by rewrite (proj2 (Z.eqb_neq _ _) Hp). }
    eexists. split; [exact Hd|]. split; [|exact He]. cbn. by rewrite float_of_bits32_finite.
Qed.

(** *** The values of a dictionary *)

Context {A : Type} `{DA : DictionaryAdapter A}.

(** The payload [parameter_values] shows for an address. *)
Definition parameter_bytes (o : od) (r : Z * Z) : option (list byte) :=
  match entries o !! address_key r with
  | Some e =>
      match encode_od_value (Def.data_type (definition e)) (value e)
              (Some (Def.bit_size (definition e) / 8)) with
      | Ret bs => Some bs
      | Raise _ => None
      end
  | None => None
  end.

Lemma definition_run i s (o : od) e :
  entries o !! _storage_key i (Some s) = Some e → _definition i s o = (Ret (definition e), o).
Proof. intros He. unfold _definition, try_except. by rewrite get_definition_run, He. Qed.

Lemma parameter_value_run r (a : A) bs :
  parameter_bytes (adapter_od a) r = Some bs → parameter_value r a = (Ret (hex bs), a).
Proof.
  destruct r as [i s]. unfold parameter_bytes, address_key. cbn [fst snd].
  destruct (entries (adapter_od a) !! _storage_key i (Some s)) as [e|] eqn:He; [|done].
  destruct (encode_od_value _ _ _) as [bs'|] eqn:Hb; [|done]. intros [= ->].
  unfold parameter_value, mbind at 1, M_bind at 1. rewrite on_od_reads by apply _.
  rewrite get_definition_run, He. cbn [fst snd fmap option_fmap option_map of_option outcome_fmap].
  unfold mbind at 1, M_bind at 1. rewrite adapter_read_sdo_eq, on_od_reads by apply _.
  assert (read_sdo i s (Def.bit_size (definition e) / 8) (adapter_od a) = (Ret bs, adapter_od a)) as ->; [|done].
  unfold read_sdo. rewrite (bind_eq_ret _ _ _ _ _ (definition_run _ _ _ _ He)).
  assert (read i (Some s) (adapter_od a) = (Ret (value e), adapter_od a)) as Hr.
  { rewrite read_spec. unfold value_at, entry_at. by rewrite He. }
  rewrite (bind_eq_ret _ _ _ _ _ Hr). unfold lift. by rewrite Hb.
Qed.

(** The dict of the parameters with their payloads. *)
Definition value_texts (rs : list (Z * Z)) (bss : list (list byte)) : list (string * string) :=
  zip_with (λ r bs, (parameter_key r, hex bs)) rs bss.

Lemma value_texts_keys (P : Z * Z → list byte → Prop) rs bss :
  Forall2 P rs bss → (value_texts rs bss).*1 = map parameter_key rs.
Proof. induction 1 as [|r bs rs bss _ _ IH]; [done|]. cbn. by rewrite <-IH. Qed.

Lemma parameter_loop_run rs bss d (a : A) :
  Forall2 (λ r bs, parameter_bytes (adapter_od a) r = Some bs) rs bss →
  NoDup (d.*1 ++ map parameter_key rs) →
  parameter_loop rs d a = (Ret (d ++ value_texts rs bss), a).
Proof.
  intros Hb. revert d. induction Hb as [|r bs rs bss Hr _ IH]; intros d Hd; cbn [parameter_loop].
  { by rewrite app_nil_r. }
  rewrite (bind_eq_ret _ _ _ _ _ (parameter_value_run _ _ _ Hr)).
  cbn [map] in Hd. rewrite dict_set_new.
  2: { apply NoDup_app in Hd as (_ & Hd & _). intros Hin. apply (Hd _ Hin). by left. }
  rewrite IH; [by rewrite <-app_assoc|]. rewrite fmap_app. cbn. by rewrite <-app_assoc.
Qed.

Lemma parameter_keys_NoDup rs :
  NoDup rs → Forall (λ r : Z * Z, 0 ≤ r.1 ∧ 0 ≤ r.2) rs → NoDup (map parameter_key rs).
Proof.
  intros Hd Hr. induction Hd as [|r rs Hx Hd IH]; cbn; [constructor|].
  apply Forall_cons in Hr as [Hr Hrs]. constructor; [|by apply IH].
  intros (r' & E & Hin)%list_elem_of_In%in_map_iff. apply list_elem_of_In in Hin.
  assert (r' = r); [|congruence].
  pose proof (proj1 (Forall_forall _ _) Hrs r' Hin) as Hr'.
  apply (f_equal parse_key) in E. rewrite !parse_parameter_key in E by naive_solver. congruence.
Qed.

Lemma parameter_values_run rs bss (a : A) :
  adapter_roles a = rs → NoDup (map parameter_key rs) →
  Forall2 (λ r bs, parameter_bytes (adapter_od a) r = Some bs) rs bss →
  parameter_values a = (Ret (value_texts rs bss), a).
Proof.
  intros <- Hd Hb. unfold parameter_values. rewrite bind_gets.
  by rewrite (parameter_loop_run _ _ [] _ Hb).
Qed.

(** *** The text of a snapshot *)

Lemma fmt_hex_ascii width n : 0 ≤ n → is_ascii (fmt_hex width n) = true.
Proof.
  intros Hn. unfold fmt_hex. rewrite (proj2 (Z.ltb_ge n 0)) by done. apply ascii_app.
  - unfold PyText.zeros. generalize (Z.to_nat (width - Z.of_nat (String.length (to_base 16 n)))).
    intros m. by induction m.
  - unfold to_base. by apply digits_ascii.
Qed.

Lemma parameter_key_ascii r : 0 ≤ r.1 → 0 ≤ r.2 → is_ascii (parameter_key r) = true.
Proof.
  intros H1 H2. apply ascii_app; [by apply fmt_hex_ascii|].
  apply is_ascii_cons; [done|by apply fmt_hex_ascii].
Qed.

Lemma str_len_ascii s : is_ascii s = true → str_len s = Z.of_nat (String.length s).
Proof.
  intros Hs. unfold str_len. rewrite code_points_ascii by done. cbn [default]. f_equal. clear Hs.
  induction s as [|a s IH]; [done|]. cbn. by rewrite <-IH.
Qed.

Definition json_values (vs : list (string * string)) : list (string * json) :=
  map (λ '(k, v), (k, JStr v)) vs.

Definition ascii_device (d : device) : bool :=
  is_ascii (device_type d) && is_ascii (model_type d) && is_ascii (model_mode d).

(** Texts that [snapshot_text] writes without escapes. *)
Definition plain_texts (vs : list (string * string)) : Prop :=
  NoDup vs.*1 ∧ Forall (λ kv, is_ascii kv.1 = true ∧ is_ascii kv.2 = true) vs.

Lemma json_values_keys vs : (json_values vs).*1 = vs.*1.
Proof. induction vs as [|[k v] vs IH]; [done|]. cbn. by rewrite <-IH. Qed.

Lemma plain_values vs : plain_texts vs → plain_json (JObj (json_values vs)) = true.
Proof.
  intros [Hd Hv]. cbn [plain_json]. rewrite json_values_keys, bool_decide_eq_true_2 by done.
  cbn [andb]. clear Hd. induction Hv as [|[k v] vs [H1 H2] _ IH]; [done|].
  cbn [fst snd] in H1, H2. change (is_ascii k && is_ascii v && forallb
    (λ '(k, v), is_ascii k && plain_json v) (json_values vs) = true). by rewrite H1, H2.
Qed.

Lemma plain_snapshot d vs h :
  ascii_device d = true → plain_texts vs → is_ascii h = true →
  plain_json (JObj (snapshot_data d vs ++ [("checksum", JStr h)])) = true.
Proof.
  intros Hd Hv Hh. apply andb_true_iff in Hd as [[H1 H2]%andb_true_iff H3].
  pose proof (plain_values vs Hv) as Hp. unfold json_values in Hp.
  unfold snapshot_data, identity. cbn [app plain_json forallb fmap list_fmap] in Hp |- *.
  rewrite Hp, H1, H2, H3, Hh. reflexivity.
Qed.

Context (sha256 : string → string) (Hsha : ∀ t, is_ascii (sha256 t) = true).

(** A written snapshot passes the tests of the loader. *)
Lemma snapshot_header d vs text :
  ascii_device d = true → plain_texts vs → snapshot_text sha256 d vs = Ret text →
  check_header sha256 d text = Ret (JObj (json_values vs)).
Proof.
  intros Hd Hv Ht. unfold snapshot_text, checksum in Ht.
  destruct (dumps Spaced (sort_json (JObj (snapshot_data d vs)))) as [t0|] eqn:E0; [|done].
  cbn [mbind outcome_bind mret outcome_ret] in Ht.
  destruct (parse_dumps (Indented 2) _ (plain_snapshot d vs (sha256 t0) Hd Hv (Hsha t0))) as [H1 H2].
  rewrite H1 in Ht. unfold check_header. 
  assert (parse_json text = Ret (JObj (snapshot_data d vs ++ [("checksum", JStr (sha256 t0))]))) as ->
    by congruence. cbn [mbind outcome_bind].
  change (fields (JObj (snapshot_data d vs ++ [("checksum", JStr (sha256 t0))])) snapshot_fields)
    with (Ret (snapshot_data d vs ++ [("checksum", JStr (sha256 t0))])).
  cbn [mbind outcome_bind].
  change (dict_get "checksum" (snapshot_data d vs ++ [("checksum", JStr (sha256 t0))]))
    with (Some (JStr (sha256 t0))).
  cbn [of_option].
  change (without "checksum" (snapshot_data d vs ++ [("checksum", JStr (sha256 t0))]))
    with (snapshot_data d vs).
  unfold checksum. rewrite E0. cbn [mret outcome_ret mbind outcome_bind].
  change (json_eqb (JStr (sha256 t0)) (JStr (sha256 t0))) with (String.eqb (sha256 t0) (sha256 t0)).
  rewrite String.eqb_refl. cbn [negb].
  change (dict_get "schema_version" (snapshot_data d vs)) with (Some (JInt (schema_version d))).
  change (dict_get "identity" (snapshot_data d vs)) with (Some (identity d)).
  change (dict_get "values" (snapshot_data d vs)) with (Some (JObj (json_values vs))).
  cbn [of_option mbind outcome_bind integer_equals]. rewrite Z.eqb_refl.
  assert (json_eqb (identity d) (identity d) = true) as ->; [|done].
  transitivity (String.eqb (device_type d) (device_type d)
    && (String.eqb (model_type d) (model_type d)
        && (String.eqb (model_mode d) (model_mode d) && true) && true)); [reflexivity|].
  by rewrite !String.eqb_refl.
Qed.

(** *** Decoding a saved snapshot *)

(** The parameter [r] of [o] can be restored into [o']: it has the same type
    there, its payload is plain, and a read-only one is the same already. *)
Definition restorable (o o' : od) (r : Z * Z) : bool :=
  (0 <=? r.1) && (0 <=? r.2)
  && match entries o !! address_key r, entries o' !! address_key r with
     | Some e, Some e' =>
         let d := definition e in let d' := definition e' in
         String.eqb (Def.data_type d) (Def.data_type d') && (Def.bit_size d =? Def.bit_size d')
         && match assoc (normalize_od_data_type (Def.data_type d)) DATA_TYPE_FORMATS,
                  parameter_bytes o r, parameter_bytes o' r with
            | Some f, Some bs, Some bs' =>
                plain_payload f bs && plain_payload f bs'
                && (negb (String.eqb (Text.lower (Def.access d')) "ro") || bool_decide (bs = bs'))
            | _, _, _ => false
            end
     | _, _ => false
     end.

(** The value the payload of [r] is decoded to. *)
Definition restored_value (o : od) (r : Z * Z) : pyval :=
  match entries o !! address_key r, parameter_bytes o r with
  | Some e, Some bs =>
      match decode_od_value (Def.data_type (definition e)) bs with Ret v => v | Raise _ => PInt 0 end
  | _, _ => PInt 0
  end.

Definition restored (o : od) (rs : list (Z * Z)) : list ((Z * Z) * pyval) :=
  map (λ r, (r, restored_value o r)) rs.

(** What [restorable] says, with the payloads [bs] and [bs'] before and after. *)
Record restores (o o' : od) (r : Z * Z) (bs bs' : list byte) : Prop := {
  rs_index : 0 ≤ r.1;
  rs_subindex : 0 ≤ r.2;
  rs_bytes : parameter_bytes o r = Some bs;
  rs_bytes' : parameter_bytes o' r = Some bs';
  rs_length : length bs' = length bs;
  rs_entry : ∃ e', entries o' !! address_key r = Some e'
    ∧ decode_od_value (Def.data_type (definition e')) bs = Ret (restored_value o r)
    ∧ nonfinite (restored_value o r) = false
    ∧ (∀ n, encode_od_value (Def.data_type (definition e')) (restored_value o r) n = Ret bs)
    ∧ (Text.lower (Def.access (definition e')) = "ro" → bs = bs');
}.

Lemma restorable_spec o o' r :
  restorable o o' r = true → ∃ bs bs', restores o o' r bs bs'.
Proof.
  unfold restorable. intros Hx. apply andb_true_iff in Hx as [[H1%Z.leb_le H2%Z.leb_le]%andb_true_iff Hx].
  destruct (entries o !! address_key r) as [e|] eqn:He; [|done].
  destruct (entries o' !! address_key r) as [e'|] eqn:He'; [|done].
  apply andb_true_iff in Hx as [[Ht%String.eqb_eq Hb]%andb_true_iff Hx].
  destruct (assoc _ _) as [f|] eqn:Hf; [|done].
  destruct (parameter_bytes o r) as [bs|] eqn:Hbs; [|done].
  destruct (parameter_bytes o' r) as [bs'|] eqn:Hbs'; [|done].
  apply andb_true_iff in Hx as [[Hp Hp']%andb_true_iff Hro].
  destruct (payload_survives _ _ _ Hf Hp) as (v & Hd & Hn & Hv).
  assert (restored_value o r = v) as Hr.
  { unfold restored_value. by rewrite He, Hbs, Hd. }
  exists bs, bs'. split; try done.
  - apply andb_true_iff in Hp as [Hl%Nat.eqb_eq _]. apply andb_true_iff in Hp' as [Hl'%Nat.eqb_eq _].
    congruence.
  - exists e'. rewrite Hr, <-Ht. split_and!; try done. intros Hlow. rewrite Hlow in Hro. cbn in Hro.
    by apply bool_decide_eq_true_1 in Hro.
Qed.

Lemma decode_parameter_restores o r bs bs' values (b : A) :
  restores o (adapter_od b) r bs bs' →
  dict_get (parameter_key r) values = Some (JStr (hex bs)) →
  decode_parameter values (parameter_key r) (hex bs') b = (Ret (r, restored_value o r), b).
Proof.
  intros [H1 H2 _ _ Hl (e' & He & Hd & Hn & Hv & Hro)] Hget. unfold decode_parameter.
  rewrite Hget. cbn [of_option]. rewrite lift_bind, !str_len_ascii, !length_hex by apply hex_ascii.
  rewrite Hl, Z.eqb_refl. cbn [negb]. rewrite lift_bind, parse_parameter_key by done.
  unfold mbind at 1, M_bind at 1. rewrite on_od_reads by apply _. rewrite get_definition_run.
  fold (address_key r). rewrite He. cbn [fst fmap option_fmap option_map of_option].
  rewrite lift_bind, fromhex_hex, lift_bind, Hd, Hn, lift_bind, Hv.
  destruct (String.eqb_spec (Text.lower (Def.access (definition e'))) "ro") as [Hlow|]; [|done].
  rewrite (Hro Hlow), String.eqb_refl. done.
Qed.

Lemma decode_parameters_restore o rs values (b : A) bss bss' :
  Forall3 (restores o (adapter_od b)) rs bss bss' →
  Forall2 (λ r bs, dict_get (parameter_key r) values = Some (JStr (hex bs))) rs bss →
  decode_parameters values (value_texts rs bss') b = (Ret (restored o rs), b).
Proof.
  intros Hr. induction Hr as [|r bs bs' rs bss bss' Hr _ IH]; intros Hget; [done|].
  apply Forall2_cons_1 in Hget as [Hg Hget].
  change (value_texts (r :: rs) (bs' :: bss')) with ((parameter_key r, hex bs') :: value_texts rs bss').
  cbn [decode_parameters].
  rewrite (bind_eq_ret _ _ _ _ _ (decode_parameter_restores _ _ _ _ _ _ Hr Hg)).
  by rewrite (bind_eq_ret _ _ _ _ _ (IH Hget)).
Qed.

Lemma all_restorable o o' rs :
  forallb (restorable o o') rs = true →
  ∃ bss bss', Forall3 (restores o o') rs bss bss'.
Proof.
  induction rs as [|r rs IH]; intros Hr; [by exists [], []; constructor|].
  cbn in Hr. apply andb_true_iff in Hr as [Hr Hrs].
  destruct (restorable_spec _ _ _ Hr) as (bs & bs' & H1). destruct (IH Hrs) as (bss & bss' & H2).
  exists (bs :: bss), (bs' :: bss'). by constructor.
Qed.

(** The payload of a parameter that has been set. *)
Lemma parameter_bytes_restored (o o' : od) r e v bs :
  definition_map o' = definition_map o → entries o !! address_key r = Some e →
  value_at o' r.1 (Some r.2) = Some v →
  (∀ n, encode_od_value (Def.data_type (definition e)) v n = Ret bs) →
  parameter_bytes o' r = Some bs.
Proof.
  unfold value_at, entry_at. fold (address_key r). intros Hdef He Hv Henc.
  apply (f_equal (λ m, m !! address_key r)) in Hdef. unfold definition_map in Hdef.
  rewrite !lookup_fmap, He in Hdef. unfold parameter_bytes.
  destruct (entries o' !! address_key r) as [e'|]; [|done]. cbn in Hdef, Hv.
  injection Hdef as ->. injection Hv as ->. by rewrite Henc.
Qed.

Lemma value_texts_plain rs (bss : list (list byte)) :
  length rs = length bss → NoDup (map parameter_key rs) → Forall (λ r : Z * Z, 0 ≤ r.1 ∧ 0 ≤ r.2) rs →
  plain_texts (value_texts rs bss).
Proof.
  intros Hl Hd Hr. apply Forall2_same_length in Hl. split.
  { by rewrite (value_texts_keys (λ _ _, True)). }
  clear Hd. induction Hl as [|r bs rs bss _ _ IH]; [constructor|].
  apply Forall_cons in Hr as [[H1 H2] Hr]. constructor; [|by apply IH].
  split; [by apply parameter_key_ascii|apply hex_ascii].
Qed.

Lemma value_texts_get rs (bss : list (list byte)) :
  length rs = length bss → NoDup (map parameter_key rs) →
  Forall2 (λ r bs, dict_get (parameter_key r) (json_values (value_texts rs bss)) = Some (JStr (hex bs)))
    rs bss.
Proof.
  intros Hl Hd. 
  assert (NoDup (json_values (value_texts rs bss)).*1) as Hd'.
  { rewrite json_values_keys, (value_texts_keys (λ _ _, True)); [done|]. by apply Forall2_same_length. }
  assert (Forall2 (λ r bs, (parameter_key r, JStr (hex bs)) ∈ json_values (value_texts rs bss)) rs bss) as Hin.
  { clear Hd Hd'. apply Forall2_same_length in Hl.
    induction Hl as [|r bs rs bss _ _ IH]; [constructor|]. constructor; [by left|].
    eapply Forall2_impl; [exact IH|]. intros r' bs' Hx. by right. }
  eapply Forall2_impl; [exact Hin|]. intros r bs. by apply dict_get_in.
Qed.

Lemma as_dict_NoDup (vs d : list ((Z * Z) * pyval)) :
  NoDup (d ++ vs).*1 → foldl (λ d kv, dict_set kv.1 kv.2 d) d vs = d ++ vs.
Proof.
  revert d. induction vs as [|[k v] vs IH]; intros d Hd; cbn [foldl]; [by rewrite app_nil_r|].
  cbn [fst snd]. rewrite fmap_app in Hd. cbn in Hd.
  rewrite dict_set_new.
  2: { apply NoDup_app in Hd as (_ & Hd & _). intros Hin. apply (Hd _ Hin). by left. }
  rewrite IH; rewrite <-app_assoc; [done|]. by rewrite fmap_app.
Qed.

Lemma restored_keys o rs : (restored o rs).*1 = rs.
Proof. induction rs as [|r rs IH]; [done|]. cbn. by f_equal. Qed.

Lemma restored_get o rs r :
  NoDup rs → r ∈ rs → dict_get r (as_dict (restored o rs)) = Some (restored_value o r).
Proof.
  intros Hd Hr. unfold as_dict. rewrite as_dict_NoDup, app_nil_l by (by rewrite app_nil_l, restored_keys).
  apply dict_get_in; [by rewrite restored_keys|]. apply list_elem_of_In, in_map_iff.
  exists r. split; [done|]. by apply list_elem_of_In.
Qed.

(** The validation of the restored values. *)
Definition accepts (b : A) (vs : list ((Z * Z) * pyval)) : Prop :=
  match adapter_validate_parameters b with
  | Some validate => validate (as_dict vs) = Ret tt
  | None => True
  end.

Lemma check_restored d (a b : A) text rs bss bss' :
  ascii_device d = true → (take_snapshot sha256 d a).1 = Ret text →
  adapter_roles a = rs → adapter_roles b = rs → NoDup rs →
  Forall3 (restores (adapter_od a) (adapter_od b)) rs bss bss' →
  accepts b (restored (adapter_od a) rs) →
  check_snapshot sha256 d text b = (Ret (restored (adapter_od a) rs), b)
  ∧ parameter_values a = (Ret (value_texts rs bss), a).
Proof.
  intros Hd Ht Ha Hb Hnd Hr Hv.
  destruct (Forall3_pairs _ (λ r, 0 ≤ r.1 ∧ 0 ≤ r.2)
    (λ r bs, parameter_bytes (adapter_od a) r = Some bs)
    (λ r bs, parameter_bytes (adapter_od b) r = Some bs) _ _ _
    (λ r bs bs' Hx, conj (conj (rs_index _ _ _ _ _ Hx) (rs_subindex _ _ _ _ _ Hx))
      (conj (rs_bytes _ _ _ _ _ Hx) (rs_bytes' _ _ _ _ _ Hx))) Hr) as (Hpos & Hba & Hbb).
  pose proof (parameter_keys_NoDup rs Hnd Hpos) as Hkeys.
  pose proof (parameter_values_run rs bss a Ha Hkeys Hba) as Hpa.
  pose proof (parameter_values_run rs bss' b Hb Hkeys Hbb) as Hpb.
  pose proof (Forall2_length _ _ _ Hba) as Hl.
  split; [|exact Hpa].
  assert (snapshot_text sha256 d (value_texts rs bss) = Ret text) as Htext.
  { unfold take_snapshot in Ht. rewrite bind_gets in Ht.
    assert (∀ m : M A (), Reader m →
      ((m ;; values ← parameter_values; lift (snapshot_text sha256 d values)) a).1 = Ret text →
      snapshot_text sha256 d (value_texts rs bss) = Ret text) as Hm.
    { intros m Hm. rewrite (bind_eq_out m). destruct (m a).1; [|done].
      by rewrite (bind_eq_ret _ _ _ _ _ Hpa). }
    revert Ht. apply Hm. destruct (adapter_validate_parameters a); apply _. }
  unfold check_snapshot.
  rewrite (snapshot_header d (value_texts rs bss) text Hd (value_texts_plain rs bss Hl Hkeys Hpos) Htext).
  rewrite lift_bind, (bind_eq_ret _ _ _ _ _ Hpb).
  assert (check_catalog (JObj (json_values (value_texts rs bss))) (value_texts rs bss')
    = Ret (json_values (value_texts rs bss))) as ->.
  { unfold check_catalog, same_keys.
    by rewrite json_values_keys, (value_texts_keys _ _ _ Hba), (value_texts_keys _ _ _ Hbb),
      bool_decide_eq_true_2. }
  rewrite lift_bind.
  rewrite (bind_eq_ret _ _ _ _ _ (decode_parameters_restore _ _ _ _ _ _ Hr (value_texts_get rs bss Hl Hkeys))).
  rewrite bind_gets. unfold accepts in Hv.
  destruct (adapter_validate_parameters b); [rewrite lift_bind, Hv|]; done.
Qed.
End restore.

(** A save that returned. *)
Lemma save_files {A} `{DriveAdapter A} sha256 fails torn mkstemp (x : axis A store) s s' :
  fresh_names mkstemp → save sha256 fails torn mkstemp x s = (Ret tt, s') →
  ∃ text, (take_snapshot sha256 (ax_device x) (adapter x)).1 = Ret text
    ∧ files s' = <[path (ax_device x) := text]> (files s).
Proof.
  intros Hfresh Hs. unfold save, save_model in Hs. rewrite bind_gets in Hs.
  destruct (negb (locked s)); [done|]. rewrite lift_bind in Hs.
  destruct ((take_snapshot sha256 (ax_device x) (adapter x)).1) as [text|]; [|done].
  destruct (Hfresh (files s) (String.String "." (path (ax_device x)))) as [Hnone _].
  pose proof (temporary_ne mkstemp (files s) (path (ax_device x)) Hfresh) as Hne.
  destruct (replace_file_spec fails torn mkstemp (files s) (path (ax_device x)) text _ eq_refl
    Hnone Hne s eq_refl) as (Hpost & _).
  rewrite Hs in Hpost. by exists text.
Qed.

Section roundtrip.
Context {A : Type} `{DA : DictionaryAdapter A}.

(** Loading the snapshot text of a model into a fresh one. *)
Lemma load_restores_text sha256 unreadable s d (a b : A) text :
  let rs := adapter_roles a in
  (∀ t, is_ascii (sha256 t) = true) → ascii_device d = true →
  (take_snapshot sha256 d a).1 = Ret text → files s !! path d = Some text →
  unreadable (path d) = false →
  adapter_roles b = rs → NoDup rs →
  forallb (restorable (adapter_od a) (adapter_od b)) rs = true →
  accepts b (restored (adapter_od a) rs) →
  ∃ b', load sha256 unreadable s d b = (Ret true, b')
    ∧ (parameter_values b').1 = (parameter_values a).1
    ∧ is_ret (parameter_values b').1 = true
    ∧ ∀ k, k ∉ map address_key rs → entries (adapter_od b') !! k = entries (adapter_od b) !! k.
Proof.
  intros rs Hsha Hd Ht Hfile Hun Hroles Hnd Hrest Hacc.
  destruct (all_restorable _ _ _ Hrest) as (bss & bss' & Hr).
  destruct (check_restored sha256 Hsha d a b text rs bss bss' Hd Ht eq_refl Hroles Hnd Hr Hacc) as [Hc Hpa].
  assert (∀ r, r ∈ rs → known (adapter_od b) r) as Hknown.
  { intros r Hin. apply list_elem_of_lookup_1 in Hin as [i Hi].
    destruct (Forall3_lookup_l _ _ _ _ _ _ Hr Hi) as (bs & bs' & _ & _ & Hx).
    destruct (rs_entry _ _ _ _ _ Hx) as (e' & He & _). by exists e'. }
  destruct (write_parameters_spec (restored (adapter_od a) rs) [] (adapter_od b) b)
    as (o' & Hw & Hdef & Hval & Hrst).
  { apply Forall_forall. intros kv Hin. apply Hknown. rewrite <-(restored_keys (adapter_od a) rs).
    by apply (list_elem_of_fmap_2 fst). }
  { done. }
  assert (parameter_values (set_adapter_od o' b) = (Ret (value_texts rs bss), set_adapter_od o' b)) as Hpb.
  { destruct (Forall3_pairs _ (λ r, 0 ≤ r.1 ∧ 0 ≤ r.2) (λ _ _, True) (λ _ _, True) _ _ _
      (λ r bs bs' Hx, conj (conj (rs_index _ _ _ _ _ Hx) (rs_subindex _ _ _ _ _ Hx)) (conj I I)) Hr)
      as (Hpos & _ & _).
    apply parameter_values_run; [by rewrite set_od_roles|by apply parameter_keys_NoDup|].
    rewrite get_set_od. eapply Forall3_Forall2; [exact Hr|]. intros r bs bs' Hin Hx.
    destruct (rs_entry _ _ _ _ _ Hx) as (e' & He & _ & _ & Henc & _).
    apply (parameter_bytes_restored (adapter_od b) _ r e' (restored_value (adapter_od a) r)); try done.
    rewrite Hval. unfold overlaid. rewrite restored_get by done. done. }
  exists (set_adapter_od o' b). split_and!.
  - unfold load. rewrite Hfile, Hun. unfold load_text, mbind at 1, M_bind at 1, mbind at 1, M_bind at 1.
    by rewrite Hc, Hw.
  - by rewrite Hpb, Hpa.
  - by rewrite Hpb.
  - intros k Hk. rewrite get_set_od. apply Hrst. unfold restored. by rewrite map_map.
Qed.

(** C15. A snapshot restores what was saved.  When [save] returned for a model, a
    fresh model of the same device loads the snapshot: each persistent
    parameter that has the same numeric type there, a finite value and, when it
    is read-only, the same value already, is set to the value that was saved;
    the parameter texts of the two models are then the same, and no other
    object of the fresh model has changed.  The conditions are needed: a
    parameter that is not finite is saved all the same, and rejected by [load]
    ([nonfinite_snapshot_rejected] below). *)
Theorem load_restores_saved sha256 fails torn mkstemp unreadable (x : axis A store) s s' (b : A) :
  let d := ax_device x in let a := adapter x in let rs := adapter_roles a in
  (∀ t, is_ascii (sha256 t) = true) → fresh_names mkstemp → ascii_device d = true →
  save sha256 fails torn mkstemp x s = (Ret tt, s') →
  unreadable (path d) = false →
  adapter_roles b = rs → NoDup rs →
  forallb (restorable (adapter_od a) (adapter_od b)) rs = true →
  accepts b (restored (adapter_od a) rs) →
  ∃ b', load sha256 unreadable s' d b = (Ret true, b')
    ∧ (parameter_values b').1 = (parameter_values a).1
    ∧ is_ret (parameter_values b').1 = true
    ∧ ∀ k, k ∉ map address_key rs → entries (adapter_od b') !! k = entries (adapter_od b) !! k.
Proof.
  intros d a rs Hsha Hfresh Hd Hsave Hun Hroles Hnd Hrest Hacc.
  destruct (save_files sha256 fails torn mkstemp x s s' Hfresh Hsave) as (text & Ht & Hfile).
  apply (load_restores_text sha256 unreadable s' d a b text); try done.
  rewrite Hfile. apply lookup_insert_eq.
Qed.
End roundtrip.

(** A changed parameter of the built-in model comes back. *)
Definition changed_adapter : FKrCmmtAdapter :=
  (on_bridge (write 0x6067 (PInt 77) (Some 0)) linear_adapter).2.

Definition demo_saved : outcome () * store :=
  save (λ _, "digest") (λ _, false) (λ _ t, t) (λ d p, fresh_string p d)
    (demo_axis changed_adapter) demo_store.

Lemma demo_saved_eq :
  demo_saved = save (λ _, "digest") (λ _, false) (λ _ t, t) (λ d p, fresh_string p d)
    (demo_axis changed_adapter) demo_store.
Proof. reflexivity. Qed.

Lemma demo_axis_adapter a : adapter (demo_axis a) = a.
Proof. reflexivity. Qed.

Lemma load_restores_saved_witness :
  demo_saved = (Ret tt, demo_saved.2)
  ∧ ∃ b', load (λ _, "digest") (λ _, false) demo_saved.2 default_device linear_adapter = (Ret true, b')
      ∧ (parameter_values b').1 = (parameter_values changed_adapter).1.
Proof.
  assert (demo_saved = (Ret tt, demo_saved.2)) as Hs by (apply ran_ok; vm_compute; reflexivity).
  split; [exact Hs|].
  destruct (load_restores_saved (λ _, "digest") (λ _, false) (λ _ t, t) (λ d p, fresh_string p d)
    (λ _, false) (demo_axis changed_adapter) demo_store demo_saved.2 linear_adapter)
    as (b' & Hl & Hp & _).
  - intros t. vm_compute. reflexivity.
  - exact fresh_string_names.
  - vm_compute. reflexivity.
  - rewrite <-demo_saved_eq. exact Hs.
  - reflexivity.
  - vm_compute. reflexivity.
  - apply (bool_decide_unpack (NoDup _)). vm_compute. exact I.
  - vm_compute. reflexivity.
  - exact I.
  - exists b'. rewrite demo_axis_adapter in Hp. split; [exact Hl|exact Hp].
Defined.

(** The velocity limit 0x2183:0C is a persistent float: a client that writes a
    value that is no number to it can save it, and the snapshot it leaves is
    rejected at the next start. *)
Definition nonfinite_adapter : FKrCmmtAdapter :=
  (adapter_write_sdo 0x2183 0x0C [x00; x00; xc0; x7f] linear_adapter).2.

Definition nonfinite_saved : outcome () * store :=
  save (λ _, "digest") (λ _, false) (λ _ t, t) (λ d p, fresh_string p d)
    (demo_axis nonfinite_adapter) demo_store.

Definition is_value_raise {X} (o : outcome X) : bool :=
  match o with Raise ValueError => true | _ => false end.

Example nonfinite_snapshot_rejected :
  is_ret (adapter_write_sdo 0x2183 0x0C [x00; x00; xc0; x7f] linear_adapter).1
  && is_ret nonfinite_saved.1
  && is_value_raise
       (load (λ _, "digest") (λ _, false) nonfinite_saved.2 default_device linear_adapter).1 = true.
Proof. vm_compute. reflexivity. Qed.
