(* ===== verification/ConfigProps.v ===== *)
(** * What a configuration guarantees

    The theorems about [validate_config] and [load_environment] of
    src/functional_model/configuration.py (Config.v): accepted configurations
    are sound, all sound ones are accepted, and the environment determines the
    axes. *)

From stdpp Require Import sorting.
From S2P Require Import Prelude PyFloat.
From S2P Require Export Config.

Open Scope string_scope.
Open Scope list_scope.
Open Scope Z_scope.

(** ** Lemmas *)

Lemma require_inv b r : require b = Ret r → b = true.
Proof. by destruct b. Qed.

(** Decompose a hypothesis that a test of the configuration passed. *)
Ltac passed H :=
  lazymatch type of H with
  | (_ ≫= _) = Ret _ =>
      let a := fresh "a" in
      let H1 := fresh "H" in
      apply outcome_bind_inv in H as (a & H1 & H); passed H1; passed H
  | require _ = Ret _ => apply require_inv in H
  | reject = Ret _ => discriminate H
  | Raise _ = Ret _ => discriminate H
  | match ?j with _ => _ end = Ret _ => destruct j eqn:?; passed H
  | _ => idtac
  end.

(** A device that passes the tests that do not concern the other devices. *)
Record device_ok (c : config_device) : Prop := {
  ok_index : 0 ≤ slave_index (cd_device c);
  ok_id : name_ok (device_id (cd_device c)) = true;
  ok_set : name_ok (parameter_set (cd_device c)) = true;
  ok_type : device_type (cd_device c) = "cia402-drive";
  ok_model : model_type (cd_device c) ∈ ["f_kr_cmmt"; "copley_drive_sim"];
  ok_mode : model_mode (cd_device c) ∈ ["linear"; "rotary"];
  ok_artifact : is_Some (cd_artifact c) ↔ model_type (cd_device c) = "copley_drive_sim";
}.

Definition index_of (c : config_device) : Z := slave_index (cd_device c).
Definition id_of (c : config_device) : string := device_id (cd_device c).
Definition set_of (c : config_device) : string := parameter_set (cd_device c).


Lemma fields_inv j keys d : fields j keys = Ret d → j = JObj d ∧ same_keys d keys = true.
Proof. destruct j as [| | | | | |d']; try done. cbn. destruct (same_keys d' keys) eqn:E; [|done]. by intros [= <-]. Qed.

Lemma json_key_inv key d v : json_key key d = Ret v → dict_get key d = Some v.
Proof. unfold json_key. destruct (dict_get key d); [|done]. by intros [= <-]. Qed.

Lemma name_inv j s : name j = Ret s → j = JStr s ∧ name_ok s = true.
Proof.
  unfold name, as_string. destruct j; try done. cbn. destruct (name_ok s0) eqn:E; [|done].
  by intros [= <-].
Qed.

Section validate.
Context (resolve : string → string) (base : string).
Implicit Types (c d : config_device) (ds : list config_device).

Lemma validate_model_inv j k m a :
  validate_model resolve base j = Ret (k, m, a) →
  k ∈ ["f_kr_cmmt"; "copley_drive_sim"] ∧ m ∈ ["linear"; "rotary"]
  ∧ (is_Some a ↔ k = "copley_drive_sim")
  ∧ ∃ e : list (string * json), j = JObj e ∧ dict_get "type" e = Some (JStr k)
      ∧ dict_get "mode" e = Some (JStr m).
Proof.
  destruct j as [| | | | | |d]; try done. unfold validate_model. intros Hm.
  apply outcome_bind_inv in Hm as (d' & Hf & Hm).
  apply fields_inv in Hf as [[= <-] _].
  apply outcome_bind_inv in Hm as (jk & Hk%json_key_inv & Hm). rewrite Hk in Hm.
  apply outcome_bind_inv in Hm as (jm & Hmode%json_key_inv & Hm).
  destruct jk as [| | | |k'| |]; try done. destruct jm as [| | | |m'| |]; try done.
  apply outcome_bind_inv in Hm as (? & Hr%require_inv & Hm). apply andb_true_iff in Hr as [H1 H2].
  apply bool_decide_eq_true_1 in H1, H2.
  change (json_eqb (JStr k') (JStr "copley_drive_sim")) with (String.eqb k' "copley_drive_sim") in Hm.
  destruct (String.eqb_spec k' "copley_drive_sim") as [->|Hne].
  - passed Hm. injection Hm as <- <- <-. split_and!; [done|done| |by exists d]. split; [done|by eexists].
  - injection Hm as <- <- <-. split_and!; [done|done| |by exists d]. split; [by intros [? ?]|done].
Qed.

Lemma validate_device_inv idx ids sets j c :
  validate_device resolve base idx ids sets j = Ret c →
  device_ok c ∧ index_of c ∉ idx ∧ id_of c ∉ ids ∧ set_of c ∉ sets.
Proof.
  unfold validate_device. intros Hd.
  apply outcome_bind_inv in Hd as (d & _ & Hd).
  apply outcome_bind_inv in Hd as (ji & _ & Hd). destruct ji as [| |i| | | |]; try done.
  apply outcome_bind_inv in Hd as (? & [Hi Hi']%require_inv%andb_true_iff & Hd).
  apply outcome_bind_inv in Hd as (? & _ & Hd).
  apply outcome_bind_inv in Hd as (n & [_ Hn]%name_inv & Hd).
  apply outcome_bind_inv in Hd as (? & Hn'%require_inv & Hd).
  apply outcome_bind_inv in Hd as (? & _ & Hd).
  apply outcome_bind_inv in Hd as (p & [_ Hp]%name_inv & Hd).
  apply outcome_bind_inv in Hd as (? & Hp'%require_inv & Hd).
  apply outcome_bind_inv in Hd as (? & _ & Hd).
  apply outcome_bind_inv in Hd as (? & _ & Hd).
  apply outcome_bind_inv in Hd as (jm & _ & Hd).
  apply outcome_bind_inv in Hd as ([[k m] a] & (H1 & H2 & H3 & _)%validate_model_inv & Hd).
  injection Hd as <-. apply negb_true_iff, bool_decide_eq_false_1 in Hi', Hn', Hp'.
  split_and!; [|done..]. split; cbn; try done. lia.
Qed.

Lemma validate_devices_inv seen l ds :
  validate_devices resolve base seen l = Ret ds →
  length ds = length l ∧ Forall device_ok ds
  ∧ (NoDup (map index_of ds) ∧ ∀ c, c ∈ ds → index_of c ∉ map index_of seen)
  ∧ (NoDup (map id_of ds) ∧ ∀ c, c ∈ ds → id_of c ∉ map id_of seen)
  ∧ (NoDup (map set_of ds) ∧ ∀ c, c ∈ ds → set_of c ∉ map set_of seen).
Proof.
  revert seen ds. induction l as [|j l IH]; intros seen ds Hl.
  { injection Hl as <-. split_and!; try constructor; intros c Hc; by apply not_elem_of_nil in Hc. }
  cbn [validate_devices] in Hl. apply outcome_bind_inv in Hl as (c & Hc & Hl).
  apply outcome_bind_inv in Hl as (cs & Hcs & Hl). injection Hl as <-.
  apply validate_device_inv in Hc as (Hok & H1 & H2 & H3).
  destruct (IH _ _ Hcs) as (Hlen & Hall & [Hi Hi'] & [Hn Hn'] & [Hp Hp']).
  assert (∀ (B : Type) (f : config_device → B), NoDup (map f cs) → f c ∉ map f seen →
    (∀ d, d ∈ cs → f d ∉ map f (c :: seen)) →
    NoDup (map f (c :: cs)) ∧ ∀ d, d ∈ c :: cs → f d ∉ map f seen) as Hstep.
  { intros B f Hnd Hc Hcs'. split.
    - constructor; [|done]. intros (d & E & Hd)%list_elem_of_In%in_map_iff. apply list_elem_of_In in Hd.
      apply (Hcs' d Hd). rewrite E. by left.
    - intros d Hd. apply elem_of_cons in Hd as [->|Hd]; [done|]. intros Hin. apply (Hcs' d Hd). by right. }
  split_and!; [cbn; congruence|by constructor|..]; by apply Hstep.
Qed.

(** *** Sorting *)

Definition before (c d : config_device) : Prop := index_of c ≤ index_of d.

Lemma insert_device_perm c ds : insert_device c ds ≡ₚ c :: ds.
Proof.
  induction ds as [|d ds IH]; [done|]. cbn. destruct (_ <=? _); [done|].
  rewrite IH. apply Permutation_swap.
Qed.

Lemma sort_devices_perm ds : sort_devices ds ≡ₚ ds.
Proof. induction ds as [|d ds IH]; [done|]. cbn. by rewrite insert_device_perm, IH. Qed.

Lemma insert_device_sorted c ds : StronglySorted before ds → StronglySorted before (insert_device c ds).
Proof.
  induction 1 as [|d ds Hs IH Hd]; [repeat constructor|]. cbn.
  destruct (Z.leb_spec (slave_index (cd_device c)) (slave_index (cd_device d))) as [Hle|Hlt].
  - constructor; [by constructor|]. constructor; [exact Hle|].
    eapply Forall_impl; [exact Hd|]. unfold before, index_of. intros. lia.
  - constructor; [exact IH|]. rewrite insert_device_perm. constructor; [|exact Hd].
    unfold before, index_of. lia.
Qed.

Lemma sort_devices_sorted ds : StronglySorted before (sort_devices ds).
Proof. induction ds as [|d ds IH]; [constructor|]. by apply insert_device_sorted. Qed.

Lemma sorted_indices ds : StronglySorted before ds → StronglySorted Z.le (map index_of ds).
Proof.
  induction 1 as [|d ds _ IH Hd]; [constructor|]. cbn. constructor; [done|].
  apply Forall_forall. intros i (e & <- & He)%list_elem_of_In%in_map_iff. apply list_elem_of_In in He.
  exact (proj1 (Forall_forall _ _) Hd e He).
Qed.

Lemma indices_sorted ds : StronglySorted Z.le (map index_of ds) → StronglySorted before ds.
Proof.
  induction ds as [|d ds IH]; intros Hs; [constructor|]. cbn in Hs. inversion Hs as [|? ? H1 H2]; subst.
  constructor; [by apply IH|]. apply Forall_forall. intros e He. unfold before.
  apply (proj1 (Forall_forall _ _) H2). apply list_elem_of_In, in_map_iff.
  exists e. split; [done|by apply list_elem_of_In].
Qed.

Lemma seqZ_sorted n m : StronglySorted Z.le (seqZ m n).
Proof.
  destruct (Z.lt_ge_cases n 0) as [Hn|Hn]; [rewrite seqZ_nil by lia; constructor|].
  revert m. pattern n. apply natlike_ind; [|clear n Hn; intros n Hn IH m|done].
  - intros m. rewrite seqZ_nil by lia. constructor.
  - rewrite seqZ_cons by lia. constructor; [rewrite Z.pred_succ; apply IH|].
    apply Forall_forall. intros i Hi%elem_of_seqZ. lia.
Qed.

Lemma sort_devices_indices ds :
  NoDup (map index_of ds) → contiguous ds = true →
  map index_of (sort_devices ds) = seqZ 0 (Z.of_nat (length ds)).
Proof.
  intros Hd Hc. apply (StronglySorted_unique Z.le).
  - apply sorted_indices, sort_devices_sorted.
  - apply seqZ_sorted.
  - rewrite sort_devices_perm. unfold contiguous in Hc. apply andb_true_iff in Hc as [H1 H2].
    rewrite forallb_forall in H1, H2.
    apply NoDup_Permutation; [done|apply NoDup_seqZ|]. intros i. split; intros Hi;
      apply list_elem_of_In in Hi; [apply H1 in Hi|apply H2 in Hi]; by apply bool_decide_eq_true_1 in Hi.
Qed.

(** *** Accepted devices *)

(** The artifact of a device is a path that is resolved already. *)
Definition settled (p : string) : Prop := nonblank p = true ∧ resolve_in resolve base p = p.

Definition artifact_settled c : Prop :=
  match cd_artifact c with Some a => settled a | None => True end.

Lemma validate_model_json c :
  device_ok c → artifact_settled c →
  validate_model resolve base
    (JObj ([("type", JStr (model_type (cd_device c))); ("mode", JStr (model_mode (cd_device c)))]
       ++ match cd_artifact c with Some a => [("artifact", JStr a)] | None => [] end))
  = Ret (model_type (cd_device c), model_mode (cd_device c), cd_artifact c).
Proof.
  intros [_ _ _ _ Hk Hm Ha] Hs. unfold validate_model, artifact_settled in *.
  destruct (cd_artifact c) as [a|].
  - rewrite (proj1 Ha ltac:(by eexists)). destruct Hs as [Hs1 Hs2].
    transitivity (m ← Ret (model_mode (cd_device c));
      _ ← require (true && bool_decide (m ∈ ["linear"; "rotary"]));
      _ ← require (nonblank a); mret ("copley_drive_sim", m, Some (resolve_in resolve base a)));
      [reflexivity|].
    cbn [mbind outcome_bind]. by rewrite (bool_decide_eq_true_2 _ Hm), Hs1, Hs2.
  - assert (model_type (cd_device c) ≠ "copley_drive_sim") as Hne.
    { intros E. by apply Ha in E as [? ?]. }
    transitivity (let copley := String.eqb (model_type (cd_device c)) "copley_drive_sim" in
      m ← fields (JObj [("type", JStr (model_type (cd_device c))); ("mode", JStr (model_mode (cd_device c)))])
            (if copley then ["type"; "mode"; "artifact"] else ["type"; "mode"]);
      k ← json_key "type" m; mode ← json_key "mode" m;
      match k, mode with
      | JStr k, JStr mode =>
          _ ← require (bool_decide (k ∈ ["f_kr_cmmt"; "copley_drive_sim"])
                   && bool_decide (mode ∈ ["linear"; "rotary"]));
          if copley then
            a ← json_key "artifact" m; a ← as_string a;
            _ ← require (nonblank a);
            mret (k, mode, Some (resolve_in resolve base a))
          else mret (k, mode, None)
      | _, _ => reject
      end); [reflexivity|]. cbv zeta.
    rewrite (proj2 (String.eqb_neq _ _) Hne). cbv iota.
    transitivity (k ← Ret (model_type (cd_device c)); m ← Ret (model_mode (cd_device c));
      _ ← require (bool_decide (k ∈ ["f_kr_cmmt"; "copley_drive_sim"])
               && bool_decide (m ∈ ["linear"; "rotary"])); mret (k, m, None : option string));
      [reflexivity|].
    cbn [mbind outcome_bind]. by rewrite (bool_decide_eq_true_2 _ Hk), (bool_decide_eq_true_2 _ Hm).
Qed.

(** The validation of a device in its JSON form. *)
Lemma validate_device_json_eq (d : device) a idx ids sets :
  validate_device resolve base idx ids sets (device_json d a) =
  (_ ← require ((0 <=? slave_index d) && negb (bool_decide (slave_index d ∈ idx)));
   i ← name (JStr (device_id d)); _ ← require (negb (bool_decide (i ∈ ids)));
   p ← name (JStr (parameter_set d)); _ ← require (negb (bool_decide (p ∈ sets)));
   _ ← require (String.eqb (device_type d) "cia402-drive");
   m ← validate_model resolve base
     (JObj ([("type", JStr (model_type d)); ("mode", JStr (model_mode d))]
        ++ match a with Some a => [("artifact", JStr a)] | None => [] end));
   let '(kind, mode, artifact) := m in
   mret (ConfigDevice (Device (slave_index d) i "cia402-drive" kind mode p) artifact)).
Proof. reflexivity. Qed.

Lemma validate_device_json c idx ids sets :
  device_ok c → artifact_settled c → index_of c ∉ idx → id_of c ∉ ids → set_of c ∉ sets →
  validate_device resolve base idx ids sets (device_json (cd_device c) (cd_artifact c)) = Ret c.
Proof.
  intros Hok Hs Hi Hn Hp. pose proof (validate_model_json c Hok Hs) as Hm.
  destruct Hok as [Hi' Hn' Hp' Ht _ _ _].
  rewrite validate_device_json_eq, Hm, (proj2 (Z.leb_le 0 _)), bool_decide_eq_false_2 by done.
  unfold name. cbn [as_string mbind outcome_bind negb andb require mret outcome_ret].
  rewrite Hn', Hp'. cbn [require mbind outcome_bind mret outcome_ret].
  rewrite !bool_decide_eq_false_2, Ht, String.eqb_refl by done. cbn. rewrite <-Ht.
  by destruct c as [[] ?].
Qed.

Lemma validate_device_json_inv (d : device) a idx ids sets c :
  validate_device resolve base idx ids sets (device_json d a) = Ret c → cd_device c = d.
Proof.
  rewrite validate_device_json_eq. intros Hd.
  apply outcome_bind_inv in Hd as (? & _ & Hd).
  apply outcome_bind_inv in Hd as (? & [[= <-] _]%name_inv & Hd).
  apply outcome_bind_inv in Hd as (? & _ & Hd).
  apply outcome_bind_inv in Hd as (? & [[= <-] _]%name_inv & Hd).
  apply outcome_bind_inv in Hd as (? & _ & Hd).
  apply outcome_bind_inv in Hd as (? & Ht%require_inv%String.eqb_eq & Hd).
  apply outcome_bind_inv in Hd as ([[k m] a'] & (_ & _ & _ & e & [= <-] & [= <-] & [= <-])%validate_model_inv & Hd).
  injection Hd as <-. cbn. rewrite <-Ht. by destruct d.
Qed.

Lemma validate_devices_json_inv seen ds cs :
  validate_devices resolve base seen (map (λ c, device_json (cd_device c) (cd_artifact c)) ds) = Ret cs →
  map cd_device cs = map cd_device ds.
Proof.
  revert seen cs. induction ds as [|d ds IH]; intros seen cs Hl; [by injection Hl as <-|].
  cbn [map validate_devices] in Hl. apply outcome_bind_inv in Hl as (c & Hc & Hl).
  apply outcome_bind_inv in Hl as (cs' & Hcs & Hl). injection Hl as <-. cbn.
  by rewrite (validate_device_json_inv _ _ _ _ _ _ Hc), (IH _ _ Hcs).
Qed.

Lemma validate_devices_json seen ds :
  Forall device_ok ds → Forall artifact_settled ds →
  NoDup (map index_of (seen ++ ds)) → NoDup (map id_of (seen ++ ds)) → NoDup (map set_of (seen ++ ds)) →
  validate_devices resolve base seen (map (λ c, device_json (cd_device c) (cd_artifact c)) ds) = Ret ds.
Proof.
  revert seen. induction ds as [|c ds IH]; intros seen Hok Hs Hi Hn Hp; [done|].
  apply Forall_cons in Hok as [Hc Hok]. apply Forall_cons in Hs as [Hsc Hs].
  assert (∀ (B : Type) (f : config_device → B), NoDup (map f (seen ++ c :: ds)) →
    f c ∉ map f seen ∧ NoDup (map f ((c :: seen) ++ ds))) as Hstep.
  { intros B f Hd. rewrite <-(Permutation_middle seen ds c) in Hd.
    cbn in Hd. pose proof Hd as [Hd1 _]%NoDup_cons. split; [|exact Hd].
    intros Hin. apply Hd1. rewrite map_app. apply elem_of_app. by left. }
  destruct (Hstep _ _ Hi) as [Hi1 Hi2]. destruct (Hstep _ _ Hn) as [Hn1 Hn2].
  destruct (Hstep _ _ Hp) as [Hp1 Hp2].
  cbn [map validate_devices].
  assert (validate_device resolve base (map index_of seen) (map id_of seen) (map set_of seen)
    (device_json (cd_device c) (cd_artifact c)) = Ret c) as E by (by apply validate_device_json).
  unfold index_of, id_of, set_of in E. rewrite E. cbn [mbind outcome_bind].
  by rewrite (IH (c :: seen)).
Qed.
End validate.

(** ** Properties *)

(** A configuration the program may run with. *)
Record valid_config (c : config) : Prop := {
  vc_interface : interface_ok (cf_interface c) = true;
  vc_some : cf_devices c ≠ [];
  vc_devices : Forall device_ok (cf_devices c);
  vc_indices : map index_of (cf_devices c) = seqZ 0 (Z.of_nat (length (cf_devices c)));
  vc_ids : NoDup (map id_of (cf_devices c));
  vc_sets : NoDup (map set_of (cf_devices c));
}.

(** A name that stays inside its directory and is no hidden file. *)
Definition plain_file (s : string) : bool :=
  negb (Text.contains "/" s) && negb (Text.starts_with "." s).

Definition snapshot_file (c : config_device) : string := path (cd_device c).

Lemma name_plain_file s : name_ok s = true → plain_file (s ++ ".json") = true.
Proof.
  destruct s as [|a s]; [done|]. cbn [name_ok]. intros [[Ha Hs]%andb_true_iff _]%andb_true_iff.
  unfold plain_file.
  assert (∀ b, (is_alnum b || one_of "_-" b) = true → Ascii.eqb "/" b = false) as Hb.
  { intros b. assert (implb (is_alnum b || one_of "_-" b) (negb (Ascii.eqb "/" b)) = true) as E.
    { revert b. refine (forall_ascii _ _). vm_compute. reflexivity. }
    intros Hb. rewrite Hb in E. by apply negb_true_iff in E. }
  assert (∀ b, is_alnum b = true → Ascii.eqb "." b = false) as Hdot.
  { intros b. assert (implb (is_alnum b) (negb (Ascii.eqb "." b)) = true) as E.
    { revert b. refine (forall_ascii _ _). vm_compute. reflexivity. }
    intros Hb'. rewrite Hb' in E. by apply negb_true_iff in E. }
  assert (Text.contains "/" (s ++ ".json") = false) as Hc.
  { clear Ha. induction s as [|b s IH]; [done|]. cbn in Hs. apply andb_true_iff in Hs as [H1 H2].
    change (Text.contains "/" (String.String b s ++ ".json"))
      with ((Ascii.eqb "/" b && true) || Text.contains "/" (s ++ ".json")).
    by rewrite (Hb b H1), (IH H2). }
  change (Text.contains "/" (String.String a s ++ ".json"))
    with ((Ascii.eqb "/" a && true) || Text.contains "/" (s ++ ".json")).
  change (Text.starts_with "." (String.String a s ++ ".json")) with (Ascii.eqb "." a && true).
  rewrite Hc, (Hdot a Ha), (Hb a) by (by rewrite Ha). done.
Qed.

Lemma NoDup_map_inj {B C} (f : B → C) l x y :
  NoDup (map f l) → x ∈ l → y ∈ l → f x = f y → x = y.
Proof.
  intros Hd [i Hi]%list_elem_of_lookup [j Hj]%list_elem_of_lookup E.
  assert (i = j) as ->; [|congruence].
  eapply (NoDup_lookup (f <$> l)); [exact Hd|rewrite list_lookup_fmap, Hi; reflexivity|].
  rewrite list_lookup_fmap, Hj. cbn. by rewrite E.
Qed.

Lemma append_cancel s s' t : (s ++ t)%string = (s' ++ t)%string → s = s'.
Proof.
  revert s'. induction s as [|a s IH]; intros [|b s'] E; [done| | |].
  - apply (f_equal String.length) in E. rewrite !String.app_length in E. cbn in E. lia.
  - apply (f_equal String.length) in E. rewrite !String.app_length in E. cbn in E. lia.
  - injection E as -> E. f_equal. by apply IH.
Qed.

Lemma snapshot_files_NoDup ds : NoDup (map set_of ds) → NoDup (map snapshot_file ds).
Proof.
  assert (map snapshot_file ds = (λ s, (s ++ ".json")%string) <$> (map set_of ds)) as ->
    by (symmetry; apply map_map).
  intros Hd. apply NoDup_fmap_2_strong; [|done].
  intros s s' _ _ E. by apply append_cancel in E.
Qed.

(** A test whose only failure is a [ValueError]. *)
Definition only_value_error {A} (r : outcome A) : Prop := ∀ e, r = Raise e → e = ValueError.

Lemma ove_bind {A B} (m : outcome A) (k : A → outcome B) :
  only_value_error m → (∀ a, m = Ret a → only_value_error (k a)) → only_value_error (m ≫= k).
Proof. intros Hm Hk e. destruct m as [a|e']; [by apply Hk|]. intros [= <-]. by apply Hm. Qed.

Lemma ove_ret {A} (a : A) : only_value_error (mret a).
Proof. by intros e. Qed.

Lemma ove_reject {A} : only_value_error (reject (A:=A)).
Proof. by intros e [= <-]. Qed.

Lemma ove_require b : only_value_error (require b).
Proof. destruct b; intros e; [done|by intros [= <-]]. Qed.

Lemma ove_string j : only_value_error (as_string j).
Proof. destruct j; intros e; first [done | by intros [= <-]]. Qed.

Lemma ove_name j : only_value_error (name j).
Proof.
  apply ove_bind; [apply ove_string|]. intros s _. apply ove_bind; [apply ove_require|].
  intros _ _. apply ove_ret.
Qed.

Lemma ove_fields j keys : only_value_error (fields j keys).
Proof.
  destruct j; intros e; cbn; try (by intros [= <-]). destruct (same_keys _ _); [done|by intros [= <-]].
Qed.

(** After [fields] the keys are there. *)
Lemma ove_key j keys d key :
  fields j keys = Ret d → bool_decide (key ∈ keys) = true → only_value_error (json_key key d).
Proof.
  intros [_ Hk]%fields_inv Hin%bool_decide_eq_true_1. apply andb_true_iff in Hk as [_ Hk].
  apply bool_decide_eq_true_1 in Hk. specialize (Hk key Hin). unfold json_key.
  destruct (dict_get key d) as [v|] eqn:E; [apply ove_ret|].
  apply list_elem_of_fmap in Hk as ([k v] & -> & Hk). exfalso. clear Hin. cbn in E.
  induction d as [|[k' v'] d IH]; [by apply not_elem_of_nil in Hk|]. cbn in E.
  destruct (decide (k = k')); [done|]. apply elem_of_cons in Hk as [[= -> ->]|Hk]; [done|].
  by apply IH.
Qed.

(** Follow the structure of a validation. *)
Ltac ove := repeat first
  [ apply ove_ret | apply ove_reject | apply ove_require | apply ove_string | apply ove_name
  | apply ove_fields | (eapply ove_key; [eassumption|reflexivity])
  | solve [auto]
  | apply ove_bind; [|intros ? ?]
  | lazymatch goal with |- only_value_error (match ?x with _ => _ end) => destruct x end ].

Section ove.
Context (resolve : string → string) (base : string).

Lemma ove_model j : only_value_error (validate_model resolve base j).
Proof.
  unfold validate_model. destruct j as [| | | | | |d]; try apply ove_reject. cbv zeta.
  destruct (match dict_get "type" d with Some k => _ | None => false end); ove.
Qed.

Lemma ove_device idx ids sets j : only_value_error (validate_device resolve base idx ids sets j).
Proof. pose proof ove_model. unfold validate_device. ove. Qed.

Lemma ove_devices seen l : only_value_error (validate_devices resolve base seen l).
Proof.
  revert seen. induction l as [|j l IH]; intros seen; cbn [validate_devices]; [apply ove_ret|].
  apply ove_bind; [apply ove_device|]. intros c _. apply ove_bind; [apply IH|]. intros ds _. apply ove_ret.
Qed.

Lemma ove_config data : only_value_error (validate_config resolve data base).
Proof. pose proof ove_devices. unfold validate_config. ove. Qed.
End ove.

Lemma validate_config_valid resolve data base c :
  validate_config resolve data base = Ret c → valid_config c.
Proof.
  intros Hc. unfold validate_config in Hc. do 7 (apply outcome_bind_inv in Hc as (? & _ & Hc)).
  apply outcome_bind_inv in Hc as (? & Hnic%require_inv & Hc).
  do 6 (apply outcome_bind_inv in Hc as (? & _ & Hc)).
  lazymatch type of Hc with match ?x with _ => _ end = _ =>
    destruct x as [| | | | |[|j l]|]; try done end.
  apply outcome_bind_inv in Hc as (ds & Hds & Hc).
  apply outcome_bind_inv in Hc as (? & Hr%require_inv & Hc). injection Hc as <-.
  apply validate_devices_inv in Hds as (Hlen & Hall & [Hi _] & [Hn _] & [Hp _]).
  pose proof (sort_devices_perm ds) as Hperm.
  split; cbn.
  - done.
  - intros E. rewrite E in Hperm. apply Permutation_length in Hperm. cbn in *. lia.
  - by rewrite Hperm.
  - rewrite sort_devices_indices by done. by rewrite Hperm.
  - by rewrite Hperm.
  - by rewrite Hperm.
Qed.

(** C27. An accepted configuration is sound: the slaves are numbered from zero in
    order, their identities and their parameter sets are distinct and well
    formed, types, models and modes are supported, an artifact belongs to an
    FMU model; so every axis has a snapshot file of its own, inside the storage
    directory and distinct from its hidden files.  Every rejection is a
    [ValueError]. *)
Theorem validate_config_sound resolve data base :
  match validate_config resolve data base with
  | Ret c =>
      valid_config c
      ∧ NoDup (map snapshot_file (cf_devices c))
      ∧ Forall (λ d, plain_file (snapshot_file d) = true) (cf_devices c)
  | Raise e => e = ValueError
  end.
Proof.
  destruct (validate_config resolve data base) as [c|e] eqn:Hc; [|by apply ove_config in Hc].
  pose proof (validate_config_valid _ _ _ _ Hc) as Hv.
  split; [exact Hv|]. split; [apply snapshot_files_NoDup, Hv|].
  eapply Forall_impl; [exact (vc_devices c Hv)|]. intros d Hd. by apply name_plain_file, ok_set.
Qed.

(** The validation of a configuration in its JSON form. *)
Lemma validate_config_json_eq resolve base nic dir ds :
  validate_config resolve (config_json nic dir ds) base =
  (_ ← require (interface_ok nic); _ ← require (nonblank dir);
   match map (λ c, device_json (cd_device c) (cd_artifact c)) ds with
   | j :: l =>
       dds ← validate_devices resolve base [] (j :: l);
       _ ← require (contiguous dds);
       mret (Config nic (resolve_in resolve base dir) (sort_devices dds))
   | [] => reject
   end).
Proof. reflexivity. Qed.

(** C28. Every valid configuration is accepted, with its devices in any order, and
    unchanged, as long as its parameter directory and its artifact paths are
    not blank and resolved already; a relative path comes back resolved.  On
    such paths validation is idempotent and rejects nothing that is sound. *)
Theorem validate_config_complete resolve base c ds :
  valid_config c → settled resolve base (cf_directory c) →
  Forall (artifact_settled resolve base) (cf_devices c) → ds ≡ₚ cf_devices c →
  validate_config resolve (config_json (cf_interface c) (cf_directory c) ds) base = Ret c.
Proof.
  intros [Hnic Hsome Hall Hi Hn Hp] [Hd1 Hd2] Ha Hperm.
  assert (NoDup (map index_of (cf_devices c))) as Hi' by (rewrite Hi; apply NoDup_seqZ).
  assert (contiguous ds = true) as Hcont.
  { unfold contiguous. rewrite (Permutation_length Hperm), <-Hi.
    apply andb_true_iff. split; apply forallb_forall; intros i Hin; apply bool_decide_eq_true_2;
      apply list_elem_of_In in Hin; [by rewrite <-Hperm|by rewrite Hperm]. }
  assert (sort_devices ds = cf_devices c) as Hsort.
  { apply (StronglySorted_unique_strong before).
    - intros x y Hx Hy Hxy Hyx. rewrite sort_devices_perm, Hperm in Hx.
      apply (NoDup_map_inj index_of (cf_devices c)); auto. unfold before in *. lia.
    - apply sort_devices_sorted.
    - apply indices_sorted. rewrite Hi. apply seqZ_sorted.
    - by rewrite sort_devices_perm. }
  rewrite validate_config_json_eq.
  rewrite Hnic, Hd1. cbn [require mbind outcome_bind mret outcome_ret].
  destruct ds as [|d ds']; [by apply Permutation_nil_l in Hperm|].
  transitivity (
    dds ← validate_devices resolve base []
           (map (λ c, device_json (cd_device c) (cd_artifact c)) (d :: ds'));
    _ ← require (contiguous dds);
    mret (Config (cf_interface c) (resolve_in resolve base (cf_directory c)) (sort_devices dds)));
    [reflexivity|].
  rewrite validate_devices_json; cbn [app]; try (by rewrite Hperm).
  cbn [mbind outcome_bind]. rewrite Hcont, Hd2, Hsort. by destruct c.
Qed.

(** The axes of the bus with their settings. *)
Definition has_settings (st : settings) (d : device) : Prop :=
  dict_get (slave_index d) (st_ids st) = Some (device_id d)
  ∧ dict_get (slave_index d) (st_models st) = Some (model_type d)
  ∧ dict_get (slave_index d) (st_modes st) = Some (model_mode d)
  ∧ dict_get (slave_index d) (st_sets st) = Some (parameter_set d).

Lemma setting_inv m i s : setting m i = Ret s → dict_get i m = Some s.
Proof. unfold setting. destruct (dict_get i m); [|done]. by intros [= <-]. Qed.

Lemma bus_devices_inv st entries indices ds :
  bus_devices st entries indices = Ret ds →
  Forall (has_settings st) ds
  ∧ Forall2 (λ entry d, match_slave entry = Ret (slave_index d)) entries ds.
Proof.
  revert indices ds. induction entries as [|entry entries IH]; intros indices ds Hb.
  { injection Hb as <-. split; constructor. }
  cbn [bus_devices] in Hb. apply outcome_bind_inv in Hb as (index & Hi & Hb).
  apply outcome_bind_inv in Hb as (? & _ & Hb).
  apply outcome_bind_inv in Hb as (i & H1%setting_inv & Hb).
  apply outcome_bind_inv in Hb as (k & H2%setting_inv & Hb).
  apply outcome_bind_inv in Hb as (m & H3%setting_inv & Hb).
  apply outcome_bind_inv in Hb as (p & H4%setting_inv & Hb).
  apply outcome_bind_inv in Hb as (ds' & Hds & Hb). injection Hb as <-.
  destruct (IH _ _ Hds) as [IH1 IH2]. split; constructor; done.
Qed.

Lemma traverse_devices env ds cds :
  traverse (λ d, a ← artifact_of env d; mret (ConfigDevice d a)) ds = Ret cds → map cd_device cds = ds.
Proof.
  revert cds. induction ds as [|d ds IH]; intros cds Ht; [by injection Ht as <-|].
  cbn [traverse] in Ht. apply outcome_bind_inv in Ht as (c & Hc & Ht).
  apply outcome_bind_inv in Hc as (a & _ & Hc). injection Hc as <-.
  apply outcome_bind_inv in Ht as (cs & Hcs & Ht). injection Ht as <-. cbn. by rewrite (IH _ Hcs).
Qed.

(** C29. A configuration from the environment has exactly the axes of the bus, in
    the order of their indices, each with the identity, model, mode and
    parameter set that the four mappings give for its index; the mappings have
    no other index, and the configuration is sound. *)
Theorem load_environment_axes resolve env base c :
  load_environment resolve env base = Ret c →
  valid_config c
  ∧ ∃ ids models modes sets bus ds,
      mapping env "IDS" = Ret ids ∧ mapping env "MODELS" = Ret models
      ∧ mapping env "MODES" = Ret modes ∧ mapping env "PARAMETER_SETS" = Ret sets
      ∧ required env "DEVICE_SIMULATOR_BUS" = Ret bus
      ∧ Forall2 (λ entry d, match_slave entry = Ret (slave_index d)) (split_on "," bus) ds
      ∧ map cd_device (cf_devices c) ≡ₚ ds
      ∧ Forall (has_settings (Settings ids models modes sets)) ds
      ∧ forallb (λ m, same_indices m ds) [ids; models; modes; sets] = true.
Proof.
  intros Hl. unfold load_environment in Hl.
  apply outcome_bind_inv in Hl as (? & _ & Hl).
  apply outcome_bind_inv in Hl as (ids & H1 & Hl). apply outcome_bind_inv in Hl as (models & H2 & Hl).
  apply outcome_bind_inv in Hl as (modes & H3 & Hl). apply outcome_bind_inv in Hl as (sets & H4 & Hl).
  apply outcome_bind_inv in Hl as (bus & H5 & Hl). apply outcome_bind_inv in Hl as (ds & H6 & Hl).
  apply outcome_bind_inv in Hl as (? & H7%require_inv & Hl).
  apply outcome_bind_inv in Hl as (? & _ & Hl).
  apply outcome_bind_inv in Hl as (cds & H8%traverse_devices & Hl).
  apply outcome_bind_inv in Hl as (state & _ & Hl). apply outcome_bind_inv in Hl as (nic & _ & Hl).
  destruct (bus_devices_inv _ _ _ _ H6) as [H9 H10].
  split.
  { exact (validate_config_valid _ _ _ _ Hl). }
  exists ids, models, modes, sets, bus, ds. split_and!; try done.
  rewrite validate_config_json_eq in Hl.
  do 2 (apply outcome_bind_inv in Hl as (? & _ & Hl)).
  destruct cds as [|d cds]; [done|]. cbn [map] in Hl.
  apply outcome_bind_inv in Hl as (dds & Hd & Hl). apply outcome_bind_inv in Hl as (? & _ & Hl).
  injection Hl as <-. cbn [cf_devices]. rewrite sort_devices_perm, <-H8.
  by rewrite (validate_devices_json_inv resolve base [] (d :: cds) dds Hd).
Qed.

(** ** Examples *)

(** tests/fixtures/four-axes.env *)
Definition four_axes : string :=
"KICKCAT_INTERFACE=enp1s0
DEVICE_SIMULATOR_STATE_DIR=../state
DEVICE_SIMULATOR_BUS=0:axis:cia402-drive,1:axis:cia402-drive,2:axis:cia402-drive,3:axis:cia402-drive
DEVICE_SIMULATOR_AXIS_IDS=0: virtual-axis-0, 1: virtual-axis-1, 2: virtual-axis-2, 3: virtual-axis-3
DEVICE_SIMULATOR_AXIS_MODELS=0: f_kr_cmmt, 1: f_kr_cmmt, 2: f_kr_cmmt, 3: f_kr_cmmt
DEVICE_SIMULATOR_AXIS_MODES=0: linear, 1: linear, 2: rotary, 3: rotary
DEVICE_SIMULATOR_AXIS_PARAMETER_SETS=0: axis-0, 1: axis-1, 2: axis-2, 3: axis-3
".

Definition four_axes_env : list (string * string) :=
  match read_env four_axes with Ret env => env | Raise _ => [] end.

Definition four_axes_config : config :=
  match load_config (λ p, p) four_axes "/base" with
  | Ret c => c
  | Raise _ => Config "" "" []
  end.

Lemma four_axes_loads : load_environment (λ p, p) four_axes_env "/base" = Ret four_axes_config.
Proof. vm_compute. reflexivity. Qed.

(** The examples of tests/integration/test_configuration.py for [read_env]. *)
Example read_env_examples :
  map read_env ["KEY='literal value' # comment
BUS=0:axis:cia402-drive,\
  1:axis:cia402-drive"; "KEY=1
KEY=2"; "KEY=${OTHER}"; "{1}"; "KEY=value\"]
  = [Ret [("KEY", "literal value"); ("BUS", "0:axis:cia402-drive, 1:axis:cia402-drive")];
     Raise ValueError; Raise ValueError; Raise ValueError; Raise ValueError].
Proof. vm_compute. reflexivity. Qed.

Lemma load_environment_axes_witness :
  valid_config four_axes_config
  ∧ ∃ modes ds, mapping four_axes_env "MODES" = Ret modes
      ∧ map cd_device (cf_devices four_axes_config) ≡ₚ ds
      ∧ Forall (λ d, dict_get (slave_index d) modes = Some (model_mode d)) ds.
Proof.
  destruct (load_environment_axes (λ p, p) four_axes_env "/base" four_axes_config four_axes_loads)
    as (Hv & ids & models & modes & sets & bus & ds & _ & _ & H1 & _ & _ & _ & H2 & H3 & _).
  split; [exact Hv|]. exists modes, ds. split_and!; [exact H1|exact H2|].
  eapply Forall_impl; [exact H3|]. intros d (_ & _ & H & _). exact H.
Defined.

(** Two axes, one of them an FMU model. *)
Definition two_axes : list config_device :=
  [ConfigDevice (Device 0 "x" "cia402-drive" "f_kr_cmmt" "linear" "x-1") None;
   ConfigDevice (Device 1 "y" "cia402-drive" "copley_drive_sim" "rotary" "y-1") (Some "/fmu/C.fmu")].

Definition two_axes_config : config := Config "enp1s0" "/state" two_axes.

(** A concrete configuration is valid. *)
Ltac solve_valid_config :=
  let Hin := fresh in
  assert (∀ s l, bool_decide (s ∈ l) = true → s ∈ (l : list string)) as Hin
    by (intros s l; apply bool_decide_eq_true_1);
  constructor; try (vm_compute; reflexivity); try discriminate;
  [ repeat constructor; try (vm_compute; reflexivity); try (apply Hin; vm_compute; reflexivity);
    cbn; try discriminate; try (by intros [? ?]); by eexists
  | apply (bool_decide_unpack (NoDup _)); vm_compute; exact I
  | apply (bool_decide_unpack (NoDup _)); vm_compute; exact I ].

Lemma two_axes_valid : valid_config two_axes_config.
Proof. solve_valid_config. Qed.

Lemma validate_config_complete_witness :
  validate_config (λ p, p) (config_json "enp1s0" "/state" (reverse two_axes)) "/base"
  = Ret two_axes_config.
Proof.
  apply (validate_config_complete (λ p, p) "/base" two_axes_config (reverse two_axes)).
  - exact two_axes_valid.
  - split; vm_compute; reflexivity.
  - repeat constructor; vm_compute; reflexivity.
  - apply reverse_Permutation.
Defined.
