(* ===== verification/Migrate.v ===== *)
(** * The migration of snapshots

    src/functional_model/storage/migrate.py ([migrate_profile_velocity] and
    [main]): an offline program that adds the profile velocity to a snapshot of
    schema 1 and writes it as schema 2, behind a copy of the original.

    The snapshot is checked as a whole and loaded from a staging directory
    before the storage is touched.  The staging directory itself is not
    modelled; its system calls are, since they may fail.  [argparse] gives the
    arguments of the command line as a record.

    The theorem: whatever fails or crashes, the original snapshot is not lost,
    and the storage is given back. *)

From coqutil Require Import Word.LittleEndianList.
From stdpp Require Import fin_maps stringmap.
From S2P Require Import Prelude PyFloat Config AxisProps.
From S2P Require Export StoreProps.

Open Scope string_scope.
Open Scope list_scope.
Open Scope Z_scope.

Section migrate.
Context {A : Type} `{DriveAdapter A}.
Context (sha256 : string → string).
Context (fails : nat → bool) (torn : nat → string → string).
Context (mkstemp : directory → string → string) (unreadable : string → bool).

Definition on_disk {R} (m : M store R) : M (axis A store) R :=
  zoom disk (λ s x, x <| disk := s |>) m.

(** [path.read_bytes()] *)
Definition read_bytes (name : string) : M store string :=
  d ← gets files;
  match d !! name with
  | Some content => if unreadable name then raise OSError else mret content
  | None => raise OSError
  end.

(** [type(x) is int and 0 <= x <= 0xffffffff] *)
Definition velocity_bytes (value : pyval) : outcome (list byte) :=
  match value with
  | PInt v => if (0 <=? v) && (v <=? 0xffffffff) then Ret (le_split 4 v) else Raise ValueError
  | _ => Raise ValueError
  end.

Definition velocity_key : string := "6081:00".

(** The checks of a snapshot of schema 1, and its values. *)
Definition check_legacy (d : device) (data : list (string * json)) : outcome json :=
  if negb (same_keys data snapshot_fields) then Raise ValueError
  else
    digest ← of_option KeyError (dict_get "checksum" data);
    let data := without "checksum" data in
    h ← checksum sha256 (JObj data);
    if negb (json_eqb (JStr h) digest) then Raise ValueError
    else
      v ← of_option KeyError (dict_get "schema_version" data);
      if negb (integer_equals v 1) then Raise ValueError
      else
        i ← of_option KeyError (dict_get "identity" data);
        if negb (json_eqb i (identity d)) then Raise ValueError
        else of_option KeyError (dict_get "values" data).

(** The values with exactly the expected keys but the velocity. *)
Definition check_legacy_values (values : json) (expected : list (string * string))
    : outcome (list (string * json)) :=
  match values with
  | JObj vs =>
      if same_keys vs (filter (λ k, k ≠ velocity_key) expected.*1) then Ret vs else Raise ValueError
  | _ => Raise ValueError
  end.

(** The text of the snapshot of schema 2. *)
Definition upgraded_text (data values : list (string * json)) (velocity : list byte)
    : outcome string :=
  let values := dict_set velocity_key (JStr (hex velocity)) values in
  let data := dict_set "schema_version" (JInt 2)
                (dict_set "values" (JObj values) (without "checksum" data)) in
  h ← checksum sha256 (JObj data);
  dumps Spaced (JObj (data ++ [("checksum", JStr h)])).

(** The staged load: a temporary directory is made, written and removed. *)
Definition staged_load (d : device) (text : string) : M (axis A store) () :=
  on_disk (syscall fails id) ;;
  try_finally
    (on_disk (syscall fails id) ;; on_adapter (load_text sha256 d text))
    (on_disk (syscall fails id)).

(** The copy of the original: created exclusively, or the same already. *)
Definition write_backup (backup original : string) : M store () :=
  d ← gets files;
  match d !! backup with
  | Some _ =>
      content ← read_bytes backup;
      if String.eqb content original then mret tt else raise ValueError
  | None =>
      syscall fails (insert backup "") ;;
      try_finally
        (write_stream fails torn backup original ;;
         syscall fails (insert backup original) ;;
         syscall fails id)
        (syscall fails id)
  end.

Definition backup_name (d : device) : string := (path d ++ ".schema1.bak")%string.

(** What is left to do when the original is a snapshot of schema 1. *)
Definition upgrade (d : device) (original : string) (data : list (string * json))
    (velocity : list byte) : M (axis A store) bool :=
  values ← lift (check_legacy d data);
  expected ← on_adapter parameter_values;
  values ← lift (check_legacy_values values expected);
  text ← lift (upgraded_text data values velocity);
  staged_load d text ;;
  on_disk (write_backup (backup_name d) original) ;;
  a ← gets adapter;
  on_disk (save_model sha256 fails torn mkstemp d a) ;;
  mret true.

(** [migrate_profile_velocity(store, model, value)] *)
Definition migrate_profile_velocity (value : pyval) : M (axis A store) bool :=
  l ← gets (λ x, locked (disk x));
  d ← gets ax_device;
  if negb l then raise RuntimeError
  else if negb (String.eqb (model_type d) "f_kr_cmmt") then raise ValueError
  else
    velocity ← lift (velocity_bytes value);
    original ← on_disk (read_bytes (path d));
    data ← lift (parse_json original);
    match data with
    | JObj data =>
        match dict_get "schema_version" data with
        | Some (JInt 2) =>
            s ← gets disk;
            _ ← on_adapter (load sha256 unreadable s d);
            mret false
        | _ => upgrade d original data velocity
        end
    | _ => raise AttributeError
    end.

(** [with ParameterStore(...) as store: ...] *)
Definition with_store {R} (busy : bool) (m : M (axis A store) R) : M (axis A store) R :=
  on_disk (enter fails busy) ;; try_finally m (on_disk exit_store).
End migrate.

(** The arguments of [main], as the parser gives them. *)
Record migration_arguments := MigrationArguments {
  ma_parameter_set : string;
  ma_mode : string;
  ma_profile_velocity : Z;
}.

(** [[A-Za-z0-9_-]+] *)
Definition parameter_set_ok (s : string) : bool :=
  negb (String.eqb s "") && all_chars (λ a, is_alnum a || one_of "_-" a) s.

Definition migration_device (a : migration_arguments) : device :=
  Device 0 "migration" "cia402-drive" "f_kr_cmmt" (ma_mode a) (ma_parameter_set a).

(** The printed line. *)
Definition migration_report (a : migration_arguments) (changed : bool) : outcome string :=
  dumps Spaced (JObj [("parameter_set", JStr (ma_parameter_set a)); ("migrated", JBool changed)]).

(** [main()] on the storage [s]: [None] is [parser.error]; the axis is the one
    it has constructed, if any, and the text the line it prints. *)
Definition migrate_main {A} `{DriveAdapter A} (create : device → option string → outcome A)
    (sha256 : string → string) (fails : nat → bool) (torn : nat → string → string)
    (mkstemp : directory → string → string) (unreadable : string → bool) (busy : bool)
    (a : migration_arguments) (s : store) : option (outcome string * option (axis A store)) :=
  let d := migration_device a in
  if negb (parameter_set_ok (ma_parameter_set a)) then None
  else Some
    match (m ← create d None; new_axis d m s) with
    | Raise e => (Raise e, None)
    | Ret x =>
        let '(r, x) :=
          try_finally
            (changed ← with_store fails busy
               (migrate_profile_velocity sha256 fails torn mkstemp unreadable
                  (PInt (ma_profile_velocity a)));
             lift (migration_report a changed))
            close_axis x in
        (r, Some x)
    end.

Section crash.
Context {A : Type} `{DA : DriveAdapter A}.
Context (sha256 : string → string).
Context (fails : nat → bool) (torn : nat → string → string).
Context (mkstemp : directory → string → string) (unreadable : string → bool).
Context (Hfresh : fresh_names mkstemp).
Implicit Types (J Pre : directory → Prop) (dir : directory).

Local Abbreviation on_storage := (crash_triple (λ s : store, s)).
Local Abbreviation on_model := (crash_triple (@disk A store)).

Lemma crash_on_disk {R} J Pre (m : M store R) Post : on_storage J Pre m Post → on_model J Pre (on_disk m) Post.
Proof.
  intros Hm x Hx. destruct (Hm (disk x) Hx) as (H1 & H2 & l & H3 & H4).
  unfold on_disk, zoom. destruct (m (disk x)) as [r s]. cbn in *. eauto.
Qed.

#[export] Instance on_adapter_disk {R} (m : M A R) : Preserves disk (on_adapter (D:=store) m).
Proof. apply preserves_zoom. reflexivity. Qed.

(** [save] from the directory [d0]. *)
Lemma crash_save d0 (d : device) (a : A) :
  on_storage (λ dir, ∃ text, between d0 (path d) text (mkstemp d0 (String.String "." (path d))) dir)
    (eq d0) (save_model sha256 fails torn mkstemp d a)
    (λ r dir, match r with
      | Ret _ => ∃ text, (take_snapshot sha256 d a).1 = Ret text ∧ dir = <[path d := text]> d0
      | Raise _ => ∃ text, between d0 (path d) text (mkstemp d0 (String.String "." (path d))) dir
      end).
Proof.
  assert (∃ text, between d0 (path d) text
    (mkstemp d0 (String.String "." (path d))) d0) as Hd0 by (exists ""; by left).
  unfold save_model. apply crash_gets. intros s ->. destruct (negb (locked s)).
  { apply crash_quiet; [apply _|]. by intros s' <-. }
  apply crash_lift.
  destruct ((take_snapshot sha256 d a).1) as [text|e] eqn:Ht; [|by intros dir <-].
  destruct (Hfresh (files s) (String.String "." (path d))) as [Hnone _].
  pose proof (temporary_ne mkstemp (files s) (path d) Hfresh) as Hne.
  eapply crash_weaken;
    [exact (replace_file_spec fails torn mkstemp (files s) (path d) text _ eq_refl Hnone Hne)
    |intros dir Hd; by exists text|done|].
  intros [[]|e] dir Hd; [by exists text|by exists text; destruct Hd].
Qed.

(** The directory with some content of the backup file. *)
Definition backing d0 backup dir : Prop := dir = d0 ∨ (d0 !! backup = None ∧ ∃ c, dir = <[backup := c]> d0).

Lemma crash_backup d0 backup original :
  on_storage (backing d0 backup) (eq d0) (write_backup fails torn unreadable backup original)
    (λ r dir, match r with
      | Ret _ => dir = <[backup := original]> d0
      | Raise _ => backing d0 backup dir
      end).
Proof.
  unfold write_backup. apply crash_gets. intros s ->.
  destruct (files s !! backup) as [content|] eqn:Hb.
  - apply (crash_bind _ _ _ _ _ (λ c dir, c = content ∧ dir = files s)).
    { unfold read_bytes. apply crash_gets. intros s' <-. rewrite Hb.
      destruct (unreadable backup); (apply crash_quiet; [apply _|]); intros s2 <-; [by left|done]. }
    intros c. destruct (String.eqb_spec c original) as [->|]; (apply crash_quiet; [apply _|]).
    + intros s' [-> Hs]. cbn. rewrite Hs. symmetry. by apply insert_id.
    + intros s' [-> Hs]. by left.
  - assert (∀ c, backing (files s) backup (<[backup := c]> (files s))) as Hback by (right; eauto).
    assert (backing (files s) backup (files s)) by (by left).
    apply (crash_bind _ _ _ _ _ (λ _ dir, ∃ c, dir = <[backup := c]> (files s))).
    { apply crash_syscall. intros dir <-. cbn. eauto. }
    intros _. apply (crash_finally _ _ _ _ _ (λ r dir, match r with
      | Ret _ => dir = <[backup := original]> (files s)
      | Raise _ => ∃ c, dir = <[backup := c]> (files s) end)).
    + apply (crash_bind _ _ _ _ _ (λ _ dir, ∃ c, dir = <[backup := c]> (files s))).
      { apply crash_write. intros dir c [c' ->]. rewrite !insert_insert_eq. eauto. }
      intros _. apply (crash_bind _ _ _ _ _ (λ _ dir, dir = <[backup := original]> (files s))).
      { apply crash_syscall. intros dir [c ->]. cbn. rewrite !insert_insert_eq. eauto. }
      intros _. apply crash_syscall. intros dir ->. cbn. eauto.
    + intros r. apply crash_syscall. intros dir Hd. cbn.
      destruct r; [subst; eauto|destruct Hd as [c ->]; eauto].
Qed.

(** Everything a crash of the migration can leave behind. *)
Definition migrating d0 (d : device) original dir : Prop :=
  backing d0 (backup_name d) dir
  ∨ ∃ text, between (<[backup_name d := original]> d0) (path d) text
      (mkstemp (<[backup_name d := original]> d0) (String.String "." (path d))) dir.

Lemma crash_upgrade d0 (d : device) original data velocity :
  on_model (migrating d0 d original) (eq d0)
    (upgrade sha256 fails torn mkstemp unreadable d original data velocity)
    (λ r dir, match r with
      | Ret b => b = true ∧ ∃ text, dir = <[path d := text]> (<[backup_name d := original]> d0)
      | Raise _ => migrating d0 d original dir
      end).
Proof.
  unfold upgrade. assert (migrating d0 d original d0) as Hd0 by (left; by left).
  apply crash_lift. destruct (check_legacy sha256 d data) as [values|]; [|by intros dir <-].
  apply (crash_bind _ _ _ _ _ (λ _, eq d0)).
  { apply crash_quiet; [apply _|]. intros x <-. by destruct (_ x).1. }
  intros expected. apply crash_lift.
  destruct (check_legacy_values values expected) as [vs|]; [|by intros dir <-].
  apply crash_lift. destruct (upgraded_text sha256 data vs velocity) as [text|]; [|by intros dir <-].
  assert (on_model (migrating d0 d original) (eq d0) (on_disk (syscall fails id)) (λ _, eq d0)) as Hid.
  { apply crash_on_disk, crash_syscall. by intros dir <-. }
  apply (crash_bind _ _ _ _ _ (λ _, eq d0)).
  { apply (crash_weaken _ (migrating d0 d original) _ (eq d0) _ _ (λ _, eq d0)); [|done..|].
    2: { by intros [[]|e] dir <-. }
    apply (crash_bind _ _ _ _ _ (λ _, eq d0)).
    { eapply crash_weaken; [exact Hid|done|done|]. by intros [[]|e] dir <-. }
    intros _. apply (crash_finally _ _ _ _ _ (λ _, eq d0)).
    - apply (crash_bind _ _ _ _ _ (λ _, eq d0)).
      { eapply crash_weaken; [exact Hid|done|done|]. by intros [[]|e] dir <-. }
      intros _. apply crash_quiet; [apply _|]. done.
    - intros r. eapply crash_weaken; [exact Hid|done|done|]. by intros [[]|e] dir <-. }
  intros _. apply (crash_bind _ _ _ _ _ (λ _ dir, dir = <[backup_name d := original]> d0)).
  { apply crash_on_disk. eapply crash_weaken; [apply (crash_backup d0)| |done|].
    - intros dir Hd. by left.
    - intros [[]|e] dir Hd; [done|by left]. }
  intros _. apply crash_gets. intros x Hx. rewrite Hx.
  apply (crash_bind _ _ _ _ _
    (λ _ dir, ∃ text, dir = <[path d := text]> (<[backup_name d := original]> d0))).
  { apply crash_on_disk. eapply crash_weaken; [apply crash_save| |done|].
    - intros dir Hd. by right.
    - intros [[]|e] dir Hd; [destruct Hd as (t & _ & ->); by exists t|by right]. }
  intros _. apply crash_quiet; [apply _|]. done.
Qed.

Lemma backup_ne (d : device) : backup_name d ≠ path d.
Proof.
  unfold backup_name. intros E. apply (f_equal String.length) in E.
  rewrite String.app_length in E. change (String.length ".schema1.bak") with 12%nat in E. lia.
Qed.

(** A directory with the original snapshot, or with its copy. *)
Definition original_kept (d0 : directory) (d : device) original dir : Prop :=
  (dir !! path d = Some original ∨ dir !! backup_name d = Some original)
  ∧ ∀ name, name ≠ path d → name ≠ backup_name d → Text.starts_with "." name = false →
      dir !! name = d0 !! name.

Lemma migrating_keeps d0 (d : device) original dir :
  d0 !! path d = Some original → migrating d0 d original dir → original_kept d0 d original dir.
Proof.
  intros H0 Hm. pose proof (backup_ne d) as Hne. unfold original_kept.
  unfold migrating, backing in Hm. destruct Hm as [[->|[_ [c ->]]]|[text Hb]].
  - auto.
  - split; [left; by rewrite lookup_insert_ne|]. intros name H1 H2 _. by rewrite lookup_insert_ne.
  - set (d1 := <[backup_name d := original]> d0) in *.
    destruct (Hfresh d1 (String.String "." (path d))) as [Hnone [suffix Hsuffix]].
    set (temp := mkstemp d1 (String.String "." (path d))) in *.
    assert (d1 !! backup_name d = Some original) as Hbak by apply lookup_insert_eq.
    assert (temp ≠ backup_name d) as Hnt by congruence.
    assert (Text.starts_with "." temp = true) as Hdot by (by rewrite Hsuffix).
    assert (∀ name, name ≠ backup_name d → d1 !! name = d0 !! name) as Hsame
      by (intros name Hn; by apply lookup_insert_ne).
    unfold between, unfinished, renamed in Hb. destruct Hb as [->|[[c ->]| ->]].
    + split; [by right|]. auto.
    + split; [right; by rewrite lookup_insert_ne|]. intros name H1 H2 H3.
      rewrite lookup_insert_ne; [auto|]. intros <-. congruence.
    + split; [right; by rewrite lookup_insert_ne|]. intros name H1 H2 _.
      rewrite lookup_insert_ne by done. auto.
Qed.

End crash.

Section migration.
Context {A : Type} `{DriveAdapter A}.

(** What the migration of [x] that ended with [r] in [x'] owes its caller. *)
Definition migrated original (x x' : axis A store) (r : outcome bool) : Prop :=
  let old := files (disk x) in let d := ax_device x in
  (∃ l, journal (disk x') = l ++ journal (disk x)
    ∧ Forall (original_kept old d original) (files (disk x') :: l))
  ∧ locked (disk x') = locked (disk x)
  ∧ match r with
    | Ret true => files (disk x') !! backup_name d = Some original
        ∧ ∃ text, files (disk x') = <[path d := text]> (<[backup_name d := original]> old)
    | Ret false => files (disk x') = old
    | Raise _ => True
    end.

Lemma migrated_quietly original (x x' : axis A store) r :
  files (disk x) !! path (ax_device x) = Some original →
  disk x' = disk x → r ≠ Ret true → migrated original x x' r.
Proof.
  intros Hx E Hr. unfold migrated. rewrite E. split_and!; [|done|by destruct r as [[]|]].
  exists []. split; [done|]. repeat constructor; auto.
Qed.

Lemma upgrade_migrated sha256 fails torn mkstemp unreadable (x : axis A store) original data velocity :
  fresh_names mkstemp → files (disk x) !! path (ax_device x) = Some original →
  let '(r, x') := upgrade sha256 fails torn mkstemp unreadable (ax_device x) original data velocity x in
  migrated original x x' r.
Proof.
  intros Hfresh Hx. pose proof (migrating_keeps mkstemp Hfresh (files (disk x)) (ax_device x) original) as Hkeep.
  destruct (crash_upgrade sha256 fails torn mkstemp unreadable Hfresh (files (disk x)) (ax_device x) original data
    velocity x eq_refl) as (Hp & Hlk & l & Hl & HF).
  destruct (upgrade _ _ _ _ _ _ _ _ _ x) as [r x']. cbn [fst snd] in Hp, Hlk, Hl. split_and!; [|exact Hlk|].
  - exists l. split; [done|]. constructor; [|eapply Forall_impl; [exact HF|auto]].
    apply Hkeep; [done|]. destruct r as [b|e]; [|exact Hp]. destruct Hp as [_ [text ->]].
    right. exists text. by right; right.
  - destruct r as [b|e]; [|done]. destruct Hp as [-> [text E]]. rewrite E. split; [|by exists text].
    rewrite lookup_insert_ne; [apply lookup_insert_eq|]. intros E'. by apply (backup_ne (ax_device x)).
Qed.

Lemma read_original unreadable (x : axis A store) original :
  files (disk x) !! path (ax_device x) = Some original →
  on_disk (read_bytes unreadable (path (ax_device x))) x
    = (if unreadable (path (ax_device x)) then Raise OSError else Ret original, x).
Proof.
  intros Hx. unfold on_disk, zoom, read_bytes. rewrite bind_gets, Hx.
  destruct (unreadable _); cbn; by destruct x.
Qed.

Lemma migrate_migrated sha256 fails torn mkstemp unreadable value (x : axis A store) original :
  fresh_names mkstemp → files (disk x) !! path (ax_device x) = Some original →
  let '(r, x') := migrate_profile_velocity sha256 fails torn mkstemp unreadable value x in
  migrated original x x' r.
Proof.
  intros Hfresh Hx.
  destruct (migrate_profile_velocity sha256 fails torn mkstemp unreadable value x) as [r x'] eqn:Hm.
  pose proof (λ y s, migrated_quietly original x y s Hx) as Hsame.
  unfold migrate_profile_velocity in Hm. rewrite !bind_gets in Hm.
  destruct (negb (locked (disk x))); [injection Hm as <- <-; by apply Hsame|].
  destruct (negb _); [injection Hm as <- <-; by apply Hsame|].
  rewrite lift_bind in Hm. destruct (velocity_bytes value) as [velocity|]; [|injection Hm as <- <-; by apply Hsame].
  unfold mbind at 1, M_bind at 1 in Hm. rewrite (read_original _ _ _ Hx) in Hm.
  destruct (unreadable (path (ax_device x))); [injection Hm as <- <-; by apply Hsame|].
  rewrite lift_bind in Hm. destruct (parse_json original) as [data|]; [|injection Hm as <- <-; by apply Hsame].
  destruct data as [| | | | | |data]; try (injection Hm as <- <-; by apply Hsame).
  pose proof (upgrade_migrated sha256 fails torn mkstemp unreadable x original data velocity Hfresh Hx) as Hup.
  destruct (dict_get "schema_version" data) as [[| |[|[p|[p|p|]|]|]| | | |]|];
    try (rewrite Hm in Hup; exact Hup).
  rewrite bind_gets in Hm.
  pose proof (preserves (f:=disk) (m:=on_adapter (load sha256 unreadable (disk x) (ax_device x))) x) as Hd.
  unfold mbind at 1, M_bind at 1 in Hm.
  destruct (on_adapter _ x) as [[b|e] x2]; cbn in Hd; injection Hm as <- <-; by apply Hsame.
Qed.

(** The lock file is none of the files the migration speaks of. *)
Lemma path_not_lock (d : device) : path d ≠ ".lock".
Proof.
  unfold path. intros E. destruct (parameter_set d) as [|c p]; [discriminate|].
  apply (f_equal String.length) in E. cbn [String.append String.length] in E.
  rewrite String.app_length in E. cbn in E. destruct p; [discriminate|cbn in E; lia].
Qed.

Lemma kept_behind_lock dir0 (d : device) original dir :
  original_kept (lock_file dir0) d original dir → original_kept dir0 d original dir.
Proof.
  intros [H1 H2]. split; [exact H1|]. intros name Hp Hb Hs. rewrite H2 by done.
  apply lookup_insert_ne. by intros <-.
Qed.

Lemma kept_itself dir0 (d : device) original :
  dir0 !! path d = Some original → original_kept dir0 d original dir0.
Proof. by split; [left|]. Qed.

Lemma lock_file_path dir0 (d : device) : lock_file dir0 !! path d = dir0 !! path d.
Proof. apply lookup_insert_ne. intros E. by apply (path_not_lock d). Qed.

(** The migration inside the lock, from an axis with a free storage. *)
Lemma with_store_migrated sha256 fails torn mkstemp unreadable busy value (x : axis A store) original :
  fresh_names mkstemp → locked (disk x) = false → files (disk x) !! path (ax_device x) = Some original →
  let '(r, x') := with_store fails busy
      (migrate_profile_velocity sha256 fails torn mkstemp unreadable value) x in
  let old := files (disk x) in let d := ax_device x in
  (∃ l, journal (disk x') = l ++ journal (disk x)
    ∧ Forall (original_kept old d original) (files (disk x') :: l))
  ∧ locked (disk x') = false
  ∧ (busy = true → is_ret r = false ∧ (files (disk x') = old ∨ files (disk x') = lock_file old))
  ∧ match r with
    | Ret true => ∃ text, files (disk x') = <[path d := text]> (<[backup_name d := original]> (lock_file old))
    | Ret false => files (disk x') = lock_file old
    | Raise _ => True
    end.
Proof.
  intros Hfresh Hl Hx. unfold with_store, mbind, M_bind, on_disk at 1, zoom.
  pose proof (enter_locked fails busy (disk x) Hl) as Hlock.
  destruct (enter_files fails busy (disk x)) as (l & Hj & HF & Hret).
  destruct (enter fails busy (disk x)) as [r0 s0]. cbn [fst snd] in Hj, HF, Hret. destruct Hlock as [Hlk Hbusy].
  assert (Forall (original_kept (files (disk x)) (ax_device x) original) (files s0 :: l)) as Hkept.
  { eapply Forall_impl; [exact HF|]. cbn. intros dir [->| ->]; [by apply kept_itself|].
    apply kept_behind_lock, kept_itself. by rewrite lock_file_path. }
  destruct r0 as [[]|e]; cbn [is_ret] in Hlk, Hbusy; cbn -[with_store].
  2: { apply Forall_cons in HF as [HF _]. split_and!; [by exists l|done|done|done]. }
  set (x0 := x <| disk := s0 |>). unfold try_finally.
  pose proof (migrate_migrated sha256 fails torn mkstemp unreadable value x0 original Hfresh) as Hm.
  assert (files (disk x0) !! path (ax_device x0) = Some original) as Hx0.
  { change (files s0 !! path (ax_device x) = Some original). rewrite Hret by done. by rewrite lock_file_path. }
  specialize (Hm Hx0). destruct (migrate_profile_velocity _ _ _ _ _ value x0) as [r x1].
  destruct Hm as ((l1 & Hj1 & HF1) & _ & Hr). cbn in Hj1, HF1, Hr |- *. rewrite (Hret eq_refl) in HF1, Hr.
  apply Forall_cons in Hkept as [_ Hkept].
  assert (Forall (original_kept (files (disk x)) (ax_device x) original) (files (disk x1) :: l1)) as HK.
  { eapply Forall_impl; [exact HF1|]. intros dir. apply kept_behind_lock. }
  apply Forall_cons in HK as [HK1 HK2]. split_and!.
  - exists (l1 ++ l). rewrite Hj1, Hj, app_assoc. split; [done|]. constructor; [done|]. by apply Forall_app.
  - done.
  - intros Hb. by apply Hbusy in Hb.
  - destruct r as [[]|]; [apply Hr|exact Hr|done].
Qed.

(** C10. The migration never loses the original.  Whatever system call fails, and
    wherever the program crashes, the directory holds the original snapshot
    or a complete copy of it under the backup name, and every other file that
    is not hidden as before.  The storage is given back, and is left alone when
    another process has it.  A program that reports a migration has made the copy
    and replaced the snapshot; one that reports none has changed nothing but the
    lock file. *)
Theorem migration_keeps_original create sha256 fails torn mkstemp unreadable busy a s original r
    (x : axis A store) :
  fresh_names mkstemp → locked s = false → files s !! path (migration_device a) = Some original →
  migrate_main create sha256 fails torn mkstemp unreadable busy a s = Some (r, Some x) →
  let d := migration_device a in
  (∃ l, journal (disk x) = l ++ journal s
    ∧ Forall (original_kept (files s) d original) (files (disk x) :: l))
  ∧ locked (disk x) = false
  ∧ (busy = true → is_ret r = false
      ∧ (files (disk x) = files s ∨ files (disk x) = lock_file (files s)))
  ∧ ∀ text, r = Ret text → ∃ changed, migration_report a changed = Ret text
      ∧ if changed : bool
        then ∃ new, files (disk x) = <[path d := new]> (<[backup_name d := original]> (lock_file (files s)))
        else files (disk x) = lock_file (files s).
Proof.
  intros Hfresh Hl Hs. unfold migrate_main. destruct (negb _); [discriminate|]. intros E. injection E as E.
  destruct (m ← _; _) as [x0|e] eqn:Hx0; [|congruence].
  apply outcome_bind_inv in Hx0 as (m & _ & Hx0). apply new_axis_storage in Hx0 as [Hd Hdisk].
  pose proof (with_store_migrated sha256 fails torn mkstemp unreadable busy
    (PInt (ma_profile_velocity a)) x0 original Hfresh) as Hm.
  rewrite Hdisk, Hd in Hm. specialize (Hm Hl Hs).
  unfold try_finally in E. unfold mbind at 1, M_bind at 1 in E.
  destruct (with_store _ _ _ x0) as [r1 x1]. destruct Hm as (Hj & Hlk & Hbusy & Hr).
  assert (∀ y, disk (close_axis y).2 = disk (A:=A) (D:=store) y) as Hclose
    by (intros y; apply (preserves (f:=disk) (m:=close_axis) y)).
  assert (disk x = disk x1 ∧ (∀ text, r = Ret text → ∃ changed, r1 = Ret changed
    ∧ migration_report a changed = Ret text) ∧ (is_ret r1 = false → is_ret r = false)) as (Ex & Er & Ee).
  { specialize (Hclose x1). destruct r1 as [changed|e]; cbn in E; destruct (close_axis x1) as [[[]|e'] x2];
      cbn in Hclose; injection E as <- <-; (split_and!; [done| |done]).
    - intros text Ht. by exists changed.
    - done.
    - done.
    - done. }
  rewrite Ex. split_and!; [exact Hj|exact Hlk| |].
  { intros Hb. destruct (Hbusy Hb) as [H1 H2]. auto. }
  intros text Ht. destruct (Er _ Ht) as (changed & -> & Hc). exists changed. split; [exact Hc|].
  by destruct changed.
Qed.
End migration.

(** Not a cryptographic digest. *)
Definition demo_digest (t : string) : string := String.substring 0 12 t.

(** The built-in model with a snapshot of schema 1. *)
Definition legacy_text : string :=
  match (parameter_values linear_adapter).1 with
  | Ret values =>
      let values := filter (λ kv, kv.1 ≠ velocity_key) values in
      let data := [("schema_version", JInt 1); ("identity", identity default_device);
        ("values", JObj (map (λ '(k, v), (k, JStr v)) values))] in
      match (h ← checksum demo_digest (JObj data);
             dumps (Indented 2) (JObj (data ++ [("checksum", JStr h)]))) with
      | Ret text => text
      | Raise _ => ""
      end
  | Raise _ => ""
  end.

Definition legacy_store : store := Store {[ "axis-0.json" := legacy_text ]} false 0 [].

Definition legacy_arguments : migration_arguments := MigrationArguments "axis-0" "linear" 5000.

Definition demo_migration (fails : nat → bool) (busy : bool)
    : option (outcome string * option (axis FKrCmmtAdapter store)) :=
  migrate_main (λ _ _, Ret linear_adapter) demo_digest fails (λ _ t, t)
    (λ d p, fresh_string p d) (λ _, false) busy legacy_arguments legacy_store.

Lemma demo_migration_eq fails busy :
  demo_migration fails busy = migrate_main (λ _ _, Ret linear_adapter) demo_digest fails (λ _ t, t)
    (λ d p, fresh_string p d) (λ _, false) busy legacy_arguments legacy_store.
Proof. reflexivity. Qed.

(** Every call works; a call on the backup fails; the lock is held elsewhere. *)
Example demo_migrations :
  (fst <$> demo_migration (λ _, false) false, fst <$> demo_migration (λ n, Nat.eqb n 8) false,
   fst <$> demo_migration (λ _, false) true)
  = (Some (migration_report legacy_arguments true), Some (Raise OSError), Some (Raise RuntimeError)).
Proof. vm_compute. reflexivity. Qed.

Lemma demo_migration_runs :
  match demo_migration (λ n, Nat.eqb n 8) false with Some (_, Some _) => true | _ => false end = true.
Proof. vm_compute. reflexivity. Qed.

Lemma legacy_store_file : files legacy_store !! path (migration_device legacy_arguments) = Some legacy_text.
Proof. vm_compute. reflexivity. Qed.

Lemma migration_keeps_original_witness :
  ∃ r x, demo_migration (λ n, Nat.eqb n 8) false = Some (r, Some x)
    ∧ original_kept (files legacy_store) (migration_device legacy_arguments) legacy_text (files (disk x)).
Proof.
  destruct (demo_migration (λ n, Nat.eqb n 8) false) as [[r [x|]]|] eqn:E.
  - exists r, x. split; [reflexivity|]. rewrite demo_migration_eq in E.
    pose proof (migration_keeps_original (λ _ _, Ret linear_adapter) demo_digest (λ n, Nat.eqb n 8)
      (λ _ t, t) (λ d p, fresh_string p d) (λ _, false) false legacy_arguments legacy_store legacy_text r x
      fresh_string_names eq_refl legacy_store_file E) as [(l & _ & HF) _].
    apply Forall_cons in HF as [HF _]. exact HF.
  - pose proof demo_migration_runs as Hr. rewrite E in Hr. discriminate Hr.
  - pose proof demo_migration_runs as Hr. rewrite E in Hr. discriminate Hr.
Defined.
