(* ===== verification/Server.v ===== *)
(** * The IPC server

    src/functional_model/ipc/server.py: [dispatch_request], which turns the
    exceptions of an SDO access into abort codes, and the request loop of
    [serve] over the byte stream of one connection.

    The owner of the requests (an axis or the fleet) is the argument
    [dispatch] of the definitions.  The JSON text of a request and of a reply
    is the pair of arguments [loads] and [dumps], given in Wire.v; the socket
    is in Service.v and the branch with timing in TimedServer.v.

    The theorems: an SDO access of an axis is always answered; the loop ends
    on every stream, answers complete lines one by one in their order, and
    stops before a line that is too long or incomplete. *)

From S2P Require Import Prelude PyFloat.
From S2P Require Export AxisProps.

Open Scope string_scope.
Open Scope list_scope.
Open Scope Z_scope.

Definition MAX_MESSAGE : Z := 1024 * 1024.

(** The code of an SDO abort, by the class of the exception; the order of the
    tests is that of the code. *)
Definition abort_code (e : exn) : option Z :=
  if bool_decide (e = DeviceRejectedException) then Some 0x06010000
  else if is_key_error e then Some 0x06020000
  else if is_value_error e then Some 0x06090030
  else if bool_decide (e = OSError) then Some 0x08000020
  else None.

Definition is_access (r : request) : bool :=
  bool_decide (rq_op r = Some "read" ∨ rq_op r = Some "write").

Section server.
Context {S : Type} (dispatch : request → M S reply).

Definition dispatch_request (r : request) : M S reply :=
  if negb (is_access r) then dispatch r
  else
    try_except (dispatch r) (λ e,
      match abort_code e with
      | Some code => mret (RError code)
      | None => raise e
      end).

(** ** The request loop *)

Context (loads : list byte → outcome request) (dumps : reply → list byte).

Definition newline : byte := x0a.

(** [stream.readline(limit)] *)
Fixpoint readline (limit : Z) (stream : list byte) : list byte * list byte :=
  match stream with
  | [] => ([], [])
  | b :: rest =>
      if limit <=? 0 then ([], stream)
      else if bool_decide (b = newline) then ([b], rest)
      else let '(l, r) := readline (limit - 1) rest in (b :: l, r)
  end.

(** [raw.endswith(b'\n')] *)
Definition ends_with_newline (raw : list byte) : bool :=
  bool_decide (list.last raw = Some newline).

(** The loop of [serve] on the bytes that are left, with the bytes written so
    far; [None] when the fuel is used up. *)
Fixpoint serve_loop (fuel : nat) (stream out : list byte) (s : S)
    : option (outcome () * list byte * S) :=
  match fuel with
  | O => None
  | Datatypes.S fuel =>
      let '(raw, rest) := readline (MAX_MESSAGE + 1) stream in
      match raw with
      | [] => Some (Ret tt, out, s)
      | _ =>
          if (MAX_MESSAGE <? Z.of_nat (length raw)) || negb (ends_with_newline raw)
          then Some (Raise ValueError, out, s)
          else
            match loads raw with
            | Raise e => Some (Raise e, out, s)
            | Ret r =>
                match dispatch_request r s with
                | (Raise e, s) => Some (Raise e, out, s)
                | (Ret a, s) => serve_loop fuel rest (out ++ dumps a ++ [newline]) s
                end
            end
      end
  end.

(** Enough fuel for a stream: every message takes at least one byte. *)
Definition serve (stream : list byte) (s : S) : option (outcome () * list byte * S) :=
  serve_loop (Datatypes.S (length stream)) stream [] s.

(** ** Lemmas *)

Lemma readline_split limit stream :
  (readline limit stream).1 ++ (readline limit stream).2 = stream.
Proof.
  revert limit. induction stream as [|b rest IH]; intros limit; simpl; [done|].
  destruct (limit <=? 0); [done|]. case_bool_decide; [done|].
  specialize (IH (limit - 1)). destruct (readline (limit - 1) rest). simpl in *. by rewrite IH.
Qed.

Lemma serve_loop_ends fuel stream out s :
  (length stream < fuel)%nat → is_Some (serve_loop fuel stream out s).
Proof.
  revert stream out s. induction fuel as [|fuel IH]; intros stream out s Hf; [lia|].
  cbn [serve_loop]. pose proof (readline_split (MAX_MESSAGE + 1) stream) as Hs.
  destruct (readline (MAX_MESSAGE + 1) stream) as [raw rest]. simpl in Hs.
  destruct raw as [|b raw]; [by eexists|].
  destruct (_ || _); [by eexists|]. destruct (loads _) as [r|e]; [|by eexists].
  destruct (dispatch_request r s) as [[a|e] s1]; [|by eexists].
  apply IH. subst stream. simpl in Hf. rewrite length_app in Hf. lia.
Qed.

Lemma serve_loop_more fuel fuel' stream out s res :
  (fuel ≤ fuel')%nat → serve_loop fuel stream out s = Some res →
  serve_loop fuel' stream out s = Some res.
Proof.
  revert fuel' stream out s. induction fuel as [|fuel IH]; intros [|fuel'] stream out s Hf; [done..|lia|].
  cbn [serve_loop]. destruct (readline _ stream) as [[|b raw] rest]; [done|].
  destruct (_ || _); [done|]. destruct (loads _) as [r|e]; [|done].
  destruct (dispatch_request r s) as [[a|e] s1]; [|done]. apply IH. lia.
Qed.

(** A complete message: no newline but the last byte, within the limit. *)
Definition message (raw : list byte) : Prop :=
  ∃ body, raw = body ++ [newline] ∧ newline ∉ body ∧ Z.of_nat (length raw) ≤ MAX_MESSAGE.

Lemma readline_message body rest limit :
  newline ∉ body → Z.of_nat (length body) < limit →
  readline limit (body ++ newline :: rest) = (body ++ [newline], rest).
Proof.
  revert limit. induction body as [|b body IH]; intros limit Hn Hl; cbn [app readline].
  - rewrite (proj2 (Z.leb_gt _ _)) by (simpl in Hl; lia). by rewrite bool_decide_true.
  - simpl in Hl. rewrite (proj2 (Z.leb_gt _ _)) by lia.
    rewrite bool_decide_false by set_solver.
    rewrite IH; [done|set_solver|lia].
Qed.

Lemma serve_message fuel raw rest out s r :
  message raw → loads raw = Ret r →
  serve_loop (Datatypes.S fuel) (raw ++ rest) out s =
  match dispatch_request r s with
  | (Raise e, s) => Some (Raise e, out, s)
  | (Ret a, s) => serve_loop fuel rest (out ++ dumps a ++ [newline]) s
  end.
Proof.
  intros (body & -> & Hn & Hl) Hr. rewrite length_app in Hl. simpl in Hl.
  cbn [serve_loop]. rewrite <-app_assoc. cbn [app].
  rewrite readline_message by (done || lia).
  destruct (body ++ [newline]) as [|b l] eqn:E; [by destruct body|]. rewrite <-E in *.
  rewrite length_app, (proj2 (Z.ltb_ge _ _)) by (simpl; lia).
  unfold ends_with_newline. rewrite last_snoc, bool_decide_true by done. cbn [negb orb].
  by rewrite Hr.
Qed.

(** The replies to a sequence of requests, up to the first exception. *)
Fixpoint replies (rs : list request) (out : list byte) (s : S) : outcome () * list byte * S :=
  match rs with
  | [] => (Ret tt, out, s)
  | r :: rs =>
      match dispatch_request r s with
      | (Raise e, s) => (Raise e, out, s)
      | (Ret a, s) => replies rs (out ++ dumps a ++ [newline]) s
      end
  end.

Lemma readline_tail limit tail :
  newline ∉ tail → newline ∉ (readline limit tail).1.
Proof.
  revert limit. induction tail as [|b tail IH]; intros limit Hn; simpl; [done|].
  destruct (limit <=? 0); [set_solver|]. rewrite bool_decide_false by set_solver.
  specialize (IH (limit - 1)). destruct (readline (limit - 1) tail). simpl in *. set_solver.
Qed.

(** A last message without a newline is not dispatched. *)
Lemma serve_tail fuel tail out s :
  newline ∉ tail →
  serve_loop (Datatypes.S fuel) tail out s
  = Some (if bool_decide (tail = []) then Ret tt else Raise ValueError, out, s).
Proof.
  intros Hn. cbn [serve_loop]. pose proof (readline_tail (MAX_MESSAGE + 1) tail Hn) as Hr.
  destruct tail as [|c tail]; [done|].
  assert ((readline (MAX_MESSAGE + 1) (c :: tail)).1 ≠ []) as Hne.
  { cbn [readline]. change (MAX_MESSAGE + 1 <=? 0) with false. cbv iota.
    case_bool_decide; [done|]. by destruct (readline _ tail). }
  destruct (readline (MAX_MESSAGE + 1) (c :: tail)) as [[|b raw] rest]; [done|]. simpl in Hr.
  assert (ends_with_newline (b :: raw) = false) as ->.
  { apply bool_decide_false. intros El. apply Hr.
    destruct (last_Some (b :: raw) newline) as [H1 _]. destruct (H1 El) as [l' ->]. set_solver. }
  by rewrite orb_true_r.
Qed.

(** ** Properties *)

(** The loop ends on every stream: it consumes at least one byte per message,
    so the length of the stream bounds the messages. *)
Theorem serve_terminates stream s : is_Some (serve stream s).
Proof. unfold serve. apply serve_loop_ends. apply Nat.lt_succ_diag_r. Qed.

(** The server answers complete messages one by one, in their order, one line
    each, every request on the state the requests before it left; the first
    exception ends it, and an incomplete last message ends it without being
    dispatched. *)
Theorem serve_answers_in_order raws rs tail s :
  Forall2 (λ raw r, message raw ∧ loads raw = Ret r) raws rs → newline ∉ tail →
  serve (concat raws ++ tail) s = Some
    match replies rs [] s with
    | (Ret _, out, s) => (if bool_decide (tail = []) then Ret tt else Raise ValueError, out, s)
    | stopped => stopped
    end.
Proof.
  intros Hrs Hn. unfold serve.
  assert (∀ out s, ∃ fuel, serve_loop fuel (concat raws ++ tail) out s = Some
    match replies rs out s with
    | (Ret _, out, s) => (if bool_decide (tail = []) then Ret tt else Raise ValueError, out, s)
    | stopped => stopped
    end) as Hex.
  { induction Hrs as [|raw r raws rs [Hm Hl] _ IH]; intros out s0.
    { exists 1%nat. by apply serve_tail. }
    cbn [concat replies]. destruct (dispatch_request r s0) as [[a|e] s1] eqn:E.
    - destruct (IH (out ++ dumps a ++ [newline]) s1) as [fuel Hf].
      exists (Datatypes.S fuel). rewrite <-app_assoc.
      by rewrite (serve_message _ _ _ _ _ _ Hm Hl), E.
    - exists 1%nat. rewrite <-app_assoc. by rewrite (serve_message _ _ _ _ _ _ Hm Hl), E. }
  destruct (Hex [] s) as [fuel Hf].
  destruct (serve_loop_ends (Datatypes.S (length (concat raws ++ tail))) (concat raws ++ tail) [] s)
    as [res Hres]; [lia|].
  pose proof (serve_loop_more _ (fuel + Datatypes.S (length (concat raws ++ tail))) _ _ _ _
    (Nat.le_add_r _ _) Hf) as H1.
  pose proof (serve_loop_more _ (fuel + Datatypes.S (length (concat raws ++ tail))) _ _ _ _
    (Nat.le_add_l _ _) Hres) as H2.
  congruence.
Qed.

End server.

(** ** SDO accesses of an axis *)

Section axis_server.
Context {A D : Type} `{DriveAdapter A}.
Context (clock mono : nat → float).
Context (store_save : axis A D → outcome () * D).
Implicit Types (x : axis A D) (r : request).

(** The exceptions that leave an axis. *)
Definition escapes (e : exn) : Prop :=
  is_key_error e = true ∨ is_value_error e = true ∨ e = OSError.

Lemma access_raises op r x e x' :
  dispatch_access clock mono store_save op r x = (Raise e, x') → escapes e.
Proof.
  unfold dispatch_access, try_except, escapes.
  destruct (_dispatch clock mono store_save r x) as [[a|e1] x1]; [done|].
  unfold access_handler.
  assert (∀ c b, (on_guard (detect clock c b) ;; mret (RError 0x08000000)) x1 ≠ (Raise e, x')) as Hd.
  { intros c b. destruct (on_guard_detect clock c b x1) as (g & _ & _ & _ & Hg).
    by rewrite (bind_eq_ret _ _ _ _ _ Hg). }
  destruct e1; cbn [is_key_error is_value_error orb]; intros E;
    first [by apply Hd in E | injection E as <- _; auto | idtac].
  destruct (_ && _ && _); [injection E as <- _; auto|by apply Hd in E].
Qed.

Lemma dispatch_raises r x e x' :
  dispatch clock mono store_save r x = (Raise e, x') → escapes e.
Proof.
  unfold dispatch, field. destruct (rq_op r) as [op|] eqn:Hop; cbn [of_option];
    rewrite lift_bind; [|intros [= <- _]; by left].
  rewrite bind_gets.
  assert (∀ s : bool, (if s && negb (bool_decide (phase (fault_state x) = Normal))
      then mret (RData (projected_statusword (fault_state x)))
      else if restart_required (fault_state x) && (String.eqb op "read" || String.eqb op "write")
           then mret (RError 0x08000022)
           else if String.eqb op "cycle" || String.eqb op "idle"
                then dispatch_guarded clock mono store_save op r
                else dispatch_access clock mono store_save op r) x = (Raise e, x') → escapes e) as Hs.
  { intros s. destruct (s && _); [done|]. destruct (_ && _); [done|].
    destruct (String.eqb op "cycle" || String.eqb op "idle"); [|apply access_raises].
    pose proof (dispatch_guarded_cases clock mono store_save op r x) as Hd.
    destruct (guarded_body clock mono store_save op r x) as [[[a|a]|e1] x1]; intros E;
      [|destruct Hd as [(Hd & _)|[_ Hd]]|destruct Hd as (g & c & b & _ & _ & Hd)]; congruence. }
  destruct (String.eqb op "read"); [|rewrite bind_ret_l; apply Hs].
  rewrite bind_assoc, lift_bind. destruct (rq_index r); cbn [of_option]; [|intros [= <- _]; by left].
  destruct (_ =? _); [|rewrite bind_ret_l; apply Hs].
  rewrite bind_assoc, lift_bind. destruct (rq_subindex r); cbn [of_option]; [|intros [= <- _]; by left].
  rewrite bind_ret_l. apply Hs.
Qed.

(** An SDO access of an axis is always answered: the server passes no
    exception of a read or a write on, whatever the adapter and the store
    raise.  It answers with the reply of the axis, or aborts: rejected by the
    device, a missing object, a bad value, or a storage failure, in the order
    of the exception classes. *)
Theorem access_always_answered r x :
  is_access r = true →
  let served := dispatch_request (dispatch clock mono store_save) r x in
  match dispatch clock mono store_save r x with
  | (Ret a, x') => served = (Ret a, x')
  | (Raise e, x') => ∃ code, abort_code e = Some code ∧ served = (Ret (RError code), x')
      ∧ code ∈ [0x06010000; 0x06020000; 0x06090030; 0x08000020]
  end.
Proof.
  intros Ha served. subst served. unfold dispatch_request, try_except. rewrite Ha. cbn [negb].
  destruct (dispatch clock mono store_save r x) as [[a|e] x'] eqn:E; [done|].
  apply dispatch_raises in E. unfold escapes in E.
  assert (∃ code, abort_code e = Some code ∧ code ∈ [0x06010000; 0x06020000; 0x06090030; 0x08000020])
    as (code & -> & Hc); [|by exists code].
  destruct e; vm_compute in E; try (by destruct E as [E|[E|E]]); eexists; (split; [reflexivity|]); set_solver.
Qed.
End axis_server.

(** ** Witnesses

    A connection to the example axis.  Requests are written as one letter
    here: "c" asks for a cycle, any other letter for the actual position. *)

Definition letter_loads (raw : list byte) : outcome request :=
  match raw with
  | x63 :: _ => Ret (cycle_request 6 1)
  | _ => Ret (Request (Some "read") (Some 0x6064) (Some 0) None None)
  end.

Definition letter_dumps (a : reply) : list byte :=
  match a with
  | RData d | RCycle d _ => Text.bytes_of d
  | _ => []
  end.

Lemma serve_answers_in_order_witness :
  ∃ s, serve (dispatch still ticks no_save) letter_loads letter_dumps
         [x63; x0a; x72; x0a; x72] linear_axis
       = Some (Raise ValueError,
           Text.bytes_of "2104010000000000000000000000" ++ [x0a] ++ Text.bytes_of "00000000" ++ [x0a], s).
Proof.
  set (rs := [cycle_request 6 1; Request (Some "read") (Some 0x6064) (Some 0) None None]).
  exists (replies (dispatch still ticks no_save) letter_dumps rs [] linear_axis).2.
  rewrite (serve_answers_in_order (dispatch still ticks no_save) letter_loads letter_dumps
    [[x63; x0a]; [x72; x0a]] rs [x72] linear_axis).
  - assert (E : (replies (dispatch still ticks no_save) letter_dumps rs [] linear_axis).1
      = (Ret tt, Text.bytes_of "2104010000000000000000000000" ++ [x0a] ++ Text.bytes_of "00000000" ++ [x0a]))
      by (vm_compute; reflexivity).
    destruct (replies _ _ _ _ _) as [[r out] s]. simpl in E |- *. by injection E as -> ->.
  - repeat constructor; [exists [x63]|exists [x72]]; (split; [reflexivity|]); (split; [set_solver|]);
      vm_compute; discriminate.
  - set_solver.
Defined.

Lemma access_always_answered_witness :
  let r := Request (Some "write") (Some 0x6081) (Some 0) (Some "0000") None in
  (dispatch_request (dispatch still ticks no_save) r linear_axis).1 = Ret (RError 0x06090030).
Proof.
  intros r. pose proof (access_always_answered still ticks no_save r linear_axis eq_refl) as H.
  assert (E : (dispatch still ticks no_save r linear_axis).1 = Raise ValueError)
    by (vm_compute; reflexivity).
  cbv zeta in H. destruct (dispatch still ticks no_save r linear_axis) as [[a|e] x']; [discriminate|].
  injection E as ->. destruct H as (code & Hc & -> & _). injection Hc as <-. reflexivity.
Defined.
