(* ===== verification/Wire.v ===== *)
(** * The messages on the wire

    The JSON objects of the protocol of src/functional_model/ipc/server.py: the
    requests as [json.loads] reads them from a line, and the replies that
    src/functional_model/runtime/axis.py ([dispatch], [describe]),
    src/functional_model/diagnostics/fault.py ([Diagnostic], [response]),
    src/functional_model/runtime/fleet.py ([describe]) and the server build, as
    [json.dumps] writes them with [separators=(',', ':')].

    What the other files leave out of a reply is an argument here: the random
    identifiers and the detail texts of the diagnostics, the messages of the
    aborts, the identity of the devices and the artifacts of the FMUs.  The
    hash of a contract is computed.

    [read_request] covers every message in UTF-8 whose fields have the types of
    the protocol, and every faulty text; what the program does with the other
    messages (a byte order mark or zero bytes, a number for a text) is the
    argument [other] of [server_loads].

    The theorem: a client that writes requests as lines of JSON reads one line
    for every reply, in order, and finds the reply in it. *)

From S2P Require Import Prelude PyFloat.
From S2P Require Export Sha256 Config Server.

Open Scope string_scope.
Open Scope list_scope.
Open Scope Z_scope.

(** ** Requests *)

(** [request.get(key)] of a field that is a text or an integer. *)
Definition text_field (key : string) (d : list (string * json)) : option (option string) :=
  match dict_get key d with
  | None => Some None
  | Some (JStr s) => Some (Some s)
  | Some _ => None
  end.

Definition integer_field (key : string) (d : list (string * json)) : option (option Z) :=
  match dict_get key d with
  | None => Some None
  | Some (JInt z) => Some (Some z)
  | Some _ => None
  end.

(** [request.get('slave_index')], any value: [None] stands for a missing one,
    and no array or object is an [int]. *)
Definition slave_field (d : list (string * json)) : option pyval :=
  match dict_get "slave_index" d with
  | None | Some JNull => None
  | Some j => Some (default (PStr "") (json_scalar j))
  end.

(** The request a value stands for; a value that is not an object has no
    [get]. *)
Definition request_of_json (j : json) : option (outcome request) :=
  match j with
  | JObj d =>
      op ← text_field "op" d; index ← integer_field "index" d;
      subindex ← integer_field "subindex" d; data ← text_field "data" d;
      Some (Ret (Request op index subindex data (slave_field d)))
  | _ => Some (Raise AttributeError)
  end.

(** The encoding that [json.loads] takes bytes to be in, when it is UTF-8
    without a byte order mark. *)
Definition utf8_message (raw : list byte) : bool :=
  match raw with
  | a :: b :: _ =>
      negb (bool_decide (a = x00)) && negb (bool_decide (b = x00))
      && negb (bool_decide (a ∈ [xef; xfe; xff]))
  | _ => true
  end.

(** [json.loads(raw)] and the types of the fields. *)
Definition read_request (raw : list byte) : option (outcome request) :=
  if utf8_message raw then
    match code_points true (Text.of_bytes raw) with
    | Some _ =>
        match loads Lenient (Text.of_bytes raw) with
        | Ret j => request_of_json j
        | Raise e => Some (Raise e)
        end
    | None => Some (Raise ValueError)
    end
  else None.

Definition server_loads (other : list byte → outcome request) (raw : list byte) : outcome request :=
  default (other raw) (read_request raw).

(** A request as a client writes it: the fields that are there. *)
Definition slave_json (v : pyval) : json :=
  match v with
  | PInt z => JInt z
  | PFloat f => JFloat f
  | PBool b => JBool b
  | PStr s => JStr s
  | PBytes _ => JNull
  end.

Definition member {A} (key : string) (f : A → json) (x : option A) : list (string * json) :=
  match x with Some x => [(key, f x)] | None => [] end.

Definition request_json (r : request) : json :=
  JObj (member "op" JStr (rq_op r) ++ member "index" JInt (rq_index r)
    ++ member "subindex" JInt (rq_subindex r) ++ member "data" JStr (rq_data r)
    ++ member "slave_index" slave_json (rq_slave_index r)).

Definition line_end : string := String.String (Text.chr 10) "".

Definition request_line (r : request) : list byte :=
  Text.bytes_of (write_json Compact 0 (request_json r) line_end).

(** ** Replies *)

Section replies.
Context (diagnostic_id detail : Diagnostic.t → string) (execution_failure : Diagnostic.t → string).
Context (message : Z → string).
Context (source_hash : string) (vendor product revision : Z) (artifact : device → option string).

Definition code_name (c : diag_code) : string :=
  match c with
  | AXIS_DRIVE_FAULT => "AXIS_DRIVE_FAULT"
  | AXIS_DRIVE_WARNING => "AXIS_DRIVE_WARNING"
  | AXIS_MODEL_EXECUTION_FAILED => "AXIS_MODEL_EXECUTION_FAILED"
  | AXIS_MODEL_OUTPUT_INVALID => "AXIS_MODEL_OUTPUT_INVALID"
  | AXIS_ADAPTER_FAULT => "AXIS_ADAPTER_FAULT"
  | PARAMETER_SAVE_FAILED => "PARAMETER_SAVE_FAILED"
  end.

Definition time_json (t : option float) : json :=
  match t with Some t => JFloat t | None => JNull end.

(** [context or {}] *)
Definition context_json (x : Diagnostic.t) : json :=
  match Diagnostic.context x with
  | None => JObj []
  | Some c =>
      JObj ([("last_valid_at", time_json (ctx_last_valid_at c));
             ("feedback_valid", JBool (ctx_feedback_valid c));
             ("restart_required", JBool (ctx_restart_required c))]
        ++ (if ctx_execution_failure c then [("execution_failure", JStr (execution_failure x))] else []))
  end.

(** [Diagnostic.value] *)
Definition diagnostic_json (x : Diagnostic.t) : json :=
  let code := JStr (code_name (Diagnostic.code x)) in
  JObj [("diagnostic_id", JStr (diagnostic_id x));
        ("definition", JObj [("code", code);
           ("level", JStr (if Diagnostic.fault_level x then "fault" else "alarm")); ("title", code);
           ("description", JStr (detail x)); ("latching", JBool (Diagnostic.latching x))]);
        ("source", JObj [("type", JStr "axis"); ("index", JInt (Diagnostic.axis x))]);
        ("history", JObj [("occurred_at", JFloat (Diagnostic.occurred_at x));
           ("acknowledged_at", time_json (Diagnostic.acknowledged_at x));
           ("resolved_at", time_json (Diagnostic.resolved_at x))]);
        ("detail", JStr (detail x)); ("context", context_json x)].

(** [AxisFault.response], and [cycles] when a failed cycle is answered. *)
Definition guard_json (r : guard_response) (cycles : option Z) : json :=
  JObj ([("data", JStr (hex (r_data r)));
         ("fault", match r_fault r with Some x => diagnostic_json x | None => JNull end);
         ("restart_required", JBool (r_restart_required r));
         ("feedback_valid", JBool (r_feedback_valid r));
         ("last_valid_at", time_json (r_last_valid_at r))]
    ++ member "cycles" JInt cycles).

Definition entry_json (e : (Z * Z) * AxisEntry.t) : json :=
  let '((index, subindex), e) := e in
  JObj [("index", JInt index); ("subindex", JInt subindex); ("name", JStr (AxisEntry.name e));
        ("type", JStr (AxisEntry.type e)); ("bits", JInt (AxisEntry.bits e));
        ("access", JStr (AxisEntry.access e)); ("initial", JStr (AxisEntry.initial e))].

Definition mapping_json (m : Z * Z * Z * string * string) : json :=
  let '(index, subindex, bits, name, type) := m in
  JObj [("index", JInt index); ("subindex", JInt subindex); ("bits", JInt bits);
        ("name", JStr name); ("type", JStr type)].

(** [describe]: the contract, and its hash over the sorted text. *)
Definition unsigned_contract (c : contract) : list (string * json) :=
  [("protocol", JInt 1); ("profile", JStr "cmmt_as"); ("pdo", JStr "motion_server_default");
   ("preset", JStr (c_preset c)); ("model_source_hash", JStr source_hash);
   ("vendor", JInt vendor); ("product", JInt product); ("revision", JInt revision);
   ("rx_size", JInt (c_rx_size c)); ("tx_size", JInt (c_tx_size c));
   ("entries", JArr (map entry_json (c_entries c)));
   ("rx", JArr (map mapping_json (c_rx c))); ("tx", JArr (map mapping_json (c_tx c)))].

Definition contract_hash (c : contract) : string :=
  hexdigest (write_json Spaced 0 (sort_json (JObj (unsigned_contract c))) "").

Definition contract_json (c : contract) : json :=
  JObj (unsigned_contract c ++ [("contract_hash", JStr (contract_hash c))]).

Definition reply_json (a : reply) : json :=
  match a with
  | REmpty => JObj []
  | RData d => JObj [("data", JStr d)]
  | RCycle d n => JObj [("data", JStr d); ("cycles", JInt n)]
  | RError code =>
      JObj [("error", JObj [("kind", JStr "sdo_abort"); ("code", JInt code);
                            ("message", JStr (message code))])]
  | RGuard r cycles => guard_json r cycles
  | RDescribe c => contract_json c
  | RFleet ds =>
      JObj [("protocol", JInt 2);
            ("devices", JArr (map (λ '(d, c), JObj [("device", device_json d (artifact d));
                                                   ("contract", contract_json c)]) ds))]
  end.

(** [json.dumps(response, separators=(',', ':')).encode()] *)
Definition encode_reply (a : reply) : list byte :=
  Text.bytes_of (write_json Compact 0 (reply_json a) "").
End replies.

(** What a client has read of a stream: the lines, and what follows the last
    end of a line. *)
Fixpoint lines (stream : list byte) : list (list byte) :=
  match stream with
  | [] => [[]]
  | b :: stream =>
      if bool_decide (b = newline) then [] :: lines stream
      else
        match lines stream with
        | l :: ls => (b :: l) :: ls
        | [] => [[b]]
        end
  end.

(** [json.loads(line)] *)
Definition read_line (line : list byte) : outcome json := loads Lenient (Text.of_bytes line).

(** ** Lemmas *)

(** *** A reply is one line *)

Definition printable_char (a : Ascii.ascii) : bool := (32 <=? Text.code a) && (Text.code a <? 127).

Fixpoint printable (s : string) : bool :=
  match s with
  | EmptyString => true
  | String.String a s => printable_char a && printable s
  end.

Lemma printable_cons a s : printable_char a = true → printable s = true → printable (String.String a s) = true.
Proof. intros Ha Hs. cbn. by rewrite Ha. Qed.

Lemma printable_append s t : printable s = true → printable t = true → printable (s ++ t)%string = true.
Proof.
  intros Hs Ht. induction s as [|a s IH]; [done|]. cbn in Hs. apply andb_true_iff in Hs as [H1 H2].
  rewrite append_cons. apply printable_cons; auto.
Qed.

Lemma printable_digit n : 0 ≤ n < 16 → printable_char (digit_char n) = true.
Proof. apply (forall_residues 16 (λ n, printable_char (digit_char n))). vm_compute. reflexivity. Qed.

Lemma printable_digits base fuel n k :
  0 < base ≤ 16 → printable k = true → printable (digits_base base fuel n k) = true.
Proof.
  intros Hbase. revert n k. induction fuel as [|fuel IH]; intros n k Hk; [done|]. cbn [digits_base].
  pose proof (Z.mod_pos_bound n base ltac:(lia)).
  assert (printable (String.String (digit_char (n mod base)) k) = true).
  { apply printable_cons; [|done]. apply printable_digit. lia. }
  destruct (n / base =? 0); auto.
Qed.

Lemma printable_base base n : 0 < base ≤ 16 → printable (to_base base n) = true.
Proof. intros. by apply printable_digits. Qed.

Lemma printable_zeros n : printable (PyText.zeros n) = true.
Proof. unfold PyText.zeros. by induction (Z.to_nat n). Qed.

Lemma printable_pad width s : printable s = true → printable (pad_left width s) = true.
Proof. intros Hs. apply printable_append; [apply printable_zeros|done]. Qed.

Lemma printable_substring n m s : printable s = true → printable (String.substring n m s) = true.
Proof.
  revert n m. induction s as [|a s IH]; intros [|n] [|m] Hs; try done;
    cbn in Hs; apply andb_true_iff in Hs as [H1 H2]; cbn [String.substring]; auto.
  apply printable_cons; auto.
Qed.

Lemma printable_repr f : printable (repr_float f) = true.
Proof.
  destruct f as [[]|[]| |s m e]; try done. cbn [repr_float].
  destruct (if 0 <=? e then _ else _) as [n d]. destruct (shortest _ n d 16 1) as [[q p] nd].
  apply printable_append; [by destruct s|].
  assert (Hq : printable (to_base 10 q) = true) by (by apply printable_base).
  unfold format_repr. destruct (_ || _).
  - apply printable_append.
    + destruct (to_base 10 q) as [|a [|b r]]; [done..|]. cbn in Hq. apply andb_true_iff in Hq as [H1 H2].
      apply printable_cons; [done|]. exact H2.
    + apply printable_append; [by destruct (p - 1 <? 0)|]. by apply printable_pad, printable_base.
  - destruct (p <=? 0).
    { apply (printable_append "0."); [done|]. apply printable_append; [apply printable_zeros|done]. }
    destruct (_ <=? p).
    + apply printable_append; [done|]. apply printable_append; [apply printable_zeros|done].
    + apply printable_append; [by apply printable_substring|].
      apply (printable_append "."); [done|]. by apply printable_substring.
Qed.

Lemma printable_u c k : printable k = true → printable (u_escape c k) = true.
Proof.
  intros Hk. unfold u_escape.
  assert (∀ n, printable_char (digit_char (n mod 16)) = true) as Hd.
  { intros n. apply printable_digit. apply Z.mod_pos_bound. lia. }
  do 2 (apply printable_cons; [done|]). by do 4 (apply printable_cons; [apply Hd|]).
Qed.

Lemma printable_chr c : 32 ≤ c < 127 → printable_char (Text.chr c) = true.
Proof.
  intros Hc. assert (implb (32 <=? c) (printable_char (Text.chr c)) = true) as H.
  { apply (forall_residues 127 (λ n, implb (32 <=? n) (printable_char (Text.chr n)))); [|lia].
    vm_compute. reflexivity. }
  by rewrite (proj2 (Z.leb_le _ _)) in H by lia.
Qed.

Lemma printable_escape c k : printable k = true → printable (escape c k) = true.
Proof.
  intros Hk. unfold escape. cbv zeta.
  repeat (destruct (Z.eqb _ _); [by do 2 (apply printable_cons; [done|])|]).
  destruct (Z.leb_spec 32 c); [destruct (Z.ltb_spec c 127)|]; cbn [andb];
    [by apply printable_cons; [apply printable_chr|]|..];
    (destruct (c <? 65536); repeat apply printable_u; done).
Qed.

Lemma printable_string s k : printable k = true → printable (write_string s k) = true.
Proof.
  intros Hk. unfold write_string. apply printable_cons; [done|].
  induction (default [] (code_points true s)) as [|c l IH]; [by apply printable_cons|].
  by apply printable_escape.
Qed.

Lemma printable_items {A} (item : A → string → string) op cl level l k :
  Forall (λ x, ∀ k, printable k = true → printable (item x k) = true) l →
  printable_char op = true → printable_char cl = true → printable k = true →
  printable (write_items item op cl Compact level l k) = true.
Proof.
  intros Hl Hop Hcl Hk. destruct Hl as [|x l Hx Hl]; [by do 2 (apply printable_cons; [done|])|].
  cbn [write_items newline]. apply printable_cons; [done|]. apply Hx.
  induction Hl as [|y l Hy _ IH]; cbn [write_rest newline item_sep]; [by apply printable_cons|].
  apply printable_cons; [done|]. by apply Hy.
Qed.

Lemma printable_json j : ∀ level k, printable k = true → printable (write_json Compact level j k) = true.
Proof.
  induction j as [|b|z|f|s|l IH|d IH] using json_nested_ind; intros level k Hk; cbn [write_json].
  - exact Hk.
  - by destruct b.
  - unfold write_int, write_nat.
    destruct (z <? 0); [apply printable_cons; [done|]|]; (apply printable_digits; [lia|done]).
  - apply printable_append; [|done]. destruct f as [[]|[]| |]; try done; apply printable_repr.
  - by apply printable_string.
  - apply printable_items; try done. eapply Forall_impl; [exact IH|]. auto.
  - apply printable_items; try done. eapply Forall_impl; [exact IH|]. intros [key v] H t Ht. cbn in H |- *.
    apply printable_string, printable_cons; [done|]. by apply H.
Qed.

Lemma printable_no_newline s : printable s = true → newline ∉ Text.bytes_of s.
Proof.
  unfold Text.bytes_of. induction s as [|a s IH]; [set_solver|]. cbn. intros [Ha Hs]%andb_true_iff.
  apply not_elem_of_cons. split; [|by apply IH]. intros E.
  assert (implb (printable_char a) (negb (bool_decide (newline = Ascii.byte_of_ascii a))) = true) as H.
  { clear. revert a. refine (forall_ascii _ _). vm_compute. reflexivity. }
  rewrite Ha, bool_decide_true in H by done. done.
Qed.

Lemma bytes_of_app s t : Text.bytes_of (s ++ t)%string = Text.bytes_of s ++ Text.bytes_of t.
Proof. induction s as [|a s IH]; [done|]. exact (f_equal (cons (Ascii.byte_of_ascii a)) IH). Qed.

Lemma of_bytes_of s : Text.of_bytes (Text.bytes_of s) = s.
Proof. apply String.string_of_list_byte_of_string. Qed.

Lemma lines_line l stream : newline ∉ l → lines (l ++ newline :: stream) = l :: lines stream.
Proof.
  induction l as [|b l IH]; intros Hn; cbn [app lines]; [by rewrite bool_decide_true|].
  apply not_elem_of_cons in Hn as [Hb Hn]. rewrite bool_decide_false by congruence. by rewrite IH.
Qed.

Lemma lines_concat ls :
  Forall (λ l, newline ∉ l) ls → lines (concat (map (λ l, l ++ [newline]) ls)) = ls ++ [[]].
Proof.
  induction 1 as [|l ls Hl _ IH]; [done|]. cbn [map concat]. rewrite <-app_assoc. cbn [app].
  by rewrite lines_line, IH.
Qed.

(** *** A request is read as it was written *)

(** What a client may send: texts in ASCII, floats that read back, no bytes
    for the number of the axis, and not more than the server takes. *)
Definition sendable (r : request) : bool :=
  plain_json (request_json r)
  && match rq_slave_index r with Some (PBytes _) => false | _ => true end
  && (Z.of_nat (length (request_line r)) <=? MAX_MESSAGE).

Lemma request_of_request_json r :
  (∀ bs, rq_slave_index r ≠ Some (PBytes bs)) → request_of_json (request_json r) = Some (Ret r).
Proof.
  destruct r as [[op|] [i|] [si|] [data|] [[]|]]; intros H; try reflexivity; by destruct (H bs).
Qed.

Lemma request_line_shape r :
  plain_json (request_json r) = true →
  request_line r = Text.bytes_of (write_json Compact 0 (request_json r) "") ++ [newline]
  ∧ newline ∉ Text.bytes_of (write_json Compact 0 (request_json r) "").
Proof.
  intros Hp. split; [|by apply printable_no_newline, printable_json].
  unfold request_line. change [newline] with (Text.bytes_of line_end).
  by rewrite <-bytes_of_app, write_json_app, append_nil.
Qed.

Lemma utf8_request_line r : utf8_message (request_line r) = true.
Proof.
  unfold request_line, request_json. cbn [write_json].
  destruct (_ ++ _) as [|[key v] d]; reflexivity.
Qed.

Lemma read_request_line r : sendable r = true → read_request (request_line r) = Some (Ret r).
Proof.
  unfold sendable. intros [[Hp Hb]%andb_true_iff _]%andb_true_iff.
  unfold read_request. rewrite utf8_request_line. unfold request_line. rewrite of_bytes_of.
  rewrite code_points_ascii by (by apply write_json_ascii).
  rewrite loads_written by done. apply request_of_request_json. intros bs E. by rewrite E in Hb.
Qed.

Lemma sendable_message r : sendable r = true → message (request_line r).
Proof.
  unfold sendable. intros [[Hp _]%andb_true_iff Hl]%andb_true_iff.
  destruct (request_line_shape r Hp) as [E Hn]. eexists. split; [exact E|]. split; [done|lia].
Qed.

(** *** The conversation *)

Section conversation.
Context {S : Type} (dispatch : request → M S reply).

(** The replies to a sequence of requests, up to the first exception. *)
Fixpoint answered (rs : list request) (s : S) : list reply * outcome () * S :=
  match rs with
  | [] => ([], Ret tt, s)
  | r :: rs =>
      match dispatch_request dispatch r s with
      | (Raise e, s) => ([], Raise e, s)
      | (Ret a, s) => let '(l, res, s) := answered rs s in (a :: l, res, s)
      end
  end.

Lemma replies_answered dumps rs out s :
  replies dispatch dumps rs out s =
  let '(l, res, s') := answered rs s in
  (res, out ++ concat (map (λ a, dumps a ++ [newline]) l), s').
Proof.
  revert out s. induction rs as [|r rs IH]; intros out s; cbn [replies answered].
  { by rewrite app_nil_r. }
  destruct (dispatch_request dispatch r s) as [[a|e] s1]; [|by rewrite app_nil_r].
  rewrite IH. destruct (answered rs s1) as [[l res] s2]. cbn [map concat].
  by rewrite <-!app_assoc.
Qed.

(** An invariant of the state, and what the replies owe to their requests. *)
Lemma answered_replies (I : S → Prop) (Q : request → reply → Prop) rs s :
  (∀ r s, I s → I (dispatch_request dispatch r s).2
     ∧ ∀ a, (dispatch_request dispatch r s).1 = Ret a → Q r a) →
  I s → ∀ i r a, rs !! i = Some r → (answered rs s).1.1 !! i = Some a → Q r a.
Proof.
  intros HQ. revert s. induction rs as [|r rs IH]; intros s Hs i r' a Hr Ha; [done|].
  destruct (HQ r s Hs) as [H1 H2]. cbn [answered] in Ha.
  destruct (dispatch_request dispatch r s) as [[a1|e] s1]; [|done].
  destruct i as [|i].
  - injection Hr as <-. destruct (answered rs s1) as [[l res] s2]. injection Ha as <-. by apply H2.
  - apply (IH s1 H1 i r' a); [done|]. by destruct (answered rs s1) as [[l res] s2].
Qed.
End conversation.

Section wire_props.
Context {S : Type} (dispatch : request → M S reply) (other : list byte → outcome request).
Context (diagnostic_id detail : Diagnostic.t → string) (execution_failure : Diagnostic.t → string).
Context (message : Z → string).
Context (source_hash : string) (vendor product revision : Z) (artifact : device → option string).

Abbreviation encode := (encode_reply diagnostic_id detail execution_failure message source_hash
  vendor product revision artifact).
Abbreviation to_json := (reply_json diagnostic_id detail execution_failure message source_hash
  vendor product revision artifact).

(** The server and a client of any owner understand each other.  A client that writes its
    requests as lines of JSON reads one line for every reply, in the order of
    the requests and nothing else, and the JSON value of a line is the object
    the program built; the requests are dispatched as they were meant, each on
    the state the requests before it left, until the first exception or the
    end of the stream, and an incomplete last line is refused. *)
Lemma conversation rs tail s :
  Forall (λ r, sendable r = true) rs → newline ∉ tail →
  let '(answers, res, s') := answered dispatch rs s in
  ∃ out, serve dispatch (server_loads other) encode (concat (map request_line rs) ++ tail) s
      = Some (match res with
              | Ret _ => if bool_decide (tail = []) then Ret tt else Raise ValueError
              | Raise e => Raise e
              end, out, s')
    ∧ lines out = map encode answers ++ [[]]
    ∧ ∀ a, plain_json (to_json a) = true → read_line (encode a) = Ret (to_json a).
Proof.
  intros Hrs Htail.
  assert (Forall2 (λ raw r, Server.message raw ∧ server_loads other raw = Ret r) (map request_line rs) rs) as Hl.
  { clear -Hrs. induction Hrs as [|r rs Hr _ IH]; constructor; [|done].
    split; [by apply sendable_message|]. unfold server_loads. by rewrite read_request_line. }
  pose proof (serve_answers_in_order dispatch (server_loads other) encode _ _ _ s Hl Htail) as Hs.
  rewrite replies_answered in Hs. destruct (answered dispatch rs s) as [[answers res] s'].
  eexists. split; [rewrite Hs; destruct res; reflexivity|]. cbn [app]. split.
  - rewrite <-(lines_concat (map encode answers)).
    + by rewrite map_map.
    + apply Forall_fmap, Forall_true. intros a. by apply printable_no_newline, printable_json.
  - intros a Ha. unfold read_line, encode_reply. rewrite of_bytes_of.
    by apply loads_written.
Qed.
End wire_props.
