(* ===== verification/TimingLog.v ===== *)
(** * The log of the timing reports, and its summary

    src/scripts/linux/summarize-python-timing.py ([summarize]) reads the lines
    that [flush] of src/functional_model/diagnostics/python_timing.py prints
    among all others of a log, and adds up the windows they report.

    A log is its text, decoded.  The fields of a record are JSON values: an
    operator on a value that is not a number raises a [TypeError] (Python
    would compare two texts or two lists; the program writes numbers).  An
    integer divided by an integer is converted first, which is exact below
    2 ^ 53.  The constant texts of the answer are left out.

    The theorem: the summary counts every sample of the selected windows,
    once, under its key. *)

From S2P Require Import Prelude PyFloat.
From S2P Require Timing.
From S2P Require Export Wire.

Open Scope string_scope.
Open Scope list_scope.
Open Scope Z_scope.

(** ** The printed line *)

Definition average_json (a : Timing.average) : json :=
  JObj [("count", JInt (Timing.avg_count a)); ("min_ms", JFloat (Timing.avg_min_ms a));
        ("max_ms", JFloat (Timing.avg_max_ms a)); ("cpu_max_ms", JFloat (Timing.avg_cpu_max_ms a));
        ("avg_ms", JFloat (Timing.avg_ms a)); ("cpu_avg_ms", JFloat (Timing.cpu_avg_ms a))].

Definition report_fields (r : Timing.report) : list (string * json) :=
  [("event", JStr "python-timing"); ("reason", JStr (Timing.rp_reason r)); ("axes", JInt (Timing.rp_axes r));
   ("unix_ms", JFloat (Timing.rp_unix_ms r)); ("elapsed_s", JFloat (Timing.rp_elapsed_s r));
   ("window_s", JFloat (Timing.rp_window_s r));
   ("metrics", JObj (map (λ '(k, a), (k, average_json a)) (Timing.rp_metrics r)))].

Definition report_json (r : Timing.report) : json := JObj (report_fields r).

Definition report_line (r : Timing.report) : string := write_json Compact 0 (report_json r) "".

(** ** Lines *)

(** The length of the line boundary a text starts with, 0 without one: those
    of [str.splitlines]. *)
Definition boundary (s : string) : nat :=
  match List.map Text.code (String.list_ascii_of_string (String.substring 0 3 s)) with
  | 13 :: 10 :: _ => 2%nat
  | 0xC2 :: 0x85 :: _ => 2%nat
  | 0xE2 :: 0x80 :: c :: _ => if (c =? 0xA8) || (c =? 0xA9) then 3%nat else 0%nat
  | c :: _ => if ((10 <=? c) && (c <=? 13)) || ((28 <=? c) && (c <=? 30)) then 1%nat else 0%nat
  | [] => 0%nat
  end.

(** The rest of the line behind [skip] characters, and the lines behind it;
    a boundary at the end is followed by no line. *)
Fixpoint split_from (skip : nat) (s : string) : string * list string :=
  match s with
  | EmptyString => ("", [])
  | String.String a r =>
      match skip with
      | S k => split_from k r
      | O =>
          match boundary s with
          | O => let '(line, ls) := split_from 0 r in (String.String a line, ls)
          | S k =>
              let '(line, ls) := split_from k r in
              ("", if Nat.eqb (String.length r) k then [] else line :: ls)
          end
      end
  end.

Definition splitlines (s : string) : list string :=
  match s with
  | EmptyString => []
  | _ => let '(line, ls) := split_from 0 s in line :: ls
  end.

(** ** The summary *)

Definition item (key : string) (d : list (string * json)) : outcome json :=
  of_option KeyError (dict_get key d).

Definition operand (j : json) : outcome pyval := of_option TypeError (json_scalar j).

Definition truth (j : json) : bool :=
  match j with
  | JNull => false
  | JBool b => b
  | JInt z => negb (z =? 0)
  | JFloat f => negb (f_eq f f_zero)
  | JStr s => negb (String.eqb s "")
  | JArr l => match l with [] => false | _ => true end
  | JObj d => match d with [] => false | _ => true end
  end.

(** [min(a, b)] and [max(a, b)] of two values *)
Definition smaller (a b : json) : outcome json :=
  x ← operand a; y ← operand b; lt ← py_lt y x; mret (if (lt : bool) then b else a).

Definition larger (a : pyval) (b : json) : outcome pyval :=
  y ← operand b; gt ← py_lt a y; mret (if (gt : bool) then y else a).

Record total := Total {
  tt_count : pyval;
  tt_ms : pyval;
  tt_cpu_ms : pyval;
  tt_min_ms : json;
  tt_max_ms : pyval;
  tt_cpu_max_ms : pyval;
}.

Definition new_total (min_ms : json) : total := Total (PInt 0) (PInt 0) (PInt 0) min_ms (PInt 0) (PInt 0).

(** [a += b['count'] * b[key]] *)
Definition add_weighted (a : pyval) (count : json) (key : string) (b : list (string * json)) : outcome pyval :=
  v ← item key b; n ← operand count; x ← operand v; p ← py_mul n x; py_add a p.

(** One metric of a record. *)
Definition count_metric (ms : list (string * total)) (kv : string * json) : outcome (list (string * total)) :=
  let '(key, b) := kv in
  match b with
  | JObj b =>
      c ← item "count" b;
      if negb (truth c) then mret ms
      else
        m ← item "min_ms" b;
        let a := default (new_total m) (dict_get key ms) in
        n ← operand c; count ← py_add (tt_count a) n;
        ms_sum ← add_weighted (tt_ms a) c "avg_ms" b;
        cpu_sum ← add_weighted (tt_cpu_ms a) c "cpu_avg_ms" b;
        least ← smaller (tt_min_ms a) m;
        x ← item "max_ms" b; most ← larger (tt_max_ms a) x;
        y ← item "cpu_max_ms" b; cpu_most ← larger (tt_cpu_max_ms a) y;
        mret (dict_set key (Total count ms_sum cpu_sum least most cpu_most) ms)
  | _ => Raise TypeError
  end.

Record tally := Tally {
  tl_axes : list json;
  tl_windows : Z;
  tl_metrics : list (string * total);
}.

(** [axes.add(j)] *)
Definition add_axes (j : json) (axes : list json) : outcome (list json) :=
  match j with
  | JArr _ | JObj _ => Raise TypeError
  | _ => mret (if existsb (json_eqb j) axes then axes else axes ++ [j])
  end.

(** [record['elapsed_s'] - record['window_s'] < skip_seconds] *)
Definition starts_early (skip : pyval) (d : list (string * json)) : outcome bool :=
  el ← item "elapsed_s" d; w ← item "window_s" d;
  x ← operand el; y ← operand w; b ← py_sub x y; py_lt b skip.

Definition count_record (skip : pyval) (t : tally) (d : list (string * json)) : outcome tally :=
  early ← starts_early skip d;
  if (early : bool) then mret t
  else
    a ← item "axes" d; axes ← add_axes a (tl_axes t);
    m ← item "metrics" d;
    match m with
    | JObj m => ms ← fold_outcome count_metric (tl_metrics t) m; mret (Tally axes (tl_windows t + 1) ms)
    | _ => Raise AttributeError
    end.

(** The record of a line, if it is one of the timing. *)
Definition timing_record (line : string) : option (list (string * json)) :=
  if negb (Text.starts_with "{" line) then None
  else
    match loads Lenient line with
    | Ret (JObj d) =>
        match dict_get "event" d with
        | Some (JStr e) => if String.eqb e "python-timing" then Some d else None
        | _ => None
        end
    | _ => None
    end.

Definition count_line (skip : pyval) (t : tally) (line : string) : outcome tally :=
  match timing_record line with
  | Some d => count_record skip t d
  | None => mret t
  end.

(** A metric with its averages: the count, the least and the greatest values,
    and the two averages. *)
Record metric := Metric {
  mt_total : total;
  mt_avg_ms : float;
  mt_cpu_avg_ms : float;
}.

Definition true_div (a b : pyval) : outcome float := x ← py_operand a; y ← py_operand b; py_div x y.

Definition finish_metric (kt : string * total) : outcome (string * metric) :=
  let '(key, t) := kt in
  avg ← true_div (tt_ms t) (tt_count t);
  cpu_avg ← true_div (tt_cpu_ms t) (tt_count t);
  mret (key, Metric t avg cpu_avg).

Record log_summary := LogSummary {
  ls_axes : json;
  ls_windows : Z;
  ls_metrics : list (string * metric);
}.

(** [summarize(path, skip_seconds)] on the text of the file. *)
Definition summarize (text : string) (skip : pyval) : outcome log_summary :=
  t ← fold_outcome (count_line skip) (Tally [] 0 []) (splitlines text);
  match tl_axes t with
  | [axes] =>
      if tl_windows t =? 0 then Raise ValueError
      else ms ← traverse finish_metric (tl_metrics t); mret (LogSummary axes (tl_windows t) ms)
  | _ => Raise ValueError
  end.

(** ** Lemmas *)

Example demo_lines :
  splitlines (String.concat (String.String (Text.chr 13) line_end) ["a"; ""; "bc"] ++ line_end)
  = ["a"; ""; "bc"].
Proof. vm_compute. reflexivity. Qed.

(** *** A printed line is a line of the log *)

Lemma boundary_printable a r : printable_char a = true → boundary (String.String a r) = 0%nat.
Proof.
  unfold printable_char, boundary. intros [H1%Z.leb_le H2%Z.ltb_lt]%andb_true_iff.
  cbn [String.substring String.list_ascii_of_string List.map].
  generalize (List.map Text.code (String.list_ascii_of_string (String.substring 0 2 r))). intros l.
  revert H1 H2. generalize (Text.code a). intros [|p|p] H1 H2; [lia| |lia].
  do 7 (destruct p as [p|p|]; try lia; try reflexivity).
Qed.

Lemma split_end rest : split_from 0 (line_end ++ rest) = ("", splitlines rest).
Proof.
  transitivity (let '(line, ls) := split_from 0 rest in
    ("", if Nat.eqb (String.length rest) 0 then [] else line :: ls)); [reflexivity|].
  destruct rest as [|b rest]; [done|]. cbn [String.length Nat.eqb]. unfold splitlines.
  by destruct (split_from 0 (String.String b rest)).
Qed.

Lemma split_printable line rest :
  printable line = true → split_from 0 (line ++ line_end ++ rest) = (line, splitlines rest).
Proof.
  intros Hl. induction line as [|a line IH]; [apply split_end|].
  cbn in Hl. apply andb_true_iff in Hl as [Ha Hl]. rewrite append_cons. cbn [split_from].
  rewrite boundary_printable by done. by rewrite IH.
Qed.

(** A log of printed lines. *)
Definition log_text (ls : list string) : string := foldr (λ l t, (l ++ line_end ++ t)%string) "" ls.

Lemma splitlines_log ls : Forall (λ l, printable l = true) ls → splitlines (log_text ls) = ls.
Proof.
  induction 1 as [|l ls Hl _ IH]; [done|]. cbn [log_text foldr]. unfold splitlines at 1.
  rewrite split_printable by done. fold (log_text ls). rewrite IH.
  by destruct l.
Qed.

Lemma report_line_record r :
  plain_json (report_json r) = true → timing_record (report_line r) = Some (report_fields r).
Proof.
  intros Hp. unfold timing_record.
  assert (Text.starts_with "{" (report_line r) = true) as -> by reflexivity.
  unfold report_line. by rewrite loads_written.
Qed.

(** *** Adding up *)

(** A sum that has begun or not; a total that counts [z] samples. *)
Definition sum_ok (v : pyval) : Prop := v = PInt 0 ∨ ∃ f, v = PFloat f.

Record total_ok (z : Z) (t : total) : Prop := {
  ok_count : tt_count t = PInt z;
  ok_ms : sum_ok (tt_ms t);
  ok_cpu_ms : sum_ok (tt_cpu_ms t);
  ok_min_ms : ∃ f, tt_min_ms t = JFloat f;
  ok_max_ms : sum_ok (tt_max_ms t);
  ok_cpu_max_ms : sum_ok (tt_cpu_max_ms t);
}.

(** The count under a key. *)
Definition has (ms : list (string * total)) (key : string) (z : Z) : Prop :=
  match dict_get key ms with Some t => total_ok z t | None => z = 0 end.

Lemma add_sum v f : sum_ok v → ∃ g, py_add v (PFloat f) = Ret (PFloat g).
Proof. intros [->|[g ->]]; by eexists. Qed.

Lemma larger_sum v f : sum_ok v → ∃ w, larger v (JFloat f) = Ret w ∧ sum_ok w.
Proof.
  intros Hv. unfold larger, operand. cbn [json_scalar of_option mbind outcome_bind].
  assert (∃ b, py_lt v (PFloat f) = Ret b) as [b ->] by (destruct Hv as [->|[g ->]]; by eexists).
  cbn [mbind outcome_bind]. destruct b; eexists; (split; [reflexivity|]); [right; by eexists|done].
Qed.

Lemma smaller_float f g : ∃ h, smaller (JFloat f) (JFloat g) = Ret (JFloat h).
Proof.
  unfold smaller, operand. cbn [json_scalar of_option mbind outcome_bind].
  assert (∃ b, py_lt (PFloat g) (PFloat f) = Ret b) as [b ->] by by eexists.
  cbn [mbind outcome_bind]. destruct b; by eexists.
Qed.

Definition counted (a : Timing.average) : Prop := 0 < Timing.avg_count a ≤ 2 ^ 100.

Lemma add_average v f key d n :
  sum_ok v → dict_get key d = Some (JFloat f) → 0 < n ≤ 2 ^ 100 →
  ∃ g, add_weighted v (JInt n) key d = Ret (PFloat g).
Proof.
  intros Hv Hd Hn. unfold add_weighted, item. rewrite Hd. cbn [of_option mbind outcome_bind operand json_scalar].
  destruct (Timing.float_of_Z_pos n Hn) as (x & Hx & _). unfold py_mul, arith. cbn [py_number mbind outcome_bind number_float].
  rewrite Hx. cbn [mbind outcome_bind mret outcome_ret]. by apply add_sum.
Qed.

Lemma new_total_ok f : total_ok 0 (new_total (JFloat f)).
Proof. split; cbn; try done; try (by left). by eexists. Qed.

(** A metric that [flush] has written is counted. *)
Lemma count_metric_written key a ms z :
  has ms key z → counted a →
  ∃ t, count_metric ms (key, average_json a) = Ret (dict_set key t ms) ∧ total_ok (z + Timing.avg_count a) t.
Proof.
  intros Hz Ha. unfold count_metric, average_json. set (d := [_; _; _; _; _; _]).
  change (item "count" d) with (Ret (JInt (Timing.avg_count a))). cbn [mbind outcome_bind truth].
  unfold counted in Ha. rewrite (proj2 (Z.eqb_neq _ _)) by lia. cbn [negb].
  change (item "min_ms" d) with (Ret (JFloat (Timing.avg_min_ms a))). cbn [mbind outcome_bind].
  assert (total_ok z (default (new_total (JFloat (Timing.avg_min_ms a))) (dict_get key ms))) as Ht.
  { unfold has in Hz. destruct (dict_get key ms); [done|]. subst z. apply new_total_ok. }
  destruct Ht as [Hc Hs Hcs [f Hf] Hm Hcm]. set (t := default _ _) in *.
  rewrite Hc, Hf. change (operand (JInt (Timing.avg_count a))) with (Ret (PInt (Timing.avg_count a))).
  cbn [mbind outcome_bind]. change (py_add (PInt z) (PInt (Timing.avg_count a))) with (Ret (PInt (z + Timing.avg_count a))).
  cbn [mbind outcome_bind].
  destruct (add_average (tt_ms t) (Timing.avg_ms a) "avg_ms" d (Timing.avg_count a)) as [g1 ->]; [done|done|done|].
  cbn [mbind outcome_bind].
  destruct (add_average (tt_cpu_ms t) (Timing.cpu_avg_ms a) "cpu_avg_ms" d (Timing.avg_count a)) as [g2 ->]; [done|done|done|].
  cbn [mbind outcome_bind]. destruct (smaller_float f (Timing.avg_min_ms a)) as [h ->]. cbn [mbind outcome_bind].
  change (item "max_ms" d) with (Ret (JFloat (Timing.avg_max_ms a))). cbn [mbind outcome_bind].
  destruct (larger_sum (tt_max_ms t) (Timing.avg_max_ms a) Hm) as (w1 & -> & Hw1). cbn [mbind outcome_bind].
  change (item "cpu_max_ms" d) with (Ret (JFloat (Timing.avg_cpu_max_ms a))). cbn [mbind outcome_bind].
  destruct (larger_sum (tt_cpu_max_ms t) (Timing.avg_cpu_max_ms a) Hcm) as (w2 & -> & Hw2).
  eexists. split; [reflexivity|]. split; cbn; try done; try (right; by eexists). by eexists.
Qed.

Lemma count_metrics avgs : ∀ ms,
  NoDup avgs.*1 → Forall (λ ka, counted ka.2) avgs → (∀ key, ∃ z, has ms key z) →
  ∃ ms', fold_outcome count_metric ms (map (λ '(k, a), (k, average_json a)) avgs) = Ret ms'
    ∧ ∀ key z, has ms key z →
        match dict_get key avgs with
        | Some a => ∃ t, dict_get key ms' = Some t ∧ total_ok (z + Timing.avg_count a) t
        | None => dict_get key ms' = dict_get key ms
        end.
Proof.
  induction avgs as [|[k a] avgs IH]; intros ms Hnd Hall Hms; [by exists ms|].
  cbn [fmap list_fmap] in Hnd. apply NoDup_cons in Hnd as [Hk Hnd]. apply Forall_cons in Hall as [Ha Hall].
  destruct (Hms k) as [z0 Hz0]. destruct (count_metric_written k a ms z0 Hz0 Ha) as (t & E & Ht).
  destruct (IH (dict_set k t ms)) as (ms' & E' & H'); [done|done| |].
  { intros key. unfold has. rewrite dict_get_set. destruct (decide (key = k)); [by eexists|apply Hms]. }
  exists ms'. cbn [map fold_outcome]. rewrite E. cbn [mbind outcome_bind]. split; [exact E'|].
  intros key z Hz. cbn [dict_get]. destruct (decide (key = k)) as [->|Hne].
  - assert (dict_get k avgs = None) as Hnone by (by apply dict_get_none).
    specialize (H' k (z0 + Timing.avg_count a)). rewrite Hnone in H'. unfold has in H'. rewrite dict_get_set in H'.
    rewrite decide_True in H' by done. exists t. split; [by apply H'|].
    assert (z = z0) as ->; [|done]. unfold has in Hz, Hz0. destruct (dict_get k ms) as [t0|]; [|congruence].
    destruct Hz as [Hc _ _ _ _ _], Hz0 as [Hc0 _ _ _ _ _]. congruence.
  - specialize (H' key z). unfold has in H'. rewrite dict_get_set, decide_False in H' by done.
    specialize (H' Hz). destruct (dict_get key avgs); [done|exact H'].
Qed.

(** *** The averages of a segment *)

Local Abbreviation samples := (list (string * (float * float))).

Lemma summary_keys l : NoDup (Timing.summary l).*1.
Proof.
  induction l as [|[k s] l IH] using rev_ind; [constructor|]. rewrite Timing.summary_snoc.
  unfold Timing.put_sample. by apply dict_set_keys.
Qed.

Lemma averages_get bs avgs :
  traverse Timing.average_of bs = Ret avgs →
  avgs.*1 = bs.*1 ∧ ∀ key,
    match dict_get key bs with
    | Some b => ∃ a, dict_get key avgs = Some a ∧ Timing.avg_count a = Timing.count b
    | None => dict_get key avgs = None
    end.
Proof.
  intros E. apply traverse_inv in E. induction E as [|[k b] [k' a] bs avgs Hb _ [IH1 IH2]]; [done|].
  unfold Timing.average_of in Hb. apply outcome_bind_inv in Hb as (n & _ & [= <- <-]). cbn.
  split; [by f_equal|]. intros key. destruct (decide (key = k)) as [->|]; [by eexists|apply IH2].
Qed.

(** The totals count the samples [l]. *)
Definition tallied (l : samples) (ms : list (string * total)) : Prop :=
  ∀ key, match Timing.samples_of key l with
         | [] => dict_get key ms = None
         | (_ :: _) as ss => ∃ t, dict_get key ms = Some t ∧ total_ok (Z.of_nat (length ss)) t
         end.

Lemma tallied_has l ms key : tallied l ms → has ms key (Z.of_nat (length (Timing.samples_of key l))).
Proof.
  intros H. specialize (H key). unfold has. destruct (Timing.samples_of key l) as [|s ss]; [by rewrite H|].
  destruct H as (t & -> & Ht). exact Ht.
Qed.

Lemma samples_of_app key l l' :
  Timing.samples_of key (l ++ l') = Timing.samples_of key l ++ Timing.samples_of key l'.
Proof. unfold Timing.samples_of. by rewrite filter_app, fmap_app. Qed.

Lemma tallied_segment l seg avgs ms :
  tallied l ms → traverse Timing.average_of (Timing.summary seg) = Ret avgs →
  (∀ key, Z.of_nat (length (Timing.samples_of key seg)) ≤ 2 ^ 100) →
  ∃ ms', fold_outcome count_metric ms (map (λ '(k, a), (k, average_json a)) avgs) = Ret ms'
    ∧ tallied (l ++ seg) ms'.
Proof.
  intros Hl E Hseg. apply averages_get in E as [Hkeys Hget].
  assert (∀ key, match dict_get key avgs with
    | Some a => Timing.avg_count a = Z.of_nat (length (Timing.samples_of key seg)) ∧ Timing.samples_of key seg ≠ []
    | None => Timing.samples_of key seg = []
    end) as Havg.
  { intros key. specialize (Hget key). rewrite Timing.summary_get in Hget.
    destruct (Timing.samples_of key seg) as [|s ss]; [by rewrite Hget|].
    destruct Hget as (a & -> & ->). split; [|done]. cbn. lia. }
  assert (NoDup avgs.*1) as Hnd by (rewrite Hkeys; apply summary_keys).
  destruct (count_metrics avgs ms) as (ms' & E' & H'); [done| | |].
  - apply Forall_forall. intros [k a] Hin. apply dict_get_in in Hin; [|done].
    specialize (Havg k). rewrite Hin in Havg. destruct Havg as [Hc Hne]. specialize (Hseg k).
    unfold counted. cbn. destruct (Timing.samples_of k seg); [done|]. cbn [length] in *. lia.
  - intros key. eexists. by apply tallied_has.
  - exists ms'. split; [exact E'|]. intros key. specialize (H' key _ (tallied_has l ms key Hl)).
    specialize (Havg key). rewrite samples_of_app. destruct (dict_get key avgs) as [a|].
    + destruct H' as (t & Ht & Hok), Havg as [Hc Hne]. rewrite Hc in Hok.
      destruct (Timing.samples_of key l ++ Timing.samples_of key seg) as [|s ss] eqn:Happ.
      { by apply app_eq_nil in Happ as [_ ?]. }
      exists t. split; [done|]. rewrite <-Happ, length_app, Nat2Z.inj_add. exact Hok.
    + rewrite Havg, app_nil_r, H'. exact (Hl key).
Qed.

(** *** Keys stay distinct *)

Lemma count_metric_keys ms kv ms' :
  NoDup ms.*1 → count_metric ms kv = Ret ms' → NoDup ms'.*1.
Proof.
  intros Hnd E. destruct kv as [key [| | | | | |b]]; try discriminate. unfold count_metric in E.
  apply outcome_bind_inv in E as (c & _ & E). destruct (negb (truth c)); [by injection E as <-|].
  repeat (apply outcome_bind_inv in E as (? & _ & E)). injection E as <-. by apply dict_set_keys.
Qed.

Lemma count_line_keys skip t line t' :
  NoDup (tl_metrics t).*1 → count_line skip t line = Ret t' → NoDup (tl_metrics t').*1.
Proof.
  intros Hnd E. unfold count_line in E. destruct (timing_record line) as [d|]; [|by injection E as <-].
  unfold count_record in E. apply outcome_bind_inv in E as (early & _ & E).
  destruct early; [by injection E as <-|]. do 3 apply outcome_bind_inv in E as (? & _ & E).
  case_match; try discriminate. apply outcome_bind_inv in E as (ms & E & [= <-]). cbn.
  eapply (fold_outcome_inv (λ ms, NoDup ms.*1)); [|exact Hnd|exact E]. apply count_metric_keys.
Qed.

(** *** Records *)

(** Whether a window starts before the first second to look at. *)
Definition early (skip : pyval) (r : Timing.report) : bool :=
  match py_lt (PFloat (f_sub (Timing.rp_elapsed_s r) (Timing.rp_window_s r))) skip with
  | Ret b => b
  | Raise _ => false
  end.

Definition axes_ok (n : Z) (t : tally) : Prop :=
  0 ≤ tl_windows t ∧ tl_axes t = if tl_windows t =? 0 then [] else [JInt n].

Section summary.
Context (skip : pyval) (Hskip : is_ret (py_number skip) = true) (n : Z).

Lemma starts_early_report r : starts_early skip (report_fields r) = Ret (early skip r).
Proof.
  unfold starts_early, early, report_fields, py_lt, py_cmp. cbn.
  by destruct (py_number skip).
Qed.

(** The window [seg] is in the report [r]. *)
Definition reports_segment (r : Timing.report) (seg : samples) : Prop :=
  traverse Timing.average_of (Timing.summary seg) = Ret (Timing.rp_metrics r) ∧ seg ≠ []
  ∧ Timing.rp_axes r = n.

Definition few (l : samples) : Prop := ∀ key, Z.of_nat (length (Timing.samples_of key l)) ≤ 2 ^ 100.

Lemma early_report r t : early skip r = true → count_record skip t (report_fields r) = Ret t.
Proof. intros Hr. unfold count_record. by rewrite starts_early_report, Hr. Qed.

Lemma count_report r seg l t :
  early skip r = false → reports_segment r seg → tallied l (tl_metrics t) → axes_ok n t → few seg →
  ∃ t', count_record skip t (report_fields r) = Ret t'
    ∧ tallied (l ++ seg) (tl_metrics t') ∧ axes_ok n t' ∧ tl_windows t' = tl_windows t + 1.
Proof.
  intros He (E & _ & Hn) Hl [Hw Hx] Hseg. unfold count_record. rewrite starts_early_report, He.
  cbn [mbind outcome_bind].
  change (item "axes" (report_fields r)) with (Ret (JInt (Timing.rp_axes r))). cbn [mbind outcome_bind].
  assert (add_axes (JInt (Timing.rp_axes r)) (tl_axes t) = Ret [JInt n]) as ->.
  { rewrite Hn, Hx. destruct (tl_windows t =? 0); [done|]. unfold add_axes. cbn.
    by rewrite Z.compare_refl. }
  cbn [mbind outcome_bind].
  change (item "metrics" (report_fields r))
    with (Ret (JObj (map (λ '(k, a), (k, average_json a)) (Timing.rp_metrics r)))). cbn [mbind outcome_bind].
  destruct (tallied_segment l seg _ (tl_metrics t) Hl E Hseg) as (ms' & -> & Hms).
  eexists. split; [reflexivity|]. split_and!; [exact Hms| |done].
  split; cbn; [lia|]. rewrite (proj2 (Z.eqb_neq _ _)) by lia. done.
Qed.

(** The windows the summary takes in. *)
Definition chosen (rs : list Timing.report) (segs : list samples) : list samples :=
  (filter (λ p, early skip p.1 = false) (zip rs segs)).*2.

Definition is_timing (line : string) : Prop := is_Some (timing_record line).

#[export] Instance is_timing_dec line : Decision (is_timing line).
Proof. unfold is_timing. apply _. Defined.

Lemma few_app l l' : few (l ++ l') → few l ∧ few l'.
Proof.
  intros H. split; intros key; specialize (H key); rewrite samples_of_app, length_app in H; lia.
Qed.

Lemma count_log lines : ∀ rs segs l t,
  filter is_timing lines = map report_line rs → Forall (λ r, plain_json (report_json r) = true) rs →
  Forall2 reports_segment rs segs → tallied l (tl_metrics t) → axes_ok n t →
  few (concat (chosen rs segs)) →
  ∃ t', fold_outcome (count_line skip) t lines = Ret t'
    ∧ tallied (l ++ concat (chosen rs segs)) (tl_metrics t') ∧ axes_ok n t'
    ∧ tl_windows t' = tl_windows t + Z.of_nat (length (chosen rs segs)).
Proof.
  induction lines as [|line lines IH]; intros rs segs l t Hf Hp Hrs Hl Hx Hfew.
  { destruct rs as [|r rs]; [|discriminate]. exists t. cbn. rewrite app_nil_r, Z.add_0_r. done. }
  cbn [fold_outcome]. destruct (decide (is_timing line)) as [Hi|Hi].
  - rewrite filter_cons_True in Hf by done. destruct rs as [|r rs]; [discriminate|].
    cbn [map] in Hf. injection Hf as -> Hf.
    apply Forall_cons in Hp as [Hr Hp]. apply Forall2_cons_inv_l in Hrs as (seg & segs' & Hseg & Hrs & ->).
    assert (count_line skip t (report_line r) = count_record skip t (report_fields r)) as ->
      by (unfold count_line; by rewrite report_line_record).
    unfold chosen in Hfew |- *. cbn [zip zip_with] in Hfew |- *. fold (zip rs segs') in Hfew |- *.
    destruct (early skip r) eqn:He.
    + rewrite filter_cons_False in Hfew |- * by (cbn; congruence).
      rewrite early_report by done. by apply IH.
    + rewrite filter_cons_True in Hfew |- * by done. cbn [fmap list_fmap snd concat length] in Hfew |- *.
      apply few_app in Hfew as [H1 H2].
      destruct (count_report r seg l t He Hseg Hl Hx H1) as (t1 & -> & Hl1 & Hx1 & Hw1). cbn [mbind outcome_bind].
      destruct (IH rs segs' (l ++ seg) t1 Hf Hp Hrs Hl1 Hx1 H2) as (t2 & E2 & Hl2 & Hx2 & Hw2).
      exists t2. split_and!; [exact E2|by rewrite app_assoc|exact Hx2|]. rewrite Hw2, Hw1. unfold chosen. lia.
  - rewrite filter_cons_False in Hf by done.
    assert (count_line skip t line = Ret t) as ->; [|by apply IH].
    unfold is_timing in Hi. unfold count_line. by destruct (timing_record line); [destruct Hi; eexists|].
Qed.

(** The averages at the end. *)
Lemma true_div_ok v z : sum_ok v → 0 < z ≤ 2 ^ 100 → ∃ f, true_div v (PInt z) = Ret f.
Proof.
  intros Hv Hz. unfold true_div. destruct (Timing.float_of_Z_pos z Hz) as (g & Hg & Hne).
  assert (∃ x, py_operand v = Ret x) as [x ->] by (destruct Hv as [->|[f ->]]; by eexists).
  unfold py_operand. cbn [py_number mbind outcome_bind number_float]. rewrite Hg. cbn [mbind outcome_bind].
  unfold py_div. rewrite Hne. by eexists.
Qed.

Lemma finish_metrics ms :
  Forall (λ kt, ∃ z, 0 < z ≤ 2 ^ 100 ∧ total_ok z kt.2) ms →
  ∃ out, traverse finish_metric ms = Ret out
    ∧ ∀ key, (λ m, tt_count (mt_total m)) <$> dict_get key out = tt_count <$> dict_get key ms.
Proof.
  induction 1 as [|[k t] ms (z & Hz & Ht) _ (out & IH1 & IH2)]; [by exists []|].
  cbn [snd] in Ht. cbn [traverse finish_metric]. destruct Ht as [Hc Hs Hcs _ _ _]. rewrite Hc.
  destruct (true_div_ok (tt_ms t) z) as [a ->]; [done|done|]. cbn [mbind outcome_bind].
  destruct (true_div_ok (tt_cpu_ms t) z) as [c ->]; [done|done|]. cbn [mbind outcome_bind mret outcome_ret].
  rewrite IH1. eexists. split; [reflexivity|]. intros key. cbn [dict_get].
  destruct (decide (key = k)); [done|apply IH2].
Qed.
End summary.

(** ** Properties *)

(** C40. The summary of a log counts every sample of the windows it takes in.  Let
    the timing have made any calls that return, and let the lines of a log
    that are records of the timing be the reports it has printed, in order,
    among any other lines.  The samples that were handed in are cut into one
    window for each report and an open one.  If the summary takes in no window
    it is a [ValueError]; otherwise it tells the number of axes, the number of
    windows, and under every key how often it occurs in the windows taken in,
    and it has no other key. *)
Theorem summary_counts_samples perf cpu unix n calls t skip text :
  mapM_ (Timing.make perf cpu unix) calls (Timing.new_timing perf n) = (Ret tt, t) →
  Forall (λ r, plain_json (report_json r) = true) (Timing.reports t) →
  filter is_timing (splitlines text) = map report_line (Timing.reports t) →
  is_ret (py_number skip) = true →
  ∃ segs open, Timing.accounts t segs open
    ∧ filter Timing.foreign (concat segs ++ open)
      = filter Timing.foreign (concat (map Timing.given_by calls))
    ∧ let seen := chosen skip (Timing.reports t) segs in
      few (concat seen) →
      match seen with
      | [] => summarize text skip = Raise ValueError
      | _ :: _ => ∃ s, summarize text skip = Ret s
          ∧ ls_axes s = JInt n ∧ ls_windows s = Z.of_nat (length seen)
          ∧ ∀ key, (λ m, tt_count (mt_total m)) <$> dict_get key (ls_metrics s) =
              match Timing.samples_of key (concat seen) with
              | [] => None
              | (_ :: _) as l => Some (PInt (Z.of_nat (length l)))
              end
      end.
Proof.
  intros E Hp Hf Hskip. destruct (Timing.samples_accounted _ _ _ _ _ _ E) as (segs & open & Hn & Ha & Heq).
  exists segs, open. split_and!; [exact Ha|exact Heq|]. cbv zeta. intros Hfew.
  assert (Forall2 (reports_segment n) (Timing.reports t) segs) as Hrs.
  { eapply Forall2_impl; [exact (Timing.ac_reports _ _ _ Ha)|]. cbn. rewrite Hn. done. }
  assert (tallied [] []) as H0 by done. assert (axes_ok n (Tally [] 0 [])) as Hx0 by done.
  destruct (count_log skip Hskip n (splitlines text) _ segs [] (Tally [] 0 []) Hf Hp Hrs H0 Hx0 Hfew)
    as (t' & Et & Hl & [Hw Hx] & Hlen).
  assert (NoDup (tl_metrics t').*1) as Hnd.
  { refine (fold_outcome_inv (λ t : tally, NoDup (tl_metrics t).*1) _ _ _ _ _ _ Et); [|constructor].
    apply count_line_keys. }
  cbn [tl_windows app] in Hl, Hlen. unfold summarize. rewrite Et. cbn [mbind outcome_bind].
  rewrite Hx. destruct (chosen skip (Timing.reports t) segs) as [|seg segs'] eqn:Hseen.
  { cbn in Hlen. rewrite Hlen. done. }
  rewrite (proj2 (Z.eqb_neq _ _)) by (cbn [length] in Hlen; lia).
  destruct (finish_metrics (tl_metrics t')) as (out & -> & Hout).
  { apply Forall_forall. intros [k m] Hin. apply dict_get_in in Hin; [|done]. specialize (Hl k).
    specialize (Hfew k). destruct (Timing.samples_of k _) as [|x l]; [congruence|].
    destruct Hl as (m' & Hm & Hok). rewrite Hin in Hm. injection Hm as <-.
    eexists. split; [|exact Hok]. cbn [length] in *. lia. }
  eexists. split; [reflexivity|]. cbn [ls_axes ls_windows ls_metrics]. split_and!; [done|exact Hlen|].
  intros key. rewrite Hout. specialize (Hl key). destruct (Timing.samples_of key _) as [|x l]; [by rewrite Hl|].
  destruct Hl as (m & -> & [Hc _ _ _ _ _]). cbn. by rewrite Hc.
Qed.

(** ** Witness

    Two samples of one phase and one of another, and a log with other lines. *)

Definition demo_calls : list Timing.call :=
  [Timing.Add "axis_0_model" (0, 0) (1500000, 1000000); Timing.Add "cycle_request" (0, 0) (2500000, 1000000);
   Timing.Add "axis_0_model" (0, 0) (500000, 250000); Timing.Due; Timing.Flush "stop"].

Definition demo_clock (n : nat) : Z := 1000000 * Z.of_nat n.

Definition demo_timing : Timing.timing :=
  (mapM_ (Timing.make demo_clock demo_clock demo_clock) demo_calls (Timing.new_timing demo_clock 1)).2.

Definition demo_log : string :=
  log_text ("Fleet started" :: map report_line (Timing.reports demo_timing) ++ ["{incomplete"]).

Example demo_summary :
  match summarize demo_log (PInt 0) with
  | Ret s => Some (ls_windows s, map (λ '(k, m), (k, tt_count (mt_total m))) (ls_metrics s))
  | Raise _ => None
  end = Some (1, [("axis_0_model", PInt 2); ("cycle_request", PInt 1)]).
Proof. vm_compute. reflexivity. Qed.

Lemma demo_timing_run :
  mapM_ (Timing.make demo_clock demo_clock demo_clock) demo_calls (Timing.new_timing demo_clock 1)
  = (Ret tt, demo_timing).
Proof. vm_compute. reflexivity. Qed.

Lemma demo_reports_plain :
  Forall (λ r, plain_json (report_json r) = true) (Timing.reports demo_timing).
Proof.
  apply List.Forall_forall, (List.forallb_forall (λ r, plain_json (report_json r))).
  vm_compute. reflexivity.
Qed.

Lemma demo_log_lines :
  filter is_timing (splitlines demo_log) = map report_line (Timing.reports demo_timing).
Proof. vm_compute. reflexivity. Qed.

Lemma summary_counts_samples_witness :
  ∃ segs open, Timing.accounts demo_timing segs open
    ∧ filter Timing.foreign (concat segs ++ open)
      = filter Timing.foreign (concat (map Timing.given_by demo_calls)).
Proof.
  destruct (summary_counts_samples demo_clock demo_clock demo_clock 1 demo_calls demo_timing (PInt 0) demo_log
    demo_timing_run demo_reports_plain demo_log_lines eq_refl) as (segs & open & H1 & H2 & _).
  exists segs, open. split; [exact H1|exact H2].
Defined.
