(* ===== verification/Fleet.v ===== *)
(** * The fleet of axes

    src/functional_model/runtime/fleet.py ([ModelFleet]): construction of the
    axes from a configuration, loading and creating their parameter
    snapshots, and the dispatch of requests by slave index.

    The axes share one parameter storage, the component [storage]; an axis
    that runs has it as its [disk] (Axis.v).  Every axis has clocks of its
    own: [clock i] and [mono i].  [create] is [create_adapter] on a device and
    the artifact of its model, [store_load] and [store_save] are the methods of
    the storage.  The fixture files are in Service.v.

    The theorems: in every sequence of requests an axis behaves as if it were
    alone and received only the requests that name it, as long as the others
    do not save to the shared storage; a request that names no axis is refused;
    no snapshot is written before all snapshots that exist are loaded. *)

From S2P Require Import Prelude PyFloat.
From S2P Require Export Server Config.

Open Scope string_scope.
Open Scope list_scope.
Open Scope Z_scope.

Record fleet (A D : Type) := Fleet {
  models : list (axis A D);
  storage : D;
}.
Arguments Fleet {A D} _ _.
Arguments models {A D} _.
Arguments storage {A D} _.

#[export] Instance fleet_eta A D : Eta (fleet A D) := λ f, Fleet (models f) (storage f).

Section fleet.
Context {A D : Type} `{DriveAdapter A}.
Context (clock mono : nat → nat → float).
Context (create : device → option string → outcome A).
Context (store_load : axis A D → outcome bool * A).
Context (store_save : axis A D → outcome () * D).

(** [self.models[i].m()]: the axis works on the shared storage; its own field
    [disk] plays no part in a fleet and stays as it is. *)
Definition on_axis {R} (i : nat) (m : M (axis A D) R) : M (fleet A D) R := λ f,
  match models f !! i with
  | None => (Raise IndexError, f)
  | Some x =>
      let '(r, x') := m (x <| disk := storage f |>) in
      (r, Fleet (<[i := x' <| disk := disk x |>]> (models f)) (disk x'))
  end.

(** ** Construction *)

Definition add_model (d : config_device) : M (fleet A D) () :=
  a ← lift (create (cd_device d) (cd_artifact d));
  s ← gets storage;
  x ← lift (new_axis (cd_device d) a s);
  modify (λ f, f <| models := models f ++ [x] |>).

(** [store.load(model)] and [store.save(model)] *)
Definition load_model : M (axis A D) bool := λ x,
  let '(r, a) := store_load x in (r, x <| adapter := a |>).

Definition save_model : M (axis A D) () := λ x,
  let '(r, d) := store_save x in (r, x <| disk := d |>).

(** The loop that attaches the store and loads the snapshots; it collects the
    models without one. *)
Fixpoint load_models (ids missing : list nat) : M (fleet A D) (list nat) :=
  match ids with
  | [] => mret missing
  | i :: ids =>
      loaded ← on_axis i (has_store <~ true ;; load_model);
      load_models ids (if (loaded : bool) then missing else missing ++ [i])
  end.

(** [close]: the models in reverse order. *)
Definition close_fleet : M (fleet A D) () :=
  n ← gets (λ f, length (models f));
  mapM_ (λ i, on_axis i close_axis) (reverse (seq 0 n)).

(** [ModelFleet.__init__] on the empty fleet. *)
Definition init_fleet (devices : list config_device) : M (fleet A D) () :=
  try_except
    (mapM_ add_model devices ;;
     missing ← load_models (seq 0 (length devices)) [];
     mapM_ (λ i, on_axis i save_model) missing)
    (λ e, close_fleet ;; raise e).

(** ** Requests *)

Fixpoint describe_models (n i : nat) : M (fleet A D) (list (device * contract)) :=
  match n with
  | O => mret []
  | Datatypes.S n =>
      x ← on_axis i (d ← gets ax_device; c ← describe; mret (d, c));
      xs ← describe_models n (Datatypes.S i);
      mret (x :: xs)
  end.

(** [ModelFleet.describe] *)
Definition describe_fleet : M (fleet A D) reply :=
  n ← gets (λ f, length (models f));
  ds ← describe_models n 0;
  mret (RFleet ds).

(** [type(index) is int and 0 <= index < len(self.models)] *)
Definition slave_number (index : option pyval) (n : nat) : option nat :=
  match index with
  | Some (PInt i) => if (0 <=? i) && (i <? Z.of_nat n) then Some (Z.to_nat i) else None
  | _ => None
  end.

(** [ModelFleet.dispatch] *)
Definition dispatch_fleet (r : request) : M (fleet A D) reply :=
  op ← lift (field rq_op r);
  if String.eqb op "describe" then describe_fleet
  else
    n ← gets (λ f, length (models f));
    match slave_number (rq_slave_index r) n with
    | None => raise ValueError
    | Some i => on_axis i (dispatch (clock i) (mono i) store_save r)
    end.
End fleet.

Section fleet_props.
Context {A D : Type} `{DriveAdapter A}.
Context (clock mono : nat → nat → float).
Context (create : device → option string → outcome A).
Context (store_load : axis A D → outcome bool * A).
Context (store_save : axis A D → outcome () * D).
Implicit Types (f : fleet A D) (r : request) (i j : nat).

(** ** Lemmas *)

Lemma on_axis_run {R} i (m : M (axis A D) R) f x :
  models f !! i = Some x →
  on_axis i m f =
  let '(r, x') := m (x <| disk := storage f |>) in
  (r, Fleet (<[i := x' <| disk := disk x |>]> (models f)) (disk x')).
Proof. intros E. unfold on_axis. by rewrite E. Qed.

#[export] Instance on_axis_reader {R} i (m : M (axis A D) R) : Reader m → Reader (on_axis i m).
Proof.
  intros Hm f. unfold on_axis. destruct (models f !! i) as [x|] eqn:E; [|done].
  specialize (Hm (x <| disk := storage f |>)). destruct (m _) as [r x']. simpl in *. subst x'.
  replace (_ <| disk := disk x |>) with x by (by destruct x).
  rewrite list_insert_id by done. by destruct f.
Qed.

#[local] Instance on_axis_storage {R} i (m : M (axis A D) R) :
  Preserves disk m → Preserves storage (on_axis i m).
Proof.
  intros Hm f. unfold on_axis. destruct (models f !! i) as [x|]; [|done].
  specialize (Hm (x <| disk := storage f |>)). by destruct (m _).
Qed.

#[local] Instance load_model_disk : Preserves disk (load_model store_load).
Proof. intros x. unfold load_model. by destruct (store_load x). Qed.

#[local] Instance add_model_storage d : Preserves storage (add_model (D:=D) create d).
Proof. unfold add_model. frame. Qed.

#[local] Instance load_models_storage ids missing : Preserves storage (load_models store_load ids missing).
Proof.
  revert missing. induction ids as [|i ids IH]; intros missing; cbn [load_models]; frame.
Qed.

#[local] Instance close_fleet_storage : Preserves storage (close_fleet (A:=A) (D:=D)).
Proof. unfold close_fleet, close_axis, on_adapter. frame. Qed.

#[export] Instance describe_models_reader n i : Reader (describe_models (A:=A) (D:=D) n i).
Proof. revert i. induction n as [|n IH]; intros i; cbn [describe_models]; unfold describe; apply _. Qed.

#[export] Instance describe_fleet_reader : Reader (describe_fleet (A:=A) (D:=D)).
Proof. unfold describe_fleet. apply _. Qed.

(** ** Requests in sequence *)

(** [addressed i r]: the request is for the axis [i]. *)
Definition addressed (i : nat) (r : request) : bool :=
  match rq_op r, rq_slave_index r with
  | Some op, Some (PInt z) => negb (String.eqb op "describe") && (z =? Z.of_nat i)
  | _, _ => false
  end.

(** The write that saves the parameters, 0x2005:1. *)
Definition saves (r : request) : bool :=
  bool_decide (rq_op r = Some "write") && bool_decide (rq_index r = Some 0x2005)
  && bool_decide (rq_subindex r = Some 1).

(** The requests with their answers, in their order, and the final state. *)
Fixpoint serve_all {S} (step : request → M S reply) (rs : list request) (s : S)
    : list (request * outcome reply) * S :=
  match rs with
  | [] => ([], s)
  | r :: rs =>
      let '(a, s1) := step r s in
      let '(l, s2) := serve_all step rs s1 in ((r, a) :: l, s2)
  end.

#[local] Instance guard_disk {R} (m : M AxisFault R) : Preserves disk (on_guard (A:=A) (D:=D) m).
Proof. apply preserves_zoom. done. Qed.

#[local] Instance adapter_disk {R} (m : M A R) : Preserves disk (on_adapter (D:=D) m).
Proof. apply preserves_zoom. done. Qed.

#[local] Instance cycle_disk mono1 r : Preserves disk (dispatch_cycle (A:=A) (D:=D) mono1 r).
Proof. unfold dispatch_cycle, cycle_dt, monotonic. frame. Qed.

(** Only a save changes the storage. *)
Lemma description_disk index sub payload access save :
  (index =? 0x2005) && (sub =? 1) = false →
  Preserves disk (description_write_sdo (A:=A) (D:=D) index sub payload access save).
Proof.
  intros H0. unfold description_write_sdo. destruct save; [|frame]. rewrite H0. cbn [andb]. frame.
Qed.

Lemma write_disk clock1 e index sub r :
  (index =? 0x2005) && (sub =? 1) = false →
  Preserves disk (dispatch_write clock1 store_save e index sub r).
Proof.
  intros H0. pose proof (λ p a s, description_disk index sub p a s H0) as Hw.
  unfold dispatch_write. frame.
Qed.

Lemma _dispatch_disk clock1 mono1 r :
  saves r = false → Preserves disk (_dispatch clock1 mono1 store_save r).
Proof.
  intros Hs. destruct (decide (rq_op r = Some "write")) as [Hop|Hop].
  - intros x. unfold _dispatch, field. rewrite Hop. cbn [of_option]. rewrite lift_bind.
    cbn [String.eqb Ascii.eqb Bool.eqb orb].
    unfold saves in Hs. rewrite bool_decide_true in Hs by done. cbn [andb] in Hs.
    destruct (rq_index r) as [index|]; [|done]. cbn [of_option]. rewrite lift_bind.
    destruct (rq_subindex r) as [sub|]; [|done]. cbn [of_option]. rewrite lift_bind.
    assert ((index =? 0x2005) && (sub =? 1) = false) as H0.
    { apply andb_false_iff. rewrite andb_false_iff in Hs.
      destruct Hs as [Hs|Hs]; apply bool_decide_eq_false in Hs; [left|right]; apply Z.eqb_neq; congruence. }
    pose proof (λ e, write_disk clock1 e index sub r H0) as Hw.
    match goal with |- disk (?m x).2 = _ => assert (Preserves disk m) as Hm by frame; exact (Hm x) end.
  - assert (∀ op, rq_op r = Some op → String.eqb op "write" = false) as Hw
      by (intros op Ho; apply String.eqb_neq; congruence).
    intros x. unfold _dispatch, field. destruct (rq_op r) as [op|]; [|done]. cbn [of_option].
    rewrite lift_bind, (Hw op) by done. rewrite orb_false_r.
    destruct (String.eqb op "read").
    + unfold dispatch_read. match goal with |- disk (?m x).2 = _ =>
        assert (Preserves disk m) as Hm by (unfold describe; frame); exact (Hm x) end.
    + match goal with |- disk (?m x).2 = _ =>
        assert (Preserves disk m) as Hm by (unfold describe; frame); exact (Hm x) end.
Qed.

Lemma guarded_disk clock1 mono1 op r :
  rq_op r = Some op → op = "cycle" ∨ op = "idle" →
  Preserves disk (dispatch_guarded clock1 mono1 store_save op r).
Proof.
  intros Hop Hor.
  assert (Preserves disk (guarded_body clock1 mono1 store_save op r)) as Hb.
  { intros x. unfold guarded_body, mbind at 1, M_bind at 1.
    match goal with |- context [match ?m x with _ => _ end] =>
      assert (Preserves disk m) as Hm by (unfold prepare_cycle, guard_answer; frame);
      specialize (Hm x); destruct (m x) as [[[a|[r1 rst]]|e] x1] eqn:E end; cbn in Hm; [done| |done].
    assert (rq_op r1 = Some op) as Hop1.
    { destruct (String.eqb op "cycle"); [apply prepare_cycle_op in E; congruence|].
      rewrite bind_gets in E. case_bool_decide; [unfold mret, M_ret in E; congruence|by cbn in E]. }
    rewrite <- Hm. pose proof (_dispatch_disk clock1 mono1 r1) as Hd.
    unfold saves in Hd. rewrite Hop1, bool_decide_false in Hd by (destruct Hor as [-> | ->]; done).
    specialize (Hd eq_refl).
    match goal with |- disk (?m x1).2 = _ =>
      assert (Preserves disk m) as Hk by (unfold accept_result; frame); exact (Hk x1) end. }
  unfold dispatch_guarded, guarded_handler, guard_answer. frame.
Qed.

Lemma dispatch_disk clock1 mono1 r :
  saves r = false → Preserves disk (dispatch clock1 mono1 store_save r).
Proof.
  intros Hs. pose proof (_dispatch_disk clock1 mono1 r Hs) as Hd.
  assert (∀ op, Preserves disk (dispatch_access clock1 mono1 store_save op r)) as Ha
    by (intros op; unfold dispatch_access, access_handler; frame).
  destruct (decide (rq_op r = Some "cycle" ∨ rq_op r = Some "idle")) as [Hop|Hop].
  - assert (∃ op, rq_op r = Some op ∧ (op = "cycle" ∨ op = "idle")) as (op & E & Hor)
      by (destruct Hop; eauto).
    intros x. rewrite (dispatch_guarded_eq _ _ _ op) by done. by apply guarded_disk.
  - intros x. unfold dispatch, field. destruct (rq_op r) as [op|]; [|done]. cbn [of_option].
    rewrite lift_bind. assert (String.eqb op "cycle" || String.eqb op "idle" = false) as ->.
    { apply orb_false_iff. split; apply String.eqb_neq; intros ->; apply Hop; auto. }
    match goal with |- disk (?m x).2 = _ => assert (Preserves disk m) as Hm by frame; exact (Hm x) end.
Qed.

Lemma slave_number_addressed r i n op :
  rq_op r = Some op → op ≠ "describe" → slave_number (rq_slave_index r) n = Some i →
  addressed i r = true ∧ (i < n)%nat.
Proof.
  unfold slave_number, addressed. intros -> Hd%String.eqb_neq. rewrite Hd.
  destruct (rq_slave_index r) as [[z| | | |]|]; try done.
  destruct (_ && _) eqn:Hb; [|done]. intros [= <-].
  apply andb_true_iff in Hb as [H1%Z.leb_le H2%Z.ltb_lt]. cbn. rewrite Z2Nat.id by lia.
  split; [apply Z.eqb_refl|lia].
Qed.

Lemma dispatch_fleet_addressed r f i x :
  addressed i r = true → models f !! i = Some x →
  dispatch_fleet clock mono store_save r f =
  let '(a, x1) := dispatch (clock i) (mono i) store_save r (x <| disk := storage f |>) in
  (a, Fleet (<[i := x1 <| disk := disk x |>]> (models f)) (disk x1)).
Proof.
  unfold addressed, dispatch_fleet, field. intros Ha Hx. apply lookup_lt_Some in Hx as Hlt.
  destruct (rq_op r) as [op|]; [|done]. cbn [of_option]. rewrite lift_bind.
  destruct (rq_slave_index r) as [[z| | | |]|]; try done.
  apply andb_true_iff in Ha as [Hop%negb_true_iff ->%Z.eqb_eq]. rewrite Hop, bind_gets.
  unfold slave_number. rewrite (proj2 (Z.leb_le _ _)), (proj2 (Z.ltb_lt _ _)) by lia.
  cbn [andb]. rewrite Nat2Z.id. by apply on_axis_run.
Qed.

(** A request to another axis, a description and a refused request. *)
Lemma dispatch_fleet_others r f i x :
  addressed i r = false → saves r = false → models f !! i = Some x →
  models (dispatch_fleet clock mono store_save r f).2 !! i = Some x
  ∧ storage (dispatch_fleet clock mono store_save r f).2 = storage f.
Proof.
  intros Ha Hs Hx. unfold dispatch_fleet, field. destruct (rq_op r) as [op|] eqn:Hop; [|done].
  cbn [of_option]. rewrite lift_bind. destruct (String.eqb_spec op "describe") as [->|Hd].
  { by rewrite (reader (m:=describe_fleet)). }
  rewrite bind_gets. destruct (slave_number _ _) as [j|] eqn:Hj; [|done].
  destruct (slave_number_addressed _ _ _ _ Hop Hd Hj) as [Hja Hlt].
  destruct (lookup_lt_is_Some_2 (models f) j Hlt) as [y Hy]. rewrite (on_axis_run _ _ _ _ Hy).
  pose proof (dispatch_disk (clock j) (mono j) r Hs (y <| disk := storage f |>)) as Hdisk.
  destruct (dispatch (clock j) (mono j) store_save r (y <| disk := storage f |>)) as [a y1].
  cbn in *. split; [|done]. rewrite list_lookup_insert_ne; [done|]. intros ->. congruence.
Qed.

Lemma dispatch_fleet_length r f :
  length (models (dispatch_fleet clock mono store_save r f).2) = length (models f).
Proof.
  unfold dispatch_fleet, field. destruct (rq_op r) as [op|]; [|done].
  cbn [of_option]. rewrite lift_bind. destruct (String.eqb op "describe").
  { by rewrite (reader (m:=describe_fleet)). }
  rewrite bind_gets. destruct (slave_number _ _) as [j|]; [|done].
  unfold on_axis. destruct (models f !! j) as [y|]; [|done].
  destruct (dispatch _ _ _ r _) as [a y1]. cbn. apply length_insert.
Qed.

Lemma dispatch_fleet_refused r f op :
  rq_op r = Some op → op ≠ "describe" →
  (∀ j, (j < length (models f))%nat → rq_slave_index r ≠ Some (PInt (Z.of_nat j))) →
  dispatch_fleet clock mono store_save r f = (Raise ValueError, f).
Proof.
  intros Hop Hd Hj. unfold dispatch_fleet, field. rewrite Hop. cbn [of_option].
  rewrite lift_bind, (proj2 (String.eqb_neq _ _) Hd), bind_gets.
  destruct (slave_number _ _) as [i|] eqn:Hi; [|done].
  destruct (slave_number_addressed _ _ _ _ Hop Hd Hi) as [Ha Hlt]. exfalso.
  unfold addressed in Ha. rewrite Hop in Ha. destruct (rq_slave_index r) as [[z| | | |]|] eqn:Hr; try done.
  apply andb_true_iff in Ha as [_ ->%Z.eqb_eq]. by apply (Hj i).
Qed.

(** ** Properties *)

(** C36. An axis of a fleet behaves as if it were alone.  Over every sequence of
    requests, of which those that do not name the axis do not save: the answers
    to the requests that name it, its state and the storage are those of the
    axis on its own serving just these requests.  No axis is added or lost,
    and a request that names none of the axes by an integer in range, a
    boolean, a negative or a missing index included, is a [ValueError]. *)
Theorem fleet_isolation rs f i x :
  models f !! i = Some x →
  (∀ r, r ∈ rs → addressed i r = false → saves r = false) →
  let fleet_run := serve_all (dispatch_fleet clock mono store_save) rs f in
  let own_run := serve_all (dispatch (clock i) (mono i) store_save)
    (filter (λ r, addressed i r = true) rs) (x <| disk := storage f |>) in
  filter (λ p, addressed i p.1 = true) fleet_run.1 = own_run.1
  ∧ models fleet_run.2 !! i = Some (own_run.2 <| disk := disk x |>)
  ∧ storage fleet_run.2 = disk own_run.2
  ∧ length (models fleet_run.2) = length (models f)
  ∧ ∀ r a op, (r, a) ∈ fleet_run.1 → rq_op r = Some op → op ≠ "describe" →
      (∀ j, (j < length (models f))%nat → rq_slave_index r ≠ Some (PInt (Z.of_nat j))) →
      a = Raise ValueError.
Proof.
  revert f x. induction rs as [|r rs IH]; intros f x Hx Hs; cbv zeta.
  { cbn. split_and!; [done|by destruct x|done|done|]. intros ? ? ? []%elem_of_nil. }
  cbn [serve_all]. destruct (dispatch_fleet clock mono store_save r f) as [a f1] eqn:E.
  assert (∀ r, r ∈ rs → addressed i r = false → saves r = false) as Hs1
    by (intros r' Hr'; apply Hs, elem_of_cons; by right).
  pose proof (dispatch_fleet_length r f) as Hlen. rewrite E in Hlen. cbn in Hlen.
  assert (∀ op, rq_op r = Some op → op ≠ "describe" →
    (∀ j, (j < length (models f))%nat → rq_slave_index r ≠ Some (PInt (Z.of_nat j))) →
    a = Raise ValueError) as Hbad.
  { intros op Hop Hd Hj. pose proof (dispatch_fleet_refused r f op Hop Hd Hj) as E'. congruence. }
  destruct (addressed i r) eqn:Ha.
  - rewrite filter_cons_True by done. cbn [serve_all].
    rewrite (dispatch_fleet_addressed r f i x Ha Hx) in E.
    destruct (dispatch (clock i) (mono i) store_save r (x <| disk := storage f |>)) as [a1 x1].
    injection E as -> <-.
    assert (models (Fleet (<[i:=x1 <| disk := disk x |>]> (models f)) (disk x1)) !! i
      = Some (x1 <| disk := disk x |>)) as Hx1
      by (cbn; apply list_lookup_insert_eq; by eapply lookup_lt_Some).
    destruct (IH _ _ Hx1 Hs1) as (H1 & H2 & H3 & H4 & H5). cbv zeta in H1, H2, H3, H4, H5.
    change (storage (Fleet (<[i:=x1 <| disk := disk x |>]> (models f)) (disk x1))) with (disk x1)
      in H1, H2, H3.
    replace (x1 <| disk := disk x |> <| disk := disk x1 |>) with x1 in H1, H2, H3 by (by destruct x1).
    change (disk (x1 <| disk := disk x |>)) with (disk x) in H2. rewrite Hlen in H5.
    destruct (serve_all (dispatch_fleet clock mono store_save) rs _) as [answers f2].
    destruct (serve_all (dispatch (clock i) (mono i) store_save) _ x1) as [own x2]. cbn in *.
    rewrite decide_True by done. split_and!; [f_equal; exact H1|done|done|by rewrite H4|].
    intros r' a' op [[= -> ->]|H']%elem_of_cons; eauto.
  - rewrite filter_cons_False by (by rewrite Ha).
    destruct (dispatch_fleet_others r f i x Ha (Hs r ltac:(apply elem_of_cons; by left) Ha) Hx) as [Hx1 Hst].
    rewrite E in Hx1, Hst. cbn in Hx1, Hst.
    destruct (IH _ _ Hx1 Hs1) as (H1 & H2 & H3 & H4 & H5). rewrite Hst in H1, H2, H3.
    rewrite Hlen in H5.
    destruct (serve_all (dispatch_fleet clock mono store_save) rs f1) as [answers f2]. cbn in *.
    rewrite decide_False by (by rewrite Ha).
    split_and!; [done..|by rewrite H4|].
    intros r' a' op [[= -> ->]|H']%elem_of_cons; eauto.
Qed.

(** No snapshot is written before every snapshot that exists is loaded: when
    an axis cannot be constructed or a snapshot is rejected, the storage is
    as before, whatever was loaded until then. *)
Theorem snapshots_load_before_save devices d :
  let f' := (init_fleet create store_load store_save devices (Fleet [] d)).2 in
  storage f' = d
  ∨ ∃ f1 missing f2, mapM_ (add_model create) devices (Fleet [] d) = (Ret tt, f1)
    ∧ load_models store_load (seq 0 (length devices)) [] f1 = (Ret missing, f2)
    ∧ storage f2 = d ∧ missing ≠ [].
Proof.
  assert (∀ e (f : fleet A D), storage ((close_fleet ;; raise (A:=()) e) f).2 = storage f) as Hclose.
  { intros e f. apply (preserves (f:=storage) (m:=close_fleet ;; raise e)). }
  unfold init_fleet, try_except.
  pose proof (preserves (f:=storage) (m:=mapM_ (add_model create) devices) (Fleet [] d)) as H1.
  unfold mbind at 1, M_bind at 1.
  destruct (mapM_ (add_model create) devices (Fleet [] d)) as [[[]|e] f1]; cbn in H1;
    [|left; cbn; by rewrite Hclose].
  pose proof (preserves (f:=storage) (m:=load_models store_load (seq 0 (length devices)) []) f1) as H2.
  unfold mbind at 1, M_bind at 1.
  destruct (load_models store_load (seq 0 (length devices)) [] f1) as [[missing|e] f2] eqn:E2; cbn in H2;
    [|left; cbn; rewrite Hclose; congruence].
  destruct missing as [|i missing].
  { left. cbn. congruence. }
  right. exists f1, (i :: missing), f2. split_and!; [done|done|congruence|done].
Qed.
End fleet_props.

(** Two linear axes on one storage: the faults of axis 1 do not reach axis 0. *)
Definition pair_fleet : fleet FKrCmmtAdapter () := Fleet [linear_axis; linear_axis] tt.

Definition to_axis (i : Z) (r : request) : request := r <| rq_slave_index := Some (PInt i) |>.

Definition mixed_requests : list request :=
  [to_axis 0 (cycle_request 6 1); to_axis 1 (cycle_request 6 2);
   to_axis 1 (Request (Some "cycle") None None None None); to_axis 0 (cycle_request 7 1);
   (cycle_request 15 1) <| rq_slave_index := Some (PBool true) |>; to_axis (-1) (cycle_request 15 1)].

Lemma own_requests :
  filter (λ r, addressed 0 r = true) mixed_requests
  = [to_axis 0 (cycle_request 6 1); to_axis 0 (cycle_request 7 1)].
Proof. vm_compute. reflexivity. Qed.

Lemma mixed_requests_save : forallb (λ r, negb (saves r)) mixed_requests = true.
Proof. vm_compute. reflexivity. Qed.

Lemma fleet_isolation_witness :
  models (serve_all (dispatch_fleet (λ _, still) (λ _, ticks) no_save) mixed_requests pair_fleet).2 !! 0%nat
  = Some ((serve_all (dispatch still ticks no_save)
      [to_axis 0 (cycle_request 6 1); to_axis 0 (cycle_request 7 1)]
      (linear_axis <| disk := tt |>)).2 <| disk := disk linear_axis |>).
Proof.
  assert (Hs : ∀ r, r ∈ mixed_requests → addressed 0 r = false → saves r = false).
  { intros r Hr _. pose proof mixed_requests_save as H. rewrite forallb_forall in H.
    apply negb_true_iff, H. by rewrite <- list_elem_of_In. }
  pose proof (fleet_isolation (λ _, still) (λ _, ticks) no_save mixed_requests pair_fleet 0 linear_axis
    eq_refl Hs) as Hf.
  rewrite <- own_requests. exact (proj1 (proj2 Hf)).
Defined.
