(* ===== verification/TimedServer.v ===== *)
(** * The service with timing

    The branches of src/functional_model/ipc/server.py ([serve]) and of
    src/functional_model/runtime/axis.py ([_dispatch]) that take samples, and
    the part of src/functional_model/runtime/service.py ([main]) that hands one
    [PythonTiming] to the server and to every axis.

    The one timing is shared: the state of the timed program is the pair of the
    owner of the requests and the [timing].  [timed m] runs [m] of the untimed
    program; a method that takes no samples is the untimed one.

    [serve_loop_ok]: with clocks that count nanoseconds in 64 bits, the timed loop
    sends the same bytes, ends in the same way and leaves the same axes as the
    untimed one.  The theorem about the process is in ServiceTiming.v. *)

From S2P Require Import Prelude PyFloat.
From S2P Require Timing.
From S2P Require Export Fleet Server.

Open Scope string_scope.
Open Scope list_scope.
Open Scope Z_scope.

Abbreviation timing := Timing.timing.

(** ** The timed program *)

Section timed.
Context (perf cpu unix : nat → Z).

Abbreviation with_timing S := (S * timing)%type.

Definition timed {S A} (m : M S A) : M (with_timing S) A := zoom fst (λ s p, (s, p.2)) m.
Definition on_timing {S A} (m : M timing A) : M (with_timing S) A := zoom snd (λ t p, (p.1, t)) m.

Definition stamp {S} : M (with_timing S) (Z * Z) := on_timing (Timing.stamp perf cpu).
Definition add {S} (key : string) (b e : Z * Z) : M (with_timing S) () := on_timing (Timing.add key b e).

Section axis.
Context {A D : Type} `{DriveAdapter A}.
Context (clock mono : nat → float).
Context (store_save : axis A D → outcome () * D).

(** The cycle of [_dispatch] with [self.timing]. *)
Definition dispatch_cycle_timed (r : request) : M (with_timing (axis A D)) reply :=
  data ← lift (field rq_data r);
  payload ← lift (fromhex data);
  n ← gets (λ p, rx_size p.1);
  if negb (Z.of_nat (length payload) =? n) then raise ValueError
  else
    dt ← timed (cycle_dt mono);
    b ← stamp;
    timed (on_adapter (adapter_apply_outputs payload)) ;;
    after_rx ← stamp;
    timed (on_adapter (adapter_step dt)) ;;
    after_model ← stamp;
    inputs ← timed (on_adapter adapter_read_inputs);
    after_tx ← stamp;
    key ← gets (λ p, ("axis_" ++ str_Z (slave_index (ax_device p.1)) ++ "_")%string);
    add (key ++ "rxpdo") b after_rx ;;
    add (key ++ "model") after_rx after_model ;;
    add (key ++ "txpdo") after_model after_tx ;;
    add (key ++ "cycle_core") b after_tx ;;
    timed (modify (λ x, x <| ax_cycles := ax_cycles x + 1 |>)) ;;
    c ← gets (λ p, ax_cycles p.1);
    mret (RCycle (hex inputs) c).

Definition _dispatch_timed (r : request) : M (with_timing (axis A D)) reply :=
  op ← lift (field rq_op r);
  if String.eqb op "cycle" then dispatch_cycle_timed r else timed (_dispatch clock mono store_save r).

(** [dispatch] with the timed [_dispatch]. *)
Definition guarded_body_timed (op : string) (r : request) : M (with_timing (axis A D)) (reply + reply) :=
  prepared ← timed (if String.eqb op "cycle" then prepare_cycle clock r
              else
                p ← gets (λ x, phase (fault_state x));
                if bool_decide (p = Normal) then mret (inr (r, false))
                else last_cycle <~ None ;; a ← guard_answer None; mret (inl a));
  match prepared with
  | inl a => mret (inl a)
  | inr (r, resetting) =>
      result ← _dispatch_timed r;
      timed (accept_result clock result resetting) ;;
      mret (inr result)
  end.

Definition dispatch_guarded_timed (op : string) (r : request) : M (with_timing (axis A D)) reply :=
  result ← try_except (x ← guarded_body_timed op r; mret (Some x)) (λ e, timed (guarded_handler clock e));
  match result with
  | Some (inl a) => mret a
  | _ =>
      g ← gets (λ p, fault_state p.1);
      if bool_decide (phase g = Normal) && match fault g with None => true | Some _ => false end
      then
        match result with
        | Some (inr a) => mret a
        | _ => raise UnboundLocalError
        end
      else c ← gets (λ p, ax_cycles p.1); timed (guard_answer (Some c))
  end.

Definition dispatch_timed (r : request) : M (with_timing (axis A D)) reply :=
  op ← lift (field rq_op r);
  g ← gets (λ p, fault_state p.1);
  status ← (if String.eqb op "read" then
              index ← lift (field rq_index r);
              if index =? 0x6041 then sub ← lift (field rq_subindex r); mret (sub =? 0)
              else mret false
            else mret false);
  if (status : bool) && negb (bool_decide (phase g = Normal)) then
    mret (RData (projected_statusword g))
  else if restart_required g && (String.eqb op "read" || String.eqb op "write") then
    mret (RError 0x08000022)
  else if String.eqb op "cycle" || String.eqb op "idle" then dispatch_guarded_timed op r
  else timed (dispatch_access clock mono store_save op r).
End axis.

Section fleet.
Context {A D : Type} `{DriveAdapter A}.
Context (clock mono : nat → nat → float).
Context (store_save : axis A D → outcome () * D).

(** [self.models[i].m()] on an axis with the shared timing. *)
Definition on_axis_timed {R} (i : nat) (m : M (with_timing (axis A D)) R) : M (with_timing (fleet A D)) R :=
  λ p,
    let '(f, t) := p in
    match models f !! i with
    | None => (Raise IndexError, p)
    | Some x =>
        let '(r, (x', t')) := m (x <| disk := storage f |>, t) in
        (r, (Fleet (<[i := x' <| disk := disk x |>]> (models f)) (disk x'), t'))
    end.

Definition dispatch_fleet_timed (r : request) : M (with_timing (fleet A D)) reply :=
  op ← lift (field rq_op r);
  if String.eqb op "describe" then timed describe_fleet
  else
    n ← gets (λ p, length (models p.1));
    match slave_number (rq_slave_index r) n with
    | None => raise ValueError
    | Some i => on_axis_timed i (dispatch_timed (clock i) (mono i) store_save r)
    end.
End fleet.

(** ** The timed server *)

Section server.
Context {S : Type} (dispatch : request → M (with_timing S) reply).
Context (loads : list byte → outcome request) (dumps : reply → list byte).

(** The samples of one request. *)
Definition request_samples (op : string) (b after_parse after_dispatch after_encode after_send : Z * Z)
    : M (with_timing S) () :=
  add (op ++ "_json_decode") b after_parse ;;
  add (op ++ "_dispatch") after_parse after_dispatch ;;
  add (op ++ "_json_encode") after_dispatch after_encode ;;
  add (op ++ "_send") after_encode after_send ;;
  add (op ++ "_request") b after_send ;;
  on_timing (Timing.due perf cpu unix).

(** One turn of the loop behind the reading of a message: what was written
    behind [out], and whether to go on. *)
Definition serve_turn (raw out : list byte) (p : with_timing S) : outcome () * list byte * with_timing S :=
  match (b ← stamp;
         r ← lift (loads raw);
         after_parse ← stamp;
         a ← dispatch_request dispatch r;
         after_dispatch ← stamp;
         after_encode ← stamp;
         mret (b, after_parse, after_dispatch, after_encode, r, a)) p with
  | (Raise e, p) => (Raise e, out, p)
  | (Ret (b, after_parse, after_dispatch, after_encode, r, a), p) =>
      let '(res, p) :=
        (after_send ← stamp;
         op ← lift (field rq_op r);
         request_samples op b after_parse after_dispatch after_encode after_send) p in
      (res, out ++ dumps a ++ [newline], p)
  end.

Fixpoint serve_loop_timed (fuel : nat) (stream out : list byte) (p : with_timing S)
    : option (outcome () * list byte * with_timing S) :=
  match fuel with
  | O => None
  | Datatypes.S fuel =>
      let '(raw, rest) := readline (MAX_MESSAGE + 1) stream in
      match raw with
      | [] => Some (Ret tt, out, p)
      | _ =>
          if (MAX_MESSAGE <? Z.of_nat (length raw)) || negb (ends_with_newline raw)
          then Some (Raise ValueError, out, p)
          else
            match serve_turn raw out p with
            | (Raise e, out, p) => Some (Raise e, out, p)
            | (Ret _, out, p) => serve_loop_timed fuel rest out p
            end
      end
  end.
End server.

(** ** Timing changes nothing *)

(** A number the clocks and their differences stay below. *)
Definition clock_bound : Z := 2 ^ 64.
Context (Hperf : ∀ n, 0 ≤ perf n < clock_bound) (Hcpu : ∀ n, 0 ≤ cpu n < clock_bound).
Context (Hunix : ∀ n, 0 ≤ unix n < clock_bound).

(** A reading of both clocks. *)
Definition reading (b : Z * Z) : Prop := 0 ≤ b.1 < clock_bound ∧ 0 ≤ b.2 < clock_bound.

(** A timing whose buckets count at most [k] samples. *)
Record timing_ok (k : Z) (t : timing) : Prop := {
  to_start : 0 ≤ Timing.start t < clock_bound;
  to_last : 0 ≤ Timing.last t < clock_bound;
  to_counts : Forall (λ kb, 0 ≤ Timing.count kb.2 ≤ k) (Timing.metrics t);
}.

Lemma timing_ok_more k k' t : k ≤ k' → timing_ok k t → timing_ok k' t.
Proof. intros Hk [H1 H2 H3]. split; [done|done|]. eapply Forall_impl; [exact H3|]. cbn. lia. Qed.

Lemma int_div_small n d : Z.abs n ≤ 2 ^ 100 → ∃ f, Timing.int_div n d = Ret f.
Proof. intros Hn. unfold Timing.int_div. destruct (Timing.float_of_Z_small n Hn) as [f ->]. by eexists. Qed.

Lemma sample_small b e : reading b → reading e → ∃ s, Timing.sample_ms b e = Ret s.
Proof.
  unfold reading, clock_bound. intros Hb He. unfold Timing.sample_ms.
  destruct (int_div_small (e.1 - b.1) (f_dec 1 6)) as [w ->]; [lia|]. cbn [mbind outcome_bind].
  destruct (int_div_small (e.2 - b.2) (f_dec 1 6)) as [c ->]; [lia|]. by eexists.
Qed.

(** One more sample in a bucket. *)
Lemma put_counts key s k ms :
  0 ≤ k → Forall (λ kb : string * Timing.bucket, 0 ≤ Timing.count kb.2 ≤ k) ms →
  Forall (λ kb : string * Timing.bucket, 0 ≤ Timing.count kb.2 ≤ k + 1) (Timing.put_sample key s ms).
Proof.
  intros Hk. unfold Timing.put_sample. induction 1 as [|[key' b] ms Hb Hms IH]; cbn [dict_set dict_get].
  - constructor; [cbn; lia|constructor].
  - assert (Forall (λ kb : string * Timing.bucket, 0 ≤ Timing.count kb.2 ≤ k + 1) ms) as Hms'.
    { eapply Forall_impl; [exact Hms|]. cbn. lia. }
    cbn in Hb. destruct (decide (key = key')) as [<-|Hne]; constructor; cbn; [lia|done|lia|exact IH].
Qed.

Lemma add_ok k key b e t :
  0 ≤ k → reading b → reading e → timing_ok k t →
  ∃ t', Timing.add key b e t = (Ret tt, t') ∧ timing_ok (k + 1) t'.
Proof.
  intros Hk Hb He [H1 H2 H3]. unfold Timing.add. destruct (sample_small b e Hb He) as [s ->].
  rewrite lift_bind. eexists. split; [reflexivity|]. split; [done|done|]. by apply put_counts.
Qed.

Lemma stamp_ok k t :
  timing_ok k t → ∃ b t', Timing.stamp perf cpu t = (Ret b, t') ∧ reading b ∧ timing_ok k t'.
Proof. intros [H1 H2 H3]. eexists _, _. split; [reflexivity|]. split; [split; [apply Hperf|apply Hcpu]|by split]. Qed.

Lemma averages_small k ms :
  k ≤ 2 ^ 100 → Forall (λ kb : string * Timing.bucket, 0 ≤ Timing.count kb.2 ≤ k) ms →
  ∃ l, traverse Timing.average_of ms = Ret l.
Proof.
  intros Hk. induction 1 as [|[key b] ms Hb _ IH]; [by eexists|]. cbn [traverse]. cbn in Hb.
  assert (∃ a, Timing.average_of (key, b) = Ret a) as [a ->].
  { unfold Timing.average_of. destruct (Timing.float_of_Z_small (Timing.count b)) as [n ->]; [lia|]. by eexists. }
  cbn [mbind outcome_bind]. destruct IH as [l ->]. by eexists.
Qed.

Lemma flush_ok k reason t :
  0 ≤ k ≤ 2 ^ 100 → timing_ok k t →
  ∃ t', Timing.flush perf cpu unix reason t = (Ret tt, t') ∧ timing_ok (k + 1) t'.
Proof.
  intros Hk Ht. unfold Timing.flush. rewrite bind_gets. destruct (Timing.metrics t) as [|m ms] eqn:Hm.
  { exists t. split; [done|]. apply (timing_ok_more k); [lia|done]. }
  rewrite <-Hm. destruct (stamp_ok k t Ht) as (b & t1 & E1 & Hb & Ht1).
  rewrite (bind_eq_ret _ _ _ _ _ E1), (bind_eq_ret (modify _) _ t1 tt _ eq_refl), lift_bind.
  destruct (averages_small k (Timing.metrics t)) as [l ->]; [lia|apply Ht|].
  rewrite (bind_eq_ret Timing.next_read _ _ _ _ eq_refl), lift_bind.
  destruct Ht1 as [S1 L1 _]. generalize (f_dec 1 6), (f_dec 1 9). intros d1 d2. cbn.
  pose proof (Hunix (Timing.reads t1)) as Hu. unfold reading, clock_bound in *.
  destruct (int_div_small (unix (Timing.reads t1)) d1) as [u ->]; [lia|].
  rewrite bind_gets, lift_bind. cbn.
  destruct (int_div_small (b.1 - Timing.start t1) d2) as [el ->]; [lia|]. rewrite lift_bind.
  destruct (int_div_small (b.1 - Timing.last t1) d2) as [w ->]; [lia|].
  do 2 (rewrite (bind_eq_ret (modify _) _ _ tt _ eq_refl)).
  match goal with |- context [(Timing.stamp perf cpu ≫= _) ?t4] => assert (timing_ok 0 t4) as Ht4 end.
  { split; cbn; [done|apply Hb|constructor]. }
  destruct (stamp_ok 0 _ Ht4) as (e & t5 & E5 & He & Ht5). rewrite (bind_eq_ret _ _ _ _ _ E5).
  destruct (add_ok 0 "timing_log" b e t5) as (t6 & E6 & Ht6); [done|done|done|done|].
  exists t6. split; [exact E6|]. apply (timing_ok_more (0 + 1)); [lia|done].
Qed.

Lemma due_ok k t :
  0 ≤ k ≤ 2 ^ 100 → timing_ok k t →
  ∃ t', Timing.due perf cpu unix t = (Ret tt, t') ∧ timing_ok (k + 1) t'.
Proof.
  intros Hk Ht. unfold Timing.due.
  assert (timing_ok k (Timing.next_read t).2) as Ht1 by (destruct Ht; by split).
  rewrite (bind_eq_ret Timing.next_read _ t (Timing.reads t) _ eq_refl), bind_gets.
  destruct (_ <=? _); cbn [when]; [by apply flush_ok|].
  eexists. split; [reflexivity|]. apply (timing_ok_more k); [lia|done].
Qed.

(** ** Shadows

    [shadows c m m']: [m'] does what [m] does, and at most [c] samples. *)
Definition shadows {S A} (c : Z) (m : M S A) (m' : M (with_timing S) A) : Prop :=
  ∀ k s t, 0 ≤ k → k + c ≤ 2 ^ 100 → timing_ok k t →
    ∃ t', m' (s, t) = ((m s).1, ((m s).2, t')) ∧ timing_ok (k + c) t'.

Section shadows.
Context {S A B : Type}.
Implicit Types (m : M S A) (tm : M (with_timing S) A).

Lemma shadows_more c c' m tm : c ≤ c' → shadows c m tm → shadows c' m tm.
Proof.
  intros Hc Hm k s t Hk Hb Ht. destruct (Hm k s t) as (t' & E & Ht'); [done|lia|done|].
  exists t'. split; [done|]. apply (timing_ok_more (k + c)); [lia|done].
Qed.

Lemma shadows_timed m : shadows 0 m (timed m).
Proof.
  intros k s t _ _ Ht. exists t. rewrite Z.add_0_r. split; [|done]. unfold timed, zoom. cbn. by destruct (m s).
Qed.

Lemma shadows_bind c1 c2 m tm (f : A → M S B) f' :
  0 ≤ c1 → 0 ≤ c2 → shadows c1 m tm → (∀ a, shadows c2 (f a) (f' a)) → shadows (c1 + c2) (m ≫= f) (tm ≫= f').
Proof.
  intros H1 H2 Hm Hf k s t Hk Hb Ht. destruct (Hm k s t) as (t' & E & Ht'); [done|lia|done|].
  unfold mbind, M_bind. rewrite E. destruct (m s) as [[a|e] s1]; cbn [fst snd].
  - destruct (Hf a (k + c1) s1 t') as (t2 & E2 & Ht2); [lia|lia|done|]. exists t2. split; [exact E2|].
    by rewrite Z.add_assoc.
  - exists t'. split; [done|]. apply (timing_ok_more (k + c1)); [lia|done].
Qed.

Lemma shadows_try c1 c2 m tm (h : exn → M S A) h' :
  0 ≤ c1 → 0 ≤ c2 → shadows c1 m tm → (∀ e, shadows c2 (h e) (h' e)) →
  shadows (c1 + c2) (try_except m h) (try_except tm h').
Proof.
  intros H1 H2 Hm Hf k s t Hk Hb Ht. destruct (Hm k s t) as (t' & E & Ht'); [done|lia|done|].
  unfold try_except. rewrite E. destruct (m s) as [[a|e] s1]; cbn [fst snd].
  - exists t'. split; [done|]. apply (timing_ok_more (k + c1)); [lia|done].
  - destruct (Hf e (k + c1) s1 t') as (t2 & E2 & Ht2); [lia|lia|done|]. exists t2. split; [exact E2|].
    by rewrite Z.add_assoc.
Qed.

Lemma shadows_gets (g : S → A) (k : A → M S B) k' c :
  (∀ a, shadows c (k a) (k' a)) → shadows c (gets g ≫= k) (gets (λ p, g p.1) ≫= k').
Proof. intros Hk n s t. rewrite !bind_gets. by apply Hk. Qed.

Lemma shadows_stamp c (m : M S B) (k : Z * Z → M (with_timing S) B) :
  (∀ b, reading b → shadows c m (k b)) → shadows c m (stamp ≫= k).
Proof.
  intros Hm n s t Hn Hb Ht. destruct (stamp_ok n t Ht) as (b & t1 & E & Hr & Ht1).
  rewrite (bind_eq_ret _ _ _ b (s, t1)); [by apply Hm|]. unfold stamp, on_timing, zoom. cbn [snd]. by rewrite E.
Qed.

Lemma shadows_add c key b e (m : M S B) (k : () → M (with_timing S) B) :
  0 ≤ c → reading b → reading e → shadows c m (k ()) → shadows (1 + c) m (add key b e ≫= k).
Proof.
  intros Hc Hb He Hm n s t Hn Hbd Ht.
  destruct (add_ok n key b e t Hn Hb He Ht) as (t1 & E & Ht1).
  rewrite (bind_eq_ret _ _ _ () (s, t1)).
  - rewrite Z.add_assoc. apply Hm; [lia|lia|done].
  - unfold add, on_timing, zoom. cbn [snd]. by rewrite E.
Qed.

Lemma shadows_bind0 c m tm (f : A → M S B) f' :
  0 ≤ c → shadows 0 m tm → (∀ a, shadows c (f a) (f' a)) → shadows c (m ≫= f) (tm ≫= f').
Proof. intros Hc Hm Hf. apply (shadows_bind 0 c); [done|done|exact Hm|exact Hf]. Qed.

Lemma shadows_ext c m m2 tm : (∀ s, m s = m2 s) → shadows c m2 tm → shadows c m tm.
Proof. intros E Hm k s t. rewrite E. apply Hm. Qed.

Lemma shadows_lift (o : outcome A) : shadows 0 (S:=S) (lift o) (lift o).
Proof. intros k s t _ _ Ht. exists t. by rewrite Z.add_0_r. Qed.

Lemma shadows_mret (a : A) : shadows 0 (S:=S) (mret a) (mret a).
Proof. intros k s t _ _ Ht. exists t. by rewrite Z.add_0_r. Qed.

Lemma shadows_raise e : shadows 0 (S:=S) (raise (A:=A) e) (raise e).
Proof. intros k s t _ _ Ht. exists t. by rewrite Z.add_0_r. Qed.

(** A reading of the state that only the timed program needs. *)
Lemma shadows_look c (g : with_timing S → A) (m : M S B) (k : A → M (with_timing S) B) :
  (∀ a, shadows c m (k a)) → shadows c m (gets g ≫= k).
Proof. intros Hk n s t. rewrite bind_gets. by apply Hk. Qed.

(** A value that the untimed program gets later. *)
Lemma shadows_early c (o : outcome A) (m : M S B) (k : A → M (with_timing S) B) :
  (∀ a, o = Ret a → shadows c m (k a)) → (∀ e, o = Raise e → shadows c m (raise e)) →
  shadows c m (lift o ≫= k).
Proof.
  intros Hk Hr n s t. rewrite lift_bind. destruct o as [a|e]; [by apply Hk|]. by apply (Hr e).
Qed.
End shadows.

Ltac no_samples := apply (shadows_more 0); [lia|].

(** *** An axis *)

Section axis_shadows.
Context {A D : Type} `{DriveAdapter A}.
Context (clock mono : nat → float).
Context (store_save : axis A D → outcome () * D).

Lemma on_adapter_bind {R T} (m : M A R) (k : R → M A T) (x : axis A D) :
  on_adapter (m ≫= k) x = (on_adapter m ≫= λ a, on_adapter (k a)) x.
Proof.
  unfold on_adapter, zoom, mbind, M_bind. destruct (m (adapter x)) as [[a|e] a1]; [|done].
  cbn. by destruct (k a a1).
Qed.

Lemma exchange_bind {T} p dt (K : list byte → M (axis A D) T) x :
  (on_adapter (exchange p dt) ≫= K) x
  = (on_adapter (adapter_apply_outputs p) ;; on_adapter (adapter_step dt) ;;
     inputs ← on_adapter adapter_read_inputs; K inputs) x.
Proof.
  unfold exchange, on_adapter, zoom, mbind, M_bind.
  destruct (adapter_apply_outputs p (adapter x)) as [[[]|e] a1]; [|done]. cbn.
  destruct (adapter_step dt a1) as [[[]|e] a2]; [|done]. cbn. by destruct (adapter_read_inputs a2) as [[i|e] a3].
Qed.

Lemma shadows_cycle r : shadows 4 (dispatch_cycle (D:=D) mono r) (dispatch_cycle_timed mono r).
Proof.
  unfold dispatch_cycle, dispatch_cycle_timed.
  apply shadows_bind0; [done|apply shadows_lift|intros data].
  apply shadows_bind0; [done|apply shadows_lift|intros payload].
  apply shadows_gets. intros n. destruct (negb _); [no_samples; apply shadows_raise|].
  apply shadows_bind0; [done|apply shadows_timed|intros dt].
  eapply shadows_ext; [apply exchange_bind|].
  apply shadows_stamp. intros b Hb. apply shadows_bind0; [done|apply shadows_timed|intros _].
  apply shadows_stamp. intros b1 Hb1. apply shadows_bind0; [done|apply shadows_timed|intros _].
  apply shadows_stamp. intros b2 Hb2. apply shadows_bind0; [done|apply shadows_timed|intros inputs].
  apply shadows_stamp. intros b3 Hb3. apply shadows_look. intros key.
  change 4 with (1 + (1 + (1 + (1 + 0)))). do 4 (apply shadows_add; [done|done|done|]).
  apply shadows_bind0; [done|apply shadows_timed|intros _].
  apply shadows_gets. intros c. apply shadows_mret.
Qed.

Lemma shadows__dispatch r :
  shadows 4 (_dispatch clock mono store_save r) (_dispatch_timed (D:=D) clock mono store_save r).
Proof.
  unfold _dispatch_timed. apply shadows_early.
  - intros op Hop. destruct (String.eqb_spec op "cycle") as [->|Hne]; [|no_samples; apply shadows_timed].
    eapply shadows_ext; [|apply shadows_cycle]. intros x. unfold _dispatch. rewrite Hop. by rewrite lift_bind.
  - intros e He. no_samples. eapply shadows_ext; [|apply shadows_raise].
    intros x. unfold _dispatch. by rewrite He, lift_bind.
Qed.

Lemma shadows_guarded_body op r :
  shadows 4 (guarded_body clock mono store_save op r) (guarded_body_timed (D:=D) clock mono store_save op r).
Proof.
  unfold guarded_body, guarded_body_timed. apply shadows_bind0; [done|apply shadows_timed|].
  intros [a|[r' rst]]; [no_samples; apply shadows_mret|].
  apply (shadows_bind 4 0); [done|done|apply shadows__dispatch|]. intros a.
  apply shadows_bind0; [done|apply shadows_timed|intros _]. apply shadows_mret.
Qed.

Lemma shadows_guarded op r :
  shadows 4 (dispatch_guarded clock mono store_save op r) (dispatch_guarded_timed (D:=D) clock mono store_save op r).
Proof.
  unfold dispatch_guarded, dispatch_guarded_timed. apply (shadows_bind 4 0); [done|done| |].
  - apply (shadows_try 4 0); [done|done| |intros e; apply shadows_timed].
    apply (shadows_bind 4 0); [done|done|apply shadows_guarded_body|]. intros a. apply shadows_mret.
  - assert (∀ res : option (reply + reply), shadows 0
      (g ← gets fault_state;
       if bool_decide (phase g = Normal) && match fault g with None => true | Some _ => false end
       then match res with Some (inr a) => mret a | _ => raise UnboundLocalError end
       else c ← gets ax_cycles; guard_answer (Some c))
      (g ← gets (λ p : axis A D * timing, fault_state p.1);
       if bool_decide (phase g = Normal) && match fault g with None => true | Some _ => false end
       then match res with Some (inr a) => mret a | _ => raise UnboundLocalError end
       else c ← gets (λ p : axis A D * timing, ax_cycles p.1); timed (guard_answer (Some c)))) as Hend.
    { intros res. apply shadows_gets. intros g. destruct (_ && _).
      - destruct res as [[a|a]|]; first [apply shadows_raise|apply shadows_mret].
      - apply shadows_gets. intros c. apply shadows_timed. }
    intros [[a|a]|]; [apply shadows_mret|apply (Hend (Some (inr a)))|apply (Hend None)].
Qed.

Lemma shadows_dispatch r :
  shadows 4 (dispatch clock mono store_save r) (dispatch_timed (D:=D) clock mono store_save r).
Proof.
  unfold dispatch, dispatch_timed. apply shadows_bind0; [done|apply shadows_lift|intros op].
  apply shadows_gets. intros g. apply shadows_bind0; [done| |].
  - destruct (String.eqb op "read"); [|apply shadows_mret].
    apply shadows_bind0; [done|apply shadows_lift|intros i]. destruct (_ =? _); [|apply shadows_mret].
    apply shadows_bind0; [done|apply shadows_lift|intros sub]. apply shadows_mret.
  - intros status. destruct (_ && _); [no_samples; apply shadows_mret|].
    destruct (_ && _); [no_samples; apply shadows_mret|].
    destruct (_ || _); [apply shadows_guarded|]. no_samples. apply shadows_timed.
Qed.
End axis_shadows.

(** *** A fleet *)

Section fleet_shadows.
Context {A D : Type} `{DriveAdapter A}.
Context (clock mono : nat → nat → float).
Context (store_save : axis A D → outcome () * D).

Lemma shadows_on_axis {R} c i (m : M (axis A D) R) tm :
  0 ≤ c → shadows c m tm → shadows c (on_axis i m) (on_axis_timed i tm).
Proof.
  intros Hc Hm k f t Hk Hb Ht. unfold on_axis, on_axis_timed. destruct (models f !! i) as [x|].
  - destruct (Hm k (x <| disk := storage f |>) t Hk Hb Ht) as (t' & E & Ht'). exists t'. rewrite E.
    by destruct (m (x <| disk := storage f |>)) as [r x'].
  - exists t. split; [done|]. apply (timing_ok_more k); [lia|done].
Qed.

Lemma shadows_fleet r :
  shadows 4 (dispatch_fleet clock mono store_save r) (dispatch_fleet_timed (D:=D) clock mono store_save r).
Proof.
  unfold dispatch_fleet, dispatch_fleet_timed. apply shadows_bind0; [done|apply shadows_lift|intros op].
  destruct (String.eqb op "describe"); [no_samples; apply shadows_timed|].
  apply (shadows_gets (λ f : fleet A D, length (models f))). intros n. destruct (slave_number _ n) as [i|]; [|no_samples; apply shadows_raise].
  apply shadows_on_axis; [done|]. apply shadows_dispatch.
Qed.
End fleet_shadows.

(** *** The server *)

Section server_shadows.
Context {S : Type} (dispatch : request → M S reply) (timed_dispatch : request → M (with_timing S) reply).
Context (loads : list byte → outcome request) (dumps : reply → list byte).
Context (Hdispatch : ∀ r, shadows 4 (dispatch r) (timed_dispatch r)).
Context (Hop : ∀ r s a, (dispatch r s).1 = Ret a → is_Some (rq_op r)).

Lemma shadows_dispatch_request r : shadows 4 (dispatch_request dispatch r) (dispatch_request timed_dispatch r).
Proof.
  unfold dispatch_request. destruct (negb _); [apply Hdispatch|].
  apply (shadows_try 4 0); [done|done|apply Hdispatch|]. intros e.
  destruct (abort_code e); [apply shadows_mret|apply shadows_raise].
Qed.

Lemma answered_op r s a : (dispatch_request dispatch r s).1 = Ret a → is_Some (rq_op r).
Proof.
  unfold dispatch_request. destruct (is_access r) eqn:Ha; cbn [negb]; [|apply Hop].
  intros _. unfold is_access in Ha. apply bool_decide_eq_true_1 in Ha. destruct Ha as [-> | ->]; by eexists.
Qed.

Lemma stamp_run k (s : S) t :
  timing_ok k t → ∃ b t', stamp (s, t) = (Ret b, (s, t')) ∧ reading b ∧ timing_ok k t'.
Proof.
  intros Ht. destruct (stamp_ok k t Ht) as (b & t' & E & Hb & Ht'). exists b, t'.
  split; [|done]. unfold stamp, on_timing, zoom. cbn [snd]. by rewrite E.
Qed.

Lemma shadows_samples op b1 b2 b3 b4 b5 :
  reading b1 → reading b2 → reading b3 → reading b4 → reading b5 →
  shadows (S:=S) 6 (mret ()) (request_samples op b1 b2 b3 b4 b5).
Proof.
  intros. unfold request_samples. change 6 with (1 + (1 + (1 + (1 + (1 + 1))))).
  do 5 (apply shadows_add; [done|done|done|]).
  intros k s t Hk Hb Ht. destruct (due_ok k t) as (t' & E & Ht'); [lia|done|].
  exists t'. split; [|done]. unfold on_timing, zoom. cbn [snd]. by rewrite E.
Qed.

(** A turn of the timed loop is a turn of the loop. *)
Lemma serve_turn_ok raw out k s t :
  0 ≤ k → k + 10 ≤ 2 ^ 100 → timing_ok k t →
  ∃ t', timing_ok (k + 10) t' ∧ serve_turn timed_dispatch loads dumps raw out (s, t) =
    match loads raw with
    | Raise e => (Raise e, out, (s, t'))
    | Ret r =>
        match dispatch_request dispatch r s with
        | (Raise e, s1) => (Raise e, out, (s1, t'))
        | (Ret a, s1) => (Ret tt, out ++ dumps a ++ [newline], (s1, t'))
        end
    end.
Proof.
  intros Hk Hb Ht. unfold serve_turn.
  destruct (stamp_run k s t Ht) as (b1 & t1 & E1 & R1 & Ht1). rewrite (bind_eq_ret _ _ _ _ _ E1), lift_bind.
  destruct (loads raw) as [r|e].
  2: { exists t1. split; [|done]. apply (timing_ok_more k); [lia|done]. }
  destruct (stamp_run k s t1 Ht1) as (b2 & t2 & E2 & R2 & Ht2). rewrite (bind_eq_ret _ _ _ _ _ E2).
  destruct (shadows_dispatch_request r k s t2 Hk ltac:(lia) Ht2) as (t3 & E3 & Ht3).
  pose proof (answered_op r s) as Hans.
  destruct (dispatch_request dispatch r s) as [[a|e] s1]; cbn [fst snd] in E3.
  2: { rewrite (bind_eq_raise _ _ _ _ _ E3). exists t3. split; [|done]. apply (timing_ok_more (k + 4)); [lia|done]. }
  destruct (Hans a eq_refl) as [op Hr].
  rewrite (bind_eq_ret _ _ _ _ _ E3).
  destruct (stamp_run (k + 4) s1 t3 Ht3) as (b3 & t4 & E4 & R3 & Ht4). rewrite (bind_eq_ret _ _ _ _ _ E4).
  destruct (stamp_run (k + 4) s1 t4 Ht4) as (b4 & t5 & E5 & R4 & Ht5). rewrite (bind_eq_ret _ _ _ _ _ E5).
  cbn [mret M_ret].
  destruct (stamp_run (k + 4) s1 t5 Ht5) as (b5 & t6 & E6 & R5 & Ht6).
  destruct (shadows_samples op b1 b2 b3 b4 b5 R1 R2 R3 R4 R5 (k + 4) s1 t6) as (t7 & E7 & Ht7); [lia|lia|done|].
  exists t7. split; [by replace (k + 10) with (k + 4 + 6) by lia|].
  rewrite (bind_eq_ret _ _ _ _ _ E6), lift_bind. unfold field. rewrite Hr. cbn [of_option]. by rewrite E7.
Qed.

Definition with_final {R} (t : timing) (res : R * S) : R * with_timing S := (res.1, (res.2, t)).

Lemma serve_loop_ok fuel : ∀ stream out k s t,
  0 ≤ k → k + 10 * Z.of_nat fuel ≤ 2 ^ 100 → timing_ok k t →
  ∃ t', timing_ok (k + 10 * Z.of_nat fuel) t' ∧
    serve_loop_timed timed_dispatch loads dumps fuel stream out (s, t)
    = with_final t' <$> serve_loop dispatch loads dumps fuel stream out s.
Proof.
  induction fuel as [|fuel IH]; intros stream out k s t Hk Hb Ht.
  { exists t. split; [by rewrite Z.add_0_r|done]. }
  cbn [serve_loop_timed serve_loop]. destruct (readline (MAX_MESSAGE + 1) stream) as [raw rest].
  assert (timing_ok (k + 10 * Z.of_nat (Datatypes.S fuel)) t) as Hmore by (apply (timing_ok_more k); [lia|done]).
  destruct raw as [|b raw]; [by exists t|]. destruct (_ || _); [by exists t|].
  destruct (serve_turn_ok (b :: raw) out k s t Hk ltac:(lia) Ht) as (t1 & Ht1 & ->).
  assert (timing_ok (k + 10 * Z.of_nat (Datatypes.S fuel)) t1) as Hmore1.
  { apply (timing_ok_more (k + 10)); [lia|done]. }
  destruct (loads (b :: raw)) as [r|e]; [|by exists t1].
  destruct (dispatch_request dispatch r s) as [[a|e] s1]; [|by exists t1].
  destruct (IH rest (out ++ dumps a ++ [newline]) (k + 10) s1 t1) as (t2 & Ht2 & ->); [lia|lia|done|].
  exists t2. split; [|done]. by replace (k + 10 * Z.of_nat (Datatypes.S fuel)) with (k + 10 + 10 * Z.of_nat fuel) by lia.
Qed.
End server_shadows.

(** An answer has an operation. *)
Lemma dispatch_op {A D : Type} `{DriveAdapter A} clock mono (store_save : axis A D → outcome () * D) r x a :
  (dispatch clock mono store_save r x).1 = Ret a → is_Some (rq_op r).
Proof.
  intros E. unfold dispatch in E. rewrite lift_bind in E. unfold field at 1 in E.
  destruct (rq_op r); [by eexists|done].
Qed.

Lemma dispatch_fleet_op {A D : Type} `{DriveAdapter A} clock mono (store_save : axis A D → outcome () * D) r f a :
  (dispatch_fleet clock mono store_save r f).1 = Ret a → is_Some (rq_op r).
Proof.
  intros E. unfold dispatch_fleet in E. rewrite lift_bind in E. unfold field in E.
  destruct (rq_op r); [by eexists|done].
Qed.
End timed.
