(* ===== verification/Catalog.v ===== *)
(** * The ESI catalog

    src/device_descriptions/cmmt_as/catalog.py: [parse_cmmt_esi_catalog] reads
    the objects and the PDO mappings of a device from the element tree of an
    ESI file; a [CMMTEsiCatalog] answers the look-ups of the profile.

    A dict is an association list in insertion order ([dict_set] of
    Prelude.v).  Every fault of the reader is a [ValueError], from
    [find_device] or from an integer. *)

From S2P Require Import Prelude PyFloat.
From S2P Require Export Profile Esi.

Open Scope string_scope.
Open Scope list_scope.
Open Scope Z_scope.

(** ** Data *)

Module CMMTEsiSubItemInfo.
Record t := Make {
  subindex : Z; name : string; data_type : string; bit_size : Z; bit_offset : Z; access : string
}.
End CMMTEsiSubItemInfo.

Module CMMTEsiObjectInfo.
Record t := Make {
  index : Z; name : string; data_type : string; bit_size : Z; access : string;
  subitems : list CMMTEsiSubItemInfo.t
}.
End CMMTEsiObjectInfo.

Module CMMTEsiPdoEntryInfo.
Record t := Make { index : Z; subindex : Z; bit_length : Z; name : string; data_type : string }.

Definition mapping_entry (e : t) : Z :=
  if index e =? 0 then Z.land (bit_length e) 0xFF
  else Z.lor (Z.lor (Z.shiftl (Z.land (index e) 0xFFFF) 16) (Z.shiftl (Z.land (subindex e) 0xFF) 8))
         (Z.land (bit_length e) 0xFF).
End CMMTEsiPdoEntryInfo.

Module CMMTEsiPdoInfo.
Record t := Make { index : Z; name : string; entries : list CMMTEsiPdoEntryInfo.t }.

Definition mapping_entries (p : t) : list Z := map CMMTEsiPdoEntryInfo.mapping_entry (entries p).
End CMMTEsiPdoInfo.

Module Sub := CMMTEsiSubItemInfo.
Module Obj := CMMTEsiObjectInfo.
Module PdoEntry := CMMTEsiPdoEntryInfo.
Module Pdo := CMMTEsiPdoInfo.

Record catalog := CMMTEsiCatalog {
  variant : string;
  type_name : string;
  display_name : string;
  product_code : Z;
  revision : Z;
  root_objects : list (Z * Obj.t);
  objects : list ((Z * Z) * Obj.t);
  rxpdos : list (Z * Pdo.t);
  txpdos : list (Z * Pdo.t);
}.

(** ** Look-ups *)

(** [object_info] of the catalog; Profile.v has the one of the profile. *)
Definition catalog_object_info (c : catalog) (index subindex : Z) : outcome Obj.t :=
  of_option KeyError (dict_get (index, subindex) (objects c)).

(** [root_object_infos]: the objects by their index *)
Fixpoint insert_index {A} (kv : Z * A) (l : list (Z * A)) : list (Z * A) :=
  match l with
  | [] => [kv]
  | kv' :: l' => if kv.1 <=? kv'.1 then kv :: l else kv' :: insert_index kv l'
  end.

Definition sort_index {A} (l : list (Z * A)) : list (Z * A) := foldr insert_index [] l.

Definition root_object_infos (c : catalog) : list Obj.t := (sort_index (root_objects c)).*2.

Definition rxpdo_mapping_entries (c : catalog) (pdo_index : Z) : outcome (list Z) :=
  p ← of_option KeyError (dict_get pdo_index (rxpdos c)); mret (Pdo.mapping_entries p).

Definition txpdo_mapping_entries (c : catalog) (pdo_index : Z) : outcome (list Z) :=
  p ← of_option KeyError (dict_get pdo_index (txpdos c)); mret (Pdo.mapping_entries p).

(** ** Reading *)

(** [if not value], [a or b] *)
Definition or_text (a b : string) : string := if String.eqb a "" then b else a.

(** [parse_int(xml_text(element.find(tag)))] *)
Definition int_at (t : string) (e : element) : outcome Z := parse_int (xml_text (find t e)).

Fixpoint first_device (l : list element) : outcome element :=
  match l with
  | [] => Raise ValueError
  | device :: l =>
      match find "Type" device with
      | Some type_el => if negb (String.eqb (get "ProductCode" type_el) "") then Ret device
                        else first_device l
      | None => first_device l
      end
  end.

Definition find_device (root : element) : outcome element :=
  first_device (findall_below "Device" root).

Fixpoint english (l : list element) : option element :=
  match l with
  | [] => None
  | e :: l => if String.eqb (get "LcId" e) "1033" then Some e else english l
  end.

Definition english_name (e : element) : string :=
  match english (findall "Name" e) with
  | Some name_el => xml_text (Some name_el)
  | None => xml_text (find "Name" e)
  end.

Definition english_display_name (e : element) : string :=
  match english (findall "DisplayName" e) with
  | Some name_el => xml_text (Some name_el)
  | None => ""
  end.

(** An array: base type, lower bound, number of elements, bits of an element *)
Record array_type := ArrayType {
  base_type : string; lower_bound : Z; elements : Z; element_bits : Z
}.

Definition parse_array_data_type (result : list (string * array_type)) (data_type : element)
    : outcome (list (string * array_type)) :=
  match find "ArrayInfo" data_type with
  | None => mret result
  | Some array_info =>
      let name := xml_text (find "Name" data_type) in
      elements ← int_at "Elements" array_info;
      if String.eqb name "" || (elements <=? 0) then mret result
      else
        total_bits ← int_at "BitSize" data_type;
        lower ← int_at "LBound" array_info;
        match dict_get name result with
        | Some _ => mret result
        | None => mret (result ++ [(name, ArrayType (xml_text (find "BaseType" data_type)) lower
                                    elements (total_bits / elements))])
        end
  end.

Definition parse_array_data_types (root : element) : outcome (list (string * array_type)) :=
  fold_outcome parse_array_data_type [] (findall_below "DataType" root).

(** [f'{base_name} {subindex:03d}'] *)
Definition fmt_dec (width n : Z) : string :=
  if n <? 0 then ("-" ++ pad_left (width - 1) (to_base 10 (- n)))%string
  else pad_left width (to_base 10 n).

Definition array_subitem (a : array_type) (base_offset : Z) (base_name access : string)
    (element_offset : Z) : Sub.t :=
  let subindex := lower_bound a + element_offset in
  Sub.Make subindex (base_name ++ " " ++ fmt_dec 3 subindex)%string (base_type a) (element_bits a)
    (base_offset + element_offset * element_bits a) access.

Definition parse_data_type_subitem (array_types : list (string * array_type)) (subitem : element)
    : outcome (list Sub.t) :=
  let item_type := xml_text (find "Type" subitem) in
  let name := or_text (english_display_name subitem) (xml_text (find "Name" subitem)) in
  match dict_get item_type array_types with
  | None =>
      subindex ← int_at "SubIdx" subitem;
      bit_size ← int_at "BitSize" subitem;
      bit_offset ← int_at "BitOffs" subitem;
      mret [Sub.Make subindex name item_type bit_size bit_offset (access_text subitem)]
  | Some a =>
      base_offset ← int_at "BitOffs" subitem;
      mret (map (λ i, array_subitem a base_offset name (access_text subitem) (Z.of_nat i))
              (seq 0 (Z.to_nat (elements a))))
  end.

Definition parse_data_type_subitems (data_type : element) (array_types : list (string * array_type))
    : outcome (list Sub.t) :=
  l ← traverse (parse_data_type_subitem array_types) (findall "SubItem" data_type);
  mret (concat l).

Abbreviation type_table := (list (string * list (Z * list Sub.t))).

Definition parse_data_type (array_types : list (string * array_type)) (data_types : type_table)
    (data_type : element) : outcome type_table :=
  let name := xml_text (find "Name" data_type) in
  if String.eqb name "" then mret data_types
  else
    bit_size ← int_at "BitSize" data_type;
    subitems ← parse_data_type_subitems data_type array_types;
    mret (dict_set name (default [] (dict_get name data_types) ++ [(bit_size, subitems)]) data_types).

Definition parse_data_types (root : element) : outcome type_table :=
  array_types ← parse_array_data_types root;
  fold_outcome (parse_data_type array_types) [] (findall_below "DataType" root).

(** [normalize_name]: lower case, blanks collapsed *)
Fixpoint split_words (word : string) (s : string) : list string :=
  let flush := if String.eqb word "" then [] else [word] in
  match s with
  | EmptyString => flush
  | String.String a s =>
      if Text.is_space a then flush ++ split_words "" s
      else split_words (word ++ String.String a "")%string s
  end.

Definition normalize_name (value : string) : string :=
  String.concat " " (split_words "" (Text.lower (Text.strip value))).

Definition normalized (names : list string) : list string :=
  filter (λ name, negb (String.eqb name "")) (map normalize_name names).

Definition same_subitem_names (left right : list string) : bool :=
  negb (bool_decide (normalized left = [])) && bool_decide (normalized left = normalized right).

Definition info_names (obj : element) : list string :=
  map (λ subitem, xml_text (find "Name" subitem)) (findall2 "Info" "SubItem" obj).

Definition info_subitems (obj : element) : list Sub.t :=
  imap (λ index name, Sub.Make (Z.of_nat index) name "" 0 0 "") (info_names obj).

(** The layout of an object among the candidates of its type: the only one of
    its size, else the one with the names of the object, else the first of
    its size, else the first. *)
Definition object_subitems (obj : element) (data_type : string) (bit_size : Z)
    (data_types : type_table) : list Sub.t :=
  match default [] (dict_get data_type data_types) with
  | [] => info_subitems obj
  | ((_, first) :: _) as candidates =>
      let same_size := (filter (λ c, c.1 = bit_size) candidates).*2 in
      match same_size with
      | [subitems] => subitems
      | _ =>
          match List.find (λ c, same_subitem_names (info_names obj) (map Sub.name c.2)) candidates with
          | Some (_, subitems) => subitems
          | None => default first (head same_size)
          end
      end
  end.

(** The object under one subindex. *)
Definition subitem_object (info : Obj.t) (s : Sub.t) : Obj.t :=
  Obj.Make (Obj.index info) (Sub.name s) (Sub.data_type s) (Sub.bit_size s)
    (or_text (Sub.access s) (Obj.access info)) [].

Definition add_object (info : Obj.t) (st : list (Z * Obj.t) * list ((Z * Z) * Obj.t))
    : list (Z * Obj.t) * list ((Z * Z) * Obj.t) :=
  let objects := match Obj.subitems info with
    | [] => dict_set (Obj.index info, 0) info st.2
    | _ => st.2
    end in
  (dict_set (Obj.index info) info st.1,
   foldl (λ d s, dict_set (Obj.index info, Sub.subindex s) (subitem_object info s) d) objects
     (Obj.subitems info)).

Definition parse_object (data_types : type_table)
    (st : list (Z * Obj.t) * list ((Z * Z) * Obj.t)) (obj : element)
    : outcome (list (Z * Obj.t) * list ((Z * Z) * Obj.t)) :=
  index ← int_at "Index" obj;
  if index <=? 0 then mret st
  else
    let data_type := xml_text (find "Type" obj) in
    bit_size ← int_at "BitSize" obj;
    let subitems := object_subitems obj data_type bit_size data_types in
    mret (add_object (Obj.Make index (xml_text (find "Name" obj)) data_type bit_size
                        (access_text obj) subitems) st).

Definition parse_objects (device : element) (data_types : type_table)
    : outcome (list (Z * Obj.t) * list ((Z * Z) * Obj.t)) :=
  fold_outcome (parse_object data_types) ([], []) (findall_below "Object" device).

Definition parse_pdo_entry (entry : element) : outcome PdoEntry.t :=
  index ← int_at "Index" entry;
  subindex ← int_at "SubIndex" entry;
  bit_length ← int_at "BitLen" entry;
  mret (PdoEntry.Make index subindex bit_length (xml_text (find "Name" entry))
          (xml_text (find "DataType" entry))).

Definition parse_pdo (pdos : list (Z * Pdo.t)) (pdo : element) : outcome (list (Z * Pdo.t)) :=
  index ← int_at "Index" pdo;
  if index <=? 0 then mret pdos
  else
    entries ← traverse parse_pdo_entry (findall "Entry" pdo);
    mret (dict_set index (Pdo.Make index (xml_text (find "Name" pdo)) entries) pdos).

Definition parse_pdos (device : element) (t : string) : outcome (list (Z * Pdo.t)) :=
  fold_outcome parse_pdo [] (findall t device).

(** [parse_cmmt_esi_catalog(variant, path)] on the tree of the file *)
Definition parse_cmmt_esi_catalog (v : string) (root : element) : outcome catalog :=
  device ← find_device root;
  type_el ← of_option AttributeError (find "Type" device);
  let type_name := xml_text (Some type_el) in
  data_types ← parse_data_types root;
  objs ← parse_objects device data_types;
  code ← parse_int (get "ProductCode" type_el);
  rev ← parse_int (get "RevisionNo" type_el);
  rx ← parse_pdos device "RxPdo";
  tx ← parse_pdos device "TxPdo";
  mret (CMMTEsiCatalog v type_name (or_text (english_name device) type_name) code rev
          objs.1 objs.2 rx tx).

(** The catalog of the profile: [catalog.objects.items()]. *)
Definition profile_info (o : Obj.t) : Info.t :=
  Info.Make (Obj.name o) (Obj.data_type o) (Obj.bit_size o) (Obj.access o).

Definition catalog_items (c : catalog) : catalog_t :=
  map (λ kv, (kv.1, profile_info kv.2)) (objects c).
