(* ===== verification/CatalogProps.v ===== *)
(** * The ESI catalog: its two tables agree

    The theorem about catalog.py: whatever ESI tree is read, the table of the
    look-ups ([objects]) holds, for every object of the table of the roots
    ([root_objects]), the object itself or each of its subitems, and nothing
    of an index that is no root.  The lemmas on [add_object] and on the loops
    serve FixtureProps.v too. *)

From Stdlib Require Import Permutation Sorting.Sorted.
From S2P Require Import Prelude PyFloat.
From S2P Require Export Catalog.

Open Scope string_scope.
Open Scope list_scope.
Open Scope Z_scope.

(** ** Loops *)

(** ** [add_object] *)

Abbreviation tables := (list (Z * Obj.t) * list ((Z * Z) * Obj.t))%type.

Section add_object.
Context (info : Obj.t).

Definition set_sub (d : list ((Z * Z) * Obj.t)) (s : Sub.t) : list ((Z * Z) * Obj.t) :=
  dict_set (Obj.index info, Sub.subindex s) (subitem_object info s) d.

Lemma set_subs_other subs d k :
  k ∉ map (λ s, (Obj.index info, Sub.subindex s)) subs → dict_get k (foldl set_sub d subs) = dict_get k d.
Proof.
  revert d. induction subs as [|s subs IH]; intros d Hk; [done|]. cbn [map foldl] in *.
  apply not_elem_of_cons in Hk as [H1 H2]. rewrite IH by done. unfold set_sub.
  rewrite dict_get_set. by case_decide.
Qed.

(** The last subitem of a subindex is the one that is found. *)
Lemma set_subs_last l1 s l2 d :
  Sub.subindex s ∉ map Sub.subindex l2 →
  dict_get (Obj.index info, Sub.subindex s) (foldl set_sub d (l1 ++ s :: l2))
  = Some (subitem_object info s).
Proof.
  intros Hs. rewrite foldl_app. cbn [foldl]. rewrite set_subs_other.
  - unfold set_sub. rewrite dict_get_set. by case_decide.
  - intros (s' & E & Hin)%list_elem_of_fmap. apply Hs. injection E as E. rewrite E.
    by apply list_elem_of_fmap_2.
Qed.

Lemma set_subs_keys subs d : NoDup d.*1 → NoDup (foldl set_sub d subs).*1.
Proof. revert d. induction subs as [|s subs IH]; intros d Hd; [done|]. by apply IH, dict_set_keys. Qed.

Context (st : tables).

Definition plain_objects : list ((Z * Z) * Obj.t) :=
  match Obj.subitems info with [] => dict_set (Obj.index info, 0) info st.2 | _ => st.2 end.

Lemma add_object_eq :
  add_object info st
  = (dict_set (Obj.index info) info st.1, foldl set_sub plain_objects (Obj.subitems info)).
Proof. reflexivity. Qed.

Lemma add_object_other i s :
  i ≠ Obj.index info → dict_get (i, s) (add_object info st).2 = dict_get (i, s) st.2.
Proof.
  intros Hi. rewrite add_object_eq. cbn [snd]. rewrite set_subs_other.
  - unfold plain_objects. destruct (Obj.subitems info); [|done]. rewrite dict_get_set. case_decide; congruence.
  - intros (s' & E & _)%list_elem_of_fmap. congruence.
Qed.

Lemma add_object_plain :
  Obj.subitems info = [] → dict_get (Obj.index info, 0) (add_object info st).2 = Some info.
Proof.
  intros E. rewrite add_object_eq. unfold plain_objects. rewrite E. cbn [snd foldl].
  rewrite dict_get_set. by case_decide.
Qed.

Lemma add_object_sub l1 s l2 :
  Obj.subitems info = l1 ++ s :: l2 → Sub.subindex s ∉ map Sub.subindex l2 →
  dict_get (Obj.index info, Sub.subindex s) (add_object info st).2 = Some (subitem_object info s).
Proof. intros E Hs. rewrite add_object_eq. cbn [snd]. rewrite E. by apply set_subs_last. Qed.

Lemma add_object_root i :
  dict_get i (add_object info st).1 = if decide (i = Obj.index info) then Some info else dict_get i st.1.
Proof. rewrite add_object_eq. apply dict_get_set. Qed.

(** Whatever is found under the index has the index. *)
Lemma add_object_index s o :
  (∀ o, dict_get (Obj.index info, s) st.2 = Some o → Obj.index o = Obj.index info) →
  dict_get (Obj.index info, s) (add_object info st).2 = Some o → Obj.index o = Obj.index info.
Proof.
  intros Hst. rewrite add_object_eq. cbn [snd].
  assert (∀ o, dict_get (Obj.index info, s) plain_objects = Some o → Obj.index o = Obj.index info) as Hp.
  { intros o'. unfold plain_objects. destruct (Obj.subitems info); [|apply Hst].
    rewrite dict_get_set. case_decide; [by intros [= <-]|apply Hst]. }
  revert Hp. generalize plain_objects. induction (Obj.subitems info) as [|s' subs IH]; intros d Hd; [apply Hd|].
  cbn [foldl]. apply IH. intros o'. unfold set_sub. rewrite dict_get_set.
  case_decide; [by intros [= <-]|apply Hd].
Qed.
End add_object.

(** ** The tables of every ESI tree *)

(** One object of the roots, and the look-ups. *)
Definition answered (objs : list ((Z * Z) * Obj.t)) (i : Z) (info : Obj.t) : Prop :=
  0 < i ∧ Obj.index info = i
  ∧ (Obj.subitems info = [] → dict_get (i, 0) objs = Some info)
  ∧ ∀ l1 s l2, Obj.subitems info = l1 ++ s :: l2 → Sub.subindex s ∉ map Sub.subindex l2 →
      dict_get (i, Sub.subindex s) objs = Some (subitem_object info s).

Record consistent (st : tables) : Prop := {
  roots_once : NoDup st.1.*1;
  objects_once : NoDup st.2.*1;
  roots_answered i info : dict_get i st.1 = Some info → answered st.2 i info;
  objects_rooted i s o : dict_get (i, s) st.2 = Some o →
    Obj.index o = i ∧ is_Some (dict_get i st.1);
}.

Lemma add_object_consistent info st :
  0 < Obj.index info → consistent st → consistent (add_object info st).
Proof.
  intros Hi [H1 H2 H3 H4]. constructor.
  - rewrite add_object_eq. by apply dict_set_keys.
  - rewrite add_object_eq. cbn [snd]. apply set_subs_keys. unfold plain_objects.
    destruct (Obj.subitems info); [by apply dict_set_keys|done].
  - intros i o. rewrite add_object_root. case_decide as E.
    + intros [= <-]. subst i. split_and!; [done|done|apply add_object_plain|apply add_object_sub].
    + intros Ho. destruct (H3 i o Ho) as (Ha & Hb & Hc & Hd).
      split_and!; [done..| |]; intros; rewrite add_object_other by done; eauto.
  - intros i s o Ho. rewrite add_object_root. case_decide as E.
    + subst i. split; [|done]. eapply add_object_index; [|exact Ho]. intros o' Ho'. by apply H4 in Ho' as [? _].
    + rewrite add_object_other in Ho by done. by apply H4 in Ho.
Qed.

Lemma parse_objects_consistent device data_types st :
  parse_objects device data_types = Ret st → consistent st.
Proof.
  unfold parse_objects. apply fold_outcome_inv.
  - intros st1 obj st2 Hst E. unfold parse_object in E.
    apply outcome_bind_inv in E as (i & _ & E). destruct (Z.leb_spec i 0); [by injection E as <-|].
    apply outcome_bind_inv in E as (b & _ & E). injection E as <-. by apply add_object_consistent.
  - by constructor; [constructor..| |].
Qed.

(** ** [root_object_infos] *)

Lemma insert_index_perm {A} (kv : Z * A) l : insert_index kv l ≡ₚ kv :: l.
Proof.
  induction l as [|kv' l IH]; [done|]. cbn [insert_index]. destruct (kv.1 <=? kv'.1); [done|].
  rewrite IH. by constructor.
Qed.

Lemma sort_index_perm {A} (l : list (Z * A)) : sort_index l ≡ₚ l.
Proof. induction l as [|kv l IH]; [done|]. cbn. by rewrite insert_index_perm, IH. Qed.

Lemma insert_index_sorted {A} (kv : Z * A) l :
  StronglySorted Z.lt l.*1 → kv.1 ∉ l.*1 → StronglySorted Z.lt (insert_index kv l).*1.
Proof.
  induction l as [|kv' l IH]; intros Hl Hk; [by repeat constructor|].
  cbn [insert_index fmap list_fmap] in *. apply StronglySorted_inv in Hl as [Hs Hall].
  apply not_elem_of_cons in Hk as [Hk1 Hk2].
  destruct (Z.leb_spec kv.1 kv'.1); cbn.
  - constructor; [by constructor|]. constructor; [lia|]. eapply Forall_impl; [exact Hall|]. cbn. lia.
  - constructor; [by apply IH|]. change (insert_index kv l).*1 with (fst <$> insert_index kv l).
    rewrite insert_index_perm. constructor; [lia|done].
Qed.

Lemma sort_index_sorted {A} (l : list (Z * A)) :
  NoDup l.*1 → StronglySorted Z.lt (sort_index l).*1.
Proof.
  induction l as [|kv l IH]; intros Hd; [constructor|]. apply NoDup_cons in Hd as [H1 H2].
  change (sort_index (kv :: l)) with (insert_index kv (sort_index l)).
  apply insert_index_sorted; [by apply IH|]. by rewrite sort_index_perm.
Qed.

(** C31. Reading an ESI tree gives consistent tables.  The roots are listed once, in
    the order of their indices; a root is found under subindex 0 when it has
    no subitems, and otherwise the last of its subitems with a subindex is
    found there, under the name and type of the subitem, with the access of the
    root where it has none; what is found under an index belongs to the root
    of that index. *)
Theorem catalog_consistent v root c :
  parse_cmmt_esi_catalog v root = Ret c →
  StronglySorted Z.lt (map Obj.index (root_object_infos c))
  ∧ (∀ info, info ∈ root_object_infos c →
      0 < Obj.index info
      ∧ (Obj.subitems info = [] → catalog_object_info c (Obj.index info) 0 = Ret info)
      ∧ ∀ l1 s l2, Obj.subitems info = l1 ++ s :: l2 → Sub.subindex s ∉ map Sub.subindex l2 →
          catalog_object_info c (Obj.index info) (Sub.subindex s)
          = Ret (Obj.Make (Obj.index info) (Sub.name s) (Sub.data_type s) (Sub.bit_size s)
                   (or_text (Sub.access s) (Obj.access info)) []))
  ∧ ∀ i s o, catalog_object_info c i s = Ret o →
      Obj.index o = i ∧ ∃ info, info ∈ root_object_infos c ∧ Obj.index info = i.
Proof.
  intros E. unfold parse_cmmt_esi_catalog in E.
  do 2 (apply outcome_bind_inv in E as (? & _ & E)).
  apply outcome_bind_inv in E as (dts & _ & E). apply outcome_bind_inv in E as (st & Hst & E).
  apply parse_objects_consistent in Hst as [H1 H2 H3 H4].
  do 4 (apply outcome_bind_inv in E as (? & _ & E)). injection E as <-.
  assert (∀ info, info ∈ (sort_index st.1).*2 ↔ dict_get (Obj.index info) st.1 = Some info) as Hin.
  { intros info. rewrite sort_index_perm. split.
    - intros ([i o] & -> & Ho)%list_elem_of_fmap. cbn. pose proof (dict_get_in i o st.1 H1 Ho) as Hg.
      destruct (H3 i o Hg) as (_ & Hi & _). by rewrite Hi.
    - intros Hg. apply dict_get_elem in Hg. by apply (list_elem_of_fmap_2 snd) in Hg. }
  unfold root_object_infos, catalog_object_info. cbn [root_objects objects]. split_and!.
  - assert (map Obj.index (sort_index st.1).*2 = (sort_index st.1).*1) as ->; [|by apply sort_index_sorted].
    change (Obj.index <$> (snd <$> sort_index st.1) = fst <$> sort_index st.1).
    rewrite <-list_fmap_compose. apply list_fmap_ext. intros k [i o] Hk. cbn.
    apply list_elem_of_lookup_2 in Hk. rewrite sort_index_perm in Hk.
    by destruct (H3 i o (dict_get_in i o st.1 H1 Hk)) as (_ & Hi & _).
  - intros info Hi. apply Hin in Hi. destruct (H3 _ _ Hi) as (Ha & _ & Hc & Hd). split_and!; [done| |].
    + intros Hs. by rewrite Hc.
    + intros l1 s l2 Hs Hl. by rewrite (Hd _ _ _ Hs Hl).
  - intros i s o Ho. destruct (dict_get (i, s) st.2) as [o'|] eqn:Hg; [|done]. injection Ho as ->.
    destruct (H4 i s o Hg) as [Hi [info Hr]]. split; [done|].
    destruct (H3 i info Hr) as (_ & Hx & _). exists info. split; [|done]. apply Hin. by rewrite Hx.
Qed.

(** An ESI tree with a record type, an array type and an object of each. *)
Definition esi_leaf (t x : string) : element := Element t [] x "" [].
Definition esi_node (t : string) (cs : list element) : element := Element t [] "" "" cs.

Definition sample_esi : element :=
  esi_node "EtherCATInfo" [esi_node "Device"
    [Element "Type" [("ProductCode", "#x007B1B55"); ("RevisionNo", "36120")] "CMMT-AS" "" [];
     esi_node "DataTypes"
       [esi_node "DataType" [esi_leaf "Name" "ARRAY [1..2] OF UINT"; esi_leaf "BaseType" "UINT";
          esi_leaf "BitSize" "32";
          esi_node "ArrayInfo" [esi_leaf "LBound" "1"; esi_leaf "Elements" "2"]];
        esi_node "DataType" [esi_leaf "Name" "DT2194"; esi_leaf "BitSize" "48";
          esi_node "SubItem" [esi_leaf "SubIdx" "0"; esi_leaf "Name" "Count"; esi_leaf "Type" "USINT";
            esi_leaf "BitSize" "8"; esi_leaf "BitOffs" "0"];
          esi_node "SubItem" [esi_leaf "Name" "Unit"; esi_leaf "Type" "ARRAY [1..2] OF UINT";
            esi_leaf "BitOffs" "16"; esi_node "Flags" [esi_leaf "Access" "RW"]]]];
     esi_node "Objects"
       [esi_node "Object" [esi_leaf "Index" "#x6041"; esi_leaf "Name" "Statusword";
          esi_leaf "Type" "UINT"; esi_leaf "BitSize" "16"];
        esi_node "Object" [esi_leaf "Index" "#x2194"; esi_leaf "Name" "Units";
          esi_leaf "Type" "DT2194"; esi_leaf "BitSize" "48";
          esi_node "Flags" [esi_leaf "Access" " ro "]]]]].

Definition sample_catalog : outcome catalog := parse_cmmt_esi_catalog "as" sample_esi.

Example sample_objects :
  match sample_catalog with
  | Ret c => map (λ kv, (kv.1, Obj.name kv.2, Obj.access kv.2)) (objects c)
  | Raise _ => []
  end
  = [((0x6041, 0), "Statusword", ""); ((0x2194, 0), "Count", "ro");
     ((0x2194, 1), "Unit 001", "rw"); ((0x2194, 2), "Unit 002", "rw")].
Proof. vm_compute. reflexivity. Qed.

Lemma catalog_consistent_witness :
  match sample_catalog with
  | Ret c => map Obj.index (root_object_infos c) = [0x2194; 0x6041]
      ∧ StronglySorted Z.lt (map Obj.index (root_object_infos c))
  | Raise _ => False
  end.
Proof.
  assert (match sample_catalog with
    | Ret c => map Obj.index (root_object_infos c) = [0x2194; 0x6041]
    | Raise _ => False end) as H by (vm_compute; reflexivity).
  pose proof (catalog_consistent "as" sample_esi) as Hc. fold sample_catalog in Hc.
  destruct sample_catalog as [c|]; [|exact H]. split; [exact H|]. exact (proj1 (Hc c eq_refl)).
Defined.
