(* ===== verification/Description.v ===== *)
(** * The device description

    The constructor of src/device_descriptions/cmmt_as/description.py
    ([CmmtAsDescription]) and [create_adapter] of
    src/functional_model/cia402_drive/adapter/registry.py on it: what a
    mode and the ESI file of the device come to.

    The contents of identity.json and extensions.json are data, the tables of
    Profile.v; the ESI file is its element tree.

    The theorem: an adapter is created only for the mode, the type and the
    identity the program knows, and its profile holds the objects of the ESI
    file. *)

From S2P Require Import Prelude PyFloat.
From S2P Require Export Catalog Adapter.

Open Scope string_scope.
Open Scope list_scope.
Open Scope Z_scope.

(** identity.json *)
Definition identity_product_code : Z := 8067733.
Definition identity_revision : Z := 36120.

(** [text.replace('#x', '0x')] *)
Fixpoint replace_hex_prefix (s : string) : string :=
  match s with
  | String.String "#" ((String.String "x" s) as _) => String.String "0" (String.String "x" (replace_hex_prefix s))
  | String.String a s => String.String a (replace_hex_prefix s)
  | EmptyString => EmptyString
  end.

(** [int(tree.findtext('Vendor/Id').replace('#x', '0x'), 0)] *)
Definition vendor_id (esi : element) : outcome Z :=
  e ← of_option AttributeError (find2 "Vendor" "Id" esi);
  of_option ValueError (int_text 0 (replace_hex_prefix (text e))).

(** [CmmtAsDescription(mode)], with the vendor *)
Definition CmmtAsDescription (esi : element) (mode : string) : outcome (Z * description) :=
  if negb (bool_decide (mode ∈ ["linear"; "rotary"])) then Raise ValueError
  else
    c ← parse_cmmt_esi_catalog "as" esi;
    if negb (bool_decide ((product_code c, revision c) = (identity_product_code, identity_revision)))
    then Raise ValueError
    else
      v ← vendor_id esi;
      mret (v, Description (catalog_items c) (if String.eqb mode "linear" then linear_mm else rotary_deg)
                 cmmt_roles cmmt_role_order cmmt_persistent_roles).

(** [create_adapter(device)] *)
Definition create_device {C} (esi : element) (device_type model_type mode : string)
    (open_copley : profile → outcome C) : outcome (FKrCmmtAdapter + C) :=
  create_adapter device_type model_type standard_roles (d ← CmmtAsDescription esi mode; mret d.2) open_copley.

Lemma dict_get_map {K V W} `{EqDecision K} (f : V → W) (l : list (K * V)) k :
  dict_get k (map (λ kv, (kv.1, f kv.2)) l) = f <$> dict_get k l.
Proof. induction l as [|[k' v] l IH]; [done|]. cbn. by case_decide. Qed.

(** What an accepted description is. *)
Lemma description_inv esi mode v d :
  CmmtAsDescription esi mode = Ret (v, d) →
  ∃ c, parse_cmmt_esi_catalog "as" esi = Ret c
    ∧ product_code c = identity_product_code ∧ revision c = identity_revision
    ∧ d_catalog d = catalog_items c
    ∧ (mode = "linear" ∧ d_parameters d = linear_mm ∨ mode = "rotary" ∧ d_parameters d = rotary_deg).
Proof.
  unfold CmmtAsDescription. case_bool_decide as Hm; [|done]. cbn [negb]. intros E.
  apply outcome_bind_inv in E as (c & Hc & E). case_bool_decide as Hid; [|done]. cbn [negb] in E.
  apply outcome_bind_inv in E as (v' & _ & [= _ <-]). injection Hid as Hp Hr.
  exists c. split_and!; try done. cbn.
  apply elem_of_cons in Hm as [->|Hm]; [by left|]. apply list_elem_of_singleton in Hm as ->. by right.
Qed.

(** The adapter of a device is made from its ESI file.  An adapter is created
    only for the functional profile, for a mode that is linear or rotary and
    for an ESI file of the device's identity; its profile holds the objects of
    that file and the parameter values of the mode.  For another mode or
    profile the answer is a [ValueError]. *)
Theorem create_device_spec {C} esi device_type model_type mode (open_copley : profile → outcome C) :
  match create_device esi device_type model_type mode open_copley with
  | Ret a => device_type = "cia402-drive" ∧ model_type ∈ ["f_kr_cmmt"; "copley_drive_sim"]
      ∧ ∃ c p, parse_cmmt_esi_catalog "as" esi = Ret c
          ∧ product_code c = identity_product_code ∧ revision c = identity_revision
          ∧ (mode = "linear" ∧ non_pdo_configuration p = Some linear_mm
             ∨ mode = "rotary" ∧ non_pdo_configuration p = Some rotary_deg)
          ∧ (∀ i s o, catalog_object_info c i s = Ret o → object_info (esi_catalog p) i s = Ret (profile_info o))
          ∧ match a with inl a => new_FKrCmmtAdapter p = Ret a | inr a => open_copley p = Ret a end
  | Raise e => device_type ≠ "cia402-drive" ∨ mode ∉ ["linear"; "rotary"] → e = ValueError
  end.
Proof.
  unfold create_device, create_adapter. destruct (String.eqb_spec device_type "cia402-drive") as [Ht|Ht]; [|done].
  cbn [negb]. destruct (CmmtAsDescription esi mode) as [[v d]|e] eqn:Hd; cbn [mbind outcome_bind mret outcome_ret snd].
  2: { intros [?|Hm]; [done|]. unfold CmmtAsDescription in Hd. rewrite bool_decide_false in Hd by done. by injection Hd. }
  apply description_inv in Hd as (c & Hc & Hp & Hr & Hcat & Hmode).
  assert (mode ∈ ["linear"; "rotary"]) as Hin by (destruct Hmode as [[-> _]|[-> _]]; set_solver).
  unfold CiA402DriveProfile.
  destruct (traverse _ (d_role_order d)) as [ordered|e]; cbn [mbind outcome_bind]; [|by intros [?|?]].
  destruct (traverse _ (d_persistent_roles d)) as [persistent|e]; cbn [mbind outcome_bind mret outcome_ret];
    [|by intros [?|?]].
  match goal with |- context [open_copley ?q] => set (p := q) end.
  assert (∀ i s o, catalog_object_info c i s = Ret o → object_info (esi_catalog p) i s = Ret (profile_info o)) as Hobj.
  { intros i s o. unfold catalog_object_info, object_info. cbn [esi_catalog p]. rewrite Hcat. unfold catalog_items.
    rewrite dict_get_map. destruct (dict_get (i, s) (objects c)); [by intros [= ->]|done]. }
  assert (mode = "linear" ∧ non_pdo_configuration p = Some linear_mm
          ∨ mode = "rotary" ∧ non_pdo_configuration p = Some rotary_deg) as Hpar.
  { cbn. by destruct Hmode as [[-> ->]|[-> ->]]; [left|right]. }
  destruct (String.eqb_spec model_type "copley_drive_sim") as [->|Hc'].
  - destruct (open_copley p) as [x|e] eqn:Ho; cbn [mbind outcome_bind mret outcome_ret]; [|by intros [?|?]].
    split; [done|]. split; [set_solver|]. exists c, p. by split_and!.
  - destruct (String.eqb_spec model_type "f_kr_cmmt") as [->|Hf]; cbn [negb]; [|by intros [?|?]].
    destruct (new_FKrCmmtAdapter p) as [x|e] eqn:Ho; cbn [mbind outcome_bind mret outcome_ret]; [|by intros [?|?]].
    split; [done|]. split; [set_solver|]. exists c, p. by split_and!.
Qed.
