(* ===== verification/Fixture.v ===== *)
(** * The generated ESI file

    src/device_descriptions/cmmt_as/fixture.py ([generate_fixture]): the ESI
    file of the software model, made from the contract that the model
    describes.  [fixture_tree] is the element tree the program builds with
    [child], [generate_fixture] the indented tree it writes as cmmt.xml; the
    identity of the device (vendor, product, revision) is an argument, since
    [contract] of Axis.v does not hold it. *)

From coqutil Require Import Word.LittleEndianList.
From S2P Require Import Prelude PyFloat.
From S2P Require Export Axis Esi.

Open Scope string_scope.
Open Scope list_scope.
Open Scope Z_scope.

(** ** Texts *)

(** [f'#x{n:0<width>X}'] *)
Definition fmt_HEX (width n : Z) : string := Text.upper (fmt_hex width n).
Definition hex_text (width n : Z) : string := ("#x" ++ fmt_HEX width n)%string.

(** [child] with a value, and an element with children. *)
Definition leaf (name value : string) : element := Element name [] value "" [].
Definition node (name : string) (attrs : list (string * string)) (cs : list element) : element :=
  Element name attrs "" "" cs.

(** ** The entries of the dictionary *)

Abbreviation entry := ((Z * Z) * AxisEntry.t)%type.
Abbreviation pdo_entry := (Z * Z * Z * string * string)%type.

(** [value] *)
Definition value (index sub : Z) (name typ : string) (bits number : Z) : outcome entry :=
  if (0 <=? number) && (number <? 2 ^ (8 * (bits / 8))) then
    Ret ((index, sub), AxisEntry.Make name typ bits "ro" (hex (le_split (Z.to_nat (bits / 8)) number)))
  else Raise OverflowError.

Abbreviation entry_groups := (list (Z * list entry)).

(** [groups.setdefault(entry['index'], []).append(entry)] *)
Definition add_entry (groups : entry_groups) (e : entry) : entry_groups :=
  dict_set e.1.1 (default [] (dict_get e.1.1 groups) ++ [e]) groups.

Definition mapping_word (e : pdo_entry) : Z :=
  let '(index, subindex, bits, _, _) := e in
  Z.lor (Z.lor (Z.shiftl index 16) (Z.shiftl subindex 8)) bits.

(** The mapping object of a PDO and its assignment to a sync manager. *)
Definition mapping_group (index : Z) (es : list pdo_entry) : outcome (list entry) :=
  count ← value index 0 "Count" "USINT" 8 (Z.of_nat (length es));
  words ← traverse (λ '(sub, e), value index sub ("Mapping " ++ str_Z sub) "UDINT" 32 (mapping_word e))
    (imap (λ k e, (Z.of_nat k + 1, e)) es);
  mret (count :: words).

Definition assignment_group (assignment index : Z) : outcome (list entry) :=
  count ← value assignment 0 "Count" "USINT" 8 1;
  pdo ← value assignment 1 "PDO" "UINT" 16 index;
  mret [count; pdo].

Definition identity_group (vendor product revision : Z) : outcome (list entry) :=
  count ← value 0x1018 0 "Count" "USINT" 8 4;
  words ← traverse (λ '(i, n, v), value 0x1018 i n "UDINT" 32 v)
    [(1, "Vendor", vendor); (2, "Product", product); (3, "Revision", revision); (4, "Serial", 1)];
  mret (count :: words).

Definition sync_group : outcome (list entry) :=
  traverse (λ '(i, v), value 0x1C00 i ("SM" ++ str_Z i) "USINT" 8 v)
    [(0, 4); (1, 1); (2, 2); (3, 3); (4, 4)].

(** The communication objects, in the order they are set. *)
Definition communication_groups (spec : contract) (vendor product revision : Z)
    : outcome entry_groups :=
  g1000 ← value 0x1000 0 "Device type" "UDINT" 32 402;
  g1018 ← identity_group vendor product revision;
  g1C00 ← sync_group;
  g1600 ← mapping_group 0x1600 (c_rx spec);
  g1C12 ← assignment_group 0x1C12 0x1600;
  g1A00 ← mapping_group 0x1A00 (c_tx spec);
  g1C13 ← assignment_group 0x1C13 0x1A00;
  mret [(0x1000, [g1000]); (0x1018, g1018); (0x1C00, g1C00); (0x1600, g1600); (0x1C12, g1C12);
        (0x1A00, g1A00); (0x1C13, g1C13)].

Definition fixture_groups (spec : contract) (vendor product revision : Z) : outcome entry_groups :=
  communication ← communication_groups spec vendor product revision;
  mret (foldl (λ d kv, dict_set kv.1 kv.2 d) (foldl add_entry [] (c_entries spec)) communication).

(** [sorted(..., key=...)]: insertion keeps equal keys in their order. *)
Fixpoint insert_by {A} (key : A → Z) (x : A) (l : list A) : list A :=
  match l with
  | [] => [x]
  | y :: l' => if key x <=? key y then x :: l else y :: insert_by key x l'
  end.

Definition sort_by {A} (key : A → Z) (l : list A) : list A := foldr (insert_by key) [] l.

(** ** The elements *)

Definition base_types : list (string * Z) :=
  [("USINT", 8); ("SINT", 8); ("UINT", 16); ("INT", 16); ("UDINT", 32); ("DINT", 32); ("REAL", 32)].

Definition access_or_ro (e : entry) : string :=
  if String.eqb (AxisEntry.access e.2) "" then "ro" else AxisEntry.access e.2.

Definition flags (e : entry) : element := node "Flags" [] [leaf "Access" (access_or_ro e)].
Definition default_data (e : entry) : element := leaf "DefaultData" (AxisEntry.initial e.2).

Definition base_type_element (t : string * Z) : element :=
  node "DataType" [] [leaf "Name" t.1; leaf "BitSize" (str_Z t.2)].

Definition object_head (index : Z) (cs : list element) : element :=
  node "Object" [] (leaf "Index" (hex_text 4 index)
    :: leaf "Name" ("Simulator object " ++ fmt_HEX 4 index) :: cs).

(** An object without subindices. *)
Definition plain_object (index : Z) (e : entry) : element :=
  object_head index
    [leaf "Type" (AxisEntry.type e.2); leaf "BitSize" (str_Z (AxisEntry.bits e.2));
     node "Info" [] [default_data e]; flags e].

(** The entries with their bit offsets: the count takes 16 bits. *)
Fixpoint with_offsets (offset : Z) (es : list entry) : list (entry * Z) :=
  match es with
  | [] => []
  | e :: es =>
      (e, offset) :: with_offsets (if e.1.2 =? 0 then 16 else offset + AxisEntry.bits e.2) es
  end.

Definition sub_name (e : entry) : string :=
  ("Sub " ++ str_Z e.1.2 ++ " " ++ AxisEntry.name e.2)%string.

Definition sub_item (eo : entry * Z) : element :=
  let '(e, offset) := eo in
  node "SubItem" []
    [leaf "SubIdx" (str_Z e.1.2); leaf "Name" (sub_name e); leaf "Type" (AxisEntry.type e.2);
     leaf "BitSize" (str_Z (AxisEntry.bits e.2)); leaf "BitOffs" (str_Z offset); flags e].

Definition info_item (e : entry) : element :=
  node "SubItem" [] [leaf "Name" (sub_name e); node "Info" [] [default_data e]].

Definition sim_type (index : Z) : string := ("SIM_" ++ fmt_HEX 4 index)%string.

Definition total_bits (es : list entry) : Z :=
  16 + foldr Z.add 0 (map (λ e, AxisEntry.bits e.2) (List.tl es)).

Definition record_type (index : Z) (es : list entry) : element :=
  node "DataType" [] (leaf "Name" (sim_type index) :: leaf "BitSize" (str_Z (total_bits es))
    :: map sub_item (with_offsets 0 es)).

Definition record_object (index : Z) (es : list entry) : element :=
  object_head index
    [leaf "Type" (sim_type index); leaf "BitSize" (str_Z (total_bits es));
     node "Info" [] (map info_item es)].

(** [max(e['subindex'] for e in entries)] *)
Definition max_subindex (e : entry) (es : list entry) : Z := foldr Z.max e.1.2 (map (λ e, e.1.2) es).

Definition single (es : list entry) : option entry :=
  match es with
  | [e] => if e.1.2 =? 0 then Some e else None
  | _ => None
  end.

(** The count in front of the entries, unless they have it. *)
Definition with_count (index : Z) (es : list entry) : outcome (list entry) :=
  match es with
  | [] => Raise IndexError
  | e :: es' =>
      if e.1.2 =? 0 then mret es
      else count ← value index 0 "Count" "USINT" 8 (max_subindex e es'); mret (count :: es)
  end.

(** One turn of the loop over the groups: the data types it adds, the object. *)
Definition group_elements (group : Z * list entry) : outcome (list element * element) :=
  let '(index, es) := group in
  let es := sort_by (λ e, e.1.2) es in
  match single es with
  | Some e => mret ([], plain_object index e)
  | None => es ← with_count index es; mret ([record_type index es], record_object index es)
  end.

Definition pdo_element (t : string) (index sm : Z) (es : list pdo_entry) : element :=
  node t [("Fixed", "1"); ("Mandatory", "1"); ("Sm", str_Z sm)]
    (leaf "Index" (hex_text 4 index) :: leaf "Name" t
     :: map (λ '(i, s, b, n, ty), node "Entry" []
          [leaf "Index" (hex_text 4 i); leaf "SubIndex" (str_Z s); leaf "BitLen" (str_Z b);
           leaf "Name" n; leaf "DataType" ty]) es).

Definition sm_element (t : string * Z * Z * Z) : element :=
  let '(name, size, address, control) := t in
  Element "Sm" [("DefaultSize", str_Z size); ("StartAddress", hex_text 4 address);
    ("ControlByte", hex_text 2 control); ("Enable", "1")] name "" [].

Definition device_element (spec : contract) (product revision : Z)
    (types objects : list element) : element :=
  node "Device" [("Physics", "YY")]
    ([Element "Type" [("ProductCode", hex_text 8 product); ("RevisionNo", hex_text 8 revision)]
        "CMMT_AS_SIM" "" [];
      leaf "Name" "CMMT-AS software model (limited test fixture)"; leaf "GroupType" "CMMT_SIM";
      node "Profile" [] [leaf "ProfileNo" "402";
        node "Dictionary" [] [node "DataTypes" [] (map base_type_element base_types ++ types);
          node "Objects" [] objects]];
      leaf "Fmmu" "Outputs"; leaf "Fmmu" "Inputs"]
     ++ map sm_element [("MBoxOut", 128, 0x1000, 0x26); ("MBoxIn", 128, 0x1400, 0x22);
          ("Outputs", c_rx_size spec, 0x1800, 0x64); ("Inputs", c_tx_size spec, 0x1C00, 0x20)]
     ++ [pdo_element "RxPdo" 0x1600 2 (c_rx spec); pdo_element "TxPdo" 0x1A00 3 (c_tx spec);
         node "Mailbox" [("DataLinkLayer", "true")] [node "CoE" [("SdoInfo", "true");
           ("CompleteAccess", "true"); ("PdoAssign", "false"); ("PdoConfig", "false")] []];
         node "Eeprom" [] [leaf "ByteSize" "2048"; leaf "ConfigData" "8002006EFF00FF000000"]]).

(** The tree of the ESI file. *)
Definition fixture_tree (spec : contract) (vendor product revision : Z) : outcome element :=
  groups ← fixture_groups spec vendor product revision;
  parts ← traverse group_elements (sort_by fst groups);
  let device := device_element spec product revision (concat parts.*1) parts.*2 in
  mret (node "EtherCATInfo" [("Version", "1.6")]
    [node "Vendor" [] [leaf "Id" (hex_text 8 vendor);
       leaf "Name" "Festo identity - simulation test fixture"];
     node "Descriptions" []
       [node "Groups" [] [node "Group" [] [leaf "Type" "CMMT_SIM"; leaf "Name" "CMMT simulation"]];
        node "Devices" [] [device]]]).

(** [generate_fixture(model, destination)]: what is written to cmmt.xml *)
Definition generate_fixture (spec : contract) (vendor product revision : Z) : outcome element :=
  tree ← fixture_tree spec vendor product revision; mret (indent tree).
