(* ===== verification/FixtureProps.v ===== *)
(** * The generated ESI file describes the contract

    [fixture_read_back]: the ESI tree that fixture.py generates for a contract, read
    with catalog.py, has every object of the contract with its data type, its
    size and its access, the identity of the device and the mapping words of
    both PDOs.

    The file is followed element by element: what the reader finds in an
    indented element is what the generator put there ([reindented] of
    Esi.v). *)

From coqutil Require Import Word.LittleEndianList.
From Stdlib Require Import Permutation Sorting.Sorted.
From S2P Require Import Prelude PyFloat.
From S2P Require Export CatalogProps Fixture.

Open Scope string_scope.
Open Scope list_scope.
Open Scope Z_scope.

(** ** Look-ups in an indented element *)

Lemma reindented_findall t e e' :
  reindented e e' → Forall2 reindented (findall t e) (findall t e').
Proof. intros []. by apply reindented_filter. Qed.

Lemma Forall2_head {A} (R : A → A → Prop) l l' :
  Forall2 R l l' → match head l with
    | Some a => ∃ b, head l' = Some b ∧ R a b
    | None => head l' = None
    end.
Proof. intros []; cbn; eauto. Qed.

Lemma reindented_find t e e' c :
  reindented e e' → find t e = Some c → ∃ c', find t e' = Some c' ∧ reindented c c'.
Proof. intros H Hc. apply (reindented_findall t), Forall2_head in H. unfold find in *. by rewrite Hc in H. Qed.

Lemma reindented_missing t e e' : reindented e e' → find t e = None → find t e' = None.
Proof. intros H Hc. apply (reindented_findall t), Forall2_head in H. unfold find in *. by rewrite Hc in H. Qed.

Lemma reindented_text t e e' n v :
  reindented e e' → find t e = Some (leaf n v) → xml_text (find t e') = Text.strip v.
Proof.
  intros H Hc. destruct (reindented_find _ _ _ _ H Hc) as (c' & -> & Hl).
  apply reindented_leaf in Hl as (y' & ->). apply xml_text_leaf.
Qed.

Lemma reindented_access e e' v :
  reindented e e' → find2 "Flags" "Access" e = Some (leaf "Access" v) →
  access_text e' = Text.lower (Text.strip (Text.strip v)).
Proof.
  intros H Hc. unfold access_text. assert (Forall2 reindented (findall2 "Flags" "Access" e)
    (findall2 "Flags" "Access" e')) as Hf.
  { unfold findall2. apply (reindented_findall "Flags") in H. clear Hc.
    induction H as [|c c' l l' Hr H IH]; [constructor|]. cbn [flat_map].
    apply Forall2_app; [by apply reindented_findall|done]. }
  apply Forall2_head in Hf. unfold find2 in *. rewrite Hc in Hf. destruct Hf as (c' & -> & Hl).
  apply reindented_leaf in Hl as (y' & ->). by rewrite xml_text_leaf.
Qed.

Lemma reindented_no_access e e' :
  reindented e e' → find "Flags" e = None → access_text e' = "".
Proof.
  intros H Hc. unfold access_text, find2, findall2. apply (reindented_findall "Flags") in H.
  unfold find in Hc. destruct (findall "Flags" e); [|done]. by apply Forall2_nil_inv_l in H as ->.
Qed.

Lemma hex_text_unspaced width n : 0 ≤ n → unspaced (hex_text width n) = true.
Proof.
  intros Hn. assert (all_hex (fmt_HEX width n) = true) as H.
  { unfold fmt_HEX. rewrite all_hex_upper. by apply fmt_hex_hex. }
  exact (hex_unspaced _ H).
Qed.

Lemma str_Z_unspaced n : 0 ≤ n → unspaced (str_Z n) = true.
Proof.
  intros Hn. unfold str_Z. rewrite (proj2 (Z.ltb_ge n 0)) by done.
  by apply hex_unspaced, digits_base_hex.
Qed.

(** The integers of the file. *)
Lemma int_at_hex t e e' n width v :
  reindented e e' → find t e = Some (leaf n (hex_text width v)) → 0 ≤ v → int_at t e' = Ret v.
Proof.
  intros H Hc Hv. unfold int_at. rewrite (reindented_text _ _ _ _ _ H Hc).
  rewrite strip_unspaced by by apply hex_text_unspaced. by apply parse_int_hex.
Qed.

Lemma int_at_dec t e e' n v :
  reindented e e' → find t e = Some (leaf n (str_Z v)) → 0 ≤ v → int_at t e' = Ret v.
Proof.
  intros H Hc Hv. unfold int_at. rewrite (reindented_text _ _ _ _ _ H Hc).
  rewrite strip_unspaced by by apply str_Z_unspaced. by apply parse_int_dec.
Qed.

(** ** Entries and subitems *)

(** An access of the dictionary: lower case, no blanks. *)
Definition access_ok (a : string) : Prop := unspaced a = true ∧ Text.lower a = a.

Record entry_ok (i : Z) (e : entry) : Prop := {
  eo_index : e.1.1 = i;
  eo_subindex : 0 ≤ e.1.2;
  eo_bits : 0 ≤ AxisEntry.bits e.2;
  eo_type : AxisEntry.type e.2 ∈ base_types.*1;
  eo_access : access_ok (AxisEntry.access e.2);
}.

Lemma base_type_unspaced t : t ∈ base_types.*1 → Text.strip t = t.
Proof.
  intros H. apply (bool_decide_eq_true_1 (Text.strip t = t)). revert t H.
  apply Forall_forall. by repeat constructor.
Qed.

Lemma access_text_ok i e e' (x : entry) :
  entry_ok i x → reindented e e' → find2 "Flags" "Access" e = Some (leaf "Access" (access_or_ro x)) →
  access_text e' = access_or_ro x.
Proof.
  intros Hx H Hc. rewrite (reindented_access _ _ _ H Hc).
  assert (access_ok (access_or_ro x)) as [H1 H2].
  { unfold access_or_ro. destruct (String.eqb _ _); [by split|]. by apply (eo_access i x). }
  by rewrite !(strip_unspaced _ H1).
Qed.

(** The subitem of an entry, in the type of a record. *)
Definition entry_sub (eo : entry * Z) : Sub.t :=
  let '(e, offset) := eo in
  Sub.Make e.1.2 (Text.strip (sub_name e)) (AxisEntry.type e.2) (AxisEntry.bits e.2) offset (access_or_ro e).

Lemma parse_sub_item i eo x :
  entry_ok i eo.1 → 0 ≤ eo.2 → reindented (sub_item eo) x →
  parse_data_type_subitem [] x = Ret [entry_sub eo].
Proof.
  destruct eo as [e offset]. cbn [fst snd]. intros He Ho H. unfold parse_data_type_subitem. cbn [dict_get].
  rewrite (int_at_dec "SubIdx" _ _ _ _ H eq_refl (eo_subindex _ _ He)).
  rewrite (int_at_dec "BitSize" _ _ _ _ H eq_refl (eo_bits _ _ He)).
  rewrite (int_at_dec "BitOffs" _ _ _ _ H eq_refl Ho).
  rewrite (reindented_text "Name" _ _ _ _ H eq_refl), (reindented_text "Type" _ _ _ _ H eq_refl).
  rewrite (access_text_ok i _ _ e He H eq_refl), (base_type_unspaced _ (eo_type _ _ He)).
  unfold english_display_name.
  pose proof (reindented_findall "DisplayName" _ _ H) as Hd. change (findall "DisplayName" (sub_item (e, offset))) with (@nil element) in Hd.
  apply Forall2_nil_inv_l in Hd as ->. done.
Qed.

(** ** Data types *)

Lemma filter_tagged t l : Forall (λ e, has_tag t e = true) l → filter (has_tag t) l = l.
Proof.
  induction 1 as [|e l He H IH]; [done|]. rewrite filter_cons, decide_True, IH; [done|].
  by apply Is_true_true.
Qed.

Lemma with_offsets_ok i offset es :
  0 ≤ offset → Forall (entry_ok i) es →
  Forall (λ eo, entry_ok i eo.1 ∧ 0 ≤ eo.2) (with_offsets offset es).
Proof.
  intros Ho H. revert offset Ho. induction H as [|e es He H IH]; intros offset Ho; [constructor|].
  cbn [with_offsets]. constructor; [done|]. apply IH. pose proof (eo_bits _ _ He).
  destruct (e.1.2 =? 0); lia.
Qed.

Lemma with_offsets_entries offset es : (with_offsets offset es).*1 = es.
Proof.
  revert offset. induction es as [|e es IH]; intros offset; [done|]. cbn. by rewrite IH.
Qed.

Definition record_subs (es : list entry) : list Sub.t := map entry_sub (with_offsets 0 es).

Lemma record_subs_index es : map Sub.subindex (record_subs es) = map (λ e, e.1.2) es.
Proof.
  unfold record_subs. rewrite map_map. rewrite <-(with_offsets_entries 0 es) at 2.
  change (((λ x, Sub.subindex (entry_sub x)) <$> with_offsets 0 es)
    = (λ e : entry, e.1.2) <$> (fst <$> with_offsets 0 es)).
  rewrite <-list_fmap_compose. by apply list_fmap_ext; intros ? [? ?].
Qed.

Lemma parse_sub_items i es x t n b :
  Forall (entry_ok i) es →
  reindented (node t [] (leaf "Name" n :: leaf "BitSize" b :: map sub_item (with_offsets 0 es))) x →
  parse_data_type_subitems x [] = Ret (record_subs es).
Proof.
  intros Hes H. unfold parse_data_type_subitems.
  apply (reindented_findall "SubItem") in H. unfold findall at 1 in H. cbn [node children] in H.
  rewrite !filter_cons in H. rewrite !decide_False in H by (intros E; done).
  rewrite filter_tagged in H.
  2: { apply Forall_fmap, Forall_true. by intros [e o]. }
  assert (traverse (parse_data_type_subitem []) (findall "SubItem" x)
    = Ret (map (λ eo, [entry_sub eo]) (with_offsets 0 es))) as ->.
  { apply with_offsets_ok with (offset := 0) in Hes; [|done]. revert H Hes.
    generalize (with_offsets 0 es) (findall "SubItem" x). intros l xs H. 
    revert xs H. induction l as [|eo l IH]; intros xs H Hl.
    - by apply Forall2_nil_inv_l in H as ->.
    - apply Forall2_cons_inv_l in H as (y & ys & Hy & H & ->). apply Forall_cons in Hl as [[H1 H2] Hl].
      cbn [traverse map]. rewrite (parse_sub_item i eo y H1 H2 Hy), (IH ys H Hl). done. }
  cbn. f_equal. unfold record_subs. generalize (with_offsets 0 es). intros l.
  induction l as [|eo l IH]; [done|]. cbn. by rewrite IH.
Qed.

(** The generated element is read as one layout of a name. *)
Definition named (e : element) (spec : string * (Z * list Sub.t)) : Prop :=
  find "ArrayInfo" e = None ∧
  ∀ x dts, reindented e x → parse_data_type [] dts x
    = Ret (dict_set spec.1 (default [] (dict_get spec.1 dts) ++ [spec.2]) dts).

Lemma base_type_named t : t ∈ base_types → named (base_type_element t) (t.1, (t.2, [])).
Proof.
  intros Ht. split; [done|]. intros x dts H. unfold parse_data_type.
  assert (0 ≤ t.2) as Hb by (revert t Ht H; apply (Forall_forall (λ t, reindented (base_type_element t) x → 0 ≤ t.2)); by repeat constructor).
  rewrite (reindented_text "Name" _ _ _ _ H eq_refl).
  rewrite (base_type_unspaced t.1) by by apply (list_elem_of_fmap_2 fst).
  rewrite (int_at_dec "BitSize" _ _ _ _ H eq_refl Hb).
  assert (String.eqb t.1 "" = false) as ->.
  { revert Ht. clear. revert t. apply (Forall_forall (λ t, String.eqb t.1 "" = false)). by repeat constructor. }
  unfold parse_data_type_subitems. apply (reindented_findall "SubItem") in H.
  change (findall "SubItem" (base_type_element t)) with (@nil element) in H.
  by apply Forall2_nil_inv_l in H as ->.
Qed.

Lemma sim_type_unspaced i : 0 ≤ i → Text.strip (sim_type i) = sim_type i.
Proof.
  intros Hi. apply strip_unspaced. pose proof (fmt_hex_hex 4 i Hi) as H.
  rewrite <-all_hex_upper in H. exact (hex_unspaced _ H).
Qed.

Lemma total_bits_ok i es : Forall (entry_ok i) es → 0 ≤ total_bits es.
Proof.
  intros H. unfold total_bits. assert (Forall (entry_ok i) (List.tl es)) as Ht by (destruct H; [constructor|done]).
  assert (0 ≤ foldr Z.add 0 (map (λ e, AxisEntry.bits e.2) (List.tl es))); [|lia].
  induction Ht as [|e l He Ht IH]; cbn; [lia|]. pose proof (eo_bits _ _ He). lia.
Qed.

Lemma record_type_named i es :
  0 ≤ i → Forall (entry_ok i) es →
  named (record_type i es) (sim_type i, (total_bits es, record_subs es)).
Proof.
  intros Hi Hes. split.
  { unfold record_type. rewrite find_children. cbn. induction (with_offsets 0 es) as [|[e o] l IH]; [done|exact IH]. }
  intros x dts H. unfold parse_data_type. cbn [fst snd].
  rewrite (reindented_text "Name" _ _ _ _ H eq_refl), (sim_type_unspaced i Hi).
  rewrite (int_at_dec "BitSize" _ _ _ _ H eq_refl (total_bits_ok i es Hes)).
  change (String.eqb (sim_type i) "") with false. cbv iota. cbn [mbind outcome_bind].
  by rewrite (parse_sub_items i es x "DataType" _ _ Hes H).
Qed.

(** An element without a name adds no type. *)
Lemma parse_nameless e x dts :
  find "Name" e = None → reindented e x → parse_data_type [] dts x = Ret dts.
Proof. intros He H. unfold parse_data_type. by rewrite (reindented_missing _ _ _ H He). Qed.

Lemma fold_named es specs xs dts :
  Forall2 named es specs → Forall2 reindented es xs → NoDup (dts.*1 ++ specs.*1) →
  fold_outcome (parse_data_type []) dts xs = Ret (dts ++ map (λ s, (s.1, [s.2])) specs).
Proof.
  intros Hn. revert xs dts. induction Hn as [|e s es specs [_ He] Hn IH]; intros xs dts Hx Hd.
  { apply Forall2_nil_inv_l in Hx as ->. by rewrite app_nil_r. }
  apply Forall2_cons_inv_l in Hx as (x & xs' & Hex & Hx & ->). cbn [fold_outcome].
  cbn [fmap list_fmap] in Hd.
  assert (s.1 ∉ dts.*1) as Hs.
  { apply NoDup_app in Hd as (_ & H & _). intros Hin. apply (H _ Hin). by constructor. }
  rewrite (He x dts Hex), dict_get_none, dict_set_new by done. cbn [default mbind outcome_bind app].
  rewrite (IH xs' (dts ++ [(s.1, [s.2])]) Hx).
  - by rewrite <-app_assoc.
  - rewrite fmap_app. cbn [fmap list_fmap fst]. by rewrite <-app_assoc.
Qed.

Lemma fold_nameless es xs dts :
  Forall (λ e, find "Name" e = None) es → Forall2 reindented es xs →
  fold_outcome (parse_data_type []) dts xs = Ret dts.
Proof.
  intros Hn H. revert Hn. induction H as [|e x es xs He H IH]; intros Hn; [done|].
  apply Forall_cons in Hn as [Hx Hn]. cbn [fold_outcome]. rewrite (parse_nameless e x dts Hx He). by apply IH.
Qed.

Lemma no_array_types es xs :
  Forall (λ e, find "ArrayInfo" e = None) es → Forall2 reindented es xs →
  fold_outcome parse_array_data_type [] xs = Ret [].
Proof.
  intros Hn H. revert Hn. induction H as [|e x es xs He H IH]; intros Hn; [done|].
  apply Forall_cons in Hn as [Hx Hn]. cbn [fold_outcome]. unfold parse_array_data_type.
  rewrite (reindented_missing _ _ _ He Hx). by apply IH.
Qed.

(** ** Objects *)

(** The elements of a group of entries, the count included. *)
Definition group_part (g : Z * list entry) : list element * element :=
  match single g.2 with
  | Some e => ([], plain_object g.1 e)
  | None => ([record_type g.1 g.2], record_object g.1 g.2)
  end.

Record group_ok (g : Z * list entry) : Prop := {
  go_index : 0 < g.1;
  go_entries : Forall (entry_ok g.1) g.2;
  go_once : NoDup (map (λ e, e.1.2) g.2);
}.

(** What the reader makes of it. *)
Definition object_name (i : Z) : string := Text.strip ("Simulator object " ++ fmt_HEX 4 i).

Definition group_object (g : Z * list entry) : Obj.t :=
  match single g.2 with
  | Some e => Obj.Make g.1 (object_name g.1) (AxisEntry.type e.2) (AxisEntry.bits e.2) (access_or_ro e) []
  | None => Obj.Make g.1 (object_name g.1) (sim_type g.1) (total_bits g.2) "" (record_subs g.2)
  end.

Definition group_spec (g : Z * list entry) : list (string * (Z * list Sub.t)) :=
  match single g.2 with
  | Some _ => []
  | None => [(sim_type g.1, (total_bits g.2, record_subs g.2))]
  end.

Lemma single_some es e : single es = Some e → es = [e] ∧ e.1.2 = 0.
Proof.
  destruct es as [|e' [|? ?]]; try done. cbn. destruct (Z.eqb_spec e'.1.2 0); [|done]. by intros [= ->].
Qed.

(** The types the objects refer to. *)
Definition knows (dts : type_table) (g : Z * list entry) : Prop :=
  (∀ t, t ∈ base_types → dict_get t.1 dts = Some [(t.2, [])])
  ∧ ∀ s, s ∈ group_spec g → dict_get s.1 dts = Some [s.2].

Lemma plain_subitems t b l o :
  dict_get t l = Some [(b, [])] → ∀ n, object_subitems o t n l = [].
Proof.
  intros E n. unfold object_subitems. rewrite E. cbn [default id].
  assert (List.find (λ c : Z * list Sub.t, same_subitem_names (info_names o) (map Sub.name c.2)) [(b, [])] = None) as ->.
  { cbn [List.find snd map]. unfold same_subitem_names. change (normalized []) with (@nil string).
    by do 2 case_bool_decide. }
  rewrite filter_cons, filter_nil. by case_decide.
Qed.

Lemma record_subitems t b subs l o :
  dict_get t l = Some [(b, subs)] → object_subitems o t b l = subs.
Proof.
  intros E. unfold object_subitems. rewrite E. cbn [default id].
  rewrite filter_cons, decide_True by done. by rewrite filter_nil.
Qed.

Lemma parse_group_object g x dts st :
  group_ok g → knows dts g → reindented (group_part g).2 x →
  parse_object dts st x = Ret (add_object (group_object g) st).
Proof.
  intros [Hi He _] [Hb Hs] H. unfold parse_object, group_part, group_object, group_spec in *.
  destruct (single g.2) as [e|] eqn:E; cbn [snd] in H.
  - apply single_some in E as [E _]. rewrite E in He. apply Forall_cons in He as [He _].
    rewrite (int_at_hex "Index" _ _ _ _ _ H eq_refl) by lia. cbn [mbind outcome_bind].
    rewrite (proj2 (Z.leb_gt g.1 0)) by done.
    rewrite (int_at_dec "BitSize" _ _ _ _ H eq_refl (eo_bits _ _ He)). cbn [mbind outcome_bind].
    rewrite (reindented_text "Type" _ _ _ _ H eq_refl), (base_type_unspaced _ (eo_type _ _ He)).
    rewrite (reindented_text "Name" _ _ _ _ H eq_refl), (access_text_ok _ _ _ e He H eq_refl).
    pose proof (eo_type _ _ He) as ([t b] & Ht & Hin)%list_elem_of_fmap. cbn in Ht.
    rewrite (plain_subitems _ b); [done|]. rewrite Ht. exact (Hb _ Hin).
  - rewrite (int_at_hex "Index" _ _ _ _ _ H eq_refl) by lia. cbn [mbind outcome_bind].
    rewrite (proj2 (Z.leb_gt g.1 0)) by done.
    rewrite (int_at_dec "BitSize" _ _ _ _ H eq_refl (total_bits_ok _ _ He)). cbn [mbind outcome_bind].
    rewrite (reindented_text "Type" _ _ _ _ H eq_refl), (sim_type_unspaced g.1) by lia.
    rewrite (reindented_text "Name" _ _ _ _ H eq_refl), (reindented_no_access _ _ H eq_refl).
    rewrite (record_subitems _ _ (record_subs g.2)); [done|].
    exact (Hs (sim_type g.1, (total_bits g.2, record_subs g.2)) ltac:(by constructor)).
Qed.

Lemma fold_objects gs xs dts st :
  Forall group_ok gs → Forall (knows dts) gs → Forall2 reindented (map (snd ∘ group_part) gs) xs →
  fold_outcome (parse_object dts) st xs = Ret (foldl (λ st g, add_object (group_object g) st) st gs).
Proof.
  intros Hg Hk. revert xs st. induction Hg as [|g gs Hg Hgs IH]; intros xs st H.
  { by apply Forall2_nil_inv_l in H as ->. }
  apply Forall_cons in Hk as [Hk Hks]. cbn [map] in H.
  apply Forall2_cons_inv_l in H as (x & xs' & Hx & H & ->). cbn [fold_outcome foldl].
  rewrite (parse_group_object g x dts st Hg Hk Hx). by apply IH.
Qed.

Lemma group_object_index g : Obj.index (group_object g) = g.1.
Proof. unfold group_object. by destruct (single g.2). Qed.

Lemma foldl_objects_get gs st i s o :
  i ∉ gs.*1 → dict_get (i, s) st.2 = Some o →
  dict_get (i, s) (foldl (λ st g, add_object (group_object g) st) st gs).2 = Some o.
Proof.
  revert st. induction gs as [|g gs IH]; intros st Hi Ho; [done|].
  cbn [fmap list_fmap] in Hi. apply not_elem_of_cons in Hi as [H1 H2]. cbn [foldl]. apply IH; [done|].
  by rewrite add_object_other by by rewrite group_object_index.
Qed.

(** Every entry of a group is found under its address. *)
Definition read_entry (o : Obj.t) (e : entry) : Prop :=
  Obj.index o = e.1.1 ∧ Obj.data_type o = AxisEntry.type e.2 ∧ Obj.bit_size o = AxisEntry.bits e.2
  ∧ Obj.access o = access_or_ro e ∧ Obj.subitems o = [].

Lemma add_group_get g st e :
  group_ok g → e ∈ g.2 →
  ∃ o, dict_get (g.1, e.1.2) (add_object (group_object g) st).2 = Some o ∧ read_entry o e.
Proof.
  intros [Hi He Hd] Hin. pose proof (proj1 (Forall_forall _ _) He e Hin) as Hok.
  pose proof (group_object_index g) as Hgi. unfold group_object in *.
  destruct (single g.2) as [e'|] eqn:E.
  - apply single_some in E as [E Hz]. rewrite E in Hin. apply list_elem_of_singleton in Hin as ->.
    rewrite Hz. eexists. split; [exact (add_object_plain (Obj.Make g.1 _ _ _ _ []) st eq_refl)|].
    split_and!; cbn; try done. by rewrite (eo_index _ _ Hok).
  - apply list_elem_of_lookup_1 in Hin as [k Hk].
    assert (∃ off, with_offsets 0 g.2 !! k = Some (e, off)) as [off Ho].
    { rewrite <-(with_offsets_entries 0 g.2), list_lookup_fmap in Hk.
      destruct (with_offsets 0 g.2 !! k) as [[e1 off]|]; [|done]. injection Hk as <-. by exists off. }
    assert (record_subs g.2 !! k = Some (entry_sub (e, off))) as Hs.
    { unfold record_subs. change (map entry_sub (with_offsets 0 g.2)) with (entry_sub <$> with_offsets 0 g.2).
      rewrite list_lookup_fmap. by rewrite Ho. }
    apply list_elem_of_lookup_2, list_elem_of_split in Hs as (l1 & l2 & Hs).
    eexists. split.
    + apply (add_object_sub (Obj.Make g.1 _ _ _ _ (record_subs g.2)) st l1 (entry_sub (e, off)) l2 Hs).
      rewrite <-record_subs_index, Hs, map_app in Hd. apply NoDup_app in Hd as (_ & _ & Hd).
      by apply NoDup_cons in Hd as [Hd _].
    + split_and!; cbn; try done; [by rewrite (eo_index _ _ Hok)|].
      unfold or_text. destruct (String.eqb_spec (access_or_ro e) "") as [Hq|]; [|done].
      by rewrite Hq.
Qed.

Lemma foldl_objects_group gs st g e :
  Forall group_ok gs → NoDup gs.*1 → g ∈ gs → e ∈ g.2 →
  ∃ o, dict_get (g.1, e.1.2) (foldl (λ st g, add_object (group_object g) st) st gs).2 = Some o
    ∧ read_entry o e.
Proof.
  intros Hg. revert st. induction Hg as [|g' gs Hg' Hg IH]; intros st Hd Hin He.
  { by apply not_elem_of_nil in Hin. }
  cbn [fmap list_fmap] in Hd. apply NoDup_cons in Hd as [H1 H2]. cbn [foldl].
  apply elem_of_cons in Hin as [->|Hin]; [|by apply IH].
  destruct (add_group_get g' st e Hg' He) as (o & Ho & Hr). exists o. split; [|done].
  by apply foldl_objects_get.
Qed.

(** ** The elements below the root *)

Lemma below_node t e :
  below t e = (if has_tag t e then [e] else []) ++ flat_map (below t) (children e).
Proof. unfold below at 1. by rewrite findall_below_children. Qed.

Lemma flat_map_nil {A B C} (f : B → list C) (g : A → B) l :
  (∀ a, f (g a) = []) → flat_map f (map g l) = [].
Proof. intros H. induction l as [|a l IH]; [done|]. cbn. by rewrite H. Qed.

Lemma flat_map_one {A B C} (f : B → list C) (g : A → B) (h : A → C) l :
  (∀ a, f (g a) = [h a]) → flat_map f (map g l) = map h l.
Proof. intros H. induction l as [|a l IH]; [done|]. cbn. by rewrite H, IH. Qed.

(** The three tags that are searched at any depth. *)
Definition searched (t : string) : Prop := t = "Device" ∨ t = "DataType" ∨ t = "Object".

Lemma below_sub_items t l : searched t → flat_map (below t) (map sub_item l) = [].
Proof. intros Ht. apply flat_map_nil. intros [e o]. by destruct Ht as [->|[->| ->]]. Qed.

Lemma below_info_items t l : searched t → flat_map (below t) (map info_item l) = [].
Proof. intros Ht. apply flat_map_nil. intros e. by destruct Ht as [->|[->| ->]]. Qed.

Lemma below_base_type t p :
  searched t → below t (base_type_element p) = if String.eqb t "DataType" then [base_type_element p] else [].
Proof. intros [->|[->| ->]]; reflexivity. Qed.

Lemma below_record_type t i es :
  searched t → below t (record_type i es) = if String.eqb t "DataType" then [record_type i es] else [].
Proof.
  intros Ht. rewrite below_node. change (children (record_type i es)) with
    ([leaf "Name" (sim_type i); leaf "BitSize" (str_Z (total_bits es))] ++ map sub_item (with_offsets 0 es)).
  rewrite flat_map_app, below_sub_items by done. by destruct Ht as [->|[->| ->]].
Qed.

Lemma below_object t g :
  searched t → below t (group_part g).2 = if String.eqb t "Object" then [(group_part g).2] else [].
Proof.
  intros Ht. unfold group_part. destruct (single g.2) as [e|]; cbn [snd].
  { by destruct Ht as [->|[->| ->]]. }
  rewrite below_node. change (children (record_object g.1 g.2)) with
    ([leaf "Index" (hex_text 4 g.1); leaf "Name" ("Simulator object " ++ fmt_HEX 4 g.1);
      leaf "Type" (sim_type g.1); leaf "BitSize" (str_Z (total_bits g.2))]
     ++ [node "Info" [] (map info_item g.2)]).
  rewrite flat_map_app. cbn [flat_map]. rewrite !(below_node t (node "Info" [] _)).
  change (children (node "Info" [] (map info_item g.2))) with (map info_item g.2).
  rewrite below_info_items by done. by destruct Ht as [->|[->| ->]].
Qed.

(** The types of the PDO entries are elements named [DataType] as well. *)
Definition entry_types (es : list pdo_entry) : list element :=
  map (λ '(_, _, _, _, ty), leaf "DataType" ty) es.

Lemma below_pdo t tag i sm es :
  searched t → tag = "RxPdo" ∨ tag = "TxPdo" →
  below t (pdo_element tag i sm es) = if String.eqb t "DataType" then entry_types es else [].
Proof.
  intros Ht Htag. rewrite below_node.
  assert (has_tag t (pdo_element tag i sm es) = false) as ->
    by by destruct Ht as [->|[->| ->]], Htag as [->| ->].
  unfold pdo_element. cbn [children node flat_map].
  assert (below t (leaf "Index" (hex_text 4 i)) = []) as -> by by destruct Ht as [->|[->| ->]].
  assert (below t (leaf "Name" tag) = []) as -> by by destruct Ht as [->|[->| ->]].
  destruct Ht as [->|[->| ->]]; cbn [app];
    [apply flat_map_nil|apply flat_map_one|apply flat_map_nil]; by intros [[[[] ?] ?] ?].
Qed.

Definition group_types (gs : list (Z * list entry)) : list element :=
  flat_map (λ g, (group_part g).1) gs.

Lemma below_types t gs :
  searched t → flat_map (below t) (group_types gs) = if String.eqb t "DataType" then group_types gs else [].
Proof.
  intros Ht. unfold group_types. induction gs as [|g gs IH]; [by destruct (String.eqb _ _)|].
  cbn [flat_map]. rewrite flat_map_app, IH. unfold group_part. destruct (single g.2); cbn [fst flat_map app].
  - done.
  - rewrite below_record_type by done. by destruct (String.eqb _ _).
Qed.

Section tree.
Context (spec : contract) (vendor product revision : Z) (gs : list (Z * list entry)).

Definition the_device : element :=
  device_element spec product revision (group_types gs) (map (snd ∘ group_part) gs).

Definition the_tree : element :=
  node "EtherCATInfo" [("Version", "1.6")]
    [node "Vendor" [] [leaf "Id" (hex_text 8 vendor);
       leaf "Name" "Festo identity - simulation test fixture"];
     node "Descriptions" []
       [node "Groups" [] [node "Group" [] [leaf "Type" "CMMT_SIM"; leaf "Name" "CMMT simulation"]];
        node "Devices" [] [the_device]]].

Lemma below_dictionary t :
  searched t →
  below t (node "Profile" [] [leaf "ProfileNo" "402"; node "Dictionary" []
    [node "DataTypes" [] (map base_type_element base_types ++ group_types gs);
     node "Objects" [] (map (snd ∘ group_part) gs)]])
  = if String.eqb t "DataType" then map base_type_element base_types ++ group_types gs
    else if String.eqb t "Object" then map (snd ∘ group_part) gs else [].
Proof.
  intros Ht.
  assert (flat_map (below t) (map (snd ∘ group_part) gs)
    = if String.eqb t "Object" then map (snd ∘ group_part) gs else []) as Ho.
  { destruct (String.eqb t "Object") eqn:E.
    - rewrite <-map_id. rewrite map_map. apply flat_map_one. intros g. cbn. by rewrite below_object, E.
    - apply flat_map_nil. intros g. cbn. by rewrite below_object, E. }
  assert (flat_map (below t) (map base_type_element base_types)
    = if String.eqb t "DataType" then map base_type_element base_types else []) as Hb.
  { destruct (String.eqb t "DataType") eqn:E.
    - apply flat_map_one. intros p. by rewrite below_base_type, E.
    - apply flat_map_nil. intros p. by rewrite below_base_type, E. }
  rewrite below_node. cbn [children node flat_map].
  rewrite (below_node t (node "Dictionary" _ _)). cbn [children node flat_map].
  rewrite (below_node t (node "DataTypes" _ _)), (below_node t (node "Objects" _ _)).
  cbn [children node]. rewrite flat_map_app, Ho, Hb, below_types by done.
  destruct Ht as [->|[->| ->]]; cbn -[map group_types base_types]; by rewrite ?app_nil_r.
Qed.

Lemma below_device t :
  searched t →
  findall_below t the_device
  = if String.eqb t "DataType" then (map base_type_element base_types ++ group_types gs)
      ++ entry_types (c_rx spec) ++ entry_types (c_tx spec)
    else if String.eqb t "Object" then map (snd ∘ group_part) gs else [].
Proof.
  intros Ht. rewrite findall_below_children. unfold the_device, device_element. cbn [children node].
  rewrite !flat_map_app. cbn [flat_map]. rewrite (below_dictionary t Ht).
  rewrite !below_pdo by auto.
  destruct Ht as [->|[->| ->]]; cbn -[map group_types base_types entry_types]; by rewrite ?app_nil_r.
Qed.

Lemma below_tree t :
  searched t →
  findall_below t the_tree = (if String.eqb t "Device" then [the_device] else []) ++ findall_below t the_device.
Proof.
  intros Ht. rewrite findall_below_children. unfold the_tree. cbn [children node flat_map].
  rewrite (below_node t (node "Descriptions" _ _)). cbn [children node flat_map].
  rewrite (below_node t (node "Devices" _ _)). cbn [children node flat_map].
  unfold below at 3. destruct Ht as [->|[->| ->]]; cbn -[the_device findall_below]; by rewrite ?app_nil_r.
Qed.
End tree.

(** ** The groups of a contract *)

Lemma insert_by_perm {A} (key : A → Z) x l : insert_by key x l ≡ₚ x :: l.
Proof.
  induction l as [|y l IH]; [done|]. cbn [insert_by]. destruct (key x <=? key y); [done|].
  rewrite IH. by constructor.
Qed.

Lemma sort_by_perm {A} (key : A → Z) l : sort_by key l ≡ₚ l.
Proof. induction l as [|x l IH]; [done|]. cbn. by rewrite insert_by_perm, IH. Qed.

Lemma sort_by_sorted {A} (key : A → Z) l :
  StronglySorted (λ x y, key x ≤ key y) (sort_by key l).
Proof.
  induction l as [|x l IH]; [constructor|]. change (sort_by key (x :: l)) with (insert_by key x (sort_by key l)).
  induction IH as [|y l' Hs IH Hall]; [by repeat constructor|]. cbn [insert_by].
  destruct (Z.leb_spec (key x) (key y)).
  - constructor; [by constructor|]. constructor; [done|]. eapply Forall_impl; [exact Hall|]. cbn. lia.
  - constructor; [done|]. rewrite insert_by_perm. constructor; [lia|done].
Qed.

(** What the generator made for an address. *)
Definition coded (i s : Z) (e : entry) : Prop := e.1 = (i, s) ∧ entry_ok i e.

Lemma value_coded i s n t b num e :
  value i s n t b num = Ret e → 0 ≤ s → 0 ≤ b → t ∈ base_types.*1 → coded i s e ∧ 0 ≤ num.
Proof.
  unfold value. destruct (Z.leb_spec 0 num); [|done]. destruct (num <? _); [|done]. intros [= <-] Hs Hb Ht.
  split; [|done]. split; [done|]. by constructor.
Qed.

Lemma coded_group i subs es :
  0 < i → NoDup subs → Forall2 (coded i) subs es → group_ok (i, es).
Proof.
  intros Hi Hd H. assert (map (λ e, e.1.2) es = subs) as E.
  { clear Hd. induction H as [|s e subs es [He _] H IH]; [done|]. cbn. by rewrite He, IH. }
  constructor; cbn [fst snd]; [done| |by rewrite E].
  clear E Hd. induction H as [|s e subs es [_ He] H IH]; by constructor.
Qed.

Lemma traverse_coded {A} (f : A → outcome entry) (key : A → Z) i l es :
  (∀ a e, a ∈ l → f a = Ret e → coded i (key a) e) → traverse f l = Ret es →
  Forall2 (coded i) (map key l) es.
Proof.
  revert es. induction l as [|a l IH]; intros es Hf E; [by injection E as <-|].
  cbn [traverse] in E. apply outcome_bind_inv in E as (e & He & E).
  apply outcome_bind_inv in E as (es' & Hes & E). injection E as <-. cbn [map]. constructor.
  - apply Hf; [by constructor|done].
  - apply IH; [|done]. intros a' e' Ha. apply Hf. by constructor.
Qed.

Lemma base_type_known t : bool_decide (t ∈ base_types.*1) = true → t ∈ base_types.*1.
Proof. apply bool_decide_eq_true_1. Qed.

(** Every object the generator makes from a value it can encode. *)
Ltac coded_value :=
  match goal with H : value _ _ _ _ _ _ = Ret _ |- _ =>
    apply value_coded in H as [? ?]; [|lia|lia|by apply base_type_known] end.

Lemma mapping_group_ok i es g : 0 < i → mapping_group i es = Ret g → group_ok (i, g).
Proof.
  intros Hi E. unfold mapping_group in E. apply outcome_bind_inv in E as (c & Hc & E).
  apply outcome_bind_inv in E as (ws & Hws & E). injection E as <-. coded_value.
  pose proof (λ H, traverse_coded _ fst i _ _ H Hws) as Hw.
  assert (∀ k s e, imap (λ k e, (Z.of_nat k + 1, e)) es !! k = Some (s, e) → s = Z.of_nat k + 1) as Hk.
  { intros k s e. rewrite list_lookup_imap. destruct (es !! k); [|done]. by intros [= <- _]. }
  apply (coded_group i (0 :: map fst (imap (λ k e, (Z.of_nat k + 1, e)) es))); [done| |].
  - change (map fst ?l) with (fst <$> l). constructor.
    + intros ([s e] & Hs & (k & Hin)%list_elem_of_lookup_1)%list_elem_of_fmap. apply Hk in Hin. cbn in Hs. lia.
    + apply NoDup_alt. intros j k x Hj Hx. rewrite list_lookup_fmap in Hj, Hx.
      destruct (imap _ es !! j) as [[s e]|] eqn:Ej; [|done]. destruct (imap _ es !! k) as [[s' e']|] eqn:Ek; [|done].
      apply Hk in Ej, Ek. cbn in Hj, Hx. injection Hj as <-. injection Hx as Hx. lia.
  - constructor; [done|]. apply Hw. intros [s e] e' (k & Hin)%list_elem_of_lookup_1 Hv.
    apply Hk in Hin. cbn [fst]. by coded_value.
Qed.

Lemma assignment_group_ok a i g : 0 < a → assignment_group a i = Ret g → group_ok (a, g).
Proof.
  intros Ha E. unfold assignment_group in E. apply outcome_bind_inv in E as (c & Hc & E).
  apply outcome_bind_inv in E as (p & Hp & E). injection E as <-. do 2 coded_value.
  apply (coded_group a [0; 1]); [done|by apply (bool_decide_unpack (NoDup [0; 1]))|].
  constructor; [done|]. constructor; [done|]. constructor.
Qed.

Lemma traverse_elem {A B} (f : A → outcome B) l l' a :
  traverse f l = Ret l' → a ∈ l → ∃ b, f a = Ret b.
Proof.
  revert l'. induction l as [|a' l IH]; intros l' E Ha; [by apply not_elem_of_nil in Ha|].
  cbn [traverse] in E. apply outcome_bind_inv in E as (b & Hb & E).
  apply outcome_bind_inv in E as (l1 & Hl & _). apply elem_of_cons in Ha as [->|Ha]; [by exists b|eauto].
Qed.

Lemma identity_group_ok v p r g :
  identity_group v p r = Ret g → group_ok (0x1018, g) ∧ 0 ≤ p ∧ 0 ≤ r.
Proof.
  intros E. unfold identity_group in E. apply outcome_bind_inv in E as (c & Hc & E).
  apply outcome_bind_inv in E as (ws & Hws & E). injection E as <-. coded_value. split.
  - apply (coded_group 0x1018 [0; 1; 2; 3; 4]); [done|by apply (bool_decide_unpack (NoDup [0; 1; 2; 3; 4]))|].
    constructor; [done|]. refine (traverse_coded _ (λ a, a.1.1) _ _ _ _ Hws).
    intros [[i n] w] e Hin Hv. cbn [fst].
    assert (0 ≤ i) by (repeat (apply elem_of_cons in Hin as [[= -> _ _]|Hin]; [done|]); by apply not_elem_of_nil in Hin).
    by coded_value.
  - split.
    + destruct (traverse_elem _ _ _ (2, "Product", p) Hws) as [e He]; [by do 2 constructor|]. by coded_value.
    + destruct (traverse_elem _ _ _ (3, "Revision", r) Hws) as [e He]; [by do 3 constructor|]. by coded_value.
Qed.

Lemma sync_group_ok g : sync_group = Ret g → group_ok (0x1C00, g).
Proof.
  intros E. apply (coded_group 0x1C00 [0; 1; 2; 3; 4]); [done|by apply (bool_decide_unpack (NoDup [0; 1; 2; 3; 4]))|].
  refine (traverse_coded _ fst _ _ _ _ E). intros [i w] e Hin Hv. cbn [fst].
  assert (0 ≤ i) by (repeat (apply elem_of_cons in Hin as [[= -> _]|Hin]; [done|]); by apply not_elem_of_nil in Hin).
  by coded_value.
Qed.

(** The indices of the communication objects. *)
Definition reserved : list Z := [0x1000; 0x1018; 0x1C00; 0x1600; 0x1C12; 0x1A00; 0x1C13].

Lemma communication_groups_ok spec v p r comm :
  communication_groups spec v p r = Ret comm →
  Forall group_ok comm ∧ comm.*1 = reserved ∧ 0 ≤ p ∧ 0 ≤ r.
Proof.
  intros E. unfold communication_groups in E.
  apply outcome_bind_inv in E as (g1 & H1 & E). apply outcome_bind_inv in E as (g2 & H2 & E).
  apply outcome_bind_inv in E as (g3 & H3 & E). apply outcome_bind_inv in E as (g4 & H4 & E).
  apply outcome_bind_inv in E as (g5 & H5 & E). apply outcome_bind_inv in E as (g6 & H6 & E).
  apply outcome_bind_inv in E as (g7 & H7 & E). injection E as <-.
  apply identity_group_ok in H2 as (H2 & Hp & Hr). coded_value.
  assert (group_ok (0x1000, [g1])) as H1'.
  { apply (coded_group 0x1000 [0]); [done|by apply (bool_decide_unpack (NoDup [0]))|].
    constructor; [done|]. constructor. }
  apply sync_group_ok in H3. apply mapping_group_ok in H4; [|done]. apply assignment_group_ok in H5; [|done].
  apply mapping_group_ok in H6; [|done]. apply assignment_group_ok in H7; [|done].
  split; [|split; [reflexivity|by split]].
  repeat (apply List.Forall_cons; [assumption|]). apply List.Forall_nil.
Qed.

(** ** The entries of the contract *)

Definition pdo_ok (e : pdo_entry) : Prop :=
  let '(i, s, b, _, _) := e in
  0 ≤ i ≤ 0xFFFF ∧ 0 ≤ s ≤ 0xFF ∧ 0 ≤ b ≤ 0xFF ∧ (i = 0 → s = 0).

Record contract_ok (spec : contract) : Prop := {
  co_once : NoDup (c_entries spec).*1;
  co_entries : Forall (λ e, 0 < e.1.1 ∧ entry_ok e.1.1 e) (c_entries spec);
  co_rx : Forall pdo_ok (c_rx spec);
  co_tx : Forall pdo_ok (c_tx spec);
}.

Lemma add_entries_get es d i :
  default [] (dict_get i (foldl add_entry d es))
  = default [] (dict_get i d) ++ filter (λ e, e.1.1 = i) es.
Proof.
  revert d. induction es as [|e es IH]; intros d; [by rewrite app_nil_r|].
  cbn [foldl]. rewrite IH. unfold add_entry at 1. rewrite dict_get_set, filter_cons.
  destruct (decide (i = e.1.1)) as [->|Hi].
  - rewrite decide_True by done. cbn. by rewrite <-app_assoc.
  - by rewrite decide_False by done.
Qed.

Lemma add_entries_known es d i g :
  dict_get i (foldl add_entry d es) = Some g →
  is_Some (dict_get i d) ∨ ∃ e, e ∈ es ∧ e.1.1 = i.
Proof.
  revert d. induction es as [|e es IH]; intros d Hg; [left; by exists g|].
  cbn [foldl] in Hg. apply IH in Hg as [[g' Hg]|(e' & He & Hi)].
  - unfold add_entry in Hg. rewrite dict_get_set in Hg. case_decide as E.
    + right. exists e. split; [by constructor|done].
    + left. by exists g'.
  - right. exists e'. split; [by constructor|done].
Qed.

Lemma add_entries_keys es d : NoDup d.*1 → NoDup (foldl add_entry d es).*1.
Proof. revert d. induction es as [|e es IH]; intros d Hd; [done|]. by apply IH, dict_set_keys. Qed.

Lemma entry_group_ok spec i g :
  contract_ok spec → dict_get i (foldl add_entry [] (c_entries spec)) = Some g →
  group_ok (i, g) ∧ g = filter (λ e, e.1.1 = i) (c_entries spec).
Proof.
  intros [Hd He _ _] Hg. pose proof (add_entries_get (c_entries spec) [] i) as Hf. rewrite Hg in Hf.
  cbn [default dict_get app] in Hf. change (id g) with g in Hf. split; [|done].
  apply add_entries_known in Hg as [[? [=]]|(e & Hin & Hi)].
  rewrite Forall_forall in He. pose proof (He e Hin) as [Hpos _]. rewrite Hi in Hpos.
  constructor; cbn [fst snd]; [done| |].
  - rewrite Hf. apply Forall_forall. intros x [Hx Hix]%list_elem_of_filter.
    destruct (He x Hix) as [_ H]. by rewrite Hx in H.
  - rewrite Hf. clear Hf Hin Hi. induction (c_entries spec) as [|x l IH]; [constructor|].
    cbn [fmap list_fmap] in Hd. apply NoDup_cons in Hd as [H1 H2]. rewrite filter_cons.
    assert (∀ y, y ∈ l → 0 < y.1.1 ∧ entry_ok y.1.1 y) as Hl by (intros y Hy; apply He; by constructor).
    case_decide as Hx; [|by apply IH]. cbn [map]. constructor; [|by apply IH].
    intros (y & Hy & [Hiy Hyl]%list_elem_of_filter)%list_elem_of_fmap. apply H1.
    apply list_elem_of_fmap. exists y. split; [|done]. destruct x as [[xi xs] x], y as [[yi ys] y]. cbn in *. congruence.
Qed.

Lemma set_groups_get comm (d : entry_groups) i g :
  dict_get i (foldl (λ d kv, dict_set kv.1 kv.2 d) d comm) = Some g →
  (i, g) ∈ comm ∨ dict_get i d = Some g.
Proof.
  revert d. induction comm as [|kv comm IH]; intros d Hg; [by right|]. cbn [foldl] in Hg.
  apply IH in Hg as [Hg|Hg]; [left; by constructor|]. rewrite dict_get_set in Hg. case_decide as E.
  - left. injection Hg as <-. rewrite E. destruct kv. by constructor.
  - by right.
Qed.

Lemma set_groups_other comm (d : entry_groups) i :
  i ∉ comm.*1 → dict_get i (foldl (λ d kv, dict_set kv.1 kv.2 d) d comm) = dict_get i d.
Proof.
  revert d. induction comm as [|kv comm IH]; intros d Hi; [done|]. cbn [foldl fmap list_fmap] in *.
  apply not_elem_of_cons in Hi as [H1 H2]. rewrite IH by done. rewrite dict_get_set. by case_decide.
Qed.

Lemma set_groups_keys comm (d : entry_groups) :
  NoDup d.*1 → NoDup (foldl (λ d kv, dict_set kv.1 kv.2 d) d comm).*1.
Proof. revert d. induction comm as [|kv comm IH]; intros d Hd; [done|]. by apply IH, dict_set_keys. Qed.

(** The groups of a contract that can be generated. *)
Lemma fixture_groups_ok spec v p r groups :
  contract_ok spec → fixture_groups spec v p r = Ret groups →
  NoDup groups.*1 ∧ Forall group_ok groups ∧ 0 ≤ p ∧ 0 ≤ r
  ∧ ∀ e, e ∈ c_entries spec → e.1.1 ∉ reserved → ∃ g, (e.1.1, g) ∈ groups ∧ e ∈ g.
Proof.
  intros Hc E. unfold fixture_groups in E. apply outcome_bind_inv in E as (comm & Hcomm & E).
  apply communication_groups_ok in Hcomm as (Hok & Hkeys & Hp & Hr). injection E as <-.
  assert (NoDup (foldl (λ d kv, dict_set kv.1 kv.2 d) (foldl add_entry [] (c_entries spec)) comm).*1) as Hd.
  { apply set_groups_keys, add_entries_keys. constructor. }
  split_and!; [done| |done|done|].
  - apply Forall_forall. intros [i g] Hin. apply dict_get_in in Hin; [|done].
    apply set_groups_get in Hin as [Hin|Hin].
    + rewrite Forall_forall in Hok. by apply Hok.
    + by apply entry_group_ok in Hin as [H _].
  - intros e Hin Hres.
    assert (e ∈ filter (λ x, x.1.1 = e.1.1) (c_entries spec)) as Hf by by apply list_elem_of_filter.
    destruct (dict_get e.1.1 (foldl add_entry [] (c_entries spec))) as [g|] eqn:Hg.
    + exists g. split.
      * apply dict_get_elem. rewrite set_groups_other; [done|]. by rewrite Hkeys.
      * apply entry_group_ok in Hg as [_ ->]; done.
    + pose proof (add_entries_get (c_entries spec) [] e.1.1) as H. rewrite Hg in H. cbn in H.
      rewrite <-H in Hf. by apply not_elem_of_nil in Hf.
Qed.

(** ** The parts of the groups *)

Lemma group_ok_perm i es es' : es ≡ₚ es' → group_ok (i, es) → group_ok (i, es').
Proof.
  intros Hp [H1 H2 H3]. constructor; cbn [fst snd] in *; [done|by rewrite <-Hp|].
  change (map ?f es') with (f <$> es'). by rewrite <-Hp.
Qed.

Lemma group_elements_part i es p :
  group_ok (i, es) → group_elements (i, es) = Ret p →
  ∃ es', p = group_part (i, es') ∧ group_ok (i, es') ∧ ∀ e, e ∈ es → e ∈ es'.
Proof.
  intros Hok E. unfold group_elements in E.
  pose proof (sort_by_perm (λ e : entry, e.1.2) es) as Hperm.
  pose proof (sort_by_sorted (λ e : entry, e.1.2) es) as Hsort.
  apply (group_ok_perm _ _ _ (symmetry Hperm)) in Hok.
  assert (∀ e, e ∈ es → e ∈ sort_by (λ e : entry, e.1.2) es) as Hin by (intros e He; by rewrite Hperm).
  revert Hok Hsort Hin E. generalize (sort_by (λ e : entry, e.1.2) es). intros l Hok Hsort Hin E.
  destruct (single l) as [e|] eqn:Hs.
  { injection E as <-. exists l. unfold group_part. cbn [snd]. by rewrite Hs. }
  apply outcome_bind_inv in E as (l' & Hl & E). injection E as <-. unfold with_count in Hl.
  destruct l as [|e l]; [done|]. destruct (Z.eqb_spec e.1.2 0) as [He|He].
  { injection Hl as <-. exists (e :: l). unfold group_part. cbn [snd]. by rewrite Hs. }
  apply outcome_bind_inv in Hl as (c & Hv & Hl). injection Hl as <-.
  exists (c :: e :: l). split; [by unfold group_part; cbn|]. destruct Hok as [H1 H2 H3]. cbn [fst snd] in *.
  coded_value. destruct H as [Hc Hco]. split.
  - constructor; cbn [fst snd]; [done|by constructor|]. cbn [map]. constructor; [|done].
    change (e.1.2 :: map (λ e : entry, e.1.2) l) with (map (λ e : entry, e.1.2) (e :: l)).
    intros (x & Hx & Hxl)%list_elem_of_fmap. rewrite Hc in Hx. cbn in Hx.
    assert (e.1.2 ≤ x.1.2) as Hle.
    { apply elem_of_cons in Hxl as [->|Hxl]; [lia|]. apply StronglySorted_inv in Hsort as [_ Hall].
      rewrite Forall_forall in Hall. by apply Hall. }
    apply Forall_cons in H2 as [He0 _]. pose proof (eo_subindex _ _ He0). lia.
  - intros x Hx. constructor. by apply Hin.
Qed.

Lemma traverse_parts groups parts :
  Forall group_ok groups → traverse group_elements groups = Ret parts →
  ∃ gs, parts = map group_part gs ∧ Forall group_ok gs ∧ gs.*1 = groups.*1
    ∧ ∀ i es e, (i, es) ∈ groups → e ∈ es → ∃ es', (i, es') ∈ gs ∧ e ∈ es'.
Proof.
  intros Hok. revert parts. induction Hok as [|[i es] groups Hg Hok IH]; intros parts E.
  { injection E as <-. exists []. split_and!; [done|constructor|done|]. intros ??? H. by apply not_elem_of_nil in H. }
  cbn [traverse] in E. apply outcome_bind_inv in E as (p & Hp & E).
  apply outcome_bind_inv in E as (ps & Hps & E). injection E as <-.
  apply group_elements_part in Hp as (es' & -> & Hg' & Hin); [|done].
  destruct (IH ps Hps) as (gs & -> & Hgs & Hkeys & Hall). exists ((i, es') :: gs).
  split_and!; [done|by constructor|cbn; by rewrite Hkeys|].
  intros j es1 e [[= -> ->]|H]%elem_of_cons He.
  - exists es'. split; [by constructor|by apply Hin].
  - destruct (Hall j es1 e H He) as (es2 & H1 & H2). exists es2. split; [by constructor|done].
Qed.

Lemma parts_elements gs :
  concat (map group_part gs).*1 = group_types gs ∧ (map group_part gs).*2 = map (snd ∘ group_part) gs.
Proof.
  unfold group_types. split; induction gs as [|g gs IH]; cbn; [done| |done|]; by rewrite IH.
Qed.

(** ** The reader on the generated tree *)

Definition all_specs (gs : list (Z * list entry)) : list (string * (Z * list Sub.t)) :=
  map (λ t, (t.1, (t.2, []))) base_types ++ flat_map group_spec gs.

Lemma all_named gs :
  Forall group_ok gs → Forall2 named (map base_type_element base_types ++ group_types gs) (all_specs gs).
Proof.
  intros H. apply Forall2_app.
  - apply Forall2_fmap, Forall_Forall2_diag, Forall_forall. intros t Ht. by apply base_type_named.
  - unfold group_types. induction H as [|g gs [Hi He _] Hgs IH]; [constructor|]. cbn [flat_map].
    apply Forall2_app; [|done]. unfold group_part, group_spec. destruct (single g.2); cbn [fst]; [constructor|].
    constructor; [|constructor]. apply record_type_named; [lia|done].
Qed.

Lemma sim_type_inj i j : 0 ≤ i → 0 ≤ j → sim_type i = sim_type j → i = j.
Proof.
  intros Hi Hj E. unfold sim_type in E. injection E as E. change (fmt_HEX 4 i = fmt_HEX 4 j) in E.
  assert (@Ret Z i = Ret j) as H; [|by injection H].
  rewrite <-(parse_int_hex 4 i Hi), <-(parse_int_hex 4 j Hj). unfold fmt_HEX in E. by rewrite E.
Qed.

Lemma group_spec_name g n c : (n, c) ∈ group_spec g → n = sim_type g.1.
Proof.
  unfold group_spec. destruct (single g.2); intros H; [by apply not_elem_of_nil in H|].
  apply list_elem_of_singleton in H. by injection H.
Qed.

Lemma all_specs_once gs : Forall group_ok gs → NoDup gs.*1 → NoDup (all_specs gs).*1.
Proof.
  intros Hok Hd. unfold all_specs. rewrite fmap_app. apply NoDup_app. split_and!.
  - apply (bool_decide_unpack (NoDup _)). vm_compute. exact I.
  - intros n Hn ([n' c] & -> & Hin)%list_elem_of_fmap. apply list_elem_of_In, in_flat_map in Hin as (g & _ & Hg).
    apply list_elem_of_In, group_spec_name in Hg. cbn [fst] in Hn. rewrite Hg in Hn.
    apply list_elem_of_fmap in Hn as ([n2 c2] & Hn & Ht). cbn [fst] in Hn.
    change (map ?f base_types) with (f <$> base_types) in Ht.
    repeat (apply elem_of_cons in Ht as [[= -> _]|Ht]; [discriminate Hn|]). by apply not_elem_of_nil in Ht.
  - induction Hok as [|g gs Hg Hok IH]; [constructor|]. cbn [fmap list_fmap flat_map] in *.
    apply NoDup_cons in Hd as [H1 H2]. rewrite fmap_app. apply NoDup_app. split_and!; [|
      |by apply IH].
    + unfold group_spec. destruct (single g.2); [constructor|]. apply NoDup_singleton.
    + intros n ([n' c] & -> & Hin)%list_elem_of_fmap ([n2 c2] & E & Hin2)%list_elem_of_fmap.
      cbn [fst] in E. subst n2. apply list_elem_of_In, in_flat_map in Hin2 as (g' & Hg' & Hs').
      apply list_elem_of_In in Hg', Hs'. apply group_spec_name in Hin, Hs'. rewrite Hin in Hs'.
      rewrite Forall_forall in Hok. apply sim_type_inj in Hs'; [|destruct Hg; lia|destruct (Hok _ Hg'); lia].
      apply H1. rewrite Hs'. by apply (list_elem_of_fmap_2 fst).
Qed.

Section read.
Context (spec : contract) (vendor product revision : Z) (gs : list (Z * list entry)).
Context (Hgs : Forall group_ok gs) (Hd : NoDup gs.*1).

Lemma read_types tree :
  reindented (the_tree spec vendor product revision gs) tree →
  parse_data_types tree = Ret (map (λ s, (s.1, [s.2])) (all_specs gs)).
Proof.
  intros H. unfold parse_data_types, parse_array_data_types. apply (reindented_below "DataType") in H.
  rewrite below_tree, below_device in H by (right; by left).
  change (String.eqb "DataType" "Device") with false in H. change (String.eqb "DataType" "DataType") with true in H.
  cbv iota in H. cbn [app] in H. pose proof (all_named gs Hgs) as Hn.
  erewrite no_array_types; [| |exact H].
  - cbn [mbind outcome_bind]. apply Forall2_app_inv_l in H as (xs & ys & Hx & Hy & ->).
    rewrite fold_outcome_app, (fold_named _ _ xs [] Hn Hx).
    + cbn [mbind outcome_bind app]. eapply fold_nameless; [|exact Hy].
      apply Forall_app. unfold entry_types.
      split; apply Forall_fmap, Forall_true; by intros [[[[] ?] ?] ?].
    + by apply all_specs_once.
  - apply Forall_app. split.
    + apply Forall_forall. intros e He. apply list_elem_of_lookup_1 in He as [k Hk].
      destruct (Forall2_lookup_l _ _ _ _ _ Hn Hk) as (s & _ & He & _). exact He.
    + apply Forall_app. unfold entry_types.
      split; apply Forall_fmap, Forall_true; by intros [[[[] ?] ?] ?].
Qed.

Lemma types_known : Forall (knows (map (λ s, (s.1, [s.2])) (all_specs gs))) gs.
Proof.
  pose proof (all_specs_once gs Hgs Hd) as Ho.
  assert (∀ s, s ∈ all_specs gs → dict_get s.1 (map (λ s, (s.1, [s.2])) (all_specs gs)) = Some [s.2]) as Hget.
  { intros s Hs. apply dict_get_in.
    - change (map ?f (all_specs gs)) with (f <$> all_specs gs). by rewrite <-list_fmap_compose.
    - apply (list_elem_of_fmap_2 (λ s, (s.1, [s.2]))) in Hs. exact Hs. }
  apply Forall_forall. intros g Hg. split.
  - intros t Ht. apply (Hget (t.1, (t.2, []))). apply elem_of_app. left.
    by apply (list_elem_of_fmap_2 (λ t : string * Z, (t.1, (t.2, @nil Sub.t)))).
  - intros s Hs. apply Hget, elem_of_app. right. apply list_elem_of_In, in_flat_map.
    exists g. by rewrite <-!list_elem_of_In.
Qed.

Definition read_objects : tables := foldl (λ st g, add_object (group_object g) st) ([], []) gs.

Lemma read_device_objects device :
  reindented (the_device spec product revision gs) device →
  parse_objects device (map (λ s, (s.1, [s.2])) (all_specs gs)) = Ret read_objects.
Proof.
  intros H. unfold parse_objects. apply (reindented_below "Object") in H.
  rewrite below_device in H by (right; by right).
  change (String.eqb "Object" "DataType") with false in H. change (String.eqb "Object" "Object") with true in H.
  cbv iota in H. apply fold_objects; [done|apply types_known|done].
Qed.

Lemma read_device_element tree :
  reindented (the_tree spec vendor product revision gs) tree →
  ∃ device, find_device tree = Ret device ∧ reindented (the_device spec product revision gs) device.
Proof.
  intros H. unfold find_device. apply (reindented_below "Device") in H.
  rewrite below_tree, below_device in H by by left.
  change (String.eqb "Device" "Device") with true in H. change (String.eqb "Device" "DataType") with false in H.
  change (String.eqb "Device" "Object") with false in H. cbv iota in H. cbn [app] in H.
  apply Forall2_cons_inv_l in H as (device & ? & Hdev & ->%Forall2_nil_inv_l & ->). exists device. split; [|done].
  cbn [first_device]. destruct (reindented_find "Type" _ _ _ Hdev eq_refl) as (ty & -> & Hty).
  apply reindented_leaf in Hty as (y & ->). reflexivity.
Qed.
End read.

(** ** The PDOs *)

Lemma mapping_entry_word e : pdo_ok e →
  PdoEntry.mapping_entry (let '(i, s, b, n, ty) := e in PdoEntry.Make i s b (Text.strip n) (Text.strip ty))
  = mapping_word e.
Proof.
  destruct e as [[[[i s] b] n] ty]. intros (Hi & Hs & Hb & H0). unfold PdoEntry.mapping_entry, mapping_word.
  cbn [PdoEntry.index PdoEntry.subindex PdoEntry.bit_length].
  change 0xFFFF with (Z.ones 16). change 0xFF with (Z.ones 8).
  rewrite !Z.land_ones, !Z.mod_small by lia. destruct (Z.eqb_spec i 0) as [->|]; [|done].
  rewrite H0 by done. done.
Qed.

Lemma parse_entries es xs :
  Forall pdo_ok es →
  Forall2 reindented (map (λ '(i, s, b, n, ty), node "Entry" []
          [leaf "Index" (hex_text 4 i); leaf "SubIndex" (str_Z s); leaf "BitLen" (str_Z b);
           leaf "Name" n; leaf "DataType" ty]) es) xs →
  ∃ entries, traverse parse_pdo_entry xs = Ret entries
    ∧ map PdoEntry.mapping_entry entries = map mapping_word es.
Proof.
  intros Hok. revert xs. induction Hok as [|e es He Hok IH]; intros xs H.
  { apply Forall2_nil_inv_l in H as ->. by exists []. }
  cbn [map] in H. apply Forall2_cons_inv_l in H as (x & xs' & Hx & H & ->).
  destruct (IH xs' H) as (entries & Ht & Hm). pose proof (mapping_entry_word e He) as Hw.
  destruct e as [[[[i s] b] n] ty]. destruct He as (Hi & Hs & Hb & _).
  exists (PdoEntry.Make i s b (Text.strip n) (Text.strip ty) :: entries). split.
  - assert (parse_pdo_entry x = Ret (PdoEntry.Make i s b (Text.strip n) (Text.strip ty))) as Hp.
    { unfold parse_pdo_entry.
      rewrite (int_at_hex "Index" _ _ _ _ _ Hx eq_refl), (int_at_dec "SubIndex" _ _ _ _ Hx eq_refl),
        (int_at_dec "BitLen" _ _ _ _ Hx eq_refl) by lia.
      by rewrite (reindented_text "Name" _ _ _ _ Hx eq_refl), (reindented_text "DataType" _ _ _ _ Hx eq_refl). }
    cbn [traverse]. by rewrite Hp, Ht.
  - cbn [map]. by rewrite Hw, Hm.
Qed.

Lemma read_pdo device e t index sm es :
  reindented device e → findall t device = [pdo_element t index sm es] → 0 < index → Forall pdo_ok es →
  ∃ name entries, parse_pdos e t = Ret [(index, Pdo.Make index name entries)]
    ∧ map PdoEntry.mapping_entry entries = map mapping_word es.
Proof.
  intros H Hf Hi Hok. unfold parse_pdos. apply (reindented_findall t) in H. rewrite Hf in H.
  apply Forall2_cons_inv_l in H as (x & ? & Hx & ->%Forall2_nil_inv_l & ->).
  cbn [fold_outcome]. unfold parse_pdo.
  rewrite (int_at_hex "Index" _ _ _ _ _ Hx eq_refl) by lia. cbn [mbind outcome_bind].
  rewrite (proj2 (Z.leb_gt index 0)) by done.
  pose proof (reindented_findall "Entry" _ _ Hx) as He.
  unfold findall at 1, pdo_element in He. cbn [node children] in He.
  rewrite !filter_cons in He. rewrite !decide_False in He by (intros E; done).
  rewrite filter_tagged in He.
  2: { apply Forall_fmap, Forall_true. by intros [[[[] ?] ?] ?]. }
  destruct (parse_entries es _ Hok He) as (entries & -> & Hm). eexists _, entries.
  split; [reflexivity|done].
Qed.

(** The generated file describes the contract.  Whenever the generator makes
    an ESI tree for a contract, the catalog reader accepts it: the identity is
    the one given; every entry of the contract outside the communication
    objects is found under its address with its data type, its bit size and
    its access ([ro] where it has none); and the mapping words of both PDOs
    are those of the contract. *)
Lemma fixture_read_back v spec vendor product revision tree :
  contract_ok spec → generate_fixture spec vendor product revision = Ret tree →
  ∃ c, parse_cmmt_esi_catalog v tree = Ret c
    ∧ (type_name c, product_code c, Catalog.revision c) = ("CMMT_AS_SIM", product, revision)
    ∧ (∀ i s e, ((i, s), e) ∈ c_entries spec → i ∉ reserved →
        ∃ o, catalog_object_info c i s = Ret o
          ∧ Obj.data_type o = AxisEntry.type e ∧ Obj.bit_size o = AxisEntry.bits e
          ∧ Obj.access o = if String.eqb (AxisEntry.access e) "" then "ro" else AxisEntry.access e)
    ∧ rxpdo_mapping_entries c 0x1600 = Ret (map mapping_word (c_rx spec))
    ∧ txpdo_mapping_entries c 0x1A00 = Ret (map mapping_word (c_tx spec)).
Proof.
  intros Hc E. unfold generate_fixture in E. apply outcome_bind_inv in E as (t & Ht & E). injection E as <-.
  unfold fixture_tree in Ht. apply outcome_bind_inv in Ht as (groups & Hg & Ht).
  apply outcome_bind_inv in Ht as (parts & Hparts & Ht).
  apply fixture_groups_ok in Hg as (Hd & Hok & Hp & Hr & Hall); [|done].
  apply traverse_parts in Hparts as (gs & -> & Hgs & Hkeys & Hin); [|by rewrite sort_by_perm].
  destruct (parts_elements gs) as [Hty Hob]. rewrite Hty, Hob in Ht. injection Ht as <-.
  assert (NoDup gs.*1) as Hdg by by rewrite Hkeys, sort_by_perm.
  pose proof (indent_reindented (the_tree spec vendor product revision gs)) as H.
  fold (the_device spec product revision gs). fold (the_tree spec vendor product revision gs).
  revert H. generalize (indent (the_tree spec vendor product revision gs)). intros tree H.
  destruct (read_device_element spec vendor product revision gs tree H) as (device & Hdev & Hre).
  destruct (read_pdo _ device "RxPdo" 0x1600 2 (c_rx spec) Hre eq_refl eq_refl (co_rx _ Hc)) as (n1 & es1 & Hp1 & Hm1).
  destruct (read_pdo _ device "TxPdo" 0x1A00 3 (c_tx spec) Hre eq_refl eq_refl (co_tx _ Hc)) as (n2 & es2 & Hp2 & Hm2).
  destruct (reindented_find "Type" _ _ _ Hre eq_refl) as (ty & Hty' & Hrt). apply reindented_leaf in Hrt as (y & ->).
  unfold parse_cmmt_esi_catalog. rewrite Hdev. cbn [mbind outcome_bind]. rewrite Hty'. cbn [of_option].
  rewrite (read_types spec vendor product revision gs Hgs Hdg tree H). cbn [mbind outcome_bind].
  rewrite (read_device_objects spec product revision gs Hgs Hdg device Hre). cbn [mbind outcome_bind].
  change (parse_int (get "ProductCode" _)) with (parse_int (hex_text 8 product)) at 1.
  change (parse_int (get "RevisionNo" _)) with (parse_int (hex_text 8 revision)) at 1.
  unfold hex_text, fmt_HEX. rewrite !parse_int_hex by done. cbn [mbind outcome_bind]. rewrite Hp1, Hp2.
  cbn [mbind outcome_bind]. eexists. split; [reflexivity|]. split_and!.
  - rewrite xml_text_leaf. reflexivity.
  - intros i s e He Hi. destruct (Hall _ He Hi) as (g & Hg & Heg).
    assert ((i, g) ∈ sort_by fst groups) as Hg' by (by rewrite sort_by_perm).
    destruct (Hin _ _ _ Hg' Heg) as (g2 & H2 & He2).
    destruct (foldl_objects_group gs ([], []) (i, g2) ((i, s), e) Hgs Hdg H2 He2) as (o & Ho & Hro).
    exists o. unfold catalog_object_info. cbn [objects]. destruct Hro as (_ & R1 & R2 & R3 & _). cbn [fst snd] in *.
    unfold read_objects. rewrite Ho. by split_and!.
  - change (Ret (map PdoEntry.mapping_entry es1) = Ret (map mapping_word (c_rx spec))). by rewrite Hm1.
  - change (Ret (map PdoEntry.mapping_entry es2) = Ret (map mapping_word (c_tx spec))). by rewrite Hm2.
Qed.

(** The contract of the built-in model, and its ESI file. *)
Definition demo_contract : contract :=
  match new_axis default_device linear_adapter tt with
  | Ret x => match (describe x).1 with Ret c => c | Raise _ => Contract "" 0 0 [] [] [] end
  | Raise _ => Contract "" 0 0 [] [] []
  end.

Definition demo_fixture : outcome element := generate_fixture demo_contract 0x1D 8067733 36120.

(** [contract_ok] is decided by evaluation. *)
Definition entry_okb (e : entry) : bool :=
  (0 <? e.1.1) && (0 <=? e.1.2) && (0 <=? AxisEntry.bits e.2)
  && bool_decide (AxisEntry.type e.2 ∈ base_types.*1)
  && unspaced (AxisEntry.access e.2) && String.eqb (Text.lower (AxisEntry.access e.2)) (AxisEntry.access e.2).

Definition pdo_okb (e : pdo_entry) : bool :=
  let '(i, s, b, _, _) := e in
  (0 <=? i) && (i <=? 0xFFFF) && (0 <=? s) && (s <=? 0xFF) && (0 <=? b) && (b <=? 0xFF)
  && (negb (i =? 0) || (s =? 0)).

Definition contract_okb (spec : contract) : bool :=
  bool_decide (NoDup (c_entries spec).*1) && forallb entry_okb (c_entries spec)
  && forallb pdo_okb (c_rx spec) && forallb pdo_okb (c_tx spec).

Lemma pdo_okb_ok e : pdo_okb e = true → pdo_ok e.
Proof. destruct e as [[[[i s] b] n] ty]. unfold pdo_okb, pdo_ok. intros H. lia. Qed.

Lemma contract_okb_ok spec : contract_okb spec = true → contract_ok spec.
Proof.
  unfold contract_okb. rewrite !andb_true_iff. intros [[[H1 H2] H3] H4].
  apply bool_decide_eq_true_1 in H1. constructor; [done| | |].
  - apply Forall_forall. intros e He. rewrite forallb_forall in H2. apply list_elem_of_In, H2 in He.
    unfold entry_okb in He. rewrite !andb_true_iff in He. destruct He as [[[[[A1 A2] A3] A4] A5] A6].
    apply bool_decide_eq_true_1 in A4. apply String.eqb_eq in A6. split; [lia|].
    constructor; [done|lia|lia|done|by split].
  - apply Forall_forall. intros e He. rewrite forallb_forall in H3. by apply list_elem_of_In, H3, pdo_okb_ok in He.
  - apply Forall_forall. intros e He. rewrite forallb_forall in H4. by apply list_elem_of_In, H4, pdo_okb_ok in He.
Qed.

Lemma demo_contract_ok : contract_ok demo_contract.
Proof. apply contract_okb_ok. vm_compute. reflexivity. Qed.

Lemma demo_fixture_eq : demo_fixture = generate_fixture demo_contract 0x1D 8067733 36120.
Proof. reflexivity. Qed.

Lemma fixture_read_back_example :
  match demo_fixture with
  | Ret tree => ∃ c, parse_cmmt_esi_catalog "as" tree = Ret c
      ∧ product_code c = 8067733
      ∧ rxpdo_mapping_entries c 0x1600 = Ret (map mapping_word (c_rx demo_contract))
  | Raise _ => False
  end.
Proof.
  assert (is_ret demo_fixture = true) as H by (vm_compute; reflexivity).
  pose proof (fixture_read_back "as" demo_contract 0x1D 8067733 36120) as Hf.
  rewrite <-demo_fixture_eq in Hf. destruct demo_fixture as [tree|]; [|discriminate H].
  destruct (Hf tree demo_contract_ok eq_refl) as (c & Hc & Hi & _ & Hrx & _).
  exists c. injection Hi as _ Hp _. split; [exact Hc|]. split; [exact Hp|exact Hrx].
Defined.
