(* ===== verification/FixtureAxis.v ===== *)
(** * The fixture of a constructed axis

    [generate_fixture] of src/device_descriptions/cmmt_as/fixture.py behind
    [Model.describe] of src/functional_model/runtime/axis.py.  FixtureProps.v
    shows that a fixture, if there is one, is read back as its contract; here
    the generator has a fixture for every constructed axis whose objects have
    addresses and sizes that the file can hold, and the two are put
    together. *)

From Stdlib Require Import Sorting.Sorted.
From S2P Require Import Prelude PyFloat.
From S2P Require Export AxisProps Contract FixtureProps.

Open Scope string_scope.
Open Scope list_scope.
Open Scope Z_scope.

(** ** The generator answers *)

Lemma traverse_ret {A B} (f : A → outcome B) l :
  (∀ a, a ∈ l → ∃ b, f a = Ret b) → ∃ l', traverse f l = Ret l'.
Proof.
  induction l as [|a l IH]; intros Hf; [by eexists|]. cbn [traverse].
  destruct (Hf a) as [b ->]; [by left|]. destruct IH as [l' ->]; [|by eexists].
  intros a' Ha. apply Hf. by right.
Qed.

Lemma value_ret i s n t b num :
  0 ≤ num < 2 ^ (8 * (b / 8)) → ∃ x, value i s n t b num = Ret ((i, s), x).
Proof.
  intros [H1 H2]. unfold value. rewrite (proj2 (Z.leb_le _ _)), (proj2 (Z.ltb_lt _ _)) by done.
  by eexists.
Qed.

(** A group the loop over the dictionary can handle. *)
Definition small_group (g : Z * list entry) : Prop :=
  g.2 ≠ [] ∧ Forall (λ e, 0 ≤ e.1.2 ≤ 255) g.2.

Lemma lor_small a b n : 0 ≤ n → 0 ≤ a < 2 ^ n → 0 ≤ b < 2 ^ n → 0 ≤ Z.lor a b < 2 ^ n.
Proof.
  intros Hn Ha Hb.
  assert (Z.lor a b = Z.lor a b mod 2 ^ n) as ->; [|by apply Z.mod_pos_bound; lia].
  rewrite <-Z.land_ones, Z.land_lor_distr_l, !Z.land_ones, !Z.mod_small by done. done.
Qed.

Lemma mapping_word_small e : pdo_ok e → 0 ≤ mapping_word e < 2 ^ 32.
Proof.
  destruct e as [[[[i s] b] n] t]. intros (Hi & Hs & Hb & _). unfold mapping_word.
  rewrite !Z.shiftl_mul_pow2 by lia. apply lor_small; [lia|apply lor_small|]; lia.
Qed.

(** The values of a group, made one by one. *)
Lemma traverse_values {A} (f : A → outcome entry) (key : A → Z) i l :
  (∀ a, a ∈ l → 0 ≤ key a ≤ 255 ∧ ∃ x, f a = Ret ((i, key a), x)) →
  ∃ es, traverse f l = Ret es ∧ Forall (λ e, 0 ≤ e.1.2 ≤ 255) es.
Proof.
  induction l as [|a l IH]; intros Hf; [by eexists|]. cbn [traverse].
  destruct (Hf a) as (Hk & x & ->); [by left|].
  destruct IH as (es & -> & Hes); [intros a' Ha; apply Hf; by right|].
  eexists. split; [reflexivity|]. by constructor.
Qed.

Lemma small_cons i e es : 0 ≤ e.1.2 ≤ 255 → Forall (λ e, 0 ≤ e.1.2 ≤ 255) es → small_group (i, e :: es).
Proof. intros He Hes. split; [done|]. by constructor. Qed.

Lemma mapping_group_ret i es :
  Forall pdo_ok es → (length es ≤ 255)%nat → ∃ g, mapping_group i es = Ret g ∧ small_group (i, g).
Proof.
  intros Hes Hl. unfold mapping_group.
  destruct (value_ret i 0 "Count" "USINT" 8 (Z.of_nat (length es))) as [c ->].
  { change (2 ^ (8 * (8 / 8))) with 256. lia. }
  cbn [mbind outcome_bind].
  destruct (traverse_values (λ '(sub, e), value i sub ("Mapping " ++ str_Z sub) "UDINT" 32 (mapping_word e))
    fst i (imap (λ k e, (Z.of_nat k + 1, e)) es)) as (ws & -> & Hws).
  { intros [sub e] (k & Hk)%list_elem_of_lookup_1. rewrite list_lookup_imap in Hk.
    destruct (es !! k) as [e'|] eqn:He; [|done]. cbn in Hk. injection Hk as <- <-.
    apply lookup_lt_Some in He as Hlt. rewrite Forall_lookup in Hes. cbn [fst]. split; [lia|].
    apply value_ret. change (2 ^ (8 * (32 / 8))) with (2 ^ 32). apply mapping_word_small. by eapply Hes. }
  eexists. split; [reflexivity|]. by apply small_cons.
Qed.

Lemma assignment_group_ret a i : 0 ≤ i < 2 ^ 16 → ∃ g, assignment_group a i = Ret g ∧ small_group (a, g).
Proof.
  intros Hi. unfold assignment_group.
  destruct (value_ret a 0 "Count" "USINT" 8 1) as [c ->]; [done|]. cbn [mbind outcome_bind].
  destruct (value_ret a 1 "PDO" "UINT" 16 i) as [p ->]; [done|].
  eexists. split; [reflexivity|]. apply small_cons; [done|]. by repeat constructor.
Qed.

Lemma identity_group_ret v p r :
  0 ≤ v < 2 ^ 32 → 0 ≤ p < 2 ^ 32 → 0 ≤ r < 2 ^ 32 →
  ∃ g, identity_group v p r = Ret g ∧ small_group (0x1018, g).
Proof.
  intros Hv Hp Hr. unfold identity_group.
  destruct (value_ret 0x1018 0 "Count" "USINT" 8 4) as [c ->]; [done|]. cbn [mbind outcome_bind].
  destruct (traverse_values (λ '(i, n, v), value 0x1018 i n "UDINT" 32 v) (λ a, a.1.1) 0x1018
    [(1, "Vendor", v); (2, "Product", p); (3, "Revision", r); (4, "Serial", 1)]) as (ws & -> & Hws).
  { intros a Ha. repeat (apply elem_of_cons in Ha as [->|Ha];
      [split; [done|]; by apply value_ret|]). by apply not_elem_of_nil in Ha. }
  eexists. split; [reflexivity|]. by apply small_cons.
Qed.

(** The communication objects can be made. *)
Lemma communication_groups_ret spec v p r :
  contract_ok spec → (length (c_rx spec) ≤ 255)%nat → (length (c_tx spec) ≤ 255)%nat →
  0 ≤ v < 2 ^ 32 → 0 ≤ p < 2 ^ 32 → 0 ≤ r < 2 ^ 32 →
  ∃ comm, communication_groups spec v p r = Ret comm ∧ Forall small_group comm.
Proof.
  intros [_ _ Hrx Htx] Lrx Ltx Hv Hp Hr. unfold communication_groups.
  destruct (value_ret 0x1000 0 "Device type" "UDINT" 32 402) as [g1 ->]; [done|]. cbn [mbind outcome_bind].
  destruct (identity_group_ret v p r Hv Hp Hr) as (g2 & -> & H2). cbn [mbind outcome_bind].
  assert (∃ g3, sync_group = Ret g3 ∧ small_group (0x1C00, g3)) as (g3 & -> & H3).
  { eexists. split; [reflexivity|]. split; [done|]. by repeat constructor. }
  cbn [mbind outcome_bind].
  destruct (mapping_group_ret 0x1600 _ Hrx Lrx) as (g4 & -> & H4). cbn [mbind outcome_bind].
  destruct (assignment_group_ret 0x1C12 0x1600 ltac:(done)) as (g5 & -> & H5). cbn [mbind outcome_bind].
  destruct (mapping_group_ret 0x1A00 _ Htx Ltx) as (g6 & -> & H6). cbn [mbind outcome_bind].
  destruct (assignment_group_ret 0x1C13 0x1A00 ltac:(done)) as (g7 & -> & H7).
  eexists. split; [reflexivity|].
  repeat (constructor; [first [assumption|by apply small_cons]|]). constructor.
Qed.

Lemma dict_set_forall {K V} `{EqDecision K} (P : K * V → Prop) k v (d : list (K * V)) :
  P (k, v) → Forall P d → Forall P (dict_set k v d).
Proof.
  intros Hk. induction 1 as [|[k' v'] d Hp Hd IH]; cbn [dict_set]; [by repeat constructor|].
  case_decide as E; [subst|]; by constructor.
Qed.

Lemma dict_get_forall {K V} `{EqDecision K} (P : K * V → Prop) k v (d : list (K * V)) :
  Forall P d → dict_get k d = Some v → P (k, v).
Proof. intros Hd Hg. apply dict_get_elem in Hg. rewrite Forall_forall in Hd. by apply Hd. Qed.

Lemma entry_groups_small es d :
  Forall (λ e : entry, 0 ≤ e.1.2 ≤ 255) es → Forall small_group d → Forall small_group (foldl add_entry d es).
Proof.
  intros Hes. revert d. induction Hes as [|e es He _ IH]; intros d Hd; [done|]. apply IH.
  apply dict_set_forall; [|done]. split; cbn [snd].
  - by destruct (default [] (dict_get e.1.1 d)).
  - apply Forall_app. split; [|by apply Forall_singleton].
    destruct (dict_get e.1.1 d) as [g|] eqn:Hg; [|by apply Forall_nil].
    by apply (dict_get_forall small_group _ _ _ Hd) in Hg as [_ ?].
Qed.

Lemma max_subindex_small e es :
  Forall (λ e : entry, 0 ≤ e.1.2 ≤ 255) (e :: es) → 0 ≤ max_subindex e es < 256.
Proof.
  intros [He Hes]%Forall_cons. unfold max_subindex. induction Hes as [|x es Hx _ IH]; cbn; lia.
Qed.

(** Every turn of the loop over the groups ends. *)
Lemma group_elements_ret g : small_group g → ∃ p, group_elements g = Ret p.
Proof.
  destruct g as [i es]. intros [Hne Hes]. cbn [snd] in Hne, Hes. unfold group_elements.
  pose proof (sort_by_perm (λ e : entry, e.1.2) es) as Hp.
  assert (Forall (λ e : entry, 0 ≤ e.1.2 ≤ 255) (sort_by (λ e : entry, e.1.2) es)) as Hs by (by rewrite Hp).
  assert (sort_by (λ e : entry, e.1.2) es ≠ []) as Hn.
  { intros E. rewrite E in Hp. symmetry in Hp. by apply Permutation_nil_r in Hp. }
  revert Hs Hn. generalize (sort_by (λ e : entry, e.1.2) es). intros l Hs Hn.
  destruct (single l); [by eexists|]. unfold with_count. destruct l as [|e l]; [done|].
  destruct (e.1.2 =? 0); [by eexists|].
  destruct (value_ret i 0 "Count" "USINT" 8 (max_subindex e l)) as [x ->]; [|by eexists].
  change (2 ^ (8 * (8 / 8))) with 256. by apply max_subindex_small.
Qed.

(** A contract that fits into the file has a fixture. *)
Lemma generate_fixture_ret spec v p r :
  contract_ok spec → (length (c_rx spec) ≤ 255)%nat → (length (c_tx spec) ≤ 255)%nat →
  Forall (λ e, e.1.2 ≤ 255) (c_entries spec) →
  0 ≤ v < 2 ^ 32 → 0 ≤ p < 2 ^ 32 → 0 ≤ r < 2 ^ 32 →
  ∃ tree, generate_fixture spec v p r = Ret tree.
Proof.
  intros Hc Lrx Ltx Hsub Hv Hp Hr.
  destruct (communication_groups_ret spec v p r Hc Lrx Ltx Hv Hp Hr) as (comm & Hcomm & Hsmall).
  unfold generate_fixture, fixture_tree, fixture_groups. rewrite Hcomm. cbn [mbind outcome_bind mret outcome_ret].
  set (groups := foldl _ _ comm).
  assert (Forall small_group groups) as Hg.
  { unfold groups. assert (Forall small_group (foldl add_entry [] (c_entries spec))) as Hd.
    { apply entry_groups_small; [|constructor]. destruct Hc as [_ He _ _]. rewrite Forall_forall in He, Hsub |- *.
      intros e Hin. destruct (He e Hin) as [_ Hok]. pose proof (eo_subindex _ _ Hok). specialize (Hsub e Hin). lia. }
    revert Hd. generalize (foldl add_entry [] (c_entries spec)). clear Hcomm groups.
    induction Hsmall as [|[i es] comm Hi _ IH]; intros d Hd; [done|]. apply IH. by apply dict_set_forall. }
  destruct (traverse_ret group_elements (sort_by fst groups)) as [parts ->]; [|by eexists].
  intros g Hin. apply group_elements_ret. rewrite Forall_forall in Hg. apply Hg.
  by rewrite sort_by_perm in Hin.
Qed.

(** ** The axis of a profile *)

(** Addresses and sizes that the file can hold; padding has subindex 0. *)
Definition fits_entry (e : ObjectDictionaryEntry) : bool :=
  (0 <=? Entry.index e) && (Entry.index e <=? 0xFFFF)
  && (0 <=? Entry.subindex e) && (Entry.subindex e <=? 0xFF)
  && (negb (Entry.index e =? 0) || (Entry.subindex e =? 0))
  && match bit_length e with Ret b => (0 <=? b) && (b <=? 0xFF) | Raise _ => false end.

Definition fits_role (r : Role.t) : bool :=
  (0 <? Role.index r) && (0 <=? Role.subindex r) && (Role.subindex r <=? 0xFF).

Definition fits_profile (p : profile) : bool :=
  forallb fits_entry (rx (pdo_configuration p) ++ tx (pdo_configuration p)) && forallb fits_role (roles p)
  && (Nat.leb (length (rx (pdo_configuration p))) 255) && (Nat.leb (length (tx (pdo_configuration p))) 255).

Definition unspaced_accesses (es : list entry) : bool := forallb (λ e, unspaced (AxisEntry.access e.2)) es.

Lemma mappings_ok es l ms :
  forallb fits_entry l = true → traverse (pdo_mapping es) l = Ret ms → Forall pdo_ok ms.
Proof.
  intros Hl E. apply traverse_inv in E. induction E as [|e m l ms Hm _ IH]; [constructor|].
  cbn [forallb] in Hl. apply andb_true_iff in Hl as [He Hl]. constructor; [|by apply IH]. clear IH Hl.
  unfold pdo_mapping in Hm. apply outcome_bind_inv in Hm as (b & Hb & Hm).
  apply outcome_bind_inv in Hm as (t & _ & [= <-]). unfold fits_entry in He. rewrite Hb in He.
  unfold pdo_ok. lia.
Qed.

Lemma sorted_once l : StronglySorted address_lt l → NoDup l.
Proof.
  induction 1 as [|a l _ IH Ha]; constructor; [|done]. intros Hin. rewrite Forall_forall in Ha.
  specialize (Ha a Hin). unfold address_lt in Ha. lia.
Qed.

Section axis_fixture.
Context {A : Type} `{DriveAdapterLaws A}.
Context {D : Type} (clock mono : nat → float) (store_save : axis A D → outcome () * D).

Lemma described_contract_ok d a s (x : axis A D) ms ts :
  new_axis d a s = Ret x →
  fits_profile (adapter_profile a) = true → unspaced_accesses (ax_entries x) = true →
  traverse (pdo_mapping (ax_entries x)) (rx (pdo_configuration (adapter_profile a))) = Ret ms →
  traverse (pdo_mapping (ax_entries x)) (tx (pdo_configuration (adapter_profile a))) = Ret ts →
  let spec := Contract (preset x) (rx_size x) (tx_size x) (ax_entries x) ms ts in
  contract_ok spec ∧ (length ms ≤ 255)%nat ∧ (length ts ≤ 255)%nat
  ∧ Forall (λ e, e.1.2 ≤ 255) (ax_entries x).
Proof.
  intros Hx Hfits Hacc Hms Hts spec.
  destruct (constructed_contract clock mono store_save d a s x Hx)
    as (ms' & ts' & _ & _ & Hsort & Hin & Hty & _).
  unfold fits_profile in Hfits. rewrite !andb_true_iff, forallb_app, andb_true_iff in Hfits.
  destruct Hfits as [[[[Hrx Htx] Hroles] Lrx] Ltx]. apply Nat.leb_le in Lrx, Ltx.
  assert (∀ e, e ∈ ax_entries x → 0 < e.1.1 ∧ 0 ≤ e.1.2 ≤ 255) as Haddr.
  { intros [[i sub] e] He.
    destruct (proj1 (Hin i sub)) as [(o & Ho & Hne & <- & <-)|(r & Hr & <- & <-)].
    - apply list_elem_of_fmap. by exists ((i, sub), e).
    - assert (fits_entry o = true) as Hf.
      { apply list_elem_of_In, in_app_or in Ho as [Ho|Ho]; eapply forallb_forall in Ho; eauto. }
      unfold fits_entry in Hf. cbn. lia.
    - apply list_elem_of_In in Hr. eapply forallb_forall in Hr; [|exact Hroles].
      unfold fits_role in Hr. cbn. lia. }
  split_and!.
  - constructor; cbn.
    + by apply sorted_once.
    + apply Forall_forall. intros e He. destruct (Haddr e He) as [H1 H2]. split; [done|].
      rewrite Forall_forall in Hty. destruct (Hty e He) as (T1 & T2 & T3).
      assert (0 ≤ AxisEntry.bits e.2) as Hb.
      { repeat (apply elem_of_cons in T2 as [->|T2]; [done|]). by apply not_elem_of_nil in T2. }
      constructor; [done|lia|done|exact T1|]. split; [|by symmetry].
      unfold unspaced_accesses in Hacc. rewrite forallb_forall in Hacc. by apply Hacc, list_elem_of_In.
    + by apply (mappings_ok (ax_entries x) (rx (pdo_configuration (adapter_profile a)))).
    + by apply (mappings_ok (ax_entries x) (tx (pdo_configuration (adapter_profile a)))).
  - apply traverse_inv, Forall2_length in Hms. lia.
  - apply traverse_inv, Forall2_length in Hts. lia.
  - apply Forall_forall. intros e He. apply Haddr in He. lia.
Qed.

(** ** Properties *)

(** C30. The fixture of an axis describes the axis.  For every constructed axis
    whose addresses and sizes fit into the file and whose accesses hold no
    blanks, and every identity of 32-bit numbers, the generator makes an ESI
    tree of what the axis describes after any requests, and the catalog reader
    accepts the tree and finds the identity, every object of the axis outside
    the communication objects with its type, its size and its access, and the
    mapping words of both PDOs. *)
Theorem axis_fixture_describes v d a s (x : axis A D) vendor product revision rs :
  new_axis d a s = Ret x →
  fits_profile (adapter_profile a) = true → unspaced_accesses (ax_entries x) = true →
  0 ≤ vendor < 2 ^ 32 → 0 ≤ product < 2 ^ 32 → 0 ≤ revision < 2 ^ 32 →
  ∃ spec tree c,
    (describe (served clock mono store_save rs x)).1 = Ret spec
    ∧ generate_fixture spec vendor product revision = Ret tree
    ∧ parse_cmmt_esi_catalog v tree = Ret c
    ∧ (type_name c, product_code c, Catalog.revision c) = ("CMMT_AS_SIM", product, revision)
    ∧ (∀ i sub e, ((i, sub), e) ∈ ax_entries x → i ∉ reserved →
        ∃ o, catalog_object_info c i sub = Ret o
          ∧ Obj.data_type o = AxisEntry.type e ∧ Obj.bit_size o = AxisEntry.bits e
          ∧ Obj.access o = if String.eqb (AxisEntry.access e) "" then "ro" else AxisEntry.access e)
    ∧ rxpdo_mapping_entries c 0x1600 = Ret (map mapping_word (c_rx spec))
    ∧ txpdo_mapping_entries c 0x1A00 = Ret (map mapping_word (c_tx spec)).
Proof.
  intros Hx Hfits Hacc Hv Hp Hr.
  destruct (constructed_contract clock mono store_save d a s x Hx) as (ms & ts & Hd & [Hms Hts] & _).
  destruct (described_contract_ok d a s x ms ts Hx Hfits Hacc Hms Hts) as (Hok & Lms & Lts & Hsub).
  destruct (generate_fixture_ret _ vendor product revision Hok Lms Lts Hsub Hv Hp Hr) as [tree Htree].
  destruct (fixture_read_back v _ vendor product revision tree Hok Htree) as (c & H1 & H2 & H3 & H4 & H5).
  eexists _, tree, c. split_and!; [apply Hd|exact Htree|exact H1|exact H2|exact H3|exact H4|exact H5].
Qed.
End axis_fixture.

(** ** Witness *)

Definition demo_axis_fixture (x : axis FKrCmmtAdapter ()) : Prop :=
  ∃ spec tree c, (describe (served still ticks no_save [cycle_request 6 1] x)).1 = Ret spec
    ∧ generate_fixture spec 0x1D 8067733 36120 = Ret tree ∧ parse_cmmt_esi_catalog "as" tree = Ret c
    ∧ rxpdo_mapping_entries c 0x1600 = Ret (map mapping_word (c_rx spec)).

Lemma axis_fixture_describes_witness : demo_axis_fixture linear_axis.
Proof.
  destruct (axis_fixture_describes still ticks no_save "as" default_device linear_adapter () linear_axis
    0x1D 8067733 36120 [cycle_request 6 1] linear_axis_constructed) as (spec & tree & c & H1 & H2 & H3 & _ & _ & H4 & _).
  - vm_compute. reflexivity.
  - vm_compute. reflexivity.
  - by vm_compute.
  - by vm_compute.
  - by vm_compute.
  - exists spec, tree, c. split_and!; [exact H1|exact H2|exact H3|exact H4].
Defined.
