(* ===== verification/Service.v ===== *)
(** * The model process

    src/functional_model/runtime/service.py ([main]) and the fixture files of
    src/functional_model/runtime/fleet.py ([ModelFleet.generate_fixture]): the
    configuration, the storage, the axes and the server put together.

    [exit stack]: the storage is given back after the axes are closed, on every
    way out.  The arguments of the command line are a record; what the system
    answers to the calls of [serve] around the socket (ipc/server.py) is the
    record [socket_host], and [identity_of] are the vendor, product and revision
    in the descriptions.  With [--timing] one [PythonTiming] is handed to the
    server and to every axis: the timed program of TimedServer.v.

    The theorems are in ServiceProps.v and ServiceTiming.v. *)

From S2P Require Import Prelude PyFloat.
From S2P Require Export TimedServer Fixture.

Open Scope string_scope.
Open Scope list_scope.
Open Scope Z_scope.

(** Where the configuration comes from: the options exclude one another. *)
Inductive source := EnvFile (name : string) | Environment | NoSource.

Record arguments := Arguments {
  arg_source : source;
  arg_fixture_dir : option string;
  arg_socket : option string;
  arg_timing : bool;
}.

#[export] Instance arguments_eta : Eta arguments := λ a,
  Arguments (arg_source a) (arg_fixture_dir a) (arg_socket a) (arg_timing a).

(** The truth value of an option: an empty text is none. *)
Definition given (option : option string) : bool :=
  match option with Some s => negb (String.eqb s "") | None => false end.

(** The owner of the requests, with what the process wrote: the ESI trees under
    their folders, the printed description, the bytes on the socket and
    whether the socket is in its directory; and the timing, with its reports. *)
Record session (S : Type) := Session {
  owner : S;
  fixtures : list (Z * element);
  printed : list reply;
  sent : list byte;
  bound : bool;
  timings : option timing;
}.
Arguments Session {S} _ _ _ _ _ _.
Arguments owner {S} _.
Arguments fixtures {S} _.
Arguments printed {S} _.
Arguments sent {S} _.
Arguments bound {S} _.
Arguments timings {S} _.

#[export] Instance session_eta S : Eta (session S) := λ s,
  Session (owner s) (fixtures s) (printed s) (sent s) (bound s) (timings s).

(** [path.exists()], the mode of the directory, the calls [socket], [bind],
    [chmod], [listen] and [unlink] that fail, and the bytes of the connection
    that [accept] gives. *)
Record socket_host := SocketHost {
  sk_exists : bool;
  sk_mode : outcome Z;
  sk_fails : nat → bool;
  sk_accept : outcome (list byte);
}.

(** The session of a new owner. *)
Definition new_session {S} (o : S) : session S := Session o [] [] [] false None.

Section serving.
Context (perf cpu unix : nat → Z).
Context {S : Type} (describe : M S reply) (generate : M S (list (Z * element))) (axes : S → Z).
Context (dispatch : request → M S reply) (dispatch_timed : request → M (S * timing) reply).
Context (loads : list byte → outcome request) (dumps : reply → list byte).
Context (host : socket_host).

Definition on_owner {R} (m : M S R) : M (session S) R := zoom owner (λ o s, s <| owner := o |>) m.

(** The loop of [serve].  It has fuel for its stream ([serve_loop_ends]): the
    last cases do not occur. *)
Definition serve_stream (stream : list byte) : M (session S) () := λ s,
  match timings s with
  | None =>
      match serve dispatch loads dumps stream (owner s) with
      | Some (r, out, o) => (r, s <| owner := o |> <| sent := out |>)
      | None => (Ret tt, s)
      end
  | Some t =>
      match serve_loop_timed perf cpu unix dispatch_timed loads dumps (Datatypes.S (length stream)) stream []
              (owner s, t) with
      | Some (r, out, (o, t)) => (r, s <| owner := o |> <| sent := out |> <| timings := Some t |>)
      | None => (Ret tt, s)
      end
  end.

(** [if timing: timing.flush("stop")] *)
Definition stop_timing : M (session S) () := λ s,
  match timings s with
  | None => (Ret tt, s)
  | Some t => let '(r, t) := Timing.flush perf cpu unix "stop" t in (r, s <| timings := Some t |>)
  end.

Definition socket_call (n : nat) : M (session S) () :=
  if sk_fails host n then raise OSError else mret tt.

(** [serve(model, path)]; the mask 0x3F is 0o077. *)
Definition serve_socket : M (session S) () :=
  if sk_exists host then raise OSError
  else
    mode ← lift (sk_mode host);
    if negb (Z.land mode 0x3F =? 0) then raise ValueError
    else
      socket_call 0 ;; socket_call 1 ;; bound <~ true ;; socket_call 2 ;; socket_call 3 ;;
      try_finally
        (stream ← lift (sk_accept host); serve_stream stream)
        (stop_timing ;; socket_call 4 ;; bound <~ false).

(** The statements behind the construction of the owner. *)
Definition present (a : arguments) : M (session S) () :=
  when (given (arg_fixture_dir a)) (l ← on_owner generate; fixtures <~ l) ;;
  d ← on_owner describe;
  modify (λ s, s <| printed := printed s ++ [d] |>) ;;
  when (arg_timing a) (n ← gets (λ s, axes (owner s)); timings <~ Some (Timing.new_timing perf n)) ;;
  when (given (arg_socket a)) serve_socket.
End serving.

Section service.
Context {A : Type} `{DriveAdapter A}.
Context (perf cpu unix : nat → Z) (clock mono : nat → nat → float).
Context (create : device → option string → outcome A).
Context (sha256 : string → string) (unreadable : string → bool).
Context (fails : nat → bool) (torn : nat → string → string).
Context (mkstemp : directory → string → string) (busy : bool).
Context (resolve : string → string).
Context (loads : list byte → outcome request) (dumps : reply → list byte).
Context (host : socket_host).
Context (identity_of : Z * Z * Z).

(** [store.load(model)] and [store.save(model)] on the storage of the axis *)
Definition axis_load (x : axis A store) : outcome bool * A :=
  load sha256 unreadable (disk x) (ax_device x) (adapter x).

Definition axis_save (x : axis A store) : outcome () * store :=
  save sha256 fails torn mkstemp x (disk x).

(** [generate_fixture] for one axis, and for each axis of the fleet. *)
Definition axis_fixture : M (axis A store) element :=
  c ← describe;
  let '(vendor, product, revision) := identity_of in
  lift (generate_fixture c vendor product revision).

Fixpoint fleet_fixtures (n i : nat) : M (fleet A store) (list (Z * element)) :=
  match n with
  | O => mret []
  | Datatypes.S n =>
      t ← on_axis i (d ← gets ax_device; e ← axis_fixture; mret (slave_index d, e));
      l ← fleet_fixtures n (Datatypes.S i);
      mret (t :: l)
  end.

Definition generate_fleet : M (fleet A store) (list (Z * element)) :=
  n ← gets (λ f, length (models f));
  l ← fleet_fixtures n 0;
  describe_fleet ;; mret l.

Definition on_storage {R} (m : M store R) : M (fleet A store) R :=
  zoom storage (λ d f, f <| storage := d |>) m.

(** [ModelFleet(config, store)] *)
Definition start_fleet (c : config) : M (fleet A store) () :=
  init_fleet create axis_load axis_save (cf_devices c).

(** The process with a configuration. *)
Definition fleet_service (a : arguments) (c : outcome config) : M (session (fleet A store)) () :=
  c ← lift c;
  on_owner (on_storage (enter fails busy)) ;;
  try_finally
    (on_owner (start_fleet c) ;;
     try_finally
       (present perf cpu unix describe_fleet generate_fleet (λ f, Z.of_nat (length (models f)))
          (dispatch_fleet clock mono axis_save) (dispatch_fleet_timed perf cpu clock mono axis_save)
          loads dumps host a)
       (on_owner close_fleet))
    (on_owner (on_storage exit_store)).

(** The process without one: a single axis without a storage. *)
Definition axis_service (a : arguments) (s : store) : outcome () * option (session (axis A store)) :=
  match a0 ← create default_device None; new_axis default_device a0 s with
  | Raise e => (Raise e, None)
  | Ret x =>
      let '(r, s) :=
        try_finally
          (present perf cpu unix (c ← describe; mret (RDescribe c)) (e ← axis_fixture; mret [(0, e)]) (λ _, 1)
             (dispatch (clock 0%nat) (mono 0%nat) axis_save)
             (dispatch_timed perf cpu (clock 0%nat) (mono 0%nat) axis_save) loads dumps host a)
          (on_owner close_axis) (new_session x) in
      (r, Some s)
  end.

(** [load_config(args.env_file)] or [load_environment(os.environ)]; [env_file]
    answers with the text of a file and its directory. *)
Definition configuration (env_file : string → outcome (string * string))
    (env : list (string * string)) (base : string) (a : arguments) : option (outcome config) :=
  match arg_source a with
  | EnvFile "" | NoSource => None
  | EnvFile name => Some ('(text, directory) ← env_file name; load_config resolve text directory)
  | Environment => Some (load_environment resolve env base)
  end.

Inductive ending :=
  | Usage
  | FleetEnded (r : outcome ()) (s : session (fleet A store))
  | AxisEnded (r : outcome ()) (s : option (session (axis A store))).

(** [main()] behind the parsing of the arguments; [Usage] is [parser.error]. *)
Definition main (env_file : string → outcome (string * string)) (env : list (string * string))
    (base : string) (a : arguments) (s : store) : ending :=
  if negb (given (arg_fixture_dir a)) && negb (given (arg_socket a)) then Usage
  else
    match configuration env_file env base a with
    | Some c => let '(r, s) := fleet_service a c (new_session (Fleet [] s)) in FleetEnded r s
    | None => let '(r, s) := axis_service a s in AxisEnded r s
    end.
End service.
