(* ===== verification/ServiceProps.v ===== *)
(** * The model process: starting, restarting and ending

    Theorems about src/functional_model/runtime/service.py and fleet.py on the
    storage of parameter_store.py (Service.v): a start leaves a snapshot of
    every axis and touches no other file, and the next start loads them all;
    however the process ends, the axes are closed and the storage is free. *)

From stdpp Require Import fin_maps stringmap.
From S2P Require Import Prelude PyFloat Contract.
From S2P Require Export Service StoreProps ConfigProps.

Open Scope string_scope.
Open Scope list_scope.
Open Scope Z_scope.

(** ** Constructing, loading and saving a fleet *)

Section start.
Context {A : Type} `{DA : DriveAdapter A}.
Context (create : device → option string → outcome A).
Context (sha256 : string → string) (unreadable : string → bool).
Context (fails : nat → bool) (torn : nat → string → string).
Context (mkstemp : directory → string → string).
Implicit Types (s : store) (x : axis A store) (d : config_device).

(** The axis of a device behind its constructor. *)
Definition fresh s d x : Prop :=
  ∃ a, create (cd_device d) (cd_artifact d) = Ret a ∧ new_axis (cd_device d) a s = Ret x.

(** The axis behind [store.load], with the answer of it. *)
Definition loaded s (b : bool) x x' : Prop :=
  ∃ a, load sha256 unreadable s (ax_device x) (adapter x) = (Ret b, a)
    ∧ x' = x <| has_store := true |> <| adapter := a |>.

Lemma fresh_facts s d x : fresh s d x → ax_device x = cd_device d ∧ disk x = s.
Proof.
  intros (a & _ & Hx). exact (new_axis_storage _ _ _ _ Hx).
Qed.

(** The storage plays no part in the construction. *)
Lemma fresh_disk s s' d x : fresh s d x → fresh s' d (x <| disk := s' |>).
Proof.
  intros (a & Ha & Hx). exists a. split; [done|]. unfold new_axis in Hx |- *.
  apply outcome_bind_inv in Hx as (? & -> & Hx). apply outcome_bind_inv in Hx as (? & -> & Hx).
  cbn [mbind outcome_bind].
  destruct (axis_entries _ a) as [[es|] a1]; [|done].
  destruct (adapter_read_inputs a1) as [[i|] a2]; [|done]. by injection Hx as <-.
Qed.

Lemma add_models_inv ds ms s f :
  mapM_ (add_model create) ds (Fleet ms s) = (Ret tt, f) →
  ∃ xs, Forall2 (fresh s) ds xs ∧ f = Fleet (ms ++ xs) s.
Proof.
  revert ms. induction ds as [|d ds IH]; intros ms E; cbn [mapM_] in E.
  { injection E as <-. exists []. by rewrite app_nil_r. }
  apply bind_Ret_inv in E as ([] & f1 & Hd & E). unfold add_model in Hd. rewrite lift_bind in Hd.
  destruct (create (cd_device d) (cd_artifact d)) as [a|] eqn:Ha; [|done]. rewrite bind_gets, lift_bind in Hd.
  destruct (new_axis (cd_device d) a (storage (Fleet ms s))) as [x|] eqn:Hx; [|done]. injection Hd as <-.
  apply IH in E as (xs & HF & ->). exists (x :: xs). cbn. rewrite <-app_assoc.
  split; [constructor; [by exists a|done]|done].
Qed.

Lemma add_models_run ds xs ms s :
  Forall2 (fresh s) ds xs → mapM_ (add_model create) ds (Fleet ms s) = (Ret tt, Fleet (ms ++ xs) s).
Proof.
  intros HF. revert ms. induction HF as [|d x ds xs (a & Ha & Hx) _ IH]; intros ms; cbn [mapM_].
  { by rewrite app_nil_r. }
  unfold mbind, M_bind at 1. unfold add_model at 1. rewrite lift_bind, Ha, bind_gets, lift_bind.
  cbn [storage]. rewrite Hx. cbn. etrans; [exact (IH (ms ++ [x]))|]. by rewrite <-app_assoc.
Qed.

(** One turn of the loop that loads. *)
Lemma load_step i ms s x :
  ms !! i = Some x → disk x = s →
  on_axis i (has_store <~ true ;; load_model (axis_load sha256 unreadable)) (Fleet ms s) =
  let '(r, a) := load sha256 unreadable s (ax_device x) (adapter x) in
  (r, Fleet (<[i := x <| has_store := true |> <| adapter := a |>]> ms) s).
Proof.
  intros Hi Hd. rewrite (on_axis_run _ _ _ x) by done. cbn [storage]. subst s.
  unfold mbind, M_bind, modify, load_model, axis_load. cbn.
  destruct (load sha256 unreadable (disk x) (ax_device x) (adapter x)) as [r a]. by destruct x.
Qed.

Lemma insert_middle (pre : list (axis A store)) x x' xs :
  <[length pre := x']> (pre ++ x :: xs) = (pre ++ [x']) ++ xs.
Proof. rewrite insert_app_r_alt, Nat.sub_diag by lia. by rewrite <-app_assoc. Qed.

Lemma load_models_inv xs : ∀ pre missing s r f,
  Forall (λ x, disk x = s) xs →
  load_models (axis_load sha256 unreadable) (seq (length pre) (length xs)) missing (Fleet (pre ++ xs) s) = (Ret r, f) →
  ∃ xs', Forall2 (λ x x', ∃ b, loaded s b x x') xs xs' ∧ f = Fleet (pre ++ xs') s
    ∧ ∀ i, i ∈ r ↔ i ∈ missing ∨ ∃ j x, i = (length pre + j)%nat ∧ xs !! j = Some x
                                   ∧ files s !! path (ax_device x) = None.
Proof.
  induction xs as [|x xs IH]; intros pre missing s r f Hd E; cbn [length seq load_models] in E.
  { injection E as <- <-. exists []. split_and!; [constructor|done|]. intros i. split; [by left|].
    intros [?|(j & x & _ & Hj & _)]; [done|]. by destruct j. }
  apply Forall_cons in Hd as [Hx Hd].
  apply bind_Ret_inv in E as (b & f1 & Hl & E). rewrite (load_step _ _ _ x) in Hl; [|by rewrite list_lookup_middle|done].
  destruct (load sha256 unreadable s (ax_device x) (adapter x)) as [r0 a] eqn:Hload.
  injection Hl as -> <-. rewrite insert_middle in E.
  pose proof (IH (pre ++ [x <| has_store := true |> <| adapter := a |>])) as IH'.
  rewrite length_app, Nat.add_1_r in IH'. apply IH' in E as (xs' & HF & -> & Hr); [|done].
  exists (x <| has_store := true |> <| adapter := a |> :: xs'). split_and!.
  - constructor; [by exists b, a|done].
  - by rewrite <-app_assoc.
  - assert (b = false ↔ files s !! path (ax_device x) = None) as Hb.
    { unfold load in Hload. destruct (files s !! path (ax_device x)) as [c|].
      - destruct (unreadable _); [done|]. apply bind_Ret_inv in Hload as (? & ? & _ & Hm).
        injection Hm as <- _. by split.
      - injection Hload as <- _. by split. }
    intros i. rewrite Hr. split.
    + intros [Hi|(j & y & -> & Hj & Hn)].
      * destruct b; [by left|]. apply elem_of_app in Hi as [Hi|Hi]; [by left|].
        apply list_elem_of_singleton in Hi as ->. right. exists 0%nat, x. rewrite Nat.add_0_r. split_and!; [done|done|by apply Hb].
      * right. exists (S j), y. split_and!; [lia|done|done].
    + intros [Hi|(j & y & -> & Hj & Hn)].
      * left. destruct b; [done|]. apply elem_of_app. by left.
      * destruct j as [|j]; [|right; exists j, y; split_and!; [lia|done|done]].
        injection Hj as ->. left. rewrite (proj2 Hb Hn). apply elem_of_app. right. rewrite Nat.add_0_r. by left.
Qed.

Lemma load_models_run xs xs' : ∀ pre missing s,
  Forall (λ x, disk x = s) xs → Forall2 (loaded s true) xs xs' →
  load_models (axis_load sha256 unreadable) (seq (length pre) (length xs)) missing (Fleet (pre ++ xs) s)
  = (Ret missing, Fleet (pre ++ xs') s).
Proof.
  intros pre missing s Hd HF. revert pre Hd.
  induction HF as [|x x' xs xs' (a & Hl & ->) _ IH]; intros pre Hd; [done|].
  apply Forall_cons in Hd as [Hx Hd]. cbn [length seq load_models]. unfold mbind, M_bind at 1.
  rewrite (load_step _ _ _ x), Hl; [|by rewrite list_lookup_middle|done]. cbn [fst snd]. rewrite insert_middle.
  pose proof (IH (pre ++ [x <| has_store := true |> <| adapter := a |>])) as IH'.
  rewrite length_app, Nat.add_1_r in IH'. rewrite IH' by done. by rewrite <-app_assoc.
Qed.
(** One save of the fleet: the axis stays as it is. *)
Lemma save_step i (f : fleet A store) x :
  models f !! i = Some x →
  on_axis i (Fleet.save_model (axis_save sha256 fails torn mkstemp)) f =
  let '(r, s') := save sha256 fails torn mkstemp x (storage f) in (r, Fleet (models f) s').
Proof.
  intros Hi. rewrite (on_axis_run _ _ _ x) by done. unfold Fleet.save_model, axis_save.
  change (save sha256 fails torn mkstemp (x <| disk := storage f |>) (disk (x <| disk := storage f |>)))
    with (save sha256 fails torn mkstemp x (storage f)).
  destruct (save _ _ _ _ x (storage f)) as [r s']. cbn. f_equal. f_equal.
  apply list_insert_id. rewrite Hi. by destruct x.
Qed.

Definition snapshot_name x : string := path (ax_device x).

Lemma saves_inv ids : ∀ (f f' : fleet A store),
  fresh_names mkstemp → NoDup (map snapshot_name (models f)) →
  mapM_ (λ i, on_axis i (Fleet.save_model (axis_save sha256 fails torn mkstemp))) ids f = (Ret tt, f') →
  models f' = models f
  ∧ (∀ i x, i ∈ ids → models f !! i = Some x →
      ∃ text, (take_snapshot sha256 (ax_device x) (adapter x)).1 = Ret text
        ∧ files (storage f') !! snapshot_name x = Some text)
  ∧ ∀ name, (∀ i x, i ∈ ids → models f !! i = Some x → snapshot_name x ≠ name) →
      files (storage f') !! name = files (storage f) !! name.
Proof.
  induction ids as [|i ids IH]; intros f f' Hfresh Hnd E; cbn [mapM_] in E.
  { injection E as <-. split_and!; [done|intros ? ? H; by apply not_elem_of_nil in H|done]. }
  apply bind_Ret_inv in E as ([] & f1 & Hs & E).
  destruct (models f !! i) as [x|] eqn:Hi; [|unfold on_axis in Hs; by rewrite Hi in Hs].
  rewrite (save_step _ _ x) in Hs by done.
  destruct (save sha256 fails torn mkstemp x (storage f)) as [r s'] eqn:Hsave. injection Hs as -> <-.
  apply save_files in Hsave as (text & Ht & Hf); [|done].
  apply IH in E as (Hm & Hsaved & Hrest); [|done|exact Hnd]. cbn [models storage] in *.
  split_and!; [exact Hm| |].
  - intros j y Hj Hy. apply elem_of_cons in Hj as [->|Hj]; [|by apply (Hsaved j)].
    rewrite Hi in Hy. injection Hy as <-.
    destruct (decide (i ∈ ids)) as [Hin|Hin]; [by apply (Hsaved i)|].
    exists text. split; [done|]. rewrite Hrest, Hf; [apply lookup_insert_eq|].
    intros j y Hj Hy Hn. assert (i = j) as ->; [|done].
    apply (NoDup_lookup _ _ _ (snapshot_name x) Hnd); rewrite list_lookup_fmap.
    + by rewrite Hi.
    + by rewrite Hy, <-Hn.
  - intros name Hname. rewrite Hrest by (intros j y Hj; apply (Hname j); by right).
    rewrite Hf. apply lookup_insert_ne, (Hname i); [by left|done].
Qed.

(** A start that returned. *)
Lemma start_inv c s f :
  fresh_names mkstemp → NoDup (map snapshot_file (cf_devices c)) →
  start_fleet create sha256 unreadable fails torn mkstemp c (Fleet [] s) = (Ret tt, f) →
  ∃ xs, Forall2 (fresh s) (cf_devices c) xs
    ∧ Forall2 (λ x x', ∃ b, loaded s b x x') xs (models f)
    ∧ (∀ x, x ∈ models f → files s !! snapshot_name x = None →
        ∃ text, (take_snapshot sha256 (ax_device x) (adapter x)).1 = Ret text
          ∧ files (storage f) !! snapshot_name x = Some text)
    ∧ ∀ name, (is_Some (files s !! name) ∨ name ∉ map snapshot_file (cf_devices c)) →
        files (storage f) !! name = files s !! name.
Proof.
  intros Hfresh Hnd E. unfold start_fleet, init_fleet, try_except in E.
  destruct ((mapM_ _ _ ;; _) (Fleet [] s)) as [[[]|e] f0] eqn:Hrun; [injection E as ->|].
  2: { apply bind_Ret_inv in E as (? & ? & _ & E). done. }
  apply bind_Ret_inv in Hrun as ([] & f1 & Hadd & Hrun).
  apply add_models_inv in Hadd as (xs & HF & ->). cbn [app] in Hrun.
  assert (Forall (λ x, disk x = s) xs) as Hdisk.
  { eapply Forall2_Forall_r; [exact HF|]. apply Forall_true. intros d x Hx. by apply fresh_facts in Hx as []. }
  assert (map snapshot_name xs = map snapshot_file (cf_devices c)) as Hnames.
  { clear -HF. induction HF as [|d x ds xs Hx _ IH]; [done|]. cbn. rewrite IH. f_equal.
    unfold snapshot_name, snapshot_file. by apply fresh_facts in Hx as [-> _]. }
  apply bind_Ret_inv in Hrun as (r & f2 & Hload & Hsave).
  rewrite (Forall2_length _ _ _ HF) in Hload.
  apply (load_models_inv xs []) in Hload as (xs' & HL & -> & Hr); [|done]. cbn [app] in Hsave.
  assert (map snapshot_name xs' = map snapshot_name xs) as Hnames'.
  { clear -HL. induction HL as [|x x' xs xs' (b & a & _ & ->) _ IH]; [done|]. cbn. by rewrite IH. }
  apply saves_inv in Hsave as (Hm & Hsaved & Hrest); [|done|by cbn [models]; rewrite Hnames', Hnames].
  cbn [models storage] in *. exists xs. rewrite Hm. split_and!; [done|done| |].
  - intros x' Hin Hnone. apply list_elem_of_lookup_1 in Hin as [i Hi].
    apply (Hsaved i); [|done]. apply Hr. right.
    destruct (Forall2_lookup_r _ _ _ _ _ HL Hi) as (x & Hx & b & a & _ & ->). by exists i, x.
  - intros name Hname. apply Hrest. intros i x' Hi Hx' <-. apply Hr in Hi as [Hi|(j & x & -> & Hj & Hn)];
      [by apply not_elem_of_nil in Hi|]. cbn in Hx'.
    destruct (Forall2_lookup_l _ _ _ _ _ HL Hj) as (y & Hy & b & a & _ & ->).
    assert (x' = x <| has_store := true |> <| adapter := a |>) as -> by congruence.
    destruct Hname as [[v Hv]|Hname]; [unfold snapshot_name in Hv; cbn in Hv; congruence|].
    apply Hname. rewrite <-Hnames. apply (list_elem_of_fmap_2 snapshot_name xs x), (list_elem_of_lookup_2 _ _ _ Hj).
Qed.
End start.

(** ** Restarting *)

Section restart.
Context {A : Type} `{DA : DictionaryAdapter A}.
Context (create : device → option string → outcome A).
Context (sha256 : string → string) (unreadable : string → bool).
Context (fails : nat → bool) (torn : nat → string → string).
Context (mkstemp : directory → string → string).

(** A constructed drive whose parameters survive a snapshot. *)
Record restartable (a : A) : Prop := {
  rt_roles : NoDup (adapter_roles a);
  rt_restorable : forallb (StoreProps.restorable (adapter_od a) (adapter_od a)) (adapter_roles a) = true;
  rt_accepts : accepts a (restored (adapter_od a) (adapter_roles a));
}.

Lemma Forall2_choose {X Y Z} (P : X → Z → Prop) (Q : Y → Z → Prop) l k :
  Forall2 (λ x y, ∃ z, P x z ∧ Q y z) l k → ∃ zs, Forall2 P l zs ∧ Forall2 Q k zs.
Proof.
  induction 1 as [|x y l k (z & HP & HQ) _ (zs & H1 & H2)]; [by exists []|].
  exists (z :: zs). by split; constructor.
Qed.

Lemma valid_device_ascii d : device_ok d → ascii_device (cd_device d) = true.
Proof.
  intros [_ _ _ Ht Hm Hmode _]. unfold ascii_device. rewrite Ht.
  repeat (apply elem_of_cons in Hm as [->|Hm]); [..|by apply not_elem_of_nil in Hm];
    (repeat (apply elem_of_cons in Hmode as [->|Hmode]); [..|by apply not_elem_of_nil in Hmode]);
    vm_compute; reflexivity.
Qed.

(** The axis of a device at the first start and at the second. *)
Lemma reload (s s2 : store) (d : config_device) x x' :
  (∀ t, is_ascii (sha256 t) = true) → device_ok d → fresh create s d x → restartable (adapter x) →
  (∃ b, loaded sha256 unreadable s b x x') → unreadable (path (cd_device d)) = false →
  (files s !! snapshot_name x' = None →
    ∃ text, (take_snapshot sha256 (ax_device x') (adapter x')).1 = Ret text
      ∧ files s2 !! snapshot_name x' = Some text) →
  (is_Some (files s !! snapshot_name x') → files s2 !! snapshot_name x' = files s !! snapshot_name x') →
  ∃ x2, loaded sha256 unreadable s2 true (x <| disk := s2 |>) x2
    ∧ ax_device x2 = ax_device x' ∧ (parameter_values (adapter x2)).1 = (parameter_values (adapter x')).1.
Proof.
  intros Hsha Hd Hx [Hnd Hrest Hacc] (b & a & Hl & ->) Hun Hnone Hsome.
  destruct (fresh_facts _ _ _ _ Hx) as [Hdev _]. unfold snapshot_name in *. cbn in Hnone, Hsome |- *.
  rewrite Hdev in *. unfold loaded. cbn. rewrite Hdev.
  destruct (files s !! path (cd_device d)) as [content|] eqn:Hf.
  - assert (b = true) as ->.
    { unfold load in Hl. rewrite Hf, Hun in Hl. apply bind_Ret_inv in Hl as (? & ? & _ & Hm). by injection Hm. }
    exists (x <| disk := s2 |> <| has_store := true |> <| adapter := a |>). split; [|done].
    exists a. split; [|done]. unfold load in Hl |- *. rewrite Hf in Hl. by rewrite (Hsome ltac:(by eexists)).
  - unfold load in Hl. rewrite Hf in Hl. injection Hl as <- <-.
    destruct (Hnone eq_refl) as (text & Ht & Hfile).
    destruct (load_restores_text sha256 unreadable s2 (cd_device d) (adapter x) (adapter x) text)
      as (a2 & Hload & Hp & _); [done|by apply valid_device_ascii|done..|].
    exists (x <| disk := s2 |> <| has_store := true |> <| adapter := a2 |>). split; [by exists a2|done].
Qed.

(** C16. A restart restores.  When a fleet with a valid configuration has started,
    every axis has a snapshot; the snapshots that were there before and all
    other files are as they were.  Whenever the process starts again on these
    files, it loads the snapshots of all axes, writes nothing, and every axis
    has the parameter values it had after the first start. *)
Theorem restart_restores c s f :
  valid_config c → fresh_names mkstemp → (∀ t, is_ascii (sha256 t) = true) →
  (∀ d x, d ∈ cf_devices c → fresh create s d x → restartable (adapter x)) →
  (∀ d, d ∈ cf_devices c → unreadable (path (cd_device d)) = false) →
  start_fleet create sha256 unreadable fails torn mkstemp c (Fleet [] s) = (Ret tt, f) →
  (∀ d, d ∈ cf_devices c → is_Some (files (storage f) !! path (cd_device d)))
  ∧ (∀ name, is_Some (files s !! name) ∨ name ∉ map snapshot_file (cf_devices c) →
       files (storage f) !! name = files s !! name)
  ∧ ∀ s2, files s2 = files (storage f) →
      ∃ f2, start_fleet create sha256 unreadable fails torn mkstemp c (Fleet [] s2) = (Ret tt, f2)
        ∧ storage f2 = s2
        ∧ Forall2 (λ x x2, ax_device x2 = ax_device x
            ∧ (parameter_values (adapter x2)).1 = (parameter_values (adapter x)).1) (models f) (models f2).
Proof.
  intros Hv Hfresh Hsha Hrt Hun E.
  pose proof (snapshot_files_NoDup _ (vc_sets _ Hv)) as Hnd.
  destruct (start_inv _ _ _ _ _ _ _ _ _ Hfresh Hnd E) as (xs & HF & HL & Hsaved & Hrest).
  assert (∀ i d, cf_devices c !! i = Some d → ∃ x x', xs !! i = Some x ∧ models f !! i = Some x'
    ∧ fresh create s d x ∧ (∃ b, loaded sha256 unreadable s b x x') ∧ snapshot_name x' = path (cd_device d)) as Hall.
  { intros i d Hd. destruct (Forall2_lookup_l _ _ _ _ _ HF Hd) as (x & Hx & Hfr).
    destruct (Forall2_lookup_l _ _ _ _ _ HL Hx) as (x' & Hx' & Hl). exists x, x'. split_and!; try done.
    destruct Hl as (b & a & _ & ->). unfold snapshot_name. cbn. by destruct (fresh_facts _ _ _ _ Hfr) as [-> _]. }
  split_and!; [|done|].
  - intros d [i Hd]%list_elem_of_lookup_1. destruct (Hall i d Hd) as (x & x' & _ & Hx' & _ & _ & Hn).
    rewrite <-Hn. destruct (files s !! snapshot_name x') as [v|] eqn:Hf.
    + rewrite Hrest by (left; by eexists). by eexists.
    + destruct (Hsaved x') as (text & _ & Ht); [by apply (list_elem_of_lookup_2 _ i)|done|by exists text].
  - intros s2 Hs2.
    assert (Forall2 (λ x x', ∃ x2, loaded sha256 unreadable s2 true (x <| disk := s2 |>) x2
      ∧ ax_device x2 = ax_device x' ∧ (parameter_values (adapter x2)).1 = (parameter_values (adapter x')).1)
      xs (models f)) as (xs2 & HL2 & Hpar)%Forall2_choose.
    { apply Forall2_same_length_lookup_2; [by eapply Forall2_length|]. intros i x x' Hx Hx'.
      destruct (Forall2_lookup_r _ _ _ _ _ HF Hx) as (d & Hd & Hfr).
      destruct (Hall i d Hd) as (y & y' & Hy & Hy' & _ & Hl & Hn).
      assert (y = x) as -> by congruence. assert (y' = x') as -> by congruence.
      apply list_elem_of_lookup_2 in Hd as Hin. pose proof (vc_devices _ Hv) as Hok. rewrite Forall_forall in Hok.
      apply (reload s s2 d x x'); try done; [by apply Hok|by apply (Hrt d)|by apply Hun| |]; rewrite Hs2.
      - apply Hsaved. by apply (list_elem_of_lookup_2 _ i).
      - intros Hsome. apply Hrest. by left. }
    exists (Fleet xs2 s2). split_and!; [|done|exact Hpar].
    assert (Forall2 (fresh create s2) (cf_devices c) (map (λ x, x <| disk := s2 |>) xs)) as HF2.
    { apply Forall2_fmap_r. eapply Forall2_impl; [exact HF|]. intros d x. apply fresh_disk. }
    unfold start_fleet, init_fleet, try_except, mbind, M_bind.
    rewrite (add_models_run _ _ _ [] _ HF2). cbn [app]. rewrite (Forall2_length _ _ _ HF2).
    assert (Forall2 (loaded sha256 unreadable s2 true) (map (λ x, x <| disk := s2 |>) xs) xs2) as HL3
      by by apply Forall2_fmap_l.
    pose proof (λ H1, load_models_run sha256 unreadable _ xs2 [] [] s2 H1 HL3) as HR.
    cbn [length app] in HR. rewrite HR; [done|].
    apply Forall_forall. by intros x (y & -> & _)%list_elem_of_fmap.
Qed.
End restart.

(** ** The end of the process *)

Section ending.
Context {A : Type} `{DA : DriveAdapter A}.
Context (perf cpu unix : nat → Z) (clock mono : nat → nat → float).
Context (create : device → option string → outcome A).
Context (sha256 : string → string) (unreadable : string → bool).
Context (fails : nat → bool) (torn : nat → string → string).
Context (mkstemp : directory → string → string) (busy : bool).
Context (loads : list byte → outcome request) (dumps : reply → list byte).
Context (host : socket_host) (identity_of : Z * Z * Z).

(** No drive fails to close. *)
Context (Hclose : ∀ a : A, is_ret (adapter_close a).1 = true).

(** The drive of the axis has been closed. *)
Definition released (x : axis A store) : Prop := ∃ a, adapter x = (adapter_close a).2.

Lemma close_axes ids : ∀ f : fleet A store,
  Forall (λ i, (i < length (models f))%nat) ids →
  ∃ f', mapM_ (λ i, on_axis i close_axis) ids f = (Ret tt, f') ∧ length (models f') = length (models f)
    ∧ ∀ i x, models f' !! i = Some x →
        i ∈ ids ∨ (∃ y, models f !! i = Some y ∧ released y) → released x.
Proof.
  induction ids as [|i ids IH]; intros f Hids; cbn [mapM_].
  { exists f. split_and!; [done|done|]. intros i x Hx [H|(y & Hy & Hr)]; [by apply not_elem_of_nil in H|congruence]. }
  apply Forall_cons in Hids as [Hi Hids].
  destruct (lookup_lt_is_Some_2 (models f) i Hi) as [x Hx]. unfold mbind, M_bind. rewrite (on_axis_run _ _ _ x) by done.
  unfold close_axis, on_adapter, zoom. cbn [adapter]. specialize (Hclose (adapter x)).
  change (adapter (x <| disk := storage f |>)) with (adapter x).
  destruct (adapter_close (adapter x)) as [[[]|e] a] eqn:Hc; [|done].
  set (x' := _ <| disk := disk x |>). assert (released x') as Hrx by (exists (adapter x); by rewrite Hc).
  destruct (IH (Fleet (<[i := x']> (models f)) (disk (x <| disk := storage f |> <| adapter := a |>)))) as (f' & Hf & Hl & Hr).
  { cbn [models]. by rewrite length_insert. }
  exists f'. cbn [models] in Hl, Hr. rewrite length_insert in Hl. split_and!; [exact Hf|done|].
  intros j y Hy Hj. apply (Hr j y Hy). destruct (decide (i = j)) as [->|Hne].
  - right. exists x'. split; [by apply list_lookup_insert_eq|done].
  - destruct Hj as [Hj|(z & Hz & Hzr)].
    + left. by apply elem_of_cons in Hj as [->|Hj].
    + right. exists z. split; [by rewrite list_lookup_insert_ne|done].
Qed.

Lemma close_all (f : fleet A store) : ∃ f', close_fleet f = (Ret tt, f') ∧ Forall released (models f').
Proof.
  unfold close_fleet. rewrite bind_gets.
  destruct (close_axes (reverse (seq 0 (length (models f)))) f) as (f' & Hf & Hl & Hr).
  { apply Forall_forall. intros i. rewrite elem_of_reverse, elem_of_seq. lia. }
  exists f'. split; [exact Hf|]. apply Forall_forall. intros x [i Hi]%list_elem_of_lookup_1.
  apply (Hr i x Hi). left. rewrite elem_of_reverse, elem_of_seq. apply lookup_lt_Some in Hi. lia.
Qed.

(** A construction that fails closes what it has constructed. *)
Lemma start_raises c f e f' :
  start_fleet create sha256 unreadable fails torn mkstemp c f = (Raise e, f') → Forall released (models f').
Proof.
  unfold start_fleet, init_fleet, try_except. intros E.
  destruct ((mapM_ _ _ ;; _) f) as [[|e1] f1]; [done|]. destruct (close_all f1) as (f2 & Hc & Hr).
  unfold mbind, M_bind in E. rewrite Hc in E. by injection E as _ <-.
Qed.

Lemma process_closed a c s :
  locked s = false →
  let '(r, s') := fleet_service perf cpu unix clock mono create sha256 unreadable fails torn mkstemp busy loads dumps host
    identity_of a c (new_session (Fleet [] s)) in
  locked (storage (owner s')) = false
  ∧ Forall released (models (owner s'))
  ∧ (busy = true → is_ret r = false ∧ owner s' = Fleet [] (storage (owner s')) ∧ printed s' = [] ∧ sent s' = []).
Proof.
  intros Hl. unfold fleet_service. rewrite lift_bind.
  destruct c as [c|e]; [|cbn; split_and!; [done|constructor|done]].
  pose proof (enter_locked fails busy s Hl) as Henter. unfold mbind at 1, M_bind at 1.
  unfold on_owner at 1, on_storage at 1, zoom at 1 2. cbn [new_session owner storage].
  destruct (enter fails busy s) as [[[]|e] s1]; destruct Henter as [He Hbusy]; cbn [is_ret] in He, Hbusy;
    [|cbn; split_and!; [done|constructor|done]].
  assert (busy = true → False) as Hfree by (intros H; by apply Hbusy in H).
  unfold try_finally at 1.
  match goal with |- context [(on_owner (start_fleet _ _ _ _ _ _ _) ;; ?k) ?s0] =>
    assert (Forall released (models (owner ((on_owner (start_fleet create sha256 unreadable fails torn mkstemp c) ;; k) s0).2)))
      as Hrel;
    [|destruct ((on_owner (start_fleet create sha256 unreadable fails torn mkstemp c) ;; k) s0) as [r s2]] end.
  - unfold mbind, M_bind, on_owner at 1, zoom at 1.
    destruct (start_fleet _ _ _ _ _ _ c _) as [[[]|e] f] eqn:Hs; [|by apply start_raises in Hs].
    unfold try_finally. destruct (present _ _ _ _ _ _ _ _ _ _ _ a _) as [r s2].
    destruct (close_all (owner s2)) as (f2 & Hc & Hr). unfold on_owner, zoom. by rewrite Hc.
  - cbn. split_and!; [done|exact Hrel|done].
Qed.

#[local] Instance inv_finally {S R} (P : S → Prop) (m : M S R) (h : M S ()) :
  Inv P m → Inv P h → Inv P (try_finally m h).
Proof.
  intros Hm Hh s Hs. unfold try_finally. specialize (Hm s Hs). destruct (m s) as [r s1].
  specialize (Hh s1 Hm). by destruct (h s1) as [[] s2].
Qed.

(** Without a timing, of which a report may raise. *)
Local Abbreviation unbound := (λ s : session (fleet A store), bound s = false ∧ timings s = None).

#[local] Instance on_owner_unbound {R} (m : M (fleet A store) R) : Inv unbound (on_owner m).
Proof. intros s Hs. unfold on_owner, zoom. by destruct (m (owner s)). Qed.

Lemma modify_unbound (g : session (fleet A store) → session (fleet A store)) :
  (∀ s, bound (g s) = bound s ∧ timings (g s) = timings s) → Inv unbound (modify g).
Proof. intros Hg s Hs. cbn. destruct (Hg s) as [-> ->]. done. Qed.

Lemma serve_stream_untimed {S} (dispatch : request → M S reply) dispatch_timed stream s :
  timings s = None →
  timings (serve_stream perf cpu unix dispatch dispatch_timed loads dumps stream s).2 = None.
Proof.
  intros Ht. unfold serve_stream. rewrite Ht.
  by destruct (serve dispatch loads dumps stream (owner s)) as [[[r out] o]|].
Qed.

Lemma serve_unbound (dispatch : request → M (fleet A store) reply) dispatch_timed :
  (∀ n, sk_fails host n = false) →
  Inv unbound (serve_socket perf cpu unix dispatch dispatch_timed loads dumps host).
Proof.
  intros Hok s [Hs Ht]. unfold serve_socket, socket_call. rewrite !Hok.
  destruct (sk_exists host); [done|]. rewrite lift_bind. destruct (sk_mode host) as [mode|]; [|done].
  destruct (negb _); [done|]. unfold try_finally, mbind, M_bind, mret, M_ret, modify. cbn -[serve_stream].
  set (s1 := s <| bound := true |>). assert (timings s1 = None) as Ht1 by done.
  destruct (sk_accept host) as [stream|e]; cbn -[serve_stream].
  - pose proof (serve_stream_untimed dispatch dispatch_timed stream s1 Ht1) as H2.
    destruct (serve_stream _ _ _ _ _ _ _ _ s1) as [r s2]. cbn in H2.
    unfold stop_timing. rewrite H2. done.
  - unfold stop_timing. rewrite Ht1. done.
Qed.

Lemma service_unbound a c :
  arg_timing a = false → (∀ n, sk_fails host n = false) →
  Inv unbound (fleet_service perf cpu unix clock mono create sha256 unreadable fails torn mkstemp busy loads dumps host
    identity_of a c).
Proof.
  intros Ha Hok. pose proof (λ d d', serve_unbound d d' Hok). unfold fleet_service, present. rewrite Ha.
  apply inv_bind; [apply _|]. intros c0. apply inv_bind; [apply _|]. intros _.
  apply inv_finally; [|apply _]. apply inv_bind; [apply _|]. intros _. apply inv_finally; [|apply _].
  apply inv_bind; [|intros _; apply inv_bind; [apply _|intros d; apply inv_bind; [by apply modify_unbound|intros _]]].
  - apply inv_when, inv_bind; [apply _|]. intros l. by apply modify_unbound.
  - apply inv_bind; [apply _|intros _]. by apply inv_when.
Qed.

(** C14. The process leaves nothing open.  When no drive fails to close, then
    however the process ends - served to the end, or by an exception of the
    configuration, the storage, a drive, a snapshot, the socket or a request -
    every axis of the fleet has its drive closed and the lock of the storage
    is free; and when another process holds the lock, no axis is constructed,
    no request is answered and the process ends with an exception.  The socket
    is not left behind unless a system call around it fails, or a report of the
    timing is in the way (it is not: ServiceTiming.v). *)
Theorem process_ends_clean a c s :
  locked s = false →
  let '(r, s') := fleet_service perf cpu unix clock mono create sha256 unreadable fails torn mkstemp busy loads dumps host
    identity_of a c (new_session (Fleet [] s)) in
  locked (storage (owner s')) = false
  ∧ Forall released (models (owner s'))
  ∧ (busy = true → is_ret r = false ∧ owner s' = Fleet [] (storage (owner s')) ∧ printed s' = [] ∧ sent s' = [])
  ∧ (arg_timing a = false → (∀ n, sk_fails host n = false) → bound s' = false).
Proof.
  intros Hl. pose proof (process_closed a c s Hl) as H1.
  pose proof (λ Ha Hok, service_unbound a c Ha Hok (new_session (Fleet [] s)) (conj eq_refl eq_refl)) as H2.
  destruct (fleet_service _ _ _ _ _ _ _ _ _ _ _ _ _ _ _ _ _ _ _) as [r s'].
  destruct H1 as (Hlock & Hrel & Hbusy). split_and!; [done..|]. intros Ha Hok. by destruct (H2 Ha Hok).
Qed.
End ending.

(** ** A restart of two axes *)

(** The constructor of an axis only reads its drive. *)
Lemma fresh_adapter {A} `{DriveAdapterLaws A} create (s : store) d (x : axis A store) :
  fresh create s d x → create (cd_device d) (cd_artifact d) = Ret (adapter x).
Proof.
  intros (a & -> & Hx). f_equal. unfold new_axis in Hx.
  apply outcome_bind_inv in Hx as (? & _ & Hx). apply outcome_bind_inv in Hx as (? & _ & Hx).
  rewrite (reader_run (axis_entries _)) in Hx. destruct (axis_entries _ a).1 as [es|]; [|done].
  rewrite (reader_run adapter_read_inputs) in Hx. destruct (adapter_read_inputs a).1 as [i|]; [|done].
  by injection Hx as <-.
Qed.

Lemma Ret_inj {A} (a b : A) : Ret a = Ret b → a = b.
Proof. by injection 1. Qed.

Definition demo_device (i : Z) (id set : string) : config_device :=
  ConfigDevice (Device i id "cia402-drive" "f_kr_cmmt" "linear" set) None.

Definition demo_config : config :=
  Config "enp1s0" "/state" [demo_device 0 "x" "x-1"; demo_device 1 "y" "y-1"].

Lemma demo_config_valid : valid_config demo_config.
Proof. solve_valid_config. Qed.

(** The first axis has a snapshot, with a changed parameter. *)
Definition demo_directory : store :=
  match (take_snapshot (λ _, "digest") (cd_device (demo_device 0 "x" "x-1")) changed_adapter).1 with
  | Ret text => Store {[ "x-1.json" := text ]} true 0 []
  | Raise _ => Store ∅ true 0 []
  end.

Definition demo_start (s : store) : outcome () * fleet FKrCmmtAdapter store :=
  start_fleet (λ _ _, Ret linear_adapter) (λ _, "digest") (λ _, false) (λ _, false) (λ _ t, t)
    (λ d p, fresh_string p d) demo_config (Fleet [] s).

Lemma demo_start_eq s :
  demo_start s = start_fleet (λ _ _, Ret linear_adapter) (λ _, "digest") (λ _, false) (λ _, false) (λ _ t, t)
    (λ d p, fresh_string p d) demo_config (Fleet [] s).
Proof. reflexivity. Qed.

Definition demo_fleet : fleet FKrCmmtAdapter store := (demo_start demo_directory).2.


Lemma linear_restartable : restartable linear_adapter.
Proof.
  constructor.
  - apply (bool_decide_unpack (NoDup _)). vm_compute. exact I.
  - vm_compute. reflexivity.
  - exact I.
Qed.

Lemma demo_ok : (demo_start demo_directory).1 = Ret tt.
Proof. vm_compute. reflexivity. Qed.

Lemma restart_restores_witness :
  ∃ f2, demo_start (storage demo_fleet) = (Ret tt, f2) ∧ storage f2 = storage demo_fleet
    ∧ Forall2 (λ x x2, ax_device x2 = ax_device x
        ∧ (parameter_values (adapter x2)).1 = (parameter_values (adapter x)).1) (models demo_fleet) (models f2).
Proof.
  assert (demo_start demo_directory = (Ret tt, demo_fleet)) as E.
  { pose proof demo_ok as E. unfold demo_fleet. rewrite demo_start_eq in E |- *. apply ran_ok, E. }
  rewrite demo_start_eq in E. rewrite demo_start_eq.
  destruct (restart_restores (λ _ _, Ret linear_adapter) (λ _, "digest") (λ _, false) (λ _, false) (λ _ t, t)
    (λ d p, fresh_string p d) demo_config demo_directory demo_fleet) as (_ & _ & H).
  - exact demo_config_valid.
  - exact fresh_string_names.
  - intros t. vm_compute. reflexivity.
  - intros d x _ Hx. apply fresh_adapter, Ret_inj in Hx. rewrite <-Hx. exact linear_restartable.
  - done.
  - exact E.
  - exact (H (storage demo_fleet) eq_refl).
Defined.

Lemma process_ends_clean_witness :
  locked (storage (owner (fleet_service (λ _, 0) (λ _, 0) (λ _, 0) (λ _ _, f_zero) (λ _ _, f_zero) (λ _ _, Ret linear_adapter) (λ _, "digest")
    (λ _, false) (λ _, false) (λ _ t, t) (λ d p, fresh_string p d) false (λ _, Raise ValueError) (λ _, [])
    (SocketHost false (Ret 0x1C0) (λ _, false) (Raise OSError)) (1, 2, 3) (Arguments Environment None (Some "/run/model.sock") false) (Ret demo_config)
    (new_session (Fleet [] (Store ∅ false 0 [])))).2)) = false.
Proof.
  pose proof (process_ends_clean (λ _, 0) (λ _, 0) (λ _, 0) (λ _ _, f_zero) (λ _ _, f_zero) (λ _ _, Ret linear_adapter) (λ _, "digest")
    (λ _, false) (λ _, false) (λ _ t, t) (λ d p, fresh_string p d) false (λ _, Raise ValueError) (λ _, [])
    (SocketHost false (Ret 0x1C0) (λ _, false) (Raise OSError)) (1, 2, 3) (λ a, eq_refl) (Arguments Environment None (Some "/run/model.sock") false)
    (Ret demo_config) (Store ∅ false 0 []) eq_refl) as H.
  destruct (fleet_service _ _ _ _ _ _ _ _ _ _ _ _ _ _ _ _ _ _ _) as [r s']. exact (proj1 H).
Defined.
