(* ===== verification/ServiceTiming.v ===== *)
(** * The model process with and without timing

    src/functional_model/runtime/service.py ([main]) with [--timing] (Service.v,
    TimedServer.v): the process with the option does what the process without
    it does, up to the samples and the reports it keeps. *)

From stdpp Require Import stringmap.
From S2P Require Import Prelude PyFloat.
From S2P Require Export Service ServiceProps.

Open Scope string_scope.
Open Scope list_scope.
Open Scope Z_scope.

(** The session without its timing. *)
Definition forget {S} (s : session S) : session S := s <| timings := None |>.

(** From a timing with [P], [m'] does to a session what [m] does to the session
    without timing, and ends with a timing that has [Q]. *)
Definition forgets {S R} (P Q : option timing → Prop) (m m' : M (session S) R) : Prop :=
  ∀ s, P (timings s) →
    let '(r, s1) := m' s in m (forget s) = (r, forget s1) ∧ Q (timings s1).

Section forgets.
Context {S : Type}.
Implicit Types P Q : option timing → Prop.

Lemma forgets_weaken {R} P P' Q Q' (m m' : M (session S) R) :
  (∀ t, P' t → P t) → (∀ t, Q t → Q' t) → forgets P Q m m' → forgets P' Q' m m'.
Proof.
  intros HP HQ Hm s Hs. specialize (Hm s (HP _ Hs)). destruct (m' s) as [r s1]. destruct Hm. auto.
Qed.

Lemma forgets_bind {R T} P Mid Q (m m' : M (session S) R) (k k' : R → M (session S) T) :
  forgets P Mid m m' → (∀ t, Mid t → Q t) → (∀ a, forgets Mid Q (k a) (k' a)) →
  forgets P Q (m ≫= k) (m' ≫= k').
Proof.
  intros Hm HQ Hk s Hs. specialize (Hm s Hs). unfold mbind, M_bind.
  destruct (m' s) as [[a|e] s1]; destruct Hm as [-> H1]; [by apply Hk|auto].
Qed.

Lemma forgets_finally {R} P Mid Q (m m' : M (session S) R) h h' :
  forgets P Mid m m' → forgets Mid Q h h' → forgets P Q (try_finally m h) (try_finally m' h').
Proof.
  intros Hm Hh s Hs. specialize (Hm s Hs). unfold try_finally.
  destruct (m' s) as [r s1]. destruct Hm as [-> H1]. specialize (Hh s1 H1).
  destruct (h' s1) as [[[]|e] s2]; destruct Hh as [-> H2]; done.
Qed.

Lemma forgets_when b P Q (m m' : M (session S) ()) :
  (∀ t, P t → Q t) → forgets P Q m m' → forgets P Q (when b m) (when b m').
Proof. intros HQ Hm. destruct b; [done|]. intros s Hs. cbn. auto. Qed.

Lemma forgets_lift {R} (o : outcome R) P : forgets (S:=S) P P (lift o) (lift o).
Proof. by intros s Hs. Qed.

Lemma forgets_raise {R} e P Q : (∀ t, P t → Q t) → forgets (S:=S) (R:=R) P Q (raise e) (raise e).
Proof. intros HQ s Hs. split; [done|]. by apply HQ. Qed.

Lemma forgets_owner {R} (m : M S R) P : forgets P P (on_owner m) (on_owner m).
Proof. intros s Hs. unfold on_owner, zoom. cbn. by destruct (m (owner s)). Qed.

Lemma forgets_modify (g : session S → session S) P :
  (∀ s, g (forget s) = forget (g s)) → (∀ s, timings (g s) = timings s) → forgets P P (modify g) (modify g).
Proof. intros H1 H2 s Hs. unfold modify. rewrite H1, H2. done. Qed.

Lemma forgets_socket_call n P host : forgets (S:=S) P P (socket_call host n) (socket_call host n).
Proof. unfold socket_call. destruct (sk_fails host n); [by apply forgets_raise|by intros s Hs]. Qed.
End forgets.

Section timing.
Context (perf cpu unix : nat → Z).
Context (Hperf : ∀ n, 0 ≤ perf n < clock_bound) (Hcpu : ∀ n, 0 ≤ cpu n < clock_bound).
Context (Hunix : ∀ n, 0 ≤ unix n < clock_bound).
Context (loads : list byte → outcome request) (dumps : reply → list byte) (host : socket_host).
Context (Hstream : ∀ stream, sk_accept host = Ret stream → Z.of_nat (length stream) < 2 ^ 64).

(** No timing, or one whose buckets count fewer than [2 ^ 90] samples. *)
Definition sane (t : option timing) : Prop := match t with Some t => timing_ok (2 ^ 90) t | None => True end.
Definition fresh_timing (t : option timing) : Prop := match t with Some t => timing_ok 0 t | None => True end.

Lemma fresh_sane t : fresh_timing t → sane t.
Proof. destruct t as [t|]; [|done]. cbn. apply timing_ok_more. done. Qed.

Section serving.
Context {S : Type} (dispatch : request → M S reply) (dispatch_timed : request → M (S * timing) reply).
Context (Hdispatch : ∀ r, shadows 4 (dispatch r) (dispatch_timed r)).
Context (Hop : ∀ r s a, (dispatch r s).1 = Ret a → is_Some (rq_op r)).

Local Abbreviation stream_of := (serve_stream perf cpu unix dispatch dispatch_timed loads dumps).

Lemma forgets_stream stream :
  Z.of_nat (length stream) < 2 ^ 64 → forgets fresh_timing sane (stream_of stream) (stream_of stream).
Proof.
  intros Hl s Hs. unfold serve_stream. change (timings (forget s)) with (None (A:=timing)).
  change (owner (forget s)) with (owner s). unfold serve.
  destruct (timings s) as [t|] eqn:Ht.
  - destruct (serve_loop_ok perf cpu unix Hperf Hcpu Hunix dispatch dispatch_timed loads dumps Hdispatch Hop
      (Datatypes.S (length stream)) stream [] 0 (owner s) t) as (t1 & Ht1 & ->); [lia|lia|exact Hs|].
    destruct (serve_loop _ _ _ _ _ _ _) as [[[r out] o]|]; cbn.
    + split; [done|]. apply (timing_ok_more (0 + 10 * Z.of_nat (Datatypes.S (length stream)))); [lia|done].
    + rewrite Ht. split; [done|]. apply fresh_sane, Hs.
  - destruct (serve_loop _ _ _ _ _ _ _) as [[[r out] o]|]; cbn; by rewrite Ht.
Qed.

Lemma forgets_stop : forgets (S:=S) sane (λ _, True) (stop_timing perf cpu unix) (stop_timing perf cpu unix).
Proof.
  intros s Hs. unfold stop_timing. change (timings (forget s)) with (None (A:=timing)).
  destruct (timings s) as [t|]; [|done].
  destruct (flush_ok perf cpu unix Hperf Hcpu Hunix (2 ^ 90) "stop" t) as (t1 & -> & _); [lia|exact Hs|done].
Qed.

Local Abbreviation socket_of := (serve_socket perf cpu unix dispatch dispatch_timed loads dumps host).

Lemma forgets_socket : forgets fresh_timing (λ _, True) socket_of socket_of.
Proof.
  unfold serve_socket. destruct (sk_exists host); [by apply forgets_raise|].
  eapply forgets_bind; [apply forgets_lift|done|intros mode].
  destruct (negb _); [by apply forgets_raise|].
  do 2 (eapply forgets_bind; [apply forgets_socket_call|done|intros _]).
  eapply forgets_bind; [by apply forgets_modify|done|intros _].
  do 2 (eapply forgets_bind; [apply forgets_socket_call|done|intros _]).
  apply (forgets_finally _ sane).
  - intros s Hs. rewrite !lift_bind. destruct (sk_accept host) as [stream|e] eqn:E.
    + apply forgets_stream; auto.
    + split; [done|]. by apply fresh_sane.
  - eapply forgets_bind; [apply forgets_stop|done|intros _].
    eapply forgets_bind; [apply forgets_socket_call|done|intros _]. by apply forgets_modify.
Qed.

(** The statements behind the construction, with and without the option. *)
Lemma forgets_present describe generate axes (a : arguments) :
  let present_of := present perf cpu unix describe generate axes dispatch dispatch_timed loads dumps host in
  forgets fresh_timing (λ _, True)
    (present_of (a <| arg_timing := false |>)) (present_of (a <| arg_timing := true |>)).
Proof.
  unfold present. cbn [arg_timing arg_fixture_dir arg_socket].
  eapply forgets_bind; [apply forgets_when; [done|]|done|intros _].
  { eapply forgets_bind; [apply forgets_owner|done|intros l]. by apply forgets_modify. }
  eapply forgets_bind; [apply forgets_owner|done|intros d].
  eapply forgets_bind; [by apply forgets_modify|done|intros _].
  apply (forgets_bind _ fresh_timing); [|done|intros _; apply forgets_when; [done|apply forgets_socket]].
  intros s Hs. cbn. split; [done|]. split; [apply Hperf|apply Hperf|constructor].
Qed.
End serving.

Section process.
Context {A : Type} `{DA : DriveAdapter A}.
Context (clock mono : nat → nat → float).
Context (create : device → option string → outcome A).
Context (sha256 : string → string) (unreadable : string → bool).
Context (fails : nat → bool) (torn : nat → string → string).
Context (mkstemp : directory → string → string) (busy : bool).
Context (resolve : string → string) (identity_of : Z * Z * Z).

Local Abbreviation fleet_of :=
  (fleet_service perf cpu unix clock mono create sha256 unreadable fails torn mkstemp busy loads dumps host identity_of).

Lemma forgets_fleet (a : arguments) c :
  forgets fresh_timing (λ _, True) (fleet_of (a <| arg_timing := false |>) c) (fleet_of (a <| arg_timing := true |>) c).
Proof.
  unfold fleet_service. eapply forgets_bind; [apply forgets_lift|done|intros c0].
  eapply forgets_bind; [apply forgets_owner|done|intros _].
  apply (forgets_finally _ (λ _, True)); [|apply forgets_owner].
  eapply forgets_bind; [apply forgets_owner|done|intros _].
  apply (forgets_finally _ (λ _, True)); [|apply forgets_owner].
  apply forgets_present; [intros r; by apply shadows_fleet|intros r f b; apply dispatch_fleet_op].
Qed.

Definition forget_ending (e : ending (A:=A)) : ending (A:=A) :=
  match e with
  | Usage => Usage
  | FleetEnded r s => FleetEnded r (forget s)
  | AxisEnded r s => AxisEnded r (forget <$> s)
  end.

(** C34. Timing changes nothing.  With clocks that count nanoseconds in 64 bits and
    a connection of less than 2 ^ 64 bytes, the process with [--timing] ends as
    the process without it does, with the same files, drives, descriptions and
    bytes on the socket: the timing and its reports are all that differs.  No
    sample and no report raises, and none is in the way of a request. *)
Theorem timing_changes_nothing env_file env base (a : arguments) s :
  let main_of a := main perf cpu unix clock mono create sha256 unreadable fails torn mkstemp busy resolve
    loads dumps host identity_of env_file env base a s in
  main_of (a <| arg_timing := false |>) = forget_ending (main_of (a <| arg_timing := true |>)).
Proof.
  cbv zeta. unfold main. cbn [arg_fixture_dir arg_socket]. destruct (_ && _); [done|].
  change (configuration resolve env_file env base (a <| arg_timing := true |>))
    with (configuration resolve env_file env base (a <| arg_timing := false |>)).
  destruct (configuration _ _ _ _ _) as [c|].
  - pose proof (forgets_fleet a c (new_session (Fleet [] s)) I) as H.
    destruct (fleet_of _ c _) as [r s1]. destruct H as [H _].
    change (new_session (Fleet [] s)) with (forget (new_session (Fleet [] s) : session (fleet A store))).
    by rewrite H.
  - unfold axis_service. destruct (a0 ← _; _) as [x|e]; [|done].
    pose proof (forgets_finally fresh_timing (λ _, True) (λ _, True) _ _ (on_owner close_axis) (on_owner close_axis)
      (forgets_present _ _ (shadows_dispatch perf cpu Hperf Hcpu (clock 0%nat) (mono 0%nat)
        (axis_save sha256 fails torn mkstemp)) (dispatch_op _ _ _)
        (c ← describe; mret (RDescribe c)) (e ← axis_fixture identity_of; mret [(0, e)]) (λ _, 1) a)
      (forgets_owner _ _) (new_session x) I) as H.
    destruct (try_finally _ _ (new_session x)) as [r s1]. destruct H as [H _].
    change (new_session x) with (forget (new_session x : session (axis A store))).
    by rewrite H.
Qed.
End process.
End timing.

(** ** Witness

    A fleet of four axes behind the environment, with clocks that advance a
    second with every reading; the connection carries two cycles of an axis. *)

Definition seconds (n : nat) : Z := 1000000000 * (Z.of_nat n mod 1000).

Definition cycle_loads (raw : list byte) : outcome request :=
  Ret ((cycle_request 6 1) <| rq_slave_index := Some (PInt 2) |>).

Definition demo_host : socket_host :=
  SocketHost false (Ret 0x1C0) (λ _, false) (Ret [x63; x0a; x63; x0a]).

Definition demo_process (timing : bool) : ending (A:=FKrCmmtAdapter) :=
  main seconds seconds seconds (λ _, still) (λ _, ticks) (λ _ _, Ret linear_adapter) (λ _, "digest") (λ _, false)
    (λ _, false) (λ _ t, t) (λ d p, fresh_string p d) false (λ p, p) cycle_loads letter_dumps demo_host (1, 2, 3)
    (λ _, Raise OSError) four_axes_env "/base" (Arguments Environment None (Some "/run/model.sock") timing)
    (Store ∅ false 0 []).

(** The bytes that were sent and the reports of the timing. *)
Definition sent_reported (e : ending (A:=FKrCmmtAdapter)) : option (bool * nat * option nat) :=
  match e with
  | FleetEnded r s => Some (is_ret r, length (sent s), (λ t, length (Timing.reports t)) <$> timings s)
  | _ => None
  end.

Example demo_processes :
  (sent_reported (demo_process false), sent_reported (demo_process true))
  = (Some (true, 58%nat, None), Some (true, 58%nat, Some 3%nat)).
Proof. vm_compute. reflexivity. Qed.

Lemma timing_changes_nothing_witness : demo_process false = forget_ending (demo_process true).
Proof.
  assert (∀ n, 0 ≤ seconds n < clock_bound) as Hs.
  { intros n. unfold seconds, clock_bound. pose proof (Z.mod_pos_bound (Z.of_nat n) 1000 ltac:(lia)). lia. }
  exact (timing_changes_nothing seconds seconds seconds Hs Hs Hs cycle_loads letter_dumps demo_host
    ltac:(intros stream [= <-]; done) (λ _, still) (λ _, ticks) (λ _ _, Ret linear_adapter) (λ _, "digest")
    (λ _, false) (λ _, false) (λ _ t, t) (λ d p, fresh_string p d) false (λ p, p) (1, 2, 3)
    (λ _, Raise OSError) four_axes_env "/base" (Arguments Environment None (Some "/run/model.sock") false)
    (Store ∅ false 0 [])).
Defined.
