(* ===== verification/WireProps.v ===== *)
(** * What an axis says can be read

    The replies of src/functional_model/runtime/axis.py ([Model.dispatch])
    carry floats only in the times of a fault, and these are readings of the
    clock.  So a client reads back every reply but a description, whose names
    come from the device files, when the times of the clock read back, as
    Python promises of finite floats, and the texts of the diagnostics are
    ASCII.

    The proof is a walk along the code: [Yields I m Q] says that [m] keeps the
    invariant [I] of the state and that what it answers has [Q]. *)

From stdpp Require Import fin_maps stringmap.
From S2P Require Import Prelude PyFloat.
From S2P Require Export Wire ServiceProps.

Open Scope string_scope.
Open Scope list_scope.
Open Scope Z_scope.

(** ** Invariants with answers *)

Definition Yields {S A : Type} (I : S → Prop) (m : M S A) (Q : A → Prop) : Prop :=
  ∀ s, I s → I (m s).2 ∧ ∀ a, (m s).1 = Ret a → Q a.

Section yields.
Context {S A B : Type} (I : S → Prop).

Lemma yields_bind (m : M S A) (k : A → M S B) Mid Q :
  Yields I m Mid → (∀ a, Mid a → Yields I (k a) Q) → Yields I (m ≫= k) Q.
Proof.
  intros Hm Hk s Hs. destruct (Hm s Hs) as [H1 H2]. unfold mbind, M_bind.
  destruct (m s) as [[a|e] s1]; [|done]. apply Hk; [by apply H2|done].
Qed.

Lemma yields_try (m : M S A) (h : exn → M S A) Q :
  Yields I m Q → (∀ e, Yields I (h e) Q) → Yields I (try_except m h) Q.
Proof.
  intros Hm Hh s Hs. destruct (Hm s Hs) as [H1 H2]. unfold try_except.
  destruct (m s) as [[a|e] s1]; [done|]. by apply Hh.
Qed.

Lemma yields_mret (a : A) (Q : A → Prop) : Q a → Yields I (mret a) Q.
Proof. intros Ha s Hs. split; [done|]. by intros ? [= <-]. Qed.

Lemma yields_raise e Q : Yields I (raise (A:=A) e) Q.
Proof. done. Qed.

Lemma yields_lift (o : outcome A) : Yields I (lift o) (λ a, o = Ret a).
Proof. done. Qed.

Lemma yields_gets (f : S → A) : Yields I (gets f) (λ a, ∃ s, I s ∧ a = f s).
Proof. intros s Hs. split; [done|]. intros a [= <-]. by exists s. Qed.

Lemma yields_modify (f : S → S) : (∀ s, I s → I (f s)) → Yields I (modify f) (λ _, True).
Proof. intros Hf s Hs. split; [by apply Hf|done]. Qed.

Lemma yields_when (b : bool) (m : M S ()) : Yields I m (λ _, True) → Yields I (when b m) (λ _, True).
Proof. intros Hm. destruct b; [exact Hm|]. by intros s Hs. Qed.

Lemma yields_weaken (m : M S A) (Q Q' : A → Prop) : Yields I m Q → (∀ a, Q a → Q' a) → Yields I m Q'.
Proof. intros Hm HQ s Hs. destruct (Hm s Hs) as [H1 H2]. split; [done|]. intros a Ha. by apply HQ, H2. Qed.
End yields.

Lemma yields_mapM_ {S C} (I : S → Prop) (g : C → M S ()) (l : list C) :
  (∀ c, Yields I (g c) (λ _, True)) → Yields I (mapM_ g l) (λ _, True).
Proof.
  intros Hg. induction l as [|c l IH]; [by intros s Hs|].
  apply (yields_bind _ _ _ (λ _, True)); [apply Hg|by intros].
Qed.

Create HintDb yields.
#[export] Hint Resolve yields_raise yields_lift yields_gets : yields.

(** Walks along the code of a method; what is left are the facts about its
    answers and its updates. *)
Ltac yield := repeat lazymatch goal with
  | |- Yields _ (modify _ ≫= _) _ => eapply yields_bind; [yield_update|intros _ _]
  | |- Yields _ (_ ≫= _) _ =>
      first [ eapply yields_bind; [solve [yield_atom]|let H := fresh "H" in intros ? H; cbv beta in *; try (destruct H as (? & ? & ->))]
            | apply (yields_bind (A:=()) _ _ _ (λ _, True)); [|intros _ _] ]
  | |- Yields _ (modify _) _ => yield_update
  | |- Yields _ (when _ _) _ => apply yields_when
  | |- Yields _ (mapM_ _ _) _ => apply yields_mapM_; intros ?
  | |- Yields _ (try_except _ _) _ => apply yields_try; [|intros ?]
  | |- Yields _ (let _ := _ in _) _ => cbv zeta
  | |- Yields _ (if ?b then _ else _) _ => let E := fresh "E" in destruct b eqn:E
  | |- Yields _ (match ?b with _ => _ end) _ => let E := fresh "E" in destruct b eqn:E
  | |- Yields _ (mret _) _ => apply yields_mret; try solve [assumption | done | auto with yields]
  | |- Yields _ (raise _) _ => apply yields_raise
  | |- Yields _ _ _ => eapply yields_weaken; [solve [yield_atom]|intros ? ?; try solve [assumption | done | auto with yields]]
  end
with yield_update := apply yields_modify; intros ? ?; try solve [assumption | done | auto with yields]
with yield_atom := first [ solve [eauto 3 with yields nocore] | apply yields_modify; intros ? ?; solve [assumption | done | auto] ].

(** ** The times of a guard *)

Section times.
Context (clock : nat → float) (P : float → Prop) (Hclock : ∀ n, P (clock n)).

Definition if_some {A} (Q : A → Prop) (x : option A) : Prop :=
  match x with Some a => Q a | None => True end.

Definition context_times (c : diag_context) : Prop := if_some P (ctx_last_valid_at c).

Definition diagnostic_times (d : Diagnostic.t) : Prop :=
  P (Diagnostic.occurred_at d) ∧ if_some P (Diagnostic.acknowledged_at d)
  ∧ if_some P (Diagnostic.resolved_at d) ∧ if_some context_times (Diagnostic.context d).

Definition guard_times (g : AxisFault) : Prop :=
  if_some P (last_valid_at g) ∧ if_some diagnostic_times (fault g).

Definition response_times (r : guard_response) : Prop :=
  if_some P (r_last_valid_at r) ∧ if_some diagnostic_times (r_fault r).

Lemma yields_now : Yields guard_times (now clock) P.
Proof. unfold now. yield. Qed.

Lemma yields_log a c : Yields guard_times (log a c) (λ _, True).
Proof. by apply yields_modify. Qed.
#[local] Hint Resolve yields_now yields_log : yields.

Lemma yields_new_diagnostic c l f ctx :
  if_some context_times ctx → Yields guard_times (new_diagnostic clock c l f ctx) diagnostic_times.
Proof. intros Hc. unfold new_diagnostic. yield. Qed.

Lemma yields_acknowledge d : diagnostic_times d → Yields guard_times (acknowledge clock d) diagnostic_times.
Proof. intros Hd. unfold acknowledge. yield. by destruct Hd as (? & ? & ? & ?). Qed.

Lemma yields_resolve d : Yields guard_times (resolve clock d) (λ _, True).
Proof. unfold resolve. yield. Qed.
#[local] Hint Resolve yields_new_diagnostic yields_acknowledge yields_resolve : yields.

Lemma times_fault g : guard_times g → if_some diagnostic_times (fault g).
Proof. by intros [_ ?]. Qed.

Lemma times_set_fault d g : guard_times g → if_some diagnostic_times d → guard_times (g <| fault := d |>).
Proof. by intros [? _]. Qed.

Lemma times_escalate d : diagnostic_times d → diagnostic_times (escalate d).
Proof.
  intros (H1 & H2 & H3 & H4). repeat split; try done. unfold escalate. cbn.
  by destruct (Diagnostic.context d).
Qed.

Lemma times_of_fault g d : guard_times g → fault g = Some d → diagnostic_times d.
Proof. intros [_ H] E. by rewrite E in H. Qed.

Lemma times_context g b r f :
  guard_times g → if_some context_times (Some (DiagContext (last_valid_at g) b r f)).
Proof. by intros [? _]. Qed.

Lemma times_no_context : if_some context_times None.
Proof. done. Qed.
#[local] Hint Resolve times_no_context times_context times_of_fault times_set_fault times_escalate : yields.

Lemma yields_detect c b : Yields guard_times (detect clock c b) (λ _, True).
Proof. unfold detect. yield. apply times_set_fault; [done|]. by apply times_escalate, (times_of_fault x). Qed.
#[local] Hint Resolve yields_detect : yields.

Lemma yields_prepare payload : Yields guard_times (prepare clock payload) (λ _, True).
Proof. unfold prepare. yield. apply (yields_bind _ _ _ (λ _, True)); [|intros ? _]; yield. Qed.

Lemma yields_accept output r : Yields guard_times (accept clock output r) (λ _, True).
Proof. unfold accept. yield. by destruct H1 as [_ ?]. Qed.

Lemma yields_response g : guard_times g → response_times (response g).
Proof. by intros [? ?]. Qed.
End times.

(** ** The replies of an axis *)

Section axis_replies.
Context {A D : Type} `{DriveAdapter A}.
Context (clock mono : nat → float).
Context (store_save : axis A D → outcome () * D).
Context (P : float → Prop) (Hclock : ∀ n, P (clock n)).
Implicit Types (x : axis A D) (r : request).

Definition axis_times x : Prop := guard_times P (fault_state x).

(** A reply whose texts are ASCII and whose times have [P]. *)
Definition clear_reply (a : reply) : Prop :=
  match a with
  | REmpty | RError _ => True
  | RData d | RCycle d _ => is_ascii d = true
  | RGuard r _ => response_times P r
  | RDescribe _ | RFleet _ => False
  end.

Lemma clear_data bs : clear_reply (RData (hex bs)).
Proof. apply hex_ascii. Qed.

Lemma clear_cycle bs n : clear_reply (RCycle (hex bs) n).
Proof. apply hex_ascii. Qed.

Lemma clear_status g : clear_reply (RData (projected_statusword g)).
Proof. apply hex_ascii. Qed.
#[local] Hint Resolve clear_data clear_cycle clear_status : yields.

Lemma yields_on_adapter {R} (m : M A R) : Yields axis_times (on_adapter (D:=D) m) (λ _, True).
Proof. intros x Hx. unfold on_adapter, zoom. by destruct (m (adapter x)). Qed.

Lemma yields_on_guard {R} (m : M AxisFault R) Q :
  Yields (guard_times P) m Q → Yields axis_times (on_guard (A:=A) (D:=D) m) Q.
Proof.
  intros Hm x Hx. unfold on_guard, zoom. destruct (Hm _ Hx) as [H1 H2].
  by destruct (m (fault_state x)).
Qed.

Lemma yields_guard_detect c b : Yields axis_times (on_guard (A:=A) (D:=D) (detect clock c b)) (λ _, True).
Proof. by apply yields_on_guard, yields_detect. Qed.
#[local] Hint Resolve yields_on_adapter yields_guard_detect : yields.

Lemma yields_guard_new c l f : Yields axis_times (on_guard (A:=A) (D:=D) (new_diagnostic clock c l f None)) (λ _, True).
Proof. eapply yields_on_guard, yields_weaken; [by apply yields_new_diagnostic|done]. Qed.

Lemma yields_guard_resolve d : Yields axis_times (on_guard (A:=A) (D:=D) (resolve clock d)) (λ _, True).
Proof. by apply yields_on_guard, yields_resolve. Qed.

Lemma yields_guard_prepare p : Yields axis_times (on_guard (A:=A) (D:=D) (prepare clock p)) (λ _, True).
Proof. by apply yields_on_guard, yields_prepare. Qed.

Lemma yields_guard_accept o b : Yields axis_times (on_guard (A:=A) (D:=D) (accept clock o b)) (λ _, True).
Proof. by apply yields_on_guard, yields_accept. Qed.
#[local] Hint Resolve yields_guard_new yields_guard_resolve yields_guard_prepare yields_guard_accept : yields.

Lemma yields_save_parameters : Yields axis_times (save_parameters clock store_save) (λ _, True).
Proof. unfold save_parameters. yield. Qed.
#[local] Hint Resolve yields_save_parameters : yields.

Lemma yields_monotonic : Yields axis_times (monotonic (A:=A) (D:=D) mono) (λ _, True).
Proof. unfold monotonic. yield. Qed.
#[local] Hint Resolve yields_monotonic : yields.

Lemma yields_cycle_dt : Yields axis_times (cycle_dt (A:=A) (D:=D) mono) (λ _, True).
Proof. unfold cycle_dt. yield. Qed.

Lemma yields_write_sdo i si p a save :
  Yields axis_times (description_write_sdo (A:=A) (D:=D) i si p a
    (if save : bool then Some (save_parameters clock store_save) else None)) (λ _, True).
Proof.
  unfold description_write_sdo. apply (yields_bind _ _ _ (λ _, True)); [yield|intros previous _].
  destruct save; yield.
Qed.
#[local] Hint Resolve yields_cycle_dt yields_write_sdo : yields.

Lemma yields__dispatch r :
  rq_op r ≠ Some "describe" → Yields axis_times (_dispatch clock mono store_save r) clear_reply.
Proof.
  intros Hr. unfold _dispatch, dispatch_read, dispatch_write, dispatch_cycle. yield.
  destruct Hr. unfold field in H0. destruct (rq_op r) as [op|]; [|done]. injection H0 as ->.
  by apply String.eqb_eq in E as ->.
Qed.

Lemma yields_guard_answer c : Yields axis_times (guard_answer (A:=A) (D:=D) c) clear_reply.
Proof. unfold guard_answer. yield. Qed.
#[local] Hint Resolve yields_guard_answer : yields.

(** The preparation keeps the operation of the request. *)
Definition prepared_request r (a : reply + request * bool) : Prop :=
  match a with inl a => clear_reply a | inr (r', _) => rq_op r' = rq_op r end.

Lemma yields_prepare_cycle r : Yields axis_times (prepare_cycle clock r) (prepared_request r).
Proof. unfold prepare_cycle. yield. Qed.

Lemma yields_accept_result a b : Yields axis_times (accept_result (A:=A) (D:=D) clock a b) (λ _, True).
Proof. unfold accept_result. yield. Qed.

Lemma yields_guarded_handler e : Yields axis_times (guarded_handler (A:=A) (D:=D) clock e) (λ a, a = None).
Proof. unfold guarded_handler. yield. Qed.

Lemma yields_access_handler op r e : Yields axis_times (access_handler (A:=A) (D:=D) clock op r e) clear_reply.
Proof. unfold access_handler. yield. Qed.

#[local] Hint Resolve yields_prepare_cycle yields_accept_result yields_guarded_handler yields_access_handler : yields.

Lemma yields_guarded_body op r :
  rq_op r ≠ Some "describe" →
  Yields axis_times (guarded_body clock mono store_save op r)
    (λ a, match a with inl a | inr a => clear_reply a end).
Proof.
  intros Hr. unfold guarded_body. apply (yields_bind _ _ _ (prepared_request r)); [yield|].
  intros [a|[r' b]] Ha; [by apply yields_mret|]. cbn in Ha.
  apply (yields_bind _ _ _ clear_reply); [by apply yields__dispatch; rewrite Ha|intros a Hcl]. yield.
Qed.

Lemma yields_guarded op r :
  rq_op r ≠ Some "describe" → Yields axis_times (dispatch_guarded clock mono store_save op r) clear_reply.
Proof.
  intros Hr. unfold dispatch_guarded.
  apply (yields_bind _ _ _ (if_some (λ a : reply + reply, match a with inl a | inr a => clear_reply a end))).
  - apply yields_try.
    + eapply yields_bind; [by apply yields_guarded_body|]. intros a Ha. by apply yields_mret.
    + intros e. eapply yields_weaken; [apply yields_guarded_handler|]. by intros a ->.
  - intros [[a|a]|] Ha; yield.
Qed.
#[local] Hint Resolve yields__dispatch yields_guarded : yields.

Lemma yields_dispatch r :
  rq_op r ≠ Some "describe" → Yields axis_times (dispatch clock mono store_save r) clear_reply.
Proof.
  intros Hr. unfold dispatch, dispatch_access. yield.
  apply (yields_bind _ _ _ (λ _, True)); [yield; by eapply yields_weaken; [apply yields_lift|]|intros status _].
  yield.
Qed.
End axis_replies.

(** ** A fleet *)

Section fleet_replies.
Context {A D : Type} `{DriveAdapter A}.
Context (clock mono : nat → nat → float) (store_save : axis A D → outcome () * D).
Context (P : float → Prop) (Hclock : ∀ i n, P (clock i n)).

Definition fleet_times (f : fleet A D) : Prop := Forall (axis_times P) (models f).

Lemma yields_on_axis {R} i (m : M (axis A D) R) Q :
  Yields (axis_times P) m Q → Yields fleet_times (on_axis i m) Q.
Proof.
  intros Hm f Hf. unfold on_axis. destruct (models f !! i) as [x|] eqn:Hx; [|done].
  destruct (Hm (x <| disk := storage f |>)) as [H1 H2].
  { exact (Forall_lookup_1 _ _ _ _ Hf Hx). }
  destruct (m (x <| disk := storage f |>)) as [r x']. split; [|exact H2].
  unfold fleet_times. cbn [models snd]. apply Forall_insert; [exact Hf|exact H1].
Qed.

(** A reply to a request that is no description. *)
Definition clear_answer (r : request) (a : reply) : Prop :=
  rq_op r ≠ Some "describe" → clear_reply P a.

Lemma yields_dispatch_fleet r : Yields fleet_times (dispatch_fleet clock mono store_save r) (clear_answer r).
Proof.
  unfold dispatch_fleet. eapply yields_bind; [apply yields_lift|]. intros op Hop. cbv beta in Hop.
  destruct (String.eqb op "describe") eqn:E.
  - intros f Hf. rewrite (reader (m:=describe_fleet)). split; [done|]. intros a _ Hr. destruct Hr.
    unfold field in Hop. destruct (rq_op r); [|done]. injection Hop as ->. by apply String.eqb_eq in E as ->.
  - eapply yields_bind; [apply yields_gets|]. intros n _.
    destruct (slave_number (rq_slave_index r) n) as [i|]; [|apply yields_raise].
    apply yields_on_axis. intros x Hx. split.
    + destruct (decide (rq_op r = Some "describe")) as [Hd|Hd]; [|by apply yields_dispatch].
      unfold field in Hop. rewrite Hd in Hop. by injection Hop as <-.
    + intros a Ha Hr. by eapply yields_dispatch.
Qed.
End fleet_replies.

(** ** Plain replies *)

Section plain.
Context (diagnostic_id detail : Diagnostic.t → string) (execution_failure : Diagnostic.t → string).
Context (message : Z → string).
Context (source_hash : string) (vendor product revision : Z) (artifact : device → option string).

(** The texts that are arguments are ASCII. *)
Record ascii_texts : Prop := {
  at_id d : is_ascii (diagnostic_id d) = true;
  at_detail d : is_ascii (detail d) = true;
  at_failure d : is_ascii (execution_failure d) = true;
  at_message c : is_ascii (message c) = true;
}.
Context (Htexts : ascii_texts).

Definition reads_back (f : float) : Prop := float_reads f = true.

Lemma plain_object d :
  bool_decide (NoDup d.*1) = true → Forall (λ kv, is_ascii kv.1 = true ∧ plain_json kv.2 = true) d →
  plain_json (JObj d) = true.
Proof.
  intros Hnd Hd. cbn [plain_json]. rewrite Hnd. cbn [andb]. apply forallb_forall. intros [k v] Hin.
  apply list_elem_of_In in Hin. rewrite Forall_forall in Hd. destruct (Hd _ Hin) as [H1 H2]. cbn [fst snd] in H1, H2.
  by rewrite H1, H2.
Qed.

Lemma plain_time t : if_some reads_back t → plain_json (time_json t) = true.
Proof. by destruct t. Qed.

Ltac plain := apply plain_object; [reflexivity|]; repeat (constructor; [split; [reflexivity|]|]); try done.

Lemma plain_context d :
  if_some (context_times reads_back) (Diagnostic.context d) →
  plain_json (context_json execution_failure d) = true.
Proof.
  intros Hd. unfold context_json. destruct (Diagnostic.context d) as [c|]; [|done].
  destruct (ctx_execution_failure c); cbn [app]; plain; try (by apply plain_time). apply Htexts.
Qed.

Lemma plain_diagnostic d :
  diagnostic_times reads_back d → plain_json (diagnostic_json diagnostic_id detail execution_failure d) = true.
Proof.
  intros (H1 & H2 & H3 & H4). destruct Htexts as [T1 T2 T3 T4].
  unfold diagnostic_json. plain.
  - apply T1.
  - cbn [snd]. plain; [by destruct (Diagnostic.code d)|by destruct (Diagnostic.fault_level d)| |apply T2].
    by destruct (Diagnostic.code d).
  - cbn [snd]. plain; by apply plain_time.
  - apply T2.
  - by apply plain_context.
Qed.

Lemma plain_reply a :
  clear_reply reads_back a →
  plain_json (reply_json diagnostic_id detail execution_failure message source_hash vendor product
    revision artifact a) = true.
Proof.
  destruct a as [|d|d n|c|r n|c|ds]; intros Ha; cbn [reply_json]; try done; try (plain; fail).
  - plain. cbn [snd]. plain. apply Htexts.
  - destruct Ha as [H1 H2].
    assert (plain_json (match r_fault r with
      | Some x => diagnostic_json diagnostic_id detail execution_failure x | None => JNull end) = true) as Hf.
    { destruct (r_fault r); [by apply plain_diagnostic|done]. }
    pose proof (plain_time _ H1) as Ht. pose proof (hex_ascii (r_data r)) as Hh.
    unfold guard_json. destruct n; cbn [member app]; plain.
Qed.
End plain.

(** ** Properties *)

Section conversation.
Context {A : Type} `{DriveAdapter A}.
Context (clock mono : nat → nat → float).
Context (create : device → option string → outcome A).
Context (sha256 : string → string) (unreadable : string → bool).
Context (fails : nat → bool) (torn : nat → string → string).
Context (mkstemp : directory → string → string).
Context (other : list byte → outcome request).
Context (diagnostic_id detail : Diagnostic.t → string) (execution_failure : Diagnostic.t → string).
Context (message : Z → string).
Context (source_hash : string) (vendor product revision : Z) (artifact : device → option string).

Local Abbreviation encode := (encode_reply diagnostic_id detail execution_failure message source_hash
  vendor product revision artifact).
Local Abbreviation to_json := (reply_json diagnostic_id detail execution_failure message source_hash
  vendor product revision artifact).
Local Abbreviation dispatch := (dispatch_fleet clock mono (axis_save sha256 fails torn mkstemp)).

Lemma started_times c s f :
  valid_config c → fresh_names mkstemp →
  start_fleet create sha256 unreadable fails torn mkstemp c (Fleet [] s) = (Ret tt, f) →
  fleet_times reads_back f.
Proof.
  intros Hv Hfresh E. pose proof (snapshot_files_NoDup _ (vc_sets _ Hv)) as Hnd.
  destruct (start_inv _ _ _ _ _ _ _ _ _ Hfresh Hnd E) as (xs & HF & HL & _ & _).
  unfold fleet_times. rewrite Forall_lookup. intros i x' Hx'.
  destruct (Forall2_lookup_r _ _ _ _ _ HL Hx') as (x & Hx & b & a & _ & ->).
  destruct (Forall2_lookup_r _ _ _ _ _ HF Hx) as (d & _ & a0 & _ & Hn).
  destruct (new_axis_guard _ _ _ _ Hn) as [inputs Hg].
  unfold axis_times. cbn. by rewrite Hg.
Qed.

Lemma yields_dispatch_request r :
  (∀ i n, reads_back (clock i n)) →
  Yields (fleet_times reads_back) (dispatch_request dispatch r) (clear_answer reads_back r).
Proof.
  intros Hclock. unfold dispatch_request. destruct (negb (is_access r)); [by apply yields_dispatch_fleet|].
  apply yields_try; [by apply yields_dispatch_fleet|]. intros e. destruct (abort_code e); [|done].
  by apply yields_mret.
Qed.

(** A client of a started fleet reads what the fleet says.  When it writes its
    requests as lines of JSON, the server dispatches them in their order, each
    on the state the requests before it left, until the first exception or
    the end of the stream, and refuses an incomplete last line; the client
    reads one line for every reply and nothing else, and reading a line as
    JSON gives the object the program built: always when the request was no
    description, and for a description when its names are plain. *)
Theorem fleet_conversation c s f rs tail :
  valid_config c → fresh_names mkstemp →
  start_fleet create sha256 unreadable fails torn mkstemp c (Fleet [] s) = (Ret tt, f) →
  ascii_texts diagnostic_id detail execution_failure message → (∀ i n, float_reads (clock i n) = true) →
  Forall (λ r, sendable r = true) rs → Server.newline ∉ tail →
  let '(answers, res, f') := answered dispatch rs f in
  ∃ out, serve dispatch (server_loads other) encode (concat (map request_line rs) ++ tail) f
      = Some (match res with
              | Ret _ => if bool_decide (tail = []) then Ret tt else Raise ValueError
              | Raise e => Raise e
              end, out, f')
    ∧ lines out = map encode answers ++ [[]]
    ∧ ∀ i r a, rs !! i = Some r → answers !! i = Some a →
        rq_op r ≠ Some "describe" ∨ plain_json (to_json a) = true →
        read_line (encode a) = Ret (to_json a).
Proof.
  intros Hv Hfresh E Htexts Hclock Hrs Htail.
  pose proof (started_times c s f Hv Hfresh E) as Hf.
  pose proof (answered_replies dispatch (fleet_times reads_back) (clear_answer reads_back) rs f
    (λ r s Hs, yields_dispatch_request r Hclock s Hs) Hf) as Hc.
  pose proof (Wire.conversation dispatch other diagnostic_id detail execution_failure message source_hash
    vendor product revision artifact rs tail f Hrs Htail) as H1.
  destruct (answered dispatch rs f) as [[answers res] f']. destruct H1 as (out & H1 & H2 & H3).
  exists out. split_and!; [done..|]. intros i r a Hr Ha [Hd|Hp]; [|by apply H3].
  apply H3, plain_reply; [done|]. by apply (Hc i r a).
Qed.
End conversation.

(** ** Witness

    The restarted fleet of ServiceProps.v: the first axis gets a cycle with a
    mode it does not know and faults, the second one is read. *)

Definition noon (i n : nat) : float := f_dec 1750000000125 (-3).

Definition demo_requests : list request :=
  [(cycle_request 6 2) <| rq_slave_index := Some (PInt 0) |>;
   Request (Some "read") (Some 0x6064) (Some 0) None (Some (PInt 1))].

Definition demo_dispatch : request → M (fleet FKrCmmtAdapter store) reply :=
  dispatch_fleet noon (λ _, ticks) (axis_save (λ _, "digest") (λ _, false) (λ _ t, t) (λ d p, fresh_string p d)).

Definition demo_encode : reply → list byte :=
  encode_reply (λ _, "id") (λ _, "rejected") (λ _, "") (λ _, "no") "hash" 1 2 3 (λ _, None).

Definition demo_json : reply → json :=
  reply_json (λ _, "id") (λ _, "rejected") (λ _, "") (λ _, "no") "hash" 1 2 3 (λ _, None).

Definition demo_answers : list reply := (answered demo_dispatch demo_requests demo_fleet).1.1.

Lemma demo_answered :
  match answered demo_dispatch demo_requests demo_fleet with
  | ([RGuard g (Some 0); RData d], Ret _, _) =>
      r_last_valid_at g = None ∧ is_Some (r_fault g) ∧ d = "00000000"
  | _ => False
  end.
Proof. vm_compute. split; [reflexivity|]. split; [by eexists|reflexivity]. Qed.

Lemma demo_sendable : Forall (λ r, sendable r = true) demo_requests.
Proof. unfold demo_requests. do 2 (constructor; [vm_compute; reflexivity|]). constructor. Qed.

Lemma noon_reads i n : float_reads (noon i n) = true.
Proof. vm_compute. reflexivity. Qed.

Lemma fleet_conversation_witness :
  ∃ g out f', serve demo_dispatch (server_loads (λ _, Raise ValueError)) demo_encode
      (concat (map request_line demo_requests)) demo_fleet = Some (Ret tt, out, f')
    ∧ lines out = [demo_encode (RGuard g (Some 0)); demo_encode (RData "00000000"); []]
    ∧ read_line (demo_encode (RGuard g (Some 0))) = Ret (demo_json (RGuard g (Some 0)))
    ∧ is_Some (r_fault g).
Proof.
  assert (demo_start demo_directory = (Ret tt, demo_fleet)) as E.
  { pose proof demo_ok as E. unfold demo_fleet. rewrite demo_start_eq in E |- *. apply ran_ok, E. }
  rewrite demo_start_eq in E.
  pose proof (fleet_conversation noon (λ _, ticks) (λ _ _, Ret linear_adapter) (λ _, "digest") (λ _, false)
    (λ _, false) (λ _ t, t) (λ d p, fresh_string p d) (λ _, Raise ValueError)
    (λ _, "id") (λ _, "rejected") (λ _, "") (λ _, "no") "hash" 1 2 3 (λ _, None)
    demo_config demo_directory demo_fleet demo_requests [] demo_config_valid fresh_string_names E) as H.
  specialize (H ltac:(by constructor) noon_reads demo_sendable (not_elem_of_nil _)).
  pose proof demo_answered as Ha. unfold demo_dispatch in Ha |- *.
  destruct (answered _ demo_requests demo_fleet) as [[answers res] f'].
  clear E. destruct answers as [|[| | | |g [[| |]|]| |] [|[|d| | | | |] [|]]]; try (exact (False_ind _ Ha)).
  destruct res; [|exact (False_ind _ Ha)].
  destruct Ha as (_ & Hs & ->). destruct H as (out & H1 & H2 & H3).
  exists g, out, f'. rewrite app_nil_r in H1. split_and!; [exact H1|exact H2| |exact Hs].
  refine (H3 0%nat _ (RGuard g (Some 0)) eq_refl eq_refl (or_introl _)). discriminate.
Defined.
