(* ===== verification/Process.v ===== *)
(** * What a client gets from the process

    The process of src/functional_model/runtime/service.py (Service.v) with a
    configuration, and a client on its socket that writes lines of JSON
    (Wire.v): the storage is taken, the fleet starts, the device files and the
    description are given out, and then the client has the conversation of
    WireProps.v with the fleet that has started. *)

From stdpp Require Import stringmap.
From S2P Require Import Prelude PyFloat.
From S2P Require Export WireProps.

Open Scope string_scope.
Open Scope list_scope.
Open Scope Z_scope.

(** The calls around the socket work. *)
Record socket_works (host : socket_host) (stream : list byte) : Prop := {
  sw_exists : sk_exists host = false;
  sw_mode : ∃ mode, sk_mode host = Ret mode ∧ Z.land mode 0x3F = 0;
  sw_calls : ∀ n, sk_fails host n = false;
  sw_accept : sk_accept host = Ret stream;
}.

Section present.
Context (perf cpu unix : nat → Z).
Context {S : Type} (describe : M S reply) (generate : M S (list (Z * element))) (axes : S → Z).
Context (dispatch : request → M S reply) (dispatch_timed : request → M (S * timing) reply).
Context (loads : list byte → outcome request) (dumps : reply → list byte).
Context (host : socket_host) (stream : list byte) (Hhost : socket_works host stream).
Context `{!Reader describe} `{!Reader generate}.

Lemma socket_serves (s : session S) :
  timings s = None →
  ∃ res out o, serve dispatch loads dumps stream (owner s) = Some (res, out, o)
    ∧ let s' := (serve_socket perf cpu unix dispatch dispatch_timed loads dumps host s).2 in
      sent s' = out ∧ owner s' = o.
Proof.
  intros Ht. destruct Hhost as [H1 (mode & H2 & H3) H4 H5].
  destruct (serve_terminates dispatch loads dumps stream (owner s)) as [[[res out] o] E].
  exists res, out, o. split; [exact E|]. unfold serve_socket, socket_call. rewrite H1, H2, lift_bind, H3, !H4.
  cbn [negb Z.eqb]. unfold try_finally, mbind, M_bind, mret, M_ret, modify. cbn -[serve_stream].
  rewrite H5. unfold lift. cbn -[serve_stream].
  assert (∀ s1 : session S, owner s1 = owner s → timings s1 = None →
    serve_stream perf cpu unix dispatch dispatch_timed loads dumps stream s1
    = (res, s1 <| owner := o |> <| sent := out |>)) as Hs.
  { intros s1 Ho Ht1. unfold serve_stream. by rewrite Ht1, Ho, E. }
  rewrite Hs by done. unfold stop_timing. cbn. rewrite Ht. by destruct res.
Qed.

(** The description is printed, and then the client is served. *)
Lemma present_serves (a : arguments) o :
  given (arg_socket a) = true → arg_timing a = false →
  let '(r, s') := present perf cpu unix describe generate axes dispatch dispatch_timed loads dumps host a
                    (new_session o) in
  is_ret r = false ∧ printed s' = [] ∧ sent s' = []
  ∨ ∃ res out o', serve dispatch loads dumps stream o = Some (res, out, o') ∧ sent s' = out ∧ owner s' = o'.
Proof.
  intros Hs Ht. unfold present. rewrite Hs, Ht. cbn [when].
  assert (∃ r s1, when (given (arg_fixture_dir a)) (l ← on_owner generate; fixtures <~ l) (new_session o) = (r, s1)
    ∧ owner s1 = o ∧ printed s1 = [] ∧ sent s1 = [] ∧ timings s1 = None) as (r & s1 & E & Ho & Hp & Hse & Hti).
  { destruct (given (arg_fixture_dir a)); cbn [when]; [|eexists _, _; by split_and!].
    unfold on_owner, zoom, mbind, M_bind. cbn [owner new_session]. rewrite (reader_run generate).
    destruct (generate o).1; eexists _, _; by split_and!. }
  destruct r as [[]|e]; [rewrite (bind_eq_ret _ _ _ _ _ E)|rewrite (bind_eq_raise _ _ _ _ _ E); left; by split_and!].
  assert (on_owner describe s1 = ((describe o).1, s1 <| owner := o |>)) as Ed.
  { unfold on_owner, zoom. by rewrite (reader_run describe), Ho. }
  destruct (describe o).1 as [d|e];
    [rewrite (bind_eq_ret _ _ _ _ _ Ed)|rewrite (bind_eq_raise _ _ _ _ _ Ed); left; by split_and!].
  rewrite (bind_eq_ret (modify _) _ _ tt _ eq_refl), bind_ret_l.
  match goal with |- context [serve_socket _ _ _ _ _ _ _ _ ?x] =>
    destruct (socket_serves x) as (res & out & o' & H1 & H2 & H3); [exact Hti|] end.
  destruct (serve_socket _ _ _ _ _ _ _ _ _) as [r s2]. right. exists res, out, o'. by split_and!.
Qed.
End present.

Section conversation.
Context {A : Type} `{DriveAdapter A}.
Context (perf cpu unix : nat → Z) (clock mono : nat → nat → float).
Context (create : device → option string → outcome A).
Context (sha256 : string → string) (unreadable : string → bool).
Context (fails : nat → bool) (torn : nat → string → string).
Context (mkstemp : directory → string → string) (busy : bool).
Context (host : socket_host) (identity_of : Z * Z * Z).
Context (other : list byte → outcome request).
Context (diagnostic_id detail : Diagnostic.t → string) (execution_failure : Diagnostic.t → string).
Context (message : Z → string).
Context (source_hash : string) (vendor product revision : Z) (artifact : device → option string).

#[local] Instance axis_fixture_reader : Reader (axis_fixture (A:=A) identity_of).
Proof. unfold axis_fixture, describe. destruct identity_of as [[v p] r]. apply _. Qed.

#[local] Instance fleet_fixtures_reader n i : Reader (fleet_fixtures (A:=A) identity_of n i).
Proof. revert i. induction n as [|n IH]; intros i; cbn [fleet_fixtures]; apply _. Qed.

#[local] Instance generate_fleet_reader : Reader (generate_fleet (A:=A) identity_of).
Proof. unfold generate_fleet. apply _. Qed.

Local Abbreviation encode := (encode_reply diagnostic_id detail execution_failure message source_hash
  vendor product revision artifact).
Local Abbreviation to_json := (reply_json diagnostic_id detail execution_failure message source_hash
  vendor product revision artifact).
Local Abbreviation dispatch := (dispatch_fleet clock mono (axis_save sha256 fails torn mkstemp)).

(** What is behind the start of the fleet keeps what was printed and sent. *)
Lemma service_serves a c s :
  given (arg_socket a) = true → arg_timing a = false →
  ∀ stream, socket_works host stream →
  let '(r, s') := fleet_service perf cpu unix clock mono create sha256 unreadable fails torn mkstemp busy
    (server_loads other) encode host identity_of a (Ret c) (new_session (Fleet [] s)) in
  is_ret r = false ∧ printed s' = [] ∧ sent s' = []
  ∨ ∃ s1 f res out f', enter fails busy s = (Ret tt, s1)
      ∧ start_fleet create sha256 unreadable fails torn mkstemp c (Fleet [] s1) = (Ret tt, f)
      ∧ serve dispatch (server_loads other) encode stream f = Some (res, out, f') ∧ sent s' = out.
Proof.
  intros Hs Ht stream Hhost. unfold fleet_service. rewrite lift_bind.
  assert (on_owner (on_storage (A:=A) (enter fails busy)) (new_session (Fleet [] s))
    = ((enter fails busy s).1, new_session (Fleet [] (enter fails busy s).2))) as E.
  { unfold on_owner, on_storage, zoom. cbn. by destruct (enter fails busy s). }
  destruct (enter fails busy s) as [[[]|e] s1]; cbn [fst snd] in E;
    [rewrite (bind_eq_ret _ _ _ _ _ E)|rewrite (bind_eq_raise _ _ _ _ _ E); left; by split_and!].
  unfold try_finally at 1.
  assert (on_owner (start_fleet create sha256 unreadable fails torn mkstemp c) (new_session (Fleet [] s1))
    = ((start_fleet create sha256 unreadable fails torn mkstemp c (Fleet [] s1)).1,
       new_session (start_fleet create sha256 unreadable fails torn mkstemp c (Fleet [] s1)).2)) as Es.
  { unfold on_owner, zoom. cbn. by destruct (start_fleet _ _ _ _ _ _ c _). }
  destruct (start_fleet create sha256 unreadable fails torn mkstemp c (Fleet [] s1)) as [[[]|e] f] eqn:Hf;
    cbn [fst snd] in Es;
    [rewrite (bind_eq_ret _ _ _ _ _ Es)|rewrite (bind_eq_raise _ _ _ _ _ Es); left; by split_and!].
  unfold try_finally.
  pose proof (present_serves perf cpu unix describe_fleet (generate_fleet identity_of)
    (λ f, Z.of_nat (length (models f))) dispatch (dispatch_fleet_timed perf cpu clock mono (axis_save sha256 fails torn mkstemp))
    (server_loads other) encode host stream Hhost a f Hs Ht) as Hp.
  destruct (present _ _ _ _ _ _ _ _ _ _ _ a (new_session f)) as [r s2].
  unfold on_owner, on_storage, zoom. destruct (close_fleet (owner s2)) as [[[]|e] f2]; cbn.
  all: destruct Hp as [(H1 & H2 & H3)|(res & out & o' & H1 & H2 & _)];
    [left; by split_and!|right; by exists s1, f, res, out, o'].
Qed.

(** C7. What a client gets from the process.  When the socket works and the client
    writes its requests as lines of JSON, the process either ends with an
    exception before it has printed its description, and has sent nothing; or
    the storage was taken and the fleet has started, and then the requests are
    dispatched in their order, each on the state the requests before it left,
    until the first exception or the end; the client reads one line for every
    reply and nothing else, and reading a line as JSON gives the object the
    program built: always when the request was no description, and for a
    description when its names are plain. *)
Theorem process_conversation a c s rs tail :
  valid_config c → fresh_names mkstemp → given (arg_socket a) = true → arg_timing a = false →
  socket_works host (concat (map request_line rs) ++ tail) →
  ascii_texts diagnostic_id detail execution_failure message → (∀ i n, float_reads (clock i n) = true) →
  Forall (λ r, sendable r = true) rs → Server.newline ∉ tail →
  let '(r, s') := fleet_service perf cpu unix clock mono create sha256 unreadable fails torn mkstemp busy
    (server_loads other) encode host identity_of a (Ret c) (new_session (Fleet [] s)) in
  is_ret r = false ∧ printed s' = [] ∧ sent s' = []
  ∨ ∃ s1 f, enter fails busy s = (Ret tt, s1)
      ∧ start_fleet create sha256 unreadable fails torn mkstemp c (Fleet [] s1) = (Ret tt, f)
      ∧ let answers := (answered dispatch rs f).1.1 in
        lines (sent s') = map encode answers ++ [[]]
        ∧ ∀ i r a, rs !! i = Some r → answers !! i = Some a →
            rq_op r ≠ Some "describe" ∨ plain_json (to_json a) = true →
            read_line (encode a) = Ret (to_json a).
Proof.
  intros Hv Hfresh Hs Ht Hhost Htexts Hclock Hrs Htail.
  pose proof (service_serves a c s Hs Ht _ Hhost) as H1.
  destruct (fleet_service _ _ _ _ _ _ _ _ _ _ _ _ _ _ _ _ _ _ _) as [r s'].
  destruct H1 as [H1|(s1 & f & res & out & f' & He & Hf & Hserve & Hsent)]; [by left|right].
  exists s1, f. split_and!; [exact He|exact Hf|]. cbv zeta.
  pose proof (fleet_conversation clock mono create sha256 unreadable fails torn mkstemp other diagnostic_id detail
    execution_failure message source_hash vendor product revision artifact c s1 f rs tail
    Hv Hfresh Hf Htexts Hclock Hrs Htail) as H2.
  destruct (answered dispatch rs f) as [[answers res'] f2]. destruct H2 as (out' & E & H2 & H3).
  rewrite E in Hserve. injection Hserve as _ <- _. rewrite Hsent. by split.
Qed.
End conversation.

(** ** Witness

    Two axes on an empty storage, and the requests of WireProps.v: a cycle with
    a mode the first axis does not know, and a read of the second one. *)

Definition demo_stream : list byte := concat (map request_line demo_requests) ++ [].

Definition client_host : socket_host := SocketHost false (Ret 0x1C0) (λ _, false) (Ret demo_stream).

Definition client_arguments : arguments := Arguments Environment None (Some "/run/model.sock") false.

Definition served_process : outcome () * session (fleet FKrCmmtAdapter store) :=
  fleet_service (λ _, 0) (λ _, 0) (λ _, 0) noon (λ _, ticks) (λ _ _, Ret linear_adapter) (λ _, "digest")
    (λ _, false) (λ _, false) (λ _ t, t) (λ d p, fresh_string p d) false
    (server_loads (λ _, Raise ValueError)) demo_encode client_host (1, 2, 3) client_arguments (Ret demo_config)
    (new_session (Fleet [] (Store ∅ false 0 []))).

Lemma served_process_eq :
  served_process = fleet_service (λ _, 0) (λ _, 0) (λ _, 0) noon (λ _, ticks) (λ _ _, Ret linear_adapter) (λ _, "digest")
    (λ _, false) (λ _, false) (λ _ t, t) (λ d p, fresh_string p d) false
    (server_loads (λ _, Raise ValueError))
    (encode_reply (λ _, "id") (λ _, "rejected") (λ _, "") (λ _, "no") "hash" 1 2 3 (λ _, None))
    client_host (1, 2, 3) client_arguments (Ret demo_config) (new_session (Fleet [] (Store ∅ false 0 []))).
Proof. reflexivity. Qed.

Lemma served_process_runs :
  (is_ret served_process.1, length (lines (sent served_process.2))) = (true, 3%nat).
Proof. vm_compute. reflexivity. Qed.

Lemma client_host_works : socket_works client_host demo_stream.
Proof. split; [reflexivity|exists 0x1C0; split; reflexivity|reflexivity|reflexivity]. Qed.

Lemma process_conversation_witness :
  ∃ a b, lines (sent served_process.2) = [demo_encode a; demo_encode b; []].
Proof.
  pose proof (process_conversation (λ _, 0) (λ _, 0) (λ _, 0) noon (λ _, ticks) (λ _ _, Ret linear_adapter)
    (λ _, "digest") (λ _, false) (λ _, false) (λ _ t, t) (λ d p, fresh_string p d) false client_host (1, 2, 3)
    (λ _, Raise ValueError) (λ _, "id") (λ _, "rejected") (λ _, "") (λ _, "no") "hash" 1 2 3 (λ _, None)
    client_arguments demo_config (Store ∅ false 0 []) demo_requests [] demo_config_valid fresh_string_names
    eq_refl eq_refl client_host_works ltac:(by constructor) noon_reads demo_sendable (not_elem_of_nil _)) as H.
  rewrite <-served_process_eq in H. pose proof served_process_runs as Hr.
  destruct served_process as [r s']. cbn [fst snd] in Hr |- *. injection Hr as Hr Hl.
  destruct H as [[H _]|(s1 & f & _ & _ & Hlines & _)]; [congruence|].
  rewrite Hlines. rewrite Hlines, length_app, length_map in Hl. clear Hlines.
  destruct (answered _ demo_requests f).1.1 as [|a [|b [|]]]; try (exfalso; cbn in Hl; lia).
  by exists a, b.
Defined.
