(* ===== verification/Supervisor.v ===== *)
(** * The container supervisor

    src/docker/service.py: [settings] and [check_nic] check the environment and
    the network interface, [main] starts the model process and the bus
    process, watches them and stops them; [healthcheck] judges the status
    file.

    What the operating system answers is an argument: every observation (a
    clock, a poll, a system call, a file of /proc) has a number, the [now] of
    the state, and an answer for that number.  A stop signal arrives at the
    observation [stop_at].  The status file has the form that [write_status]
    gives it, since it is only ever replaced as a whole.  The loops of [main]
    have fuel; they answer [None] when it is spent, which is a supervisor that
    is still running. *)

From S2P Require Import Prelude PyFloat.
From S2P Require Export Config Catalog.

Open Scope string_scope.
Open Scope list_scope.
Open Scope Z_scope.

Abbreviation environment := (list (string * string)).
Abbreviation file_system := (string → option string).

Definition env_get (key fallback : string) (env : environment) : string :=
  default fallback (dict_get key env).

(** [[A-Za-z0-9_-]{1,64}] *)
Definition run_id_ok (s : string) : bool :=
  all_chars (λ a, is_alnum a || one_of "_-" a) s
  && Nat.leb 1 (String.length s) && Nat.leb (String.length s) 64.

(** [settings(env)]; [stamp] is the run identity made from the current time. *)
Definition docker_settings (stamp : string) (env : environment)
    : outcome (string * bool * Z * string) :=
  let nic := env_get "KICKCAT_INTERFACE" "" env in
  _ ← require (interface_ok nic);
  let timing := Text.lower (env_get "DEVICE_SIMULATOR_CYCLE_STATS_LOGS" "false" env) in
  _ ← require (existsb (String.eqb timing) ["true"; "false"; "1"; "0"]);
  timeout ← of_option ValueError (PyValue.parse_int (env_get "DEVICE_SIMULATOR_SESSION_TIMEOUT" "0" env));
  _ ← require (0 <=? timeout);
  let run_id := or_text (env_get "DEVICE_SIMULATOR_RUN_ID" "" env) stamp in
  _ ← require (run_id_ok run_id);
  mret (nic, existsb (String.eqb timing) ["true"; "1"], timeout, run_id).

(** ** The network interface *)

Definition read_text (fs : file_system) (path : string) : outcome string := of_option OSError (fs path).

Definition device_file (nic name : string) : string :=
  ("/sys/class/net/" ++ nic ++ "/" ++ name)%string.

(** [text.splitlines()[1:]], [line.split()] *)
Definition rows (text : string) : list (list string) := map (split_words "") (split_lines "" text).

(** [fields[k]], [fields[-1]] *)
Definition column (k : nat) (fields : list string) : outcome string := of_option IndexError (fields !! k).
Definition last_column (fields : list string) : outcome string := of_option IndexError (last fields).

(** A row of /proc/net/packet: the owner of an EtherCAT socket on [index]. *)
Definition packet_owner (index : string) (fields : list string) : option string :=
  match fields !! 3%nat, fields !! 4%nat with
  | Some protocol, Some interface =>
      if Nat.leb 9 (length fields) && String.eqb (Text.lower protocol) "88a4"
           && String.eqb interface index
      then last fields else None
  | _, _ => None
  end.

(** [packet_owners(nic)]: the owners, repetitions included. *)
Definition packet_owners (fs : file_system) (nic : string) : outcome (list string) :=
  index ← read_text fs (device_file nic "ifindex");
  packets ← read_text fs "/proc/net/packet";
  mret (omap (packet_owner (Text.strip index)) (List.tl (rows packets))).

(** [fields[0] == nic and fields[1] == '00000000' and int(fields[3], 16) & 1] *)
Definition default_route (nic : string) (fields : list string) : outcome bool :=
  interface ← column 0 fields;
  if negb (String.eqb interface nic) then mret false
  else
    destination ← column 1 fields;
    if negb (String.eqb destination "00000000") then mret false
    else
      flags ← column 3 fields;
      n ← of_option ValueError (int_text 16 flags);
      mret (Z.odd n).

Definition default_route6 (nic : string) (fields : list string) : outcome bool :=
  interface ← last_column fields;
  if negb (String.eqb interface nic) then mret false
  else
    destination ← column 0 fields;
    if negb (String.eqb destination (replicate_char "0" 32)) then mret false
    else prefix ← column 1 fields; mret (String.eqb prefix "00").

(** The first row that passes is refused. *)
Fixpoint refuse (p : list string → outcome bool) (l : list (list string)) : outcome () :=
  match l with
  | [] => mret tt
  | fields :: l => b ← p fields; if (b : bool) then Raise ValueError else refuse p l
  end.

(** [check_nic(nic)]; [exists_path] tells the interfaces that are there. *)
Definition check_nic (exists_path : string → bool) (fs : file_system) (nic : string) : outcome () :=
  if negb (exists_path ("/sys/class/net/" ++ nic)%string) || String.eqb nic "lo" then Raise ValueError
  else
    routes ← read_text fs "/proc/net/route";
    _ ← refuse (default_route nic) (List.tl (rows routes));
    _ ← match fs "/proc/net/ipv6_route" with
        | Some routes => refuse (default_route6 nic) (rows routes)
        | None => mret tt
        end;
    carrier ← read_text fs (device_file nic "carrier");
    if negb (String.eqb (Text.strip carrier) "1") then Raise ValueError
    else
      owners ← packet_owners fs nic;
      match owners with [] => mret tt | _ => Raise ValueError end.

(** ** The state *)

Record process := Process { pid : Z; returncode : option Z }.

#[export] Instance process_eta : Eta process := λ p, Process (pid p) (returncode p).

(** The status file: event, time, processes with exit codes, error. *)
Record status_t := Status {
  st_event : string; st_time : float; st_processes : list (string * (Z * option Z)); st_error : option exn
}.

(** What the supervisor does to the processes and tells. *)
Inductive event :=
  | Start (name : string) (command : list string)
  | Terminate (name : string)
  | Kill (name : string)
  | WriteStatus (s : status_t)
  | Say (what : string).

Record supervisor := Supervisor {
  now : nat;
  processes : list (string * process);
  status : option status_t;
  service_lock : bool;
  trace : list event;
}.

#[export] Instance supervisor_eta : Eta supervisor := λ s,
  Supervisor (now s) (processes s) (status s) (service_lock s) (trace s).

Section host.
(** The answers of the operating system. *)
Context (stop_at : option nat).
Context (fails : nat → bool).
Context (mono wall : nat → float).
Context (exits waits : string → nat → option Z).
Context (spawn : string → nat → outcome Z).
Context (files : nat → file_system) (exists_at : nat → string → bool).
Context (resolve : string → string).

Definition observe : M supervisor nat := n ← gets now; now <~ S n ;; mret n.
Definition emit (e : event) : M supervisor () := modify (λ s, s <| trace := trace s ++ [e] |>).

(** A system call of no other consequence. *)
Definition call : M supervisor () :=
  n ← observe; if fails n then raise OSError else mret tt.

Definition monotonic_time : M supervisor float := n ← observe; mret (mono n).

(** [stopping], set by the handler of the signals *)
Definition stopping : M supervisor bool :=
  n ← observe; mret (match stop_at with Some k => Nat.leb k n | None => false end).

Definition path_exists (path : string) : M supervisor bool :=
  n ← observe; mret (exists_at n path).

Definition say (what : string) : M supervisor () := call ;; emit (Say what).

(** ** Processes *)

Definition find_process (name : string) : M supervisor process :=
  ps ← gets processes; lift (of_option KeyError (dict_get name ps)).

Definition set_returncode (name : string) (p : process) (code : Z) : M supervisor () :=
  modify (λ s, s <| processes := dict_set name (p <| returncode := Some code |>) (processes s) |>).

(** [process.poll()] *)
Definition poll (name : string) : M supervisor (option Z) :=
  p ← find_process name;
  match returncode p with
  | Some code => mret (Some code)
  | None =>
      n ← observe;
      match exits name n with
      | Some code => set_returncode name p code ;; mret (Some code)
      | None => mret None
      end
  end.

(** [process.wait(timeout=3)] *)
Definition wait (name : string) : M supervisor Z :=
  p ← find_process name;
  match returncode p with
  | Some code => mret code
  | None =>
      n ← observe;
      match waits name n with
      | Some code => set_returncode name p code ;; mret code
      | None => raise TimeoutExpired
      end
  end.

(** [process.terminate()] and [process.kill()]: a process that has exited gets
    no signal. *)
Definition send_signal (name : string) (e : event) : M supervisor () :=
  code ← poll name;
  match code with Some _ => mret tt | None => emit e end.

(** [stop_process] *)
Definition stop_process (name : string) : M supervisor () :=
  code ← poll name;
  match code with
  | Some _ => mret tt
  | None =>
      send_signal name (Terminate name) ;;
      try_except
        (wait name ;; mret tt)
        (λ e, match e with
         | TimeoutExpired => send_signal name (Kill name) ;; wait name ;; mret tt
         | _ => raise e
         end)
  end.

(** [subprocess.Popen(command)] under a name *)
Definition start_process (name : string) (command : list string) : M supervisor () :=
  n ← observe;
  pid ← lift (spawn name n);
  modify (λ s, s <| processes := dict_set name (Process pid None) (processes s) |>) ;;
  emit (Start name command).

(** ** The status file *)

Fixpoint poll_all (names : list string) : M supervisor (list (string * (Z * option Z))) :=
  match names with
  | [] => mret []
  | name :: names =>
      p ← find_process name; code ← poll name;
      l ← poll_all names; mret ((name, (pid p, code)) :: l)
  end.

(** [write_status(event, processes, **extra)] *)
Definition write_status (event : string) (error : option exn) : M supervisor () :=
  n ← observe;
  ps ← gets processes;
  l ← poll_all ps.*1;
  let value := Status event (wall n) l error in
  call ;; call ;;
  status <~ Some value ;; emit (WriteStatus value) ;;
  when (negb (String.eqb event "ready")) call.

(** [healthcheck()]: [alive] is [os.kill(pid, 0)] without an error. *)
Definition healthcheck (clock : float) (alive : Z → bool) (file : option status_t) : Z :=
  match file with
  | None => 1
  | Some s =>
      if negb (String.eqb (st_event s) "ready") || f_lt (f_dec 10 0) (f_sub clock (st_time s)) then 1
      else if forallb (λ p, alive p.2.1) (st_processes s) then 0 else 1
  end.

(** ** [main] *)

Definition model_command (timing validate_only : bool) : list string :=
  ["python"; "-u"; "-m"; "functional_model"; "--environment"; "--fixture-dir"; "/run/simulator/fixture"]
  ++ (if timing then ["--timing"] else [])
  ++ (if validate_only then [] else ["--socket"; "/run/simulator/model.sock"]).

Definition slave_command (nic : string) (timing : bool) : list string :=
  ["bin/cmmt_simulator"; nic; "/run/simulator/fixture/cmmt.json"; "/run/simulator/fixture/contract.json";
   "/run/simulator/model.sock"]
  ++ (if timing then ["--timing"] else []).

(** [time.monotonic() > deadline] *)
Definition past (deadline : float) : M supervisor bool :=
  t ← monotonic_time; mret (f_lt deadline t).

(** How the wait for the model ends. *)
Inductive startup := Up | Validated | Interrupted.

Fixpoint await_model (fuel : nat) (validate_only : bool) (deadline : float)
    : M supervisor (option startup) :=
  match fuel with
  | O => mret None
  | S fuel =>
      stop ← stopping;
      if (stop : bool) then mret (Some Interrupted)
      else
        code ← poll "model";
        match code with
        | Some c =>
            if validate_only && (c =? 0) then
              write_status "validated" None ;; mret (Some Validated)
            else raise RuntimeError
        | None =>
            ready ← (if validate_only then mret false else path_exists "/run/simulator/model.sock");
            if (ready : bool) then mret (Some Up)
            else
              late ← past deadline;
              if (late : bool) then raise RuntimeError else await_model fuel validate_only deadline
        end
  end.

(** [any(p.poll() is not None for p in processes.values())] *)
Fixpoint any_exited (names : list string) : M supervisor bool :=
  match names with
  | [] => mret false
  | name :: names =>
      code ← poll name;
      match code with Some _ => mret true | None => any_exited names end
  end.

Definition owns_nic (nic : string) : M supervisor bool :=
  n ← observe;
  owners ← lift (packet_owners (files n) nic);
  mret (match owners with [] => false | _ => true end).

(** [Some tt]: the slave owns the interface, or the supervisor is to stop. *)
Fixpoint await_slave (fuel : nat) (nic : string) (deadline : float) : M supervisor (option ()) :=
  match fuel with
  | O => mret None
  | S fuel =>
      stop ← stopping;
      if (stop : bool) then mret (Some tt)
      else
        owns ← owns_nic nic;
        if (owns : bool) then mret (Some tt)
        else
          ps ← gets processes;
          exited ← any_exited ps.*1;
          if (exited : bool) then raise RuntimeError
          else
            late ← past deadline;
            if (late : bool) then raise RuntimeError else await_slave fuel nic deadline
  end.

(** [STATUS.exists() and json.loads(STATUS.read_text())['event'] == 'model-failed'] *)
Definition told_failure : M supervisor bool :=
  file ← gets status;
  match file with
  | None => mret false
  | Some s => call ;; mret (String.eqb (st_event s) "model-failed")
  end.

(** The report of one turn: the model runs, or its end is told once. *)
Definition report : M supervisor () :=
  code ← poll "model";
  match code with
  | Some _ => told ← told_failure; when (negb told) (write_status "model-failed" None)
  | None => write_status "ready" None
  end.

(** [timeout and time.monotonic() - started >= timeout] *)
Definition session_over (timeout : Z) (started : float) : M supervisor bool :=
  if timeout =? 0 then mret false
  else t ← monotonic_time; lift (py_le (PInt timeout) (PFloat (f_sub t started))).

Fixpoint watch (fuel : nat) (timeout : Z) (started : float) : M supervisor (option ()) :=
  match fuel with
  | O => mret None
  | S fuel =>
      stop ← stopping;
      if (stop : bool) then mret (Some tt)
      else
        code ← poll "slave";
        match code with
        | Some _ => raise RuntimeError
        | None =>
            report ;;
            over ← session_over timeout started;
            if (over : bool) then raise RuntimeError else watch fuel timeout started
        end
  end.

(** From the start of the bus process on. *)
Definition run_slave (fuel : nat) (nic : string) (timing : bool) (timeout : Z)
    : M supervisor (option ()) :=
  start_process "slave" (slave_command nic timing) ;;
  t ← monotonic_time;
  up ← await_slave fuel nic (f_add t (f_dec 10 0));
  match up with
  | None => mret None
  | Some _ =>
      started ← monotonic_time;
      say "ready" ;;
      watch fuel timeout started
  end.

(** The body of [try]. *)
Definition run (fuel : nat) (validate_only : bool) (stamp : string) (env : environment) (base : string)
    : M supervisor (option ()) :=
  '(nic, timing, timeout, _) ← lift (docker_settings stamp env);
  call ;; call ;; service_lock <~ true ;; call ;;
  config ← lift (load_environment resolve env base);
  lift (require (String.eqb (cf_directory config) "/state")) ;;
  when (negb validate_only) (n ← observe; lift (check_nic (exists_at n) (files n) nic)) ;;
  say "starting" ;;
  start_process "model" (model_command timing validate_only) ;;
  t ← monotonic_time;
  up ← await_model fuel validate_only (f_add t (f_dec 20 0));
  match up with
  | None => mret None
  | Some Validated => mret (Some tt)
  | Some Interrupted => mret (Some tt)
  | Some Up =>
      stop ← stopping;
      if (stop : bool) then mret (Some tt) else run_slave fuel nic timing timeout
  end.

(** The body of [finally]. *)
Definition clean_up (validate_only : bool) (result : Z) : M supervisor () :=
  ps ← gets processes;
  mapM_ stop_process (reverse ps.*1) ;;
  call ;;
  service_lock <~ false ;;
  when (negb validate_only || negb (result =? 0))
    (write_status (if result =? 0 then "stopped" else "failed") None).

(** [main()] behind the parsing of the arguments; [None] while it runs. *)
Definition main (fuel : nat) (validate_only : bool) (stamp : string) (env : environment) (base : string)
    : M supervisor (option Z) := λ s,
  match (call ;; call) s with
  | (Raise e, s) => (Raise e, s)
  | (Ret _, s) =>
      match run fuel validate_only stamp env base s with
      | (Ret None, s) => (Ret None, s)
      | (Ret (Some _), s) => try_finally (mret (Some 0)) (clean_up validate_only 0) s
      | (Raise e, s) =>
          try_finally (write_status "failed" (Some e) ;; mret (Some 1)) (clean_up validate_only 1) s
      end
  end.
End host.

(** Before the first statement. *)
Definition idle_supervisor : supervisor := Supervisor 0 [] None false [].
