(* ===== verification/SupervisorProps.v ===== *)
(** * The container supervisor: what it guarantees

    Theorems about main of src/docker/service.py, for every operating system:
    the bus process is started only behind the checks; while both run, the
    bus process outlives the model process, whose end is told; on the way out
    every process has ended, the bus process first; a stop signal ends the
    supervisor.

    The lemmas follow one statement after the other with [Moves] of
    Prelude.v: a section shares the relation between the states and what it
    needs of the primitive steps. *)

From S2P Require Import Prelude PyFloat ConfigProps.
From S2P Require Export Supervisor.

Open Scope string_scope.
Open Scope list_scope.
Open Scope Z_scope.

Section props.
Context (stop_at : option nat).
Context (fails : nat → bool).
Context (mono wall : nat → float).
Context (exits waits : string → nat → option Z).
Context (spawn : string → nat → outcome Z).
Context (files : nat → file_system) (exists_at : nat → string → bool).
Context (resolve : string → string).

Local Abbreviation call := (Supervisor.call fails).
Local Abbreviation say := (Supervisor.say fails).
Local Abbreviation stopping := (Supervisor.stopping stop_at).
Local Abbreviation poll := (Supervisor.poll exits).
Local Abbreviation wait := (Supervisor.wait waits).
Local Abbreviation send_signal := (Supervisor.send_signal exits).
Local Abbreviation stop_process := (Supervisor.stop_process exits waits).
Local Abbreviation start_process := (Supervisor.start_process spawn).
Local Abbreviation poll_all := (Supervisor.poll_all exits).
Local Abbreviation write_status := (Supervisor.write_status fails wall exits).
Local Abbreviation past := (Supervisor.past mono).
Local Abbreviation report := (Supervisor.report fails wall exits).
Local Abbreviation await_model := (Supervisor.await_model stop_at fails mono wall exits exists_at).
Local Abbreviation await_slave := (Supervisor.await_slave stop_at mono exits files).
Local Abbreviation watch := (Supervisor.watch stop_at fails mono wall exits).
Local Abbreviation run_slave :=
  (Supervisor.run_slave stop_at fails mono wall exits spawn files).
Local Abbreviation run :=
  (Supervisor.run stop_at fails mono wall exits spawn files exists_at resolve).
Local Abbreviation clean_up := (Supervisor.clean_up fails wall exits waits).
Local Abbreviation main :=
  (Supervisor.main stop_at fails mono wall exits waits spawn files exists_at resolve).

(** ** Statements as moves *)

Section moves.
Context (R : supervisor → supervisor → Prop) `{!PreOrder R} (ok : event → Prop).
Context (Hobserve : Moves R observe).
Context (Hreap : ∀ s name p c, dict_get name (processes s) = Some p → returncode p = None →
  R s (s <| processes := dict_set name (p <| returncode := Some c |>) (processes s) |>)).
Context (Hemit : ∀ e, ok e → Moves R (emit e)).
Context (Hstatus : ∀ v, ok (WriteStatus v) → Moves R (status <~ Some v)).

#[local] Instance move_call : Moves R call.
Proof. unfold Supervisor.call. walk. Qed.

#[local] Instance move_stopping : Moves R stopping.
Proof. unfold Supervisor.stopping. walk. Qed.

#[local] Instance move_past d : Moves R (past d).
Proof. unfold Supervisor.past, monotonic_time. walk. Qed.

#[local] Instance move_say what : ok (Say what) → Moves R (say what).
Proof. intros Hok. unfold Supervisor.say. walk. Qed.

#[local] Instance move_find name : Moves R (find_process name).
Proof. unfold find_process. walk. Qed.

Lemma find_process_run name s :
  find_process name s = (of_option KeyError (dict_get name (processes s)), s).
Proof. reflexivity. Qed.

(** A process that is waited for or polled, and may be reaped. *)
Lemma move_reap {A} name (answer : nat → option Z) (k : Z → A) (m : M supervisor A) :
  Reader m →
  Moves R (p ← find_process name;
    match returncode p with
    | Some code => mret (k code)
    | None =>
        n ← observe;
        match answer n with
        | Some code => set_returncode name p code ;; mret (k code)
        | None => m
        end
    end).
Proof.
  intros Hm s. unfold mbind at 1, M_bind at 1. rewrite find_process_run.
  destruct (dict_get name (processes s)) as [p|] eqn:Hp; [|reflexivity]. cbn [of_option].
  destruct (returncode p) as [c|] eqn:Hc; [reflexivity|].
  pose proof (Hobserve s) as Ho. unfold mbind at 1, M_bind at 1.
  assert (processes (observe s).2 = processes s) as Hps by done.
  destruct (observe s) as [[n|e] s1]; [|exact Ho]. cbn [fst snd] in *. etrans; [exact Ho|].
  destruct (answer n) as [c|]; [|by rewrite Hm].
  apply (Hreap s1 name p c); [by rewrite Hps|done].
Qed.

#[local] Instance move_poll name : Moves R (poll name).
Proof. apply (move_reap name (exits name) Some (mret None)). apply _. Qed.

#[local] Instance move_wait name : Moves R (wait name).
Proof. apply (move_reap name (waits name) id (raise TimeoutExpired)). apply _. Qed.

#[local] Instance move_signal name e : ok e → Moves R (send_signal name e).
Proof. intros Hok. unfold Supervisor.send_signal. walk. Qed.

#[local] Instance move_stop name :
  ok (Terminate name) → ok (Kill name) → Moves R (stop_process name).
Proof.
  intros H1 H2. pose proof (move_signal name _ H1). pose proof (move_signal name _ H2).
  unfold Supervisor.stop_process. walk.
Qed.

#[local] Instance move_poll_all names : Moves R (poll_all names).
Proof. induction names as [|name names IH]; cbn [Supervisor.poll_all]; walk. Qed.

Lemma move_status event error :
  (∀ v, st_event v = event → ok (WriteStatus v)) → Moves R (write_status event error).
Proof.
  intros Hok. unfold Supervisor.write_status.
  walk; first
    [exact (Hstatus (Status event _ _ error) (Hok (Status event _ _ error) eq_refl) _)
    |exact (Hemit _ (Hok (Status event _ _ error) eq_refl))].
Qed.

#[local] Instance move_any names : Moves R (any_exited exits names).
Proof. induction names as [|name names IH]; cbn [any_exited]; walk. Qed.

#[local] Instance move_owns nic : Moves R (owns_nic files nic).
Proof. unfold owns_nic. walk. Qed.

#[local] Instance move_told : Moves R (told_failure fails).
Proof. unfold told_failure. walk. Qed.

#[local] Instance move_session timeout started : Moves R (session_over mono timeout started).
Proof. unfold session_over, monotonic_time. walk. Qed.

Lemma move_report :
  (∀ v, st_event v = "ready" ∨ st_event v = "model-failed" → ok (WriteStatus v)) → Moves R report.
Proof.
  intros Hok. pose proof (move_status "ready" None (λ v H, Hok v (or_introl H))).
  pose proof (move_status "model-failed" None (λ v H, Hok v (or_intror H))).
  unfold Supervisor.report. walk.
Qed.

Lemma move_watch fuel timeout started :
  (∀ v, st_event v = "ready" ∨ st_event v = "model-failed" → ok (WriteStatus v)) →
  Moves R (watch fuel timeout started).
Proof.
  intros Hok. pose proof (move_report Hok).
  induction fuel as [|fuel IH]; cbn [Supervisor.watch]; walk.
Qed.

Lemma move_await_slave fuel nic deadline : Moves R (await_slave fuel nic deadline).
Proof. induction fuel as [|fuel IH]; cbn [Supervisor.await_slave]; walk. Qed.

Lemma move_await_model fuel validate_only deadline :
  (∀ v, st_event v = "validated" → ok (WriteStatus v)) →
  Moves R (await_model fuel validate_only deadline).
Proof.
  intros Hok. pose proof (move_status "validated" None Hok).
  induction fuel as [|fuel IH]; cbn [Supervisor.await_model]; unfold path_exists; walk.
Qed.
End moves.

(** ** The effect of a statement *)

(** New events are [ok], time goes on, the processes stay, and one that has
    ended keeps its exit code; a new status is [ok] as well. *)
Record follows (ok : event → Prop) (s s' : supervisor) : Prop := {
  fo_trace : ∃ l, trace s' = trace s ++ l ∧ Forall ok l;
  fo_now : (now s ≤ now s')%nat;
  fo_names : (processes s').*1 = (processes s).*1;
  fo_process name p : dict_get name (processes s) = Some p →
    ∃ p', dict_get name (processes s') = Some p' ∧ pid p' = pid p
      ∧ ∀ c, returncode p = Some c → returncode p' = Some c;
  fo_status : status s' = status s ∨ ∃ v, status s' = Some v ∧ ok (WriteStatus v);
}.

#[local] Instance follows_preorder ok : PreOrder (follows ok).
Proof.
  split.
  - intros s. constructor; [exists []; by rewrite app_nil_r|done|done|eauto|by left].
  - intros a b c [(l1 & E1 & F1) N1 P1 Q1 S1] [(l2 & E2 & F2) N2 P2 Q2 S2]. constructor.
    + exists (l1 ++ l2). rewrite E2, E1, <-app_assoc. split; [done|]. by apply Forall_app.
    + lia.
    + congruence.
    + intros name p Hp. destruct (Q1 _ _ Hp) as (p1 & H1 & Hd1 & Hc1).
      destruct (Q2 _ _ H1) as (p2 & H2 & Hd2 & Hc2). exists p2. split_and!; [done|congruence|auto].
    + destruct S2 as [->|H]; [exact S1|by right].
Qed.

Lemma dict_set_names {K V} `{EqDecision K} (k : K) (v v' : V) d :
  dict_get k d = Some v → (dict_set k v' d).*1 = d.*1.
Proof.
  induction d as [|[k0 v0] d IH]; [done|]. cbn. case_decide as E; cbn.
  - by subst.
  - intros H. by rewrite IH.
Qed.

Section follow.
Context (ok : event → Prop).

Lemma observe_follows : Moves (follows ok) observe.
Proof.
  intros s. constructor; [exists []; by rewrite app_nil_r| |done|by eauto|by left].
  change (now s ≤ S (now s))%nat. lia.
Qed.

Lemma reap_follows s name p c :
  dict_get name (processes s) = Some p → returncode p = None →
  follows ok s (s <| processes := dict_set name (p <| returncode := Some c |>) (processes s) |>).
Proof.
  intros Hp Hc. constructor; cbn; [exists []; by rewrite app_nil_r|done|by eapply dict_set_names| |by left].
  intros name' p' Hp'. rewrite dict_get_set. case_decide as E.
  - subst name'. rewrite Hp in Hp'. injection Hp' as <-. eexists. split; [done|]. split; [done|].
    intros c'. by rewrite Hc.
  - by exists p'.
Qed.

Lemma emit_follows e : ok e → Moves (follows ok) (emit e).
Proof. intros He s. constructor; cbn; [exists [e]; by repeat constructor|done|done|eauto|by left]. Qed.

Lemma status_follows v : ok (WriteStatus v) → Moves (follows ok) (status <~ Some v).
Proof.
  intros Hv s. constructor; cbn; [exists []; by rewrite app_nil_r|done|done|eauto|].
  right. by exists v.
Qed.
End follow.

(** The statements of the program, as moves along [follows]. *)
Section statements.
Context (ok : event → Prop).

Ltac follow L := intros; eapply L;
  solve [apply _ | apply observe_follows | apply reap_follows | apply emit_follows
        | apply status_follows | eassumption].
Ltac follow_ok L := intros; apply (L (follows ok) _ ok);
  solve [apply _ | apply observe_follows | apply reap_follows | apply emit_follows
        | apply status_follows | eassumption].

#[global] Instance follows_call : Moves (follows ok) call.
Proof. follow move_call. Qed.
#[global] Instance follows_past d : Moves (follows ok) (past d).
Proof. follow move_past. Qed.
#[global] Instance follows_poll name : Moves (follows ok) (poll name).
Proof. follow move_poll. Qed.
#[global] Instance follows_any names : Moves (follows ok) (any_exited exits names).
Proof. follow move_any. Qed.
#[global] Instance follows_owns nic : Moves (follows ok) (owns_nic files nic).
Proof. follow move_owns. Qed.
#[global] Instance follows_told : Moves (follows ok) (told_failure fails).
Proof. follow move_told. Qed.
#[global] Instance follows_session timeout started :
  Moves (follows ok) (session_over mono timeout started).
Proof. follow move_session. Qed.
#[global] Instance follows_stopping : Moves (follows ok) stopping.
Proof. follow move_stopping. Qed.
#[global] Instance follows_observe : Moves (follows ok) observe.
Proof. apply observe_follows. Qed.

Lemma follows_say what : ok (Say what) → Moves (follows ok) (say what).
Proof. follow_ok move_say. Qed.
Lemma follows_stop name : ok (Terminate name) → ok (Kill name) → Moves (follows ok) (stop_process name).
Proof. follow_ok move_stop. Qed.
Lemma follows_write_status event error :
  (∀ v, st_event v = event → ok (WriteStatus v)) → Moves (follows ok) (write_status event error).
Proof. follow_ok move_status. Qed.
Lemma follows_report :
  (∀ v, st_event v = "ready" ∨ st_event v = "model-failed" → ok (WriteStatus v)) →
  Moves (follows ok) report.
Proof. follow_ok move_report. Qed.
Lemma follows_watch fuel timeout started :
  (∀ v, st_event v = "ready" ∨ st_event v = "model-failed" → ok (WriteStatus v)) →
  Moves (follows ok) (watch fuel timeout started).
Proof. follow_ok move_watch. Qed.
Lemma follows_await_slave fuel nic deadline : Moves (follows ok) (await_slave fuel nic deadline).
Proof. follow move_await_slave. Qed.
Lemma follows_await_model fuel validate_only deadline :
  (∀ v, st_event v = "validated" → ok (WriteStatus v)) →
  Moves (follows ok) (await_model fuel validate_only deadline).
Proof. follow_ok move_await_model. Qed.
End statements.

(** ** The loops end *)

Definition timely (k fuel : nat) (s : supervisor) : Prop := (k - now s < fuel)%nat.

Definition later (s s' : supervisor) : Prop := (now s ≤ now s')%nat.

#[local] Instance later_preorder : PreOrder later.
Proof. split; [intros s; exact (le_n _)|intros a b c; unfold later; lia]. Qed.

Lemma later_follows {A} (m : M supervisor A) : Moves (follows (λ _, True)) m → Moves later m.
Proof. intros Hm s. exact (fo_now _ _ _ (Hm s)). Qed.

Lemma later_modify g : (∀ s, now (g s) = now s) → Moves later (modify g).
Proof. intros Hg s. unfold later. cbn. rewrite Hg. lia. Qed.

Lemma later_start name command : Moves later (start_process name command).
Proof.
  unfold Supervisor.start_process. apply moves_bind; [apply _|by apply later_follows, _|]. intros n.
  apply moves_bind; [apply _|apply _|]. intros pid.
  apply moves_bind; [apply _|by apply later_modify|]. intros _. by apply later_modify.
Qed.

Lemma ends_bind {A B} k fuel (m : M supervisor A) (f : A → M supervisor (option B)) s :
  Moves later m → timely k fuel s →
  (∀ a s', timely k fuel s' → (f a s').1 ≠ Ret None) → ((m ≫= f) s).1 ≠ Ret None.
Proof.
  intros Hm Hs Hf. unfold mbind, M_bind. pose proof (Hm s) as Hn.
  destruct (m s) as [[a|e] s1]; [|done]. apply Hf. unfold timely, later in *. cbn in Hn. lia.
Qed.

Lemma stopping_run s :
  stopping s = (Ret match stop_at with Some k => Nat.leb k (now s) | None => false end,
                s <| now := S (now s) |>).
Proof. reflexivity. Qed.

(** One turn of a loop: the signal has come, or there is fuel for the rest. *)
Lemma ends_turn {B} k fuel (r : option B) (f : M supervisor (option B)) s :
  stop_at = Some k → timely k (S fuel) s → r ≠ None →
  (∀ s', timely k fuel s' → (f s').1 ≠ Ret None) →
  ((b ← stopping; if (b : bool) then mret r else f) s).1 ≠ Ret None.
Proof.
  intros Hstop Hs Hd Hf. unfold mbind, M_bind. rewrite stopping_run, Hstop. cbv beta iota zeta.
  destruct (Nat.leb_spec k (now s)) as [H|H]; [by intros [= E]|].
  apply Hf. unfold timely in *. cbn. lia.
Qed.

Ltac later := solve [apply later_start | by apply later_modify | apply later_follows; walk].

Ltac ends := repeat lazymatch goal with
  | |- ((_ ≫= _) _).1 ≠ Ret None => eapply ends_bind; [later|eassumption|intros ? ? ?]
  | |- ((if ?b then _ else _) _).1 ≠ Ret None => destruct b
  | |- ((match ?b with _ => _ end) _).1 ≠ Ret None => destruct b
  | |- (raise _ _).1 ≠ Ret None => discriminate
  | |- (mret (Some _) _).1 ≠ Ret None => discriminate
  end.

Lemma watch_ends k fuel timeout started s :
  stop_at = Some k → timely k fuel s → (watch fuel timeout started s).1 ≠ Ret None.
Proof.
  intros Hstop. pose proof (follows_report (λ _, True) (λ _ _, I)) as Hr.
  revert s. induction fuel as [|fuel IH]; intros s Hs; [unfold timely in Hs; lia|].
  cbn [Supervisor.watch]. eapply ends_turn; [done..|]. intros s1 H1. ends. by apply IH.
Qed.

Lemma await_slave_ends k fuel nic deadline s :
  stop_at = Some k → timely k fuel s → (await_slave fuel nic deadline s).1 ≠ Ret None.
Proof.
  intros Hstop. revert s. induction fuel as [|fuel IH]; intros s Hs; [unfold timely in Hs; lia|].
  cbn [Supervisor.await_slave]. eapply ends_turn; [done..|]. intros s1 H1. ends. by apply IH.
Qed.

Lemma await_model_ends k fuel validate_only deadline s :
  stop_at = Some k → timely k fuel s → (await_model fuel validate_only deadline s).1 ≠ Ret None.
Proof.
  intros Hstop. pose proof (follows_write_status (λ _, True) "validated" None (λ _ _, I)) as Hw.
  revert s. induction fuel as [|fuel IH]; intros s Hs; [unfold timely in Hs; lia|].
  cbn [Supervisor.await_model]. eapply ends_turn; [done..|]. intros s1 H1. unfold path_exists.
  ends; by apply IH.
Qed.

(** [bind] for a loop inside a statement. *)
Lemma ends_loop {A B} k fuel (m : M supervisor (option A)) (f : option A → M supervisor (option B)) s :
  Moves later m → timely k fuel s → (m s).1 ≠ Ret None →
  (∀ a s', timely k fuel s' → (f (Some a) s').1 ≠ Ret None) → ((m ≫= f) s).1 ≠ Ret None.
Proof.
  intros Hm Hs Hn Hf. unfold mbind, M_bind. pose proof (Hm s) as Hl.
  destruct (m s) as [[[a|]|e] s1]; [|done|done]. apply Hf. unfold timely, later in *. cbn in Hl. lia.
Qed.

Lemma run_slave_ends k fuel nic timing timeout s :
  stop_at = Some k → timely k fuel s → (run_slave fuel nic timing timeout s).1 ≠ Ret None.
Proof.
  intros Hstop Hs. unfold Supervisor.run_slave, monotonic_time. ends.
  eapply ends_loop; [apply later_follows, follows_await_slave|eassumption|by eapply await_slave_ends|].
  intros [] s1 H1. pose proof (follows_say (λ _, True) "ready" I). ends. by eapply watch_ends.
Qed.

Lemma run_ends k fuel validate_only stamp env base s :
  stop_at = Some k → timely k fuel s → (run fuel validate_only stamp env base s).1 ≠ Ret None.
Proof.
  intros Hstop Hs. pose proof (follows_say (λ _, True) "starting" I).
  unfold Supervisor.run, monotonic_time. ends.
  eapply ends_loop; [by apply later_follows, follows_await_model|eassumption|by eapply await_model_ends|].
  intros up ? ?. ends. by eapply run_slave_ends.
Qed.
(** C19. A stop signal ends the supervisor.  Whatever the operating system answers, a
    supervisor that gets the signal at its [k]-th observation does not run
    for more than [k + 1] turns of any loop: [main] answers or raises. *)
Theorem stop_signal_ends_supervisor k fuel validate_only stamp env base s :
  stop_at = Some k → (k < fuel)%nat → (main fuel validate_only stamp env base s).1 ≠ Ret None.
Proof.
  intros Hstop Hk. unfold Supervisor.main. destruct ((call ;; call) s) as [[[]|e] s1]; [|done].
  pose proof (run_ends k fuel validate_only stamp env base s1 Hstop ltac:(unfold timely; lia)) as Hr.
  destruct (run fuel validate_only stamp env base s1) as [[[a|]|e] s2]; [|done|]; unfold try_finally.
  - cbn -[Supervisor.clean_up]. by destruct (clean_up validate_only 0 s2) as [[]].
  - destruct ((write_status "failed" (Some e) ;; mret (Some 1)) s2) as [r s3] eqn:E.
    destruct (clean_up validate_only 1 s3) as [[] s4]; [|done]. cbn. intros ->.
    unfold mbind, M_bind in E. by destruct (write_status _ _ s2) as [[]].
Qed.

(** ** While both processes run *)

Definition ended (name : string) (s : supervisor) : Prop :=
  ∃ p c, dict_get name (processes s) = Some p ∧ returncode p = Some c.

Lemma ended_dec name s : ended name s ∨ ¬ ended name s.
Proof.
  unfold ended. destruct (dict_get name (processes s)) as [p|]; [|right; by intros (?&?&?&?)].
  destruct (returncode p) as [c|] eqn:Hc; [left; by exists p, c|]. right. intros (? & ? & [= <-] & ?). congruence.
Qed.

Lemma ended_follows ok name s s' : follows ok s s' → ended name s → ended name s'.
Proof.
  intros H (p & c & Hp & Hc). destruct (fo_process _ _ _ H _ _ Hp) as (p' & Hp' & _ & Hc').
  exists p', c. auto.
Qed.

Lemma poll_ended name s : ended name s → ∃ c, poll name s = (Ret (Some c), s).
Proof.
  intros (p & c & Hp & Hc). exists c. unfold Supervisor.poll, mbind, M_bind. rewrite find_process_run, Hp.
  cbn [of_option]. by rewrite Hc.
Qed.

Lemma poll_ends name s c s' : poll name s = (Ret (Some c), s') → ended name s'.
Proof.
  intros E. unfold Supervisor.poll, mbind, M_bind in E. rewrite find_process_run in E.
  destruct (dict_get name (processes s)) as [p|] eqn:Hp; [|done]. cbn [of_option] in E.
  destruct (returncode p) as [c'|] eqn:Hc; [injection E as <- <-; by exists p, c'|].
  change (observe s) with (@Ret nat (now s), s <| now := S (now s) |>) in E. cbv iota beta in E.
  destruct (exits name (now s)) as [c'|]; [|done]. injection E as _ <-. eexists _, c'. cbn. rewrite dict_get_set. by case_decide.
Qed.

(** [m] does not raise [e]. *)
Definition never (e : exn) {A} (m : M supervisor A) : Prop := ∀ s, (m s).1 ≠ Raise e.

Lemma never_bind e {A B} (m : M supervisor A) (f : A → M supervisor B) :
  never e m → (∀ a, never e (f a)) → never e (m ≫= f).
Proof.
  intros Hm Hf s. unfold mbind, M_bind. specialize (Hm s). destruct (m s) as [[a|e'] s1]; [apply Hf|].
  intros [= ->]. by apply Hm.
Qed.

Lemma never_lift e {A} (r : outcome A) : r ≠ Raise e → never e (lift r).
Proof. by intros Hr s. Qed.

Ltac safe := repeat lazymatch goal with
  | |- never _ (_ ≫= _) => apply never_bind; [|intros ?]
  | |- never _ (if ?b then _ else _) => destruct b
  | |- never _ (match ?b with _ => _ end) => destruct b
  | |- never _ (when ?b _) => destruct b; cbn [when]
  | |- never _ (lift (of_option _ ?o)) => apply never_lift; by destruct o
  | |- never _ _ => solve [by intros s | by auto]
  end.

Lemma poll_never name : never RuntimeError (poll name).
Proof. unfold Supervisor.poll, find_process, observe, set_returncode. safe. Qed.

Lemma call_never : never RuntimeError call.
Proof. unfold Supervisor.call, observe. safe. Qed.

Lemma poll_all_never names : never RuntimeError (poll_all names).
Proof.
  pose proof poll_never. induction names as [|name names IH]; cbn [Supervisor.poll_all]; [by intros s|].
  unfold find_process. safe.
Qed.

Lemma report_never : never RuntimeError report.
Proof.
  pose proof poll_never. pose proof call_never. pose proof poll_all_never.
  assert (∀ event, never RuntimeError (write_status event None)) as Hw.
  { intros event. unfold Supervisor.write_status, observe, emit. safe. }
  unfold Supervisor.report, told_failure. safe.
Qed.

Definition tells (event : string) (e : Supervisor.event) : Prop :=
  ∃ v, e = WriteStatus v ∧ st_event v = event.

Lemma tells_status event v : st_event v = event → tells event (WriteStatus v).
Proof. by exists v. Qed.

Lemma report_failed s :
  ended "model" s → follows (tells "model-failed") s (report s).2.
Proof.
  intros He. destruct (poll_ended _ _ He) as [c Hc]. unfold Supervisor.report, mbind at 1, M_bind at 1.
  rewrite Hc. apply (moves_bind (follows (tells "model-failed"))); [apply _|]. intros told.
  apply moves_when; [apply _|]. apply follows_write_status. apply tells_status.
Qed.

Lemma watch_failed fuel timeout started s :
  ended "model" s → follows (tells "model-failed") s (watch fuel timeout started s).2.
Proof.
  revert s. induction fuel as [|fuel IH]; intros s He; cbn [Supervisor.watch]; [reflexivity|].
  unfold mbind at 1, M_bind at 1. pose proof (follows_stopping (tells "model-failed") s) as H1.
  destruct (stopping s) as [[[]|e] s1]; cbn [snd] in *; [exact H1| |exact H1].
  pose proof (follows_poll (tells "model-failed") "slave" s1) as H2.
  unfold mbind at 1, M_bind at 1. destruct (poll "slave" s1) as [[[c|]|e] s2]; cbn [snd] in *;
    [by etrans|etrans; [etrans; [exact H1|exact H2]|]|by etrans].
  pose proof (ended_follows _ _ _ _ H2 (ended_follows _ _ _ _ H1 He)) as He2.
  pose proof (report_failed s2 He2) as H3. unfold mbind at 1, M_bind at 1.
  destruct (report s2) as [[[]|e] s3]; cbn [snd] in *; [|exact H3]. etrans; [exact H3|].
  pose proof (ended_follows _ _ _ _ H3 He2) as He3.
  pose proof (follows_session (tells "model-failed") timeout started s3) as H4.
  unfold mbind at 1, M_bind at 1.
  destruct (session_over mono timeout started s3) as [[[]|e] s4]; cbn [snd] in *; [exact H4| |exact H4].
  etrans; [exact H4|]. apply IH. by eapply ended_follows.
Qed.

Lemma watch_outcome fuel timeout started s r s' :
  watch fuel timeout started s = (r, s') →
  (r = Ret (Some tt) → ∃ k, stop_at = Some k ∧ (k < now s')%nat)
  ∧ (r = Raise RuntimeError → ended "slave" s' ∨ timeout ≠ 0).
Proof.
  revert s. induction fuel as [|fuel IH]; intros s E; cbn [Supervisor.watch] in E; [by injection E as <- <-|].
  unfold mbind at 1, M_bind at 1 in E. rewrite stopping_run in E. cbv iota in E.
  destruct (match stop_at with Some k => _ | None => _ end) eqn:Hstop.
  { injection E as <- <-. split; [|done]. intros _. destruct stop_at as [k|]; [|done].
    exists k. split; [done|]. apply Nat.leb_le in Hstop. cbn. lia. }
  revert E. generalize (s <| now := S (now s) |>). intros s1 E.
  unfold mbind at 1, M_bind at 1 in E. pose proof (poll_never "slave" s1) as Hn.
  destruct (poll "slave" s1) as [[[c|]|e] s2] eqn:Hp.
  - injection E as <- <-. split; [done|]. intros _. left. by eapply poll_ends.
  - unfold mbind at 1, M_bind at 1 in E. pose proof (report_never s2) as Hrn.
    destruct (report s2) as [[[]|e] s3]; [|injection E as <- <-; split; [done|]; by intros [= ->]].
    unfold mbind at 1, M_bind at 1 in E. unfold session_over in E.
    destruct (Z.eqb_spec timeout 0) as [Ht|Ht]; [by apply (IH s3)|].
    destruct ((t ← monotonic_time mono; lift (py_le (PInt timeout) (PFloat (f_sub t started)))) s3)
      as [[[]|e] s4]; [by injection E as <- <-; split; [done|right]|by apply (IH s4)|].
    injection E as <- <-. split; [done|by right].
  - injection E as <- <-. split; [done|]. by intros [= ->].
Qed.

(** C12. The bus process outlives the model process.  While the supervisor watches the
    two, it sends no signal and starts nothing: it only writes the status.
    Once the model process has ended, every status it writes is
    [model-failed], which the health check refuses, and it goes on: it ends
    only by the stop signal, at the end of the bus process, at the end of a
    limited session, or by an error that is no [RuntimeError]. *)
Theorem bus_outlives_model fuel timeout started s :
  let '(r, s') := watch fuel timeout started s in
  (∃ l, trace s' = trace s ++ l
    ∧ Forall (λ e, tells "model-failed" e ∨ (¬ ended "model" s ∧ tells "ready" e)) l)
  ∧ (processes s').*1 = (processes s).*1
  ∧ (ended "model" s → status s' ≠ status s →
      ∀ clock alive, healthcheck clock alive (status s') = 1)
  ∧ match r with
    | Ret None => True
    | Ret (Some _) => ∃ k, stop_at = Some k ∧ (k < now s')%nat
    | Raise e => e = RuntimeError → ended "slave" s' ∨ timeout ≠ 0
    end.
Proof.
  destruct (watch fuel timeout started s) as [r s'] eqn:E.
  destruct (watch_outcome _ _ _ _ _ _ E) as [Ho1 Ho2].
  pose proof (follows_watch (λ e, tells "model-failed" e ∨ tells "ready" e) fuel timeout started) as Hall.
  specialize (Hall ltac:(intros v [H|H]; [right|left]; by apply tells_status) s). rewrite E in Hall. cbn [snd] in Hall.
  pose proof (watch_failed fuel timeout started s) as Hf. rewrite E in Hf. cbn [snd] in Hf. split_and!.
  - destruct (fo_trace _ _ _ Hall) as (l & Hl & HF). exists l. split; [done|].
    destruct (ended_dec "model" s) as [He|He].
    + destruct (fo_trace _ _ _ (Hf He)) as (l' & Hl' & HF'). rewrite Hl in Hl'. apply app_inv_head in Hl' as ->.
      eapply Forall_impl; [exact HF'|]. by left.
    + eapply Forall_impl; [exact HF|]. intros e [H|H]; [by left|by right].
  - apply (fo_names _ _ _ Hall).
  - intros He Hne clock alive. destruct (fo_status _ _ _ (Hf He)) as [H|(v & -> & (v' & [= ->] & Hv))]; [done|].
    unfold healthcheck. by rewrite Hv.
  - destruct r as [[[]|]|e]; [by apply Ho1|done|]. intros ->. by apply Ho2.
Qed.
(** ** What happens before the bus process is started *)

Definition other_start (e : event) : Prop := ∀ command, e ≠ Start "slave" command.

Definition before_slave (s : supervisor) : Prop := Forall other_start (trace s).

(** [m] adds only events that satisfy [Q]. *)
Definition keeps (Q : event → Prop) {A} (m : M supervisor A) : Prop :=
  ∀ s, Forall Q (trace s) → Forall Q (trace (m s).2).

Lemma keeps_follows (ok Q : event → Prop) {A} (m : M supervisor A) :
  (∀ e, ok e → Q e) → Moves (follows ok) m → keeps Q m.
Proof.
  intros HQ Hm s Hs. destruct (fo_trace _ _ _ (Hm s)) as (l & -> & HF).
  apply Forall_app. split; [done|]. by eapply Forall_impl.
Qed.

Lemma keeps_bind Q {A B} (m : M supervisor A) (k : A → M supervisor B) :
  keeps Q m → (∀ a, keeps Q (k a)) → keeps Q (m ≫= k).
Proof.
  intros Hm Hk s Hs. specialize (Hm s Hs). unfold mbind, M_bind.
  destruct (m s) as [[a|e] s1]; [by apply Hk|exact Hm].
Qed.

Lemma keeps_start Q name command : Q (Start name command) → keeps Q (start_process name command).
Proof.
  intros HQ s Hs. unfold Supervisor.start_process.
  unfold mbind, M_bind. change (observe s) with (@Ret nat (now s), s <| now := S (now s) |>). cbv iota beta.
  destruct (spawn name (now s)) as [pid|e]; [|done]. cbn. apply Forall_app. split; [done|].
  by constructor.
Qed.

(** A statement that does not start the bus process. *)
Abbreviation quiet := (keeps other_start).

Lemma quiet_follows {A} (m : M supervisor A) : Moves (follows other_start) m → quiet m.
Proof. by apply keeps_follows. Qed.

Lemma quiet_step g : (∀ s, trace (g s) = trace s) → quiet (modify g).
Proof. intros Hg s Hs. cbn. by rewrite Hg. Qed.

(** The start of the bus process lies behind the statements before it. *)
Lemma slave_bind {A B} (m : M supervisor A) (k : A → M supervisor B) s :
  quiet m → before_slave s → ¬ before_slave ((m ≫= k) s).2 →
  ∃ a s1, m s = (Ret a, s1) ∧ before_slave s1 ∧ (m ≫= k) s = k a s1 ∧ ¬ before_slave (k a s1).2.
Proof.
  intros Hm Hs Hk. specialize (Hm s Hs). unfold mbind, M_bind in *.
  destruct (m s) as [[a|e] s1]; [by exists a, s1|done].
Qed.

Lemma start_model_trace command s u s' :
  start_process "model" command s = (Ret u, s') → Start "model" command ∈ trace s'.
Proof.
  unfold Supervisor.start_process. unfold mbind, M_bind.
  change (observe s) with (@Ret nat (now s), s <| now := S (now s) |>). cbv iota beta.
  destruct (spawn "model" (now s)) as [pid|e]; [|done]. intros [= _ <-]. cbn. apply elem_of_app. right. by constructor.
Qed.

(** [await_model] answers [Up] only when it has seen the socket. *)
Lemma await_model_up fuel validate_only deadline s s' :
  await_model fuel validate_only deadline s = (Ret (Some Up), s') →
  validate_only = false ∧ ∃ n, exists_at n "/run/simulator/model.sock" = true.
Proof.
  revert s. induction fuel as [|fuel IH]; intros s E; cbn [Supervisor.await_model] in E; [done|].
  unfold mbind at 1, M_bind at 1 in E. rewrite stopping_run in E. cbv iota in E.
  destruct (match stop_at with Some k => _ | None => _ end); [done|].
  revert E. generalize (s <| now := S (now s) |>). intros s1 E.
  apply bind_Ret_inv in E as (code & s2 & _ & E). destruct code as [c|].
  - destruct (validate_only && (c =? 0)); [|done]. apply bind_Ret_inv in E as (? & ? & _ & E). done.
  - apply bind_Ret_inv in E as (ready & s3 & Hr & E). destruct ready.
    + destruct validate_only; [done|]. split; [done|]. exists (now s2). by injection Hr.
    + apply bind_Ret_inv in E as (late & s4 & _ & E). destruct late; [done|]. by eapply IH.
Qed.

Definition slave_only (command : list string) (e : event) : Prop :=
  other_start e ∨ e = Start "slave" command.

Lemma run_slave_keeps fuel nic timing timeout :
  keeps (slave_only (slave_command nic timing)) (run_slave fuel nic timing timeout).
Proof.
  assert (∀ {A} (m : M supervisor A), Moves (follows other_start) m →
    keeps (slave_only (slave_command nic timing)) m) as Hf.
  { intros A m. apply keeps_follows. by left. }
  unfold Supervisor.run_slave, monotonic_time.
  apply keeps_bind; [apply keeps_start; by right|]. intros _.
  apply keeps_bind; [apply Hf; walk|]. intros t.
  apply keeps_bind; [apply Hf, follows_await_slave|]. intros [u|]; [|apply Hf, _].
  apply keeps_bind; [apply Hf; walk|]. intros started.
  apply keeps_bind; [apply Hf, follows_say; by intros command|]. intros _.
  apply Hf, follows_watch. by intros v _ command.
Qed.

(** No statement takes an event back. *)
Definition extends {A} (m : M supervisor A) : Prop :=
  ∀ s e, e ∈ trace s → e ∈ trace (m s).2.

Lemma extends_follows ok {A} (m : M supervisor A) : Moves (follows ok) m → extends m.
Proof.
  intros Hm s e He. destruct (fo_trace _ _ _ (Hm s)) as (l & -> & _). apply elem_of_app. by left.
Qed.

Lemma extends_bind {A B} (m : M supervisor A) (k : A → M supervisor B) :
  extends m → (∀ a, extends (k a)) → extends (m ≫= k).
Proof.
  intros Hm Hk s e He. specialize (Hm s e He). unfold mbind, M_bind.
  destruct (m s) as [[a|x] s1]; [by apply Hk|exact Hm].
Qed.

Lemma extends_start name command : extends (start_process name command).
Proof.
  intros s e He. unfold Supervisor.start_process.
  unfold mbind, M_bind. change (observe s) with (@Ret nat (now s), s <| now := S (now s) |>). cbv iota beta.
  destruct (spawn name (now s)) as [pid|x]; [|done]. cbn. apply elem_of_app. by left.
Qed.

Lemma run_slave_extends fuel nic timing timeout : extends (run_slave fuel nic timing timeout).
Proof.
  assert (∀ {A} (m : M supervisor A), Moves (follows (λ _, True)) m → extends m) as Hf
    by (intros A m; apply extends_follows).
  unfold Supervisor.run_slave, monotonic_time.
  apply extends_bind; [apply extends_start|]. intros _. apply extends_bind; [apply Hf; walk|]. intros t.
  apply extends_bind; [apply Hf, follows_await_slave|]. intros [u|]; [|apply Hf, _].
  apply extends_bind; [apply Hf; walk|]. intros started.
  apply extends_bind; [by apply Hf, follows_say|]. intros _. by apply Hf, follows_watch.
Qed.

Lemma clean_up_follows ok validate_only result :
  (∀ v, ok (WriteStatus v)) → (∀ name, ok (Terminate name) ∧ ok (Kill name)) →
  Moves (follows ok) (clean_up validate_only result).
Proof.
  intros Hv Hn. unfold Supervisor.clean_up.
  assert (∀ event error, Moves (follows ok) (write_status event error)) as Hw.
  { intros event error. apply follows_write_status. auto. }
  assert (∀ name, Moves (follows ok) (stop_process name)) as Hs.
  { intros name. by apply follows_stop; apply Hn. }
  walk. constructor; cbn; [exists []; by rewrite app_nil_r|done|done|eauto|by left].
Qed.

(** The end of [main] adds no start. *)
Lemma main_run fuel validate_only stamp env base s :
  is_ret ((call ;; call) s).1 = false
    ∧ (main fuel validate_only stamp env base s).2 = ((call ;; call) s).2
  ∨ ∃ s1, (call ;; call) s = (Ret tt, s1)
    ∧ follows other_start (run fuel validate_only stamp env base s1).2
        (main fuel validate_only stamp env base s).2.
Proof.
  unfold Supervisor.main. destruct ((call ;; call) s) as [[[]|e] s1]; [right|by left].
  exists s1. split; [done|].
  assert (∀ result, Moves (follows other_start) (clean_up validate_only result)) as Hc.
  { intros result. apply clean_up_follows; [|intros name; split]; by intros ? ?. }
  destruct (run fuel validate_only stamp env base s1) as [[[a|]|e] s2]; cbn [snd]; [|reflexivity|].
  - unfold try_finally. cbn -[Supervisor.clean_up]. pose proof (Hc 0 s2) as H.
    by destruct (clean_up validate_only 0 s2) as [[]].
  - unfold try_finally.
    assert (Moves (follows other_start) (write_status "failed" (Some e) ;; mret (Some 1))) as Hw.
    { pose proof (follows_write_status other_start "failed" (Some e)) as H.
      specialize (H ltac:(by intros ? ? ?)). walk. }
    specialize (Hw s2). destruct ((write_status "failed" (Some e) ;; mret (Some 1)) s2) as [r s3].
    pose proof (Hc 1 s3) as H. cbn [snd] in *. etrans; [exact Hw|].
    by destruct (clean_up validate_only 1 s3) as [[]].
Qed.

(** What [run] has done when it has started the bus process. *)
Record checked (validate_only : bool) (stamp : string) (env : environment) (base : string)
    (command : list string) (s : supervisor) : Prop := {
  ck_serves : validate_only = false;
  ck_settings : ∃ nic timing timeout run_id,
    docker_settings stamp env = Ret (nic, timing, timeout, run_id)
    ∧ command = slave_command nic timing
    ∧ (∃ n, check_nic (exists_at n) (files n) nic = Ret tt)
    ∧ Start "model" (model_command timing false) ∈ trace s;
  ck_config : ∃ c, load_environment resolve env base = Ret c ∧ cf_directory c = "/state";
  ck_socket : ∃ n, exists_at n "/run/simulator/model.sock" = true;
  ck_trace : Forall (slave_only command) (trace s);
}.

Ltac behind H a s Hrun Hb :=
  let Heq := fresh in
  apply slave_bind in H as (a & s & Hrun & Hb & Heq & H);
  [rewrite Heq; clear Heq| |assumption].

Lemma run_checked fuel validate_only stamp env base s :
  before_slave s → ¬ before_slave (run fuel validate_only stamp env base s).2 →
  ∃ command, checked validate_only stamp env base command (run fuel validate_only stamp env base s).2.
Proof.
  intros Hs Hnot. unfold Supervisor.run in *.
  behind Hnot set0 s1 Eset H1; [|by intros ?]. injection Eset as Eset <-.
  destruct set0 as [[[nic timing] timeout] run_id].
  behind Hnot u2 s2 E2 H2; [|apply quiet_follows, _].
  behind Hnot u3 s3 E3 H3; [|apply quiet_follows, _].
  behind Hnot u4 s4 E4 H4; [|by apply quiet_step].
  behind Hnot u5 s5 E5 H5; [|apply quiet_follows, _].
  behind Hnot c s6 Ec H6; [|by intros ?]. injection Ec as Ec <-.
  behind Hnot u7 s7 Edir H7; [|by intros ?]. injection Edir as Edir <-.
  behind Hnot u8 s8 Enic H8; [|apply quiet_follows; walk].
  behind Hnot u9 s9 E9 H9; [|apply quiet_follows, follows_say; by intros ?].
  behind Hnot u10 s10 Estart H10; [|apply keeps_start; by intros ?].
  apply start_model_trace in Estart.
  behind Hnot t s11 Et H11; [|apply quiet_follows; unfold monotonic_time; walk].
  assert (Start "model" (model_command timing validate_only) ∈ trace s11) as Hm11.
  { pose proof (extends_follows (λ _, True) (monotonic_time mono)) as He. unfold monotonic_time in He.
    specialize (He ltac:(walk) s10 _ Estart). unfold monotonic_time in Et. by rewrite Et in He. }
  behind Hnot up s12 Eup H12; [|apply quiet_follows, follows_await_model; by intros v _ ?].
  assert (Start "model" (model_command timing validate_only) ∈ trace s12) as Hm12.
  { pose proof (extends_follows (λ _, True) _ (follows_await_model _ fuel validate_only
      (f_add t (f_dec 20 0)) (λ _ _, I)) s11 _ Hm11) as He. by rewrite Eup in He. }
  destruct up as [[]|]; [|by exfalso; apply Hnot|by exfalso; apply Hnot|by exfalso; apply Hnot].
  apply await_model_up in Eup as [-> Hsock].
  behind Hnot stop s13 Est H13; [|apply quiet_follows, _].
  assert (Start "model" (model_command timing false) ∈ trace s13) as Hm13.
  { pose proof (extends_follows (λ _, True) _ (follows_stopping _) s12 _ Hm12) as He. by rewrite Est in He. }
  destruct stop; [by exfalso; apply Hnot|]. exists (slave_command nic timing). constructor.
  - done.
  - exists nic, timing, timeout, run_id. split_and!; [done|done| |by apply run_slave_extends].
    cbn [when negb] in Enic. apply bind_Ret_inv in Enic as (n & s' & _ & Enic). exists n.
    injection Enic as Hc _. by destruct u8.
  - exists c. split; [done|]. unfold require, reject in Edir. by destruct (String.eqb_spec (cf_directory c) "/state").
  - done.
  - apply run_slave_keeps. eapply Forall_impl; [exact H13|]. by left.
Qed.

(** C13. The bus process is started only behind the checks.  When the supervisor has
    started it, the service was not asked to validate only, the settings and
    the configuration were accepted, the parameters are in /state, the
    interface passed [check_nic], the model process was started and its
    socket was there; and the command is the one of the settings. *)
Theorem bus_started_behind_checks fuel validate_only stamp env base command :
  Start "slave" command ∈ trace (main fuel validate_only stamp env base idle_supervisor).2 →
  validate_only = false
  ∧ ∃ nic timing timeout run_id c,
      docker_settings stamp env = Ret (nic, timing, timeout, run_id)
      ∧ command = slave_command nic timing
      ∧ load_environment resolve env base = Ret c ∧ cf_directory c = "/state"
      ∧ (∃ n, check_nic (exists_at n) (files n) nic = Ret tt)
      ∧ (∃ n, exists_at n "/run/simulator/model.sock" = true)
      ∧ Start "model" (model_command timing false)
        ∈ trace (main fuel validate_only stamp env base idle_supervisor).2.
Proof.
  intros Hin. pose proof (main_run fuel validate_only stamp env base idle_supervisor) as Hmain.
  revert Hin Hmain. generalize (main fuel validate_only stamp env base idle_supervisor).2. intros final Hin Hmain.
  assert (before_slave ((call ;; call) idle_supervisor).2) as H0.
  { assert (quiet (call ;; call)) as Hcalls by (apply quiet_follows; walk). by apply Hcalls. }
  destruct Hmain as [[_ ->]|(s1 & Es1 & Hend)].
  { unfold before_slave in H0. rewrite Forall_forall in H0. by destruct (H0 _ Hin command). }
  rewrite Es1 in H0. cbn [snd] in H0. destruct (fo_trace _ _ _ Hend) as (l & E & HF). rewrite E in Hin |- *.
  assert (¬ before_slave (run fuel validate_only stamp env base s1).2) as Hnot.
  { intros Hb. apply elem_of_app in Hin as [Hin|Hin]; [unfold before_slave in Hb; rewrite Forall_forall in Hb|
      rewrite Forall_forall in HF]; [by destruct (Hb _ Hin command)|by destruct (HF _ Hin command)]. }
  destruct (run_checked _ _ _ _ _ _ H0 Hnot) as (cmd & [Hserves (nic & timing & timeout & run_id & Hset & -> & Hnic & Hm)
    (c & Hc & Hdir) Hsock Htr]).
  split; [done|]. exists nic, timing, timeout, run_id, c. split_and!; [done| |done..|].
  - apply elem_of_app in Hin as [Hin|Hin].
    + rewrite Forall_forall in Htr. destruct (Htr _ Hin) as [H|H]; [by destruct (H command)|by injection H].
    + rewrite Forall_forall in HF. by destruct (HF _ Hin command).
  - apply elem_of_app. by left.
Qed.
(** ** The way out *)

Lemma wait_ends name s c s' : wait name s = (Ret c, s') → ended name s'.
Proof.
  intros E. unfold Supervisor.wait, mbind, M_bind in E. rewrite find_process_run in E.
  destruct (dict_get name (processes s)) as [p|] eqn:Hp; [|done]. cbn [of_option] in E.
  destruct (returncode p) as [c'|] eqn:Hc; [injection E as <- <-; by exists p, c'|].
  change (observe s) with (@Ret nat (now s), s <| now := S (now s) |>) in E. cbv iota beta in E.
  destruct (waits name (now s)) as [c'|]; [|done]. injection E as _ <-. eexists _, c'. cbn.
  rewrite dict_get_set. by case_decide.
Qed.

(** [stop_process] returns only when the process has ended. *)
Lemma stop_process_ends name s s' : stop_process name s = (Ret tt, s') → ended name s'.
Proof.
  intros E. unfold Supervisor.stop_process in E. apply bind_Ret_inv in E as ([c|] & s1 & H1 & E).
  { injection E as <-. by eapply poll_ends. }
  apply bind_Ret_inv in E as (? & s2 & _ & E). unfold try_except in E.
  destruct ((wait name ;; mret tt) s2) as [[[]|e] s3] eqn:Hw.
  - injection E as <-. apply bind_Ret_inv in Hw as (c & s4 & Hw & E). injection E as <-. by eapply wait_ends.
  - destruct e; try discriminate E. apply bind_Ret_inv in E as (? & s4 & _ & E).
    apply bind_Ret_inv in E as (c & s5 & Hw2 & E). injection E as <-. by eapply wait_ends.
Qed.

Definition signals (name : string) (e : event) : Prop := e = Terminate name ∨ e = Kill name.

Lemma stop_process_signals name : Moves (follows (signals name)) (stop_process name).
Proof. apply follows_stop; [by left|by right]. Qed.

Definition no_signal (e : event) : Prop := ∀ name, ¬ signals name e.

(** Every process that is listed ends, one after the other. *)
Lemma stop_all_ends names s s' :
  mapM_ stop_process names s = (Ret tt, s') → Forall (λ name, ended name s') names.
Proof.
  revert s. induction names as [|name names IH]; intros s E; [constructor|]. cbn [mapM_] in E.
  apply bind_Ret_inv in E as ([] & s1 & H1 & E). constructor; [|by eapply IH].
  apply stop_process_ends in H1. refine (ended_follows (λ _, True) _ _ _ _ H1).
  assert (Moves (follows (λ _, True)) (mapM_ stop_process names)) as Hm.
  { apply moves_mapM_; [apply _|]. intros n. by apply follows_stop. }
  specialize (Hm s1). by rewrite E in Hm.
Qed.

(** The bus process gets its signals first. *)
Lemma stop_order s s' :
  mapM_ stop_process ["slave"; "model"] s = (Ret tt, s') →
  ∃ l1 l2, trace s' = trace s ++ l1 ++ l2 ∧ Forall (signals "slave") l1 ∧ Forall (signals "model") l2.
Proof.
  cbn [mapM_]. intros E. apply bind_Ret_inv in E as ([] & s1 & H1 & E).
  apply bind_Ret_inv in E as ([] & s2 & H2 & E). injection E as <-.
  destruct (fo_trace _ _ _ (stop_process_signals "slave" s)) as (l1 & E1 & F1).
  destruct (fo_trace _ _ _ (stop_process_signals "model" s1)) as (l2 & E2 & F2).
  rewrite H1 in E1. rewrite H2 in E2. cbn [snd] in *. exists l1, l2.
  rewrite E2, E1, <-app_assoc. done.
Qed.

Lemma stop_model s s' :
  mapM_ stop_process ["model"] s = (Ret tt, s') →
  ∃ l1 l2, trace s' = trace s ++ l1 ++ l2 ∧ Forall (signals "slave") l1 ∧ Forall (signals "model") l2.
Proof.
  cbn [mapM_]. intros E. apply bind_Ret_inv in E as ([] & s1 & H1 & E). injection E as <-.
  destruct (fo_trace _ _ _ (stop_process_signals "model" s)) as (l2 & E2 & F2). rewrite H1 in E2.
  exists [], l2. by split_and!.
Qed.

(** The processes that [run] can leave. *)
Definition shape (names : list string) : Prop :=
  names = [] ∨ names = ["model"] ∨ names = ["model"; "slave"].

Lemma stop_shape s s' :
  shape (processes s).*1 → mapM_ stop_process (reverse (processes s).*1) s = (Ret tt, s') →
  ∃ l1 l2, trace s' = trace s ++ l1 ++ l2 ∧ Forall (signals "slave") l1 ∧ Forall (signals "model") l2.
Proof.
  intros [->|[->| ->]] E; [|by apply stop_model|by apply stop_order].
  injection E as <-. exists [], []. by rewrite app_nil_r.
Qed.

Lemma lock_follows ok b : Moves (follows ok) (service_lock <~ b).
Proof. intros s. constructor; cbn; [exists []; by rewrite app_nil_r|done|done|eauto|by left]. Qed.

Lemma shape_bind {A B} names (m : M supervisor A) (k : A → M supervisor B) s :
  shape names → (processes s).*1 = names → Moves (follows (λ _, True)) m →
  (∀ a s', (processes s').*1 = names → shape (processes (k a s').2).*1) →
  shape (processes ((m ≫= k) s).2).*1.
Proof.
  intros Hn Hs Hm Hk. pose proof (fo_names _ _ _ (Hm s)) as H. unfold mbind, M_bind.
  destruct (m s) as [[a|e] s1]; cbn [snd] in *; [apply Hk|]; congruence.
Qed.

Lemma shape_start {B} names name command (k : () → M supervisor B) s :
  shape names → (processes s).*1 = names → name ∉ names →
  (∀ a s', (processes s').*1 = names ++ [name] → shape (processes (k a s').2).*1) →
  shape (processes ((start_process name command ≫= k) s).2).*1.
Proof.
  intros Hn Hs Hnew Hk. unfold mbind at 1, M_bind at 1. unfold Supervisor.start_process.
  unfold mbind at 1, M_bind at 1. change (observe s) with (@Ret nat (now s), s <| now := S (now s) |>). cbv iota beta.
  unfold mbind at 1, M_bind at 1. unfold lift.
  destruct (spawn name (now s)) as [pid|e]; [|cbn; congruence]. cbv iota beta. apply Hk. cbn.
  rewrite dict_set_new by congruence. rewrite fmap_app. cbn. congruence.
Qed.

Lemma run_shape fuel validate_only stamp env base s :
  (processes s).*1 = [] → shape (processes (run fuel validate_only stamp env base s).2).*1.
Proof.
  intros Hs. unfold Supervisor.run. pose proof (lock_follows (λ _, True) true) as Hlock.
  pose proof (follows_say (λ _, True) "starting" I) as Hsay.
  assert (shape []) as S0 by by left. assert (shape ["model"]) as S1 by by right; left.
  apply (shape_bind []); [done|done|apply _|]. intros [[[nic timing] timeout] run_id] s1 H1.
  do 6 (eapply (shape_bind []); [done|eassumption|first [exact Hlock|walk]|intros ? ? ?]).
  do 2 (eapply (shape_bind []); [done|eassumption|walk|intros ? ? ?]).
  eapply (shape_start []); [done|eassumption|apply not_elem_of_nil|]. intros ? ? ?.
  eapply (shape_bind ["model"]); [done|eassumption|unfold monotonic_time; walk|]. intros t ? ?.
  eapply (shape_bind ["model"]); [done|eassumption|by apply follows_await_model|].
  intros [[]|] ? Hup; try (cbn; rewrite Hup; done).
  eapply (shape_bind ["model"]); [done|eassumption|walk|]. intros [] ? Hst; [cbn; by rewrite Hst|].
  unfold Supervisor.run_slave.
  eapply (shape_start ["model"]); [done|eassumption|by intros Hin%list_elem_of_singleton|]. intros ? s4 Hs4.
  match goal with |- shape (processes (?m s4).2).*1 => assert (Moves (follows (λ _, True)) m) as Hm end.
  { pose proof (follows_say (λ _, True) "ready" I). pose proof (follows_await_slave (λ _, True)).
    pose proof (λ f t s, follows_watch (λ _, True) f t s (λ _ _, I)). unfold monotonic_time. walk. }
  right. right. rewrite (fo_names _ _ _ (Hm s4)). exact Hs4.
Qed.

Lemma run_no_signal fuel validate_only stamp env base : keeps no_signal (run fuel validate_only stamp env base).
Proof.
  assert (∀ {A} (m : M supervisor A), Moves (follows no_signal) m → keeps no_signal m) as Hf.
  { intros A m. by apply keeps_follows. }
  assert (∀ v, no_signal (WriteStatus v)) as Hv by (by intros v name [?|?]).
  assert (∀ w, no_signal (Say w)) as Hw by (by intros v name [?|?]).
  assert (∀ n c, no_signal (Start n c)) as Hs by (by intros n c name [?|?]).
  pose proof (lock_follows no_signal true). pose proof (follows_say no_signal).
  pose proof (λ f v d, follows_await_model no_signal f v d (λ v _, Hv v)).
  pose proof (follows_await_slave no_signal).
  pose proof (λ f t s, follows_watch no_signal f t s (λ v _, Hv v)).
  unfold Supervisor.run, Supervisor.run_slave, monotonic_time.
  repeat lazymatch goal with
  | |- keeps _ (_ ≫= _) => apply keeps_bind; [|intros ?]
  | |- keeps _ (start_process _ _) => apply keeps_start, Hs
  | |- keeps _ (match ?b with _ => _ end) => destruct b
  | |- keeps _ (if ?b then _ else _) => destruct b
  | |- keeps _ _ => apply Hf; solve [assumption|walk]
  end.
Qed.

(** A status that is written when every process has ended. *)
Lemma poll_all_ended names s l s' :
  Forall (λ name, ended name s) names → poll_all names s = (Ret l, s') →
  ∀ name p c, (name, (p, c)) ∈ l → c ≠ None.
Proof.
  revert s l. induction names as [|n names IH]; intros s l Hn E; cbn [Supervisor.poll_all] in E.
  { injection E as <- _. intros ? ? ? H. by apply not_elem_of_nil in H. }
  apply Forall_cons in Hn as [He Hn]. apply bind_Ret_inv in E as (p & s1 & Hp & E).
  rewrite find_process_run in Hp. injection Hp as _ <-.
  destruct (poll_ended _ _ He) as [c Hc]. apply bind_Ret_inv in E as (code & s2 & Hcode & E).
  rewrite Hc in Hcode. injection Hcode as <- <-. apply bind_Ret_inv in E as (l' & s3 & Hl & E).
  injection E as <- <-. intros name p' c' [[= _ _ ->]|H]%elem_of_cons; [done|]. by eapply IH.
Qed.

Lemma write_status_ended event error s s' :
  Forall (λ name, ended name s) (processes s).*1 → write_status event error s = (Ret tt, s') →
  ∃ v, status s' = Some v ∧ st_event v = event ∧ st_error v = error
    ∧ ∀ name p c, (name, (p, c)) ∈ st_processes v → c ≠ None.
Proof.
  intros He E. unfold Supervisor.write_status in E. apply bind_Ret_inv in E as (n & s1 & H1 & E).
  injection H1 as _ <-. apply bind_Ret_inv in E as (ps & s2 & H2 & E). injection H2 as <- <-.
  apply bind_Ret_inv in E as (l & s3 & Hl & E). cbn [processes] in Hl.
  assert (∀ name p c, (name, (p, c)) ∈ l → c ≠ None) as Hcodes by (eapply poll_all_ended; [|exact Hl]; exact He).
  do 2 (apply bind_Ret_inv in E as (? & ? & _ & E)). apply bind_Ret_inv in E as (? & s4 & H4 & E).
  injection H4 as _ <-. apply bind_Ret_inv in E as (? & s5 & H5 & E). injection H5 as _ <-.
  exists (Status event (wall n) l error). split_and!; [|done|done|exact Hcodes].
  unfold when in E. destruct (negb (String.eqb event "ready")); [|by injection E as <-].
  unfold Supervisor.call in E. apply bind_Ret_inv in E as (k & s6 & H6 & E). injection H6 as _ <-.
  destruct (fails k); [done|]. by injection E as <-.
Qed.
#[local] Instance poll_lock name : Preserves service_lock (poll name).
Proof. unfold Supervisor.poll, find_process, observe, set_returncode. frame. Qed.

#[local] Instance poll_all_lock names : Preserves service_lock (poll_all names).
Proof.
  induction names as [|name names IH]; cbn [Supervisor.poll_all]; unfold find_process; frame.
Qed.

#[local] Instance write_status_lock event error : Preserves service_lock (write_status event error).
Proof. unfold Supervisor.write_status, Supervisor.call, observe, emit. frame. Qed.

(** The last statement of the clean-up. *)
Lemma finish_ended (b : bool) event s s' :
  Forall (λ name, ended name s) (processes s).*1 →
  when b (write_status event None) s = (Ret tt, s') →
  follows no_signal s s' ∧ service_lock s' = service_lock s
  ∧ (b = true → ∃ v, status s' = Some v ∧ st_event v = event
      ∧ ∀ name p c, (name, (p, c)) ∈ st_processes v → c ≠ None).
Proof.
  intros He E. destruct b; cbn [when] in E; [|by injection E as <-; split_and!].
  assert (Moves (follows no_signal) (write_status event None)) as Hm.
  { apply follows_write_status. by intros v _ name [?|?]. }
  specialize (Hm s). pose proof (preserves (f:=service_lock) (m:=write_status event None) s) as Hl.
  rewrite E in Hm, Hl. split_and!; [done|done|]. intros _.
  destruct (write_status_ended _ _ _ _ He E) as (v & Hv & Hev & _ & Hc). by exists v.
Qed.

(** A clean-up that returns, from a state that [run] left. *)
Lemma clean_up_ended validate_only result s s' :
  shape (processes s).*1 → clean_up validate_only result s = (Ret tt, s') →
  service_lock s' = false
  ∧ (∀ name p, dict_get name (processes s') = Some p → is_Some (returncode p))
  ∧ (∃ l1 l2 l3, trace s' = trace s ++ l1 ++ l2 ++ l3
      ∧ Forall (signals "slave") l1 ∧ Forall (signals "model") l2 ∧ Forall no_signal l3)
  ∧ (negb validate_only || negb (result =? 0) = true → ∃ v, status s' = Some v
      ∧ st_event v = (if result =? 0 then "stopped" else "failed")
      ∧ ∀ name p c, (name, (p, c)) ∈ st_processes v → c ≠ None).
Proof.
  intros Hshape E. unfold Supervisor.clean_up in E. apply bind_Ret_inv in E as (ps & s1 & H1 & E).
  injection H1 as <- <-. apply bind_Ret_inv in E as ([] & s2 & Hstop & E).
  destruct (stop_shape _ _ Hshape Hstop) as (l1 & l2 & Htr & F1 & F2).
  assert ((processes s2).*1 = (processes s).*1) as Hnames.
  { assert (Moves (follows (λ _, True)) (mapM_ stop_process (reverse (processes s).*1))) as Hm.
    { apply moves_mapM_; [apply _|]. intros n. by apply follows_stop. }
    pose proof (fo_names _ _ _ (Hm s)) as H. by rewrite Hstop in H. }
  apply bind_Ret_inv in E as (? & s3 & Hcall & E). pose proof (follows_call no_signal s2) as Hf.
  rewrite Hcall in Hf. cbn [snd] in Hf. apply bind_Ret_inv in E as (? & s4 & Hlock & E).
  pose proof (lock_follows no_signal false s3) as Hf3. rewrite Hlock in Hf3. cbn [snd] in Hf3.
  assert (follows no_signal s2 s4) as Hf4 by by etrans.
  assert (service_lock s4 = false) as Hl4 by by injection Hlock as _ <-.
  assert (Forall (λ name, ended name s4) (processes s4).*1) as He4.
  { rewrite (fo_names _ _ _ Hf4), Hnames. pose proof (stop_all_ends _ _ _ Hstop) as He.
    rewrite Forall_forall in He. apply Forall_forall. intros name Hin.
    apply (ended_follows _ _ _ _ Hf4), He. by rewrite elem_of_reverse. }
  destruct (finish_ended _ _ _ _ He4 E) as (Hf5 & Hl5 & Hst). split_and!; [congruence| | |exact Hst].
  - intros name p Hp. rewrite Forall_forall in He4.
    assert (name ∈ (processes s4).*1) as Hin.
    { rewrite <-(fo_names _ _ _ Hf5). apply dict_get_elem in Hp. by apply (list_elem_of_fmap_2 fst) in Hp. }
    destruct (ended_follows _ _ _ _ Hf5 (He4 _ Hin)) as (p' & c & Hp' & Hc). rewrite Hp in Hp'.
    injection Hp' as <-. by exists c.
  - assert (follows no_signal s2 s') as Hf6 by by etrans.
    destruct (fo_trace _ _ _ Hf6) as (l3 & E3 & F3). exists l1, l2, l3.
    rewrite E3, Htr, <-!app_assoc. by split_and!.
Qed.

(** C11. Behind [main] nothing is left.  Whenever the supervisor answers, with 0 after a
    stop signal or a validation and with 1 after any error, every process it
    started has ended and its lock is free; signals were sent on the way out
    only, to the bus process before the model process; and unless a
    validation succeeded, the status file tells [stopped] or [failed], with
    the exit code of every process. *)
Theorem supervisor_leaves_nothing fuel validate_only stamp env base code s' :
  main fuel validate_only stamp env base idle_supervisor = (Ret (Some code), s') →
  (code = 0 ∨ code = 1) ∧ service_lock s' = false
  ∧ (∀ name p, dict_get name (processes s') = Some p → is_Some (returncode p))
  ∧ (∃ l0 l1 l2 l3, trace s' = l0 ++ l1 ++ l2 ++ l3 ∧ Forall no_signal l0
      ∧ Forall (signals "slave") l1 ∧ Forall (signals "model") l2 ∧ Forall no_signal l3)
  ∧ (negb validate_only || negb (code =? 0) = true → ∃ v, status s' = Some v
      ∧ st_event v = (if code =? 0 then "stopped" else "failed")
      ∧ ∀ name p c, (name, (p, c)) ∈ st_processes v → c ≠ None).
Proof.
  intros E. unfold Supervisor.main in E.
  assert (Moves (follows no_signal) (call ;; call)) as Hcalls by walk. specialize (Hcalls idle_supervisor).
  destruct ((call ;; call) idle_supervisor) as [[[]|e] s1]; [|done]. cbn [snd] in Hcalls.
  pose proof (run_shape fuel validate_only stamp env base s1 (fo_names _ _ _ Hcalls)) as Hshape.
  assert (Forall no_signal (trace s1)) as Hq1 by (destruct (fo_trace _ _ _ Hcalls) as (l & -> & HF); exact HF).
  pose proof (run_no_signal fuel validate_only stamp env base s1 Hq1) as Hq.
  destruct (run fuel validate_only stamp env base s1) as [[[[]|]|e] s2]; cbn [snd] in *; [|done|].
  - unfold try_finally in E. cbn -[Supervisor.clean_up] in E.
    destruct (clean_up validate_only 0 s2) as [[[]|e] s3] eqn:Hc; [|done]. injection E as <- <-.
    destruct (clean_up_ended _ _ _ _ Hshape Hc) as (A1 & A2 & (l1 & l2 & l3 & A3) & A4).
    split_and!; [by left|done|done| |done]. exists (trace s2), l1, l2, l3. tauto.
  - assert (Moves (follows no_signal) (write_status "failed" (Some e) ;; mret (Some 1))) as Hm.
    { pose proof (follows_write_status no_signal "failed" (Some e) ltac:(by intros v _ name [?|?])). walk. }
    specialize (Hm s2). unfold try_finally in E.
    destruct ((write_status "failed" (Some e) ;; mret (Some 1)) s2) as [r s3] eqn:Hw. cbn [snd] in Hm.
    destruct (clean_up validate_only 1 s3) as [[[]|e'] s4] eqn:Hc; [|done]. injection E as -> <-.
    assert (code = 1) as ->.
    { unfold mbind, M_bind in Hw. destruct (write_status _ _ s2) as [[]]; [|done]. by injection Hw. }
    rewrite <-(fo_names _ _ _ Hm) in Hshape.
    destruct (clean_up_ended _ _ _ _ Hshape Hc) as (A1 & A2 & (l1 & l2 & l3 & A3) & A4).
    assert (Forall no_signal (trace s3)) as Hq3.
    { destruct (fo_trace _ _ _ Hm) as (l & -> & HF). by apply Forall_app. }
    split_and!; [by right|done|done| |done]. exists (trace s3), l1, l2, l3. tauto.
Qed.
End props.

(** ** A host *)

(** The environment of four axes, with the parameters in /state. *)
Definition demo_env : environment := dict_set "DEVICE_SIMULATOR_STATE_DIR" "/state" four_axes_env.

Definition packet_table (rows : string) : string :=
"sk       RefCnt Type Proto  Iface R Rmem   User   Inode
" ++ rows.

(** An interface that gets its owner at observation 20. *)
Definition demo_files (n : nat) : file_system := λ path,
  if String.eqb path "/proc/net/route" then Some
"Iface	Destination	Gateway	Flags
eth0	00000000	0100A8C0	0003
"
  else if String.eqb path "/sys/class/net/enp1s0/ifindex" then Some "3
"
  else if String.eqb path "/sys/class/net/enp1s0/carrier" then Some "1
"
  else if String.eqb path "/proc/net/packet" then
    Some (packet_table (if Nat.ltb n 20 then "" else "0000 3      3    88a4   3     1 0      0      4711
"))
  else None.

(** The model process gets pid 7, the bus process pid 8; both end with code 0
    when they are waited for. *)
Definition demo_exits (name : string) (n : nat) : option Z := None.
Definition demo_waits (name : string) (n : nat) : option Z := Some 0.
Definition demo_spawn (name : string) (n : nat) : outcome Z :=
  Ret (if String.eqb name "model" then 7 else 8).

(** The supervisor on this host, with a stop signal at observation 30. *)
Definition demo_main : M supervisor (option Z) :=
  main (Some 30%nat) (λ _, false) (λ _, f_zero) (λ _, f_zero) demo_exits demo_waits demo_spawn demo_files
    (λ _ _, true) (λ p, p) 31 false "20260101T000000" demo_env "/".

Lemma demo_main_unfold : demo_main = main (Some 30%nat) (λ _, false) (λ _, f_zero) (λ _, f_zero)
  demo_exits demo_waits demo_spawn demo_files (λ _ _, true) (λ p, p) 31 false "20260101T000000" demo_env "/".
Proof. reflexivity. Qed.

Definition demo_end : supervisor := (demo_main idle_supervisor).2.

Lemma demo_main_eq : demo_main idle_supervisor = (Ret (Some 0), demo_end).
Proof. vm_compute. reflexivity. Qed.

Lemma stop_signal_ends_supervisor_witness : (demo_main idle_supervisor).1 ≠ Ret None.
Proof. unfold demo_main. apply stop_signal_ends_supervisor with (k := 30%nat); [reflexivity|lia]. Defined.

Lemma bus_started_behind_checks_witness :
  ∃ n, check_nic (λ _, true) (demo_files n) "enp1s0" = Ret tt.
Proof.
  destruct (bus_started_behind_checks (Some 30%nat) (λ _, false) (λ _, f_zero) (λ _, f_zero) demo_exits demo_waits
    demo_spawn demo_files (λ _ _, true) (λ p, p) 31 false "20260101T000000" demo_env "/"
    (slave_command "enp1s0" false)) as (_ & nic & timing & timeout & run_id & c & H1 & _ & _ & _ & H2 & _).
  - apply (list_elem_of_lookup_2 _ 2). vm_compute. reflexivity.
  - assert (docker_settings "20260101T000000" demo_env = Ret ("enp1s0", false, 0, "20260101T000000")) as H0
      by (vm_compute; reflexivity).
    rewrite H0 in H1. injection H1 as <- _ _ _. exact H2.
Defined.

Lemma supervisor_leaves_nothing_witness :
  service_lock demo_end = false
  ∧ ∀ name p, dict_get name (processes demo_end) = Some p → is_Some (returncode p).
Proof.
  pose proof demo_main_eq as E. rewrite demo_main_unfold in E.
  apply supervisor_leaves_nothing in E as (_ & H1 & H2 & _). split; [exact H1|exact H2].
Defined.
